(* ===== verification/_CoqProject ===== *)
-Q . S2P
prelude.v
printing.v
buffer.v
wrapping_integers.v
byte_stream.v
stream_reassembler.v
parser.v
wire_format.v
checksum.v
tcp_segment.v
tcp_stream.v
tcp_receiver.v
tcp_sender.v
tcp_stream_transfer.v
tcp_progress.v
tcp_state.v
tcp_connection.v
tcp_duplex.v
tcp_benchmark.v
ethernet.v
arp_message.v
ipv4.v
icmp_message.v
address.v
header_text.v
network_interface.v
router.v
file_descriptor.v
descriptor_lifetime.v
tun.v
fd_adapter.v
ethernet_adapter.v
eventloop.v
bidirectional_stream_copy.v
bouncer.v
tcp_sponge_socket.v
lua_config.v
network_simulator.v
lua_network.v
router_safety.v
lab7.v
lab7_delivery.v
udp_tcpdump.v
command_line.v
programs.v
program_safety.v
