(* ===== verification/prelude.v ===== *)
(** * Sponge: a verification of the user-space TCP/IP stack

    The program (directory src) is a TCP/IP stack in user space: a TCP implementation
    over byte streams (libsponge/*.cc), the wire formats, adapters and sockets around it
    (libsponge/tcp_helpers), an operating-system layer (libsponge/util), a network
    interface with ARP, a router with ICMP, and programs that use them (apps).

    ** How the parts interact

    An application writes to and reads from a [TCPConnection].  The connection owns a
    [TCPSender], which cuts the outbound [ByteStream] into segments, retransmits them and
    obeys the peer's and the congestion window, and a [TCPReceiver], whose
    [StreamReassembler] puts arriving bytes in order into the inbound [ByteStream].
    A [TCPSpongeSocket] runs one connection in a thread: its [EventLoop] reads segments
    from an adapter, writes segments to it, and copies bytes between the connection
    and a local socket.  The adapter puts segments into UDP datagrams, into IPv4 datagrams
    on a TUN device, or through a [NetworkInterface] into Ethernet frames on a TAP
    device.  The [Router] connects interfaces.

    ** The model

    A C++ object is a record with the class's members; a member function is a
    computation [M S A] on the object's state [S] (this file): it returns a value or
    throws one of the exceptions of [exn], and the state it leaves is kept in both cases.
    [zoom field m] runs a member's function, [field ::= v] and [field %= f] assign.
    Integers are [Z] with the wrap-around of their type written out ([u8], [u16], [u32],
    [u64], [i32]); bytes are [Byte.byte]; queues and vectors are lists; the maps of the
    network interface are [gmap].  Undefined behaviour (an index out of range, an
    empty optional, division by zero) is the exception [UndefinedBehavior], so a theorem that
    a call returns also says that it stays within defined behaviour.  A loop that is not
    structural takes fuel and throws [OutOfFuel] without it.  [wpe m Q E s] is the weakest
    precondition: run from [s], [m] ends with [Q] if it returns, with [E] if it throws.

    The operating system is a class [Kernel] (file_descriptor.v) with the system calls the
    sources make, and each theorem about input and output holds for every instance;
    [LinuxIO] adds the one documented limit they use (a [writev] transfers at most
    2^31 - 4096 bytes).  The resolver (getaddrinfo and its relatives) and the random numbers
    are parameters too, and so is the Lua interpreter.  [Script] is a concrete kernel for the witnesses.

    ** Files

    - prelude.v: integers, lists with [Z] indices, the monad, [wpe], [keeps] (frames), the
      hint database [sponge] and the tactics [wp_step], [keeps_tac], [zarith].
    - printing.v: numbers and columns in text, what a program prints, and [Hexdump]
      (util/util); header_text.v: [to_string] and [summary] of the headers and of frames.
    - buffer.v: [Buffer], [BufferList], [BufferViewList] (util/buffer).
    - wrapping_integers.v: [WrappingInt32], [wrap], [unwrap].
    - byte_stream.v: [ByteStream], a queue of buffers, and its contract [Spec], a log.
    - stream_reassembler.v: [StreamReassembler]; [ReassemblerTrace], its histories.
    - parser.v, wire_format.v, checksum.v: [NetParser], [NetUnparser] (util/parser), the
      images of headers, and [InternetChecksum] (util/util).
    - tcp_segment.v: [TCPHeader], [TCPSegment] (tcp_helpers).
    - tcp_stream.v: which segments belong to a stream of bytes ([segment_of]).
    - tcp_receiver.v, tcp_sender.v: [TCPReceiver]; [TCPConfig], [Timer], [TCPSender] with Reno.
    - tcp_stream_transfer.v: a sender, a receiver and a network that loses, duplicates and
      reorders; tcp_progress.v: the same with a network that delivers.
    - tcp_state.v, tcp_connection.v: [TCPState], [TCPConnection]; [ConnectionTrace], the
      histories of a connection under its owner's calls and any segments.
    - tcp_duplex.v: two connections and the network between them.
    - tcp_benchmark.v: [Benchmark], [BenchmarkMain] (apps/tcp_benchmark.cc).
    - ethernet.v, arp_message.v, ipv4.v, icmp_message.v: the other wire formats.
    - address.v: [Address] (util/address).
    - network_interface.v: [NetworkInterface]; router.v: [AsyncNetworkInterface],
      [RoutingTrie], [Router] with its ICMP answers.
    - file_descriptor.v: [Kernel], [FDWrapper], [FileDescriptor], the sockets
      (util/file_descriptor, util/socket) and the trace of all bytes that cross the kernel.
    - descriptor_lifetime.v: [Objects], which objects share a descriptor and who closes it.
    - tun.v: [TunTapFD], [TunFD], [TapFD] (util/tun).
    - eventloop.v: [EventLoop] (util/eventloop) with a proof rule for its users.
    - fd_adapter.v: the adapters (tcp_helpers/fd_adapter, tcp_over_ip, tuntap_adapter,
      lossy_fd_adapter), the interface [FdAdapter] with its laws [FdAdapterLaws], and the
      instances; ethernet_adapter.v: the laws and theorems of the adapter over Ethernet.
    - bidirectional_stream_copy.v: [StreamCopy] (apps/bidirectional_stream_copy.cc);
      bouncer.v: [Bouncer], the UDP relay of apps/bouncer.cc.
    - tcp_sponge_socket.v: [TCPSpongeSocket], [CS144TCPSocket], [FullStackSocket].
    - lua_config.v: [LuaConfig] (util/lua_config) over the functions of the Lua C API, a
      class [Lua], with their laws [LuaLaws] and an interpreter for plain data that has them.
    - network_simulator.v: hosts, links and tests of apps/network_simulator.cc; lua_network.v:
      [LuaNetwork], the constructor and the tests that read a Lua table, and [main].
    - router_safety.v: routers and interfaces under arbitrary frames; lab7.v: the adapter, the
      socket, the network thread and the main thread of apps/lab7.cc; lab7_delivery.v: the
      path of a segment through two of its routers.
    - udp_tcpdump.v: [UdpTcpdump] (apps/udp_tcpdump.cc), with libpcap as a parameter.
    - command_line.v: the option parsers of apps/tcp_ipv4, tcp_udp and tcp_ip_ethernet, with
      [strtol] and [strtof]; programs.v: their mains, and those of apps/webget, cs144-echo,
      tcp_native and tun; program_safety.v: what the programs do as a whole.

    ** What the theorems show

    - The byte stream refines its contract, for a writer that stops when it has ended the
      input (C8); the reassembler keeps exactly the bytes of
      its window, delivers only prefixes of the stream, and all of it (C5-C7).
    - The receiver accepts and acknowledges the right bytes (C9, C10); the sender keeps its
      books, sends only its stream, fills the window, and reacts to acknowledgments and
      time as it should (C11-C15).
    - A connection survives every peer, answers what arrives once it has the peer's SYN, and
      resets when it should (C16, C37, C38); its output and its end are [connection_emits_stream] and [time_wait_expires].  Sequence numbers unwrap
      to the nearest candidate (C29).
    - Composition: what an application reads is a prefix of what its peer wrote, over any
      network and in both directions (C1, C4); over a network that delivers, the whole
      stream arrives and is acknowledged (C3); the benchmark's checks never fail (C17).
    - Formats: what is serialised parses back (C30, C31).
    - ARP: as long as the datagrams to be sent can be written, a datagram waits only while
      its hop is asked for, requests are rationed, each operation on each branch (C32-C35).
      Routing is a longest-prefix match (C25), each datagram that can be written is
      forwarded, answered or reported (C26), and [route] drains its queues or throws what
      [IPv4Header::serialize] throws (C27).
      The simulator does what its Lua file says (C28).
    - Input and output: writes end and lose nothing (C36), and a
      descriptor is closed when its last object goes ([descriptors_closed]); the event loop is sound for any
      set of well-behaved rules, when [poll] itself does not fail (C21); the stream copy and the UDP relay forward exactly what
      they receive (C19, C20); the socket refines its connection (C2).
    - Networks: a segment written by one adapter is read by its peer, directly (C22) and
      through the two routers of lab7 (C23), whose thread survives every frame it is sent,
      with no exception but the system's and those of writing a datagram, and sends to
      nobody but the host and the relay (C24).
    - Programs: the main threads of tcp_udp, tcp_ipv4 and tcp_ip_ethernet, from their arguments
      to their exit status, relay the standard streams and never leave defined behaviour (C18);
      the option loops read what was written (C39) and the parsers always end ([options_safe]); webget
      sends its request and prints the answer exactly ([webget_exact]); udp_tcpdump shows every
      segment in a UDP packet as it is (C40) and survives what libpcap gives it under the
      stated conditions ([tcpdump_survives]).

    ** Bounds and fuel

    - A stream between two connections is shorter than 2^31 bytes, for an old duplicate
      must not look like a new segment (the code has no other protection).
    - [budget]: with congestion control the window is a 64-bit counter that each of at most
      2^47 events increases by at most 2^16; without it there is no limit.
    - An arbitrary peer may make the receiver's indices grow by its capacity at each of
      [n] segments, so [(n + 2) * recv_capacity < 2^64] is asked for where the peer is
      arbitrary.  A turn of a socket's loop makes at most 18 events of its connection, so
      [18 * turns + 5 < 2^43] turns stay within these bounds.
    - Fuel: [fill_window] turns at most once per free sequence number of the window;
      [FileDescriptor::write] and the benchmark's writer once per byte; the loops over queues
      are structural.  The loops that run until something happens ([_tcp_loop], the stream
      copy, the benchmark's [while], the network thread of lab7, webget's reading) take the
      number of turns as an argument, and the theorems hold for every number.  The option
      loops take at most one turn per argument, the chain of IPv6 extension headers one per
      byte of the packet, and the bouncer one per pair of ports (31489).  The loop over the
      entries of a Lua table needs one turn more than the table has entries; a thread that is
      told to stop needs one.
    - A packet that libpcap delivers is at most 65535 bytes long, the snapshot length.

    ** Not modelled

    - The scheduling of threads: a thread is the sequence of its loop's turns, and two threads
      share only the kernel.  The thread of a [TCPSpongeSocket] is run in the statements about
      [_tcp_main], and to its end by the destructor that joins it; in the mains of the programs
      it is not run, and [wait_until_closed] only notes that there is none any more.  That an
      exception that leaves a thread ends the process ([std::terminate]) is not modelled.
    - The messages on the standard error of the library's debugging output, apart from the
      errors that printing an address may throw; the texts of exceptions of the standard
      library ([What] stands for [e.what()]); what network_simulator and tcp_benchmark print,
      and the timing of the latter.
    - The random device and the Mersenne twister: random numbers are arguments.
    - The Lua interpreter on values other than plain data (metatables, functions), and its
      errors of memory.

    ** What is left

    The whole path of webget from its arguments to its exit status; termination of the
    benchmark's loops; which thread of a socket holds which descriptor object. *)

From stdpp Require Export base tactics list gmap strings numbers option.
From Stdlib Require Export ZArith Lia.
From Stdlib Require Strings.Byte DecimalString DecimalN DecimalPos.
From Corelib Require Export Init.Byte.

#[global] Open Scope Z_scope.

(** ** Machine integers

    Every C++ integer is a [Z] together with the wrap-around of its type,
    written out where the source computes. *)

Definition u8 (x : Z) : Z := x mod 2 ^ 8.
Definition u16 (x : Z) : Z := x mod 2 ^ 16.
Definition u32 (x : Z) : Z := x mod 2 ^ 32.
Definition u64 (x : Z) : Z := x mod 2 ^ 64.

(** Conversion to [int32_t]: two's complement. *)
Definition i32 (x : Z) : Z := (x + 2 ^ 31) mod 2 ^ 32 - 2 ^ 31.

(** The largest value of [uint64_t] and of [size_t]. *)
Definition UINT64_MAX : Z := 2 ^ 64 - 1.
Definition UINT16_MAX : Z := 2 ^ 16 - 1.

Lemma u8_range x : 0 <= u8 x < 2 ^ 8.
Proof. by apply Z.mod_pos_bound. Qed.
Lemma u16_range x : 0 <= u16 x < 2 ^ 16.
Proof. by apply Z.mod_pos_bound. Qed.
Lemma u32_range x : 0 <= u32 x < 2 ^ 32.
Proof. by apply Z.mod_pos_bound. Qed.
Lemma u64_range x : 0 <= u64 x < 2 ^ 64.
Proof. by apply Z.mod_pos_bound. Qed.

Lemma u8_small x : 0 <= x < 2 ^ 8 -> u8 x = x.
Proof. apply Z.mod_small. Qed.
Lemma u16_small x : 0 <= x < 2 ^ 16 -> u16 x = x.
Proof. apply Z.mod_small. Qed.
Lemma u32_small x : 0 <= x < 2 ^ 32 -> u32 x = x.
Proof. apply Z.mod_small. Qed.
Lemma u64_small x : 0 <= x < 2 ^ 64 -> u64 x = x.
Proof. apply Z.mod_small. Qed.

(** Bits above and bits below a position do not meet. *)
Lemma land_shiftl_low a b n : 0 <= b < 2 ^ n -> Z.land (Z.shiftl a n) b = 0.
Proof.
  intros Hb. destruct (Z.le_gt_cases 0 n); [| rewrite Z.pow_neg_r in Hb by done; lia].
  apply Z.bits_inj'. intros i Hi. rewrite Z.land_spec, Z.bits_0.
  destruct (Z.lt_ge_cases i n).
  - by rewrite Z.shiftl_spec_low.
  - rewrite <- (Z.mod_small b (2 ^ n)) by done. rewrite Z.mod_pow2_bits_high by lia. apply andb_false_r.
Qed.

Lemma lor_shiftl_low a b n : 0 <= n -> 0 <= b < 2 ^ n -> Z.lor (Z.shiftl a n) b = a * 2 ^ n + b.
Proof.
  intros Hn Hb. rewrite <- Z.add_nocarry_lor by (by apply land_shiftl_low). by rewrite Z.shiftl_mul_pow2.
Qed.

Create HintDb sponge discriminated.
#[export] Hint Resolve u8_range u16_range u32_range u64_range : sponge.

(** [zarith] decides linear goals with [div] and [mod] by constants; [solve_wrap]
    unfolds the integer conversions first. *)
Ltac zarith := Z.div_mod_to_equations; lia.
Ltac solve_wrap := unfold u8, u16, u32, u64, i32, UINT64_MAX, UINT16_MAX in *; zarith.

Lemma u32_succ_ne x : u32 (x + 1) <> x.
Proof. solve_wrap. Qed.
Lemma u32_succ2_ne x : u32 (u32 (x + 1) + 1) <> x.
Proof. solve_wrap. Qed.

(** ** Bytes

    A [char] or [uint8_t] of the source is the inductive [byte]; a
    [std::string] is a list of bytes. *)

Definition Z_of_byte (b : byte) : Z := Z.of_N (Byte.to_N b).
Definition byte_of_Z (x : Z) : byte :=
  match Byte.of_N (Z.to_N (u8 x)) with Some b => b | None => x00 end.

#[export] Instance byte_eq_decision : EqDecision byte := Byte.byte_eq_dec.
#[export] Instance byte_inhabited : Inhabited byte := populate x00.

Lemma Z_of_byte_range b : 0 <= Z_of_byte b < 2 ^ 8.
Proof. unfold Z_of_byte. pose proof (Byte.to_N_bounded b). lia. Qed.
#[export] Hint Resolve Z_of_byte_range : sponge.

Lemma byte_of_Z_of_byte b : byte_of_Z (Z_of_byte b) = b.
Proof.
  unfold byte_of_Z. rewrite u8_small by apply Z_of_byte_range.
  unfold Z_of_byte. by rewrite N2Z.id, Byte.of_to_N.
Qed.

Lemma Z_of_byte_of_Z x : Z_of_byte (byte_of_Z x) = u8 x.
Proof.
  unfold byte_of_Z, Z_of_byte. pose proof (u8_range x) as Hx.
  destruct (Byte.of_N (Z.to_N (u8 x))) as [b|] eqn:E.
  - apply Byte.to_of_N in E. rewrite E. lia.
  - apply Byte.of_N_None_iff in E. lia.
Qed.

Lemma byte_of_Z_u8 x : byte_of_Z (u8 x) = byte_of_Z x.
Proof. unfold byte_of_Z. by rewrite (u8_small (u8 x)) by apply u8_range. Qed.

Lemma byte_of_Z_add x y : byte_of_Z (x + y * 2 ^ 8) = byte_of_Z x.
Proof.
  rewrite <- (byte_of_Z_u8 (x + _)), <- (byte_of_Z_u8 x). f_equal. unfold u8. apply Z.mod_add. lia.
Qed.

(** ** Strings and vectors indexed by [Z] *)

Definition len {A} (l : list A) : Z := Z.of_nat (length l).

(** [substr]: the first [n] elements, and what is left after them. *)
Definition ztake {A} (n : Z) (l : list A) : list A := take (Z.to_nat n) l.
Definition zdrop {A} (n : Z) (l : list A) : list A := drop (Z.to_nat n) l.

(** Elements [i], ..., [j - 1] of [l]. *)
Definition slice {A} (i j : Z) (l : list A) : list A := ztake (j - i) (zdrop i l).

(** [l[i]]: [None] when [i] is out of range. *)
Definition zlookup {A} (l : list A) (i : Z) : option A :=
  if decide (0 <= i) then l !! Z.to_nat i else None.

(** [l[i] = x]. *)
Definition zinsert {A} (i : Z) (x : A) (l : list A) : list A := <[Z.to_nat i := x]> l.

Section zlists.
Context {A : Type}.
Implicit Types (l k : list A) (x : A) (i j n : Z).

Lemma len_nonneg l : 0 <= len l.
Proof. unfold len. lia. Qed.

Lemma len_app l k : len (l ++ k) = len l + len k.
Proof. unfold len. rewrite length_app. lia. Qed.

Lemma len_cons x l : len (x :: l) = 1 + len l.
Proof. unfold len. simpl. lia. Qed.

Lemma len_nil : len (@nil A) = 0.
Proof. done. Qed.

Lemma len_singleton x : len [x] = 1.
Proof. done. Qed.

Lemma len_nil_inv l : len l = 0 -> l = [].
Proof. destruct l; unfold len; simpl; [done | lia]. Qed.

Lemma len_ztake n l : len (ztake n l) = Z.max 0 (Z.min n (len l)).
Proof. unfold len, ztake. rewrite length_take. lia. Qed.

Lemma len_zdrop n l : len (zdrop n l) = Z.max 0 (len l - Z.max 0 n).
Proof. unfold len, zdrop. rewrite length_drop. lia. Qed.

Lemma ztake_nonpos n l : n <= 0 -> ztake n l = [].
Proof. intros. unfold ztake. by rewrite (Z2Nat.nonpos n). Qed.

Lemma zdrop_nonpos n l : n <= 0 -> zdrop n l = l.
Proof. intros. unfold zdrop. by rewrite (Z2Nat.nonpos n). Qed.

Lemma ztake_ge n l : len l <= n -> ztake n l = l.
Proof. intros. unfold ztake, len in *. apply take_ge. lia. Qed.

Lemma zdrop_ge n l : len l <= n -> zdrop n l = [].
Proof. intros. unfold zdrop, len in *. apply drop_ge. lia. Qed.

Lemma ztake_zdrop n l : ztake n l ++ zdrop n l = l.
Proof. apply take_drop. Qed.

Lemma ztake_app_le n l k : n <= len l -> ztake n (l ++ k) = ztake n l.
Proof. intros. unfold ztake, len in *. apply take_app_le. lia. Qed.

Lemma ztake_app_ge n l k : len l <= n -> ztake n (l ++ k) = l ++ ztake (n - len l) k.
Proof.
  intros. unfold ztake, len in *. rewrite take_app_ge by lia. do 2 f_equal. lia.
Qed.

Lemma zdrop_app_le n l k : n <= len l -> zdrop n (l ++ k) = zdrop n l ++ k.
Proof. intros. unfold zdrop, len in *. apply drop_app_le. lia. Qed.

Lemma zdrop_app_ge n l k : len l <= n -> zdrop n (l ++ k) = zdrop (n - len l) k.
Proof.
  intros. unfold zdrop, len in *. rewrite drop_app_ge by lia. f_equal. lia.
Qed.

Lemma zdrop_zdrop n j l : 0 <= n -> 0 <= j -> zdrop n (zdrop j l) = zdrop (j + n) l.
Proof. intros. unfold zdrop. rewrite drop_drop. f_equal. lia. Qed.

Lemma ztake_ztake n j l : ztake n (ztake j l) = ztake (Z.min n j) l.
Proof. unfold ztake. rewrite take_take. f_equal. lia. Qed.

Lemma len_slice i j l : 0 <= i <= j -> j <= len l -> len (slice i j l) = j - i.
Proof. intros. unfold slice. rewrite len_ztake, len_zdrop. lia. Qed.

Lemma slice_nil i j l : j <= i -> slice i j l = [].
Proof. intros. apply ztake_nonpos. lia. Qed.

Lemma slice_0 j l : slice 0 j l = ztake j l.
Proof. unfold slice. rewrite zdrop_nonpos by lia. f_equal. lia. Qed.

Lemma slice_app i j n l :
  0 <= i <= j -> j <= n -> slice i j l ++ slice j n l = slice i n l.
Proof.
  intros. unfold slice.
  rewrite <- (ztake_zdrop (j - i) (ztake (n - i) (zdrop i l))).
  rewrite ztake_ztake. f_equal; [f_equal; lia |].
  unfold ztake, zdrop. rewrite skipn_firstn_comm, drop_drop.
  f_equal; [lia | f_equal; lia].
Qed.

Lemma slice_app_l i j l k :
  0 <= i <= j -> j <= len l -> slice i j (l ++ k) = slice i j l.
Proof.
  intros. unfold slice. rewrite zdrop_app_le by lia. rewrite ztake_app_le; [done |].
  rewrite len_zdrop. lia.
Qed.

Lemma ztake_slice n i j l :
  0 <= n <= j - i -> ztake n (slice i j l) = slice i (i + n) l.
Proof. intros. unfold slice. rewrite ztake_ztake. f_equal. lia. Qed.

Lemma zdrop_slice n i j l :
  0 <= i -> 0 <= n <= j - i -> zdrop n (slice i j l) = slice (i + n) j l.
Proof.
  intros. unfold slice, ztake, zdrop. rewrite skipn_firstn_comm, drop_drop.
  f_equal; [lia | f_equal; lia].
Qed.

Lemma zlookup_Some_range l i x : zlookup l i = Some x -> 0 <= i < len l.
Proof.
  unfold zlookup, len. case_decide; [| done]. intros Hl.
  apply lookup_lt_Some in Hl. lia.
Qed.

Lemma zlookup_lt_is_Some l i : 0 <= i < len l -> exists x, zlookup l i = Some x.
Proof.
  intros. unfold zlookup, len in *. rewrite decide_True by lia.
  apply lookup_lt_is_Some_2. lia.
Qed.

Lemma zlookup_ge_None l i : len l <= i -> zlookup l i = None.
Proof.
  intros. unfold zlookup, len in *. case_decide; [| done]. apply lookup_ge_None_2. lia.
Qed.

Lemma zlookup_ztake l n i : i < n -> zlookup (ztake n l) i = zlookup l i.
Proof.
  intros. unfold zlookup, ztake. case_decide; [| done]. apply lookup_take_lt. lia.
Qed.

Lemma zlookup_zdrop l n i : 0 <= n -> 0 <= i -> zlookup (zdrop n l) i = zlookup l (n + i).
Proof.
  intros. unfold zlookup, zdrop. rewrite !decide_True by lia.
  rewrite lookup_drop. f_equal. lia.
Qed.

Lemma zlookup_slice l i j n :
  0 <= i -> 0 <= n < j - i -> zlookup (slice i j l) n = zlookup l (i + n).
Proof. intros. unfold slice. rewrite zlookup_ztake by lia. by apply zlookup_zdrop; lia. Qed.

Lemma zlookup_app_l l k i : i < len l -> zlookup (l ++ k) i = zlookup l i.
Proof.
  intros. unfold zlookup, len in *. case_decide; [| done]. apply lookup_app_l. lia.
Qed.

Lemma zlookup_app_r l k i : len l <= i -> zlookup (l ++ k) i = zlookup k (i - len l).
Proof.
  intros. unfold zlookup, len in *. rewrite !decide_True by lia.
  rewrite lookup_app_r by lia. f_equal. lia.
Qed.

Lemma zlookup_cons_0 x l : zlookup (x :: l) 0 = Some x.
Proof. done. Qed.

Lemma zlookup_cons_pos x l i : 0 < i -> zlookup (x :: l) i = zlookup l (i - 1).
Proof.
  intros. unfold zlookup. rewrite !decide_True by lia.
  replace (Z.to_nat i) with (S (Z.to_nat (i - 1))) by lia. done.
Qed.

Lemma zlookup_ext l k :
  len l <= len k -> (forall i x, zlookup l i = Some x -> zlookup k i = Some x) ->
  l = ztake (len l) k.
Proof.
  intros Hlen Hl. unfold ztake, len. rewrite Nat2Z.id. apply list_eq. intros i.
  destruct (l !! i) as [x|] eqn:E.
  - rewrite lookup_take_lt by (by apply lookup_lt_Some in E). symmetry.
    specialize (Hl (Z.of_nat i) x). unfold zlookup in Hl.
    rewrite !decide_True, !Nat2Z.id in Hl by lia. auto.
  - symmetry. apply lookup_ge_None. apply lookup_ge_None in E. rewrite length_take. lia.
Qed.

Lemma slice_snoc l i j x :
  0 <= i <= j -> zlookup l j = Some x -> slice i j l ++ [x] = slice i (j + 1) l.
Proof.
  intros Hij Hx. rewrite <- (slice_app i j (j + 1)) by lia. f_equal.
  unfold slice, ztake, zdrop. apply zlookup_Some_range in Hx as Hr.
  unfold zlookup in Hx. rewrite decide_True in Hx by lia.
  replace (Z.to_nat (j + 1 - j)) with 1%nat by lia.
  by rewrite (drop_S _ _ _ Hx).
Qed.

Lemma len_zinsert i x l : len (zinsert i x l) = len l.
Proof. unfold len, zinsert. by rewrite length_insert. Qed.

Lemma zlookup_zinsert_eq l i x : 0 <= i < len l -> zlookup (zinsert i x l) i = Some x.
Proof.
  intros. unfold zlookup, zinsert, len in *. rewrite decide_True by lia.
  apply list_lookup_insert_eq. lia.
Qed.

Lemma zlookup_zinsert_ne l i j x :
  0 <= i -> i <> j -> zlookup (zinsert i x l) j = zlookup l j.
Proof.
  intros. unfold zlookup, zinsert. case_decide; [| done].
  apply list_lookup_insert_ne. lia.
Qed.
End zlists.

#[export] Hint Rewrite @len_app @len_cons @len_zinsert @len_ztake @len_zdrop : len.

(** [std::string::resize]: truncate, or pad with zero bytes. *)
Definition resize (n : Z) (s : list byte) : list byte :=
  ztake n s ++ replicate (Z.to_nat (n - len s)) x00.

(** [static_cast<bool>] of an integer. *)
Definition to_bool (x : Z) : bool := negb (x =? 0).

Lemma to_bool_true x : to_bool x = true <-> x <> 0.
Proof. unfold to_bool. by rewrite negb_true_iff, Z.eqb_neq. Qed.

(** ** Decimal numbers *)

(** [std::to_string] of an unsigned integer. *)
Definition std_to_string (n : Z) : string := DecimalString.NilZero.string_of_uint (N.to_uint (Z.to_N n)).

Definition is_digit (c : Ascii.ascii) : bool := (48 <=? Ascii.nat_of_ascii c)%nat && (Ascii.nat_of_ascii c <=? 57)%nat.
Definition is_space (c : Ascii.ascii) : bool :=
  let n := Ascii.nat_of_ascii c in (n =? 32)%nat || ((9 <=? n)%nat && (n <=? 13)%nat).

(** The longest prefix whose characters satisfy [f], and the rest. *)
Fixpoint span_string (f : Ascii.ascii -> bool) (s : string) : string * string :=
  match s with
  | String c s' => if f c then let '(a, b) := span_string f s' in (String c a, b) else (EmptyString, s)
  | EmptyString => (EmptyString, s)
  end.

(** The value of a string of digits. *)
Definition dec_value (s : string) : option Z :=
  Z.of_N ∘ N.of_uint <$> DecimalString.NilZero.uint_of_string s.

Lemma span_string_app f s k :
  (forall c, c ∈ String.list_ascii_of_string s -> f c = true) ->
  (match k with String c _ => f c = false | EmptyString => True end) ->
  span_string f (s +:+ k) = (s, k).
Proof.
  intros Hs Hk. induction s as [|c s IH]; simpl in *.
  - destruct k as [|c k]; simpl; [done |]. by rewrite Hk.
  - rewrite Hs by (by left). rewrite IH; [done |]. intros c' Hc. apply Hs. by right.
Qed.

Lemma string_app_nil_r s : s +:+ EmptyString = s.
Proof. induction s as [|c s IH]; [done |]. change (String c (s +:+ EmptyString) = String c s). by rewrite IH. Qed.

Lemma dec_value_to_string n : 0 <= n -> dec_value (std_to_string n) = Some n.
Proof.
  intros Hn. unfold dec_value, std_to_string.
  assert (Hnil : N.to_uint (Z.to_N n) <> Decimal.Nil).
  { destruct (Z.to_N n) as [|p]; [done | apply DecimalPos.Unsigned.to_uint_nonnil]. }
  rewrite DecimalString.NilZero.usu by done. simpl. by rewrite DecimalN.Unsigned.of_to, Z2N.id.
Qed.

Lemma to_string_digits n c : c ∈ String.list_ascii_of_string (std_to_string n) -> is_digit c = true.
Proof.
  unfold std_to_string, DecimalString.NilZero.string_of_uint.
  assert (Hd : forall d c, c ∈ String.list_ascii_of_string (DecimalString.NilEmpty.string_of_uint d) -> is_digit c = true).
  { induction d; simpl; intros c' Hc; try (by apply not_elem_of_nil in Hc);
      apply elem_of_cons in Hc as [-> |]; by auto. }
  destruct (N.to_uint (Z.to_N n)) eqn:E; [| by apply Hd ..].
  intros [-> | ?%not_elem_of_nil]%elem_of_cons; done.
Qed.

Lemma to_string_head n : exists c s, std_to_string n = String c s /\ is_digit c = true.
Proof.
  pose proof (to_string_digits n) as Hd. unfold std_to_string, DecimalString.NilZero.string_of_uint in *.
  destruct (N.to_uint (Z.to_N n)); simpl; eexists _, _; done.
Qed.

(** ** Exceptions and state

    A member function that can throw, index a container or loop is a value of
    [M S A]: it takes the object's state, returns a value or an exception, and
    the state it leaves behind, which a C++ exception keeps. *)

Inductive exn : Type :=
| Runtime_error (what : string)   (** [std::runtime_error] *)
| Out_of_range (what : string)    (** [std::out_of_range] *)
| Invalid_argument (what : string) (** [std::invalid_argument] *)
| Length_error                    (** [std::length_error] *)
| Bad_optional_access             (** [std::bad_optional_access] *)
| Tagged_error (attempt : string) (code : Z)   (** [tagged_error], and [unix_error] *)
| Program_exit (code : Z)         (** a call of [exit]; not an exception, and not caught *)
| UndefinedBehavior               (** the C++ standard gives the code no meaning *)
| OutOfFuel.                      (** a loop of the model ran out of its fuel *)

Inductive outcome (A : Type) : Type :=
| Ok (a : A)
| Throw (e : exn).
Arguments Ok {A} a.
Arguments Throw {A} e.

Definition M (S A : Type) : Type := S -> outcome A * S.

Definition pure {S A} (a : A) : M S A := fun s => (Ok a, s).
Definition bind {S A B} (m : M S A) (k : A -> M S B) : M S B := fun s =>
  match m s with
  | (Ok a, s') => k a s'
  | (Throw e, s') => (Throw e, s')
  end.

Definition get {S} : M S S := fun s => (Ok s, s).
Definition put {S} (s : S) : M S unit := fun _ => (Ok tt, s).
Definition throw {S A} (e : exn) : M S A := fun s => (Throw e, s).

(** Run a function that neither throws nor changes the state. *)
Definition asks {S A} (f : S -> A) : M S A := fun s => (Ok (f s), s).

(** Turn a pure result into a computation. *)
Definition of_outcome {S A} (o : outcome A) : M S A := fun s => (o, s).

(** [if (b) m;] *)
Definition when {S} (b : bool) (m : M S unit) : M S unit := if b then m else pure tt.

(** [try { m } catch (const exception &e) { handler }] *)
Definition is_exception (e : exn) : bool :=
  match e with Program_exit _ | UndefinedBehavior | OutOfFuel => false | _ => true end.
Definition try_catch {S A} (m : M S A) (handler : exn -> M S A) : M S A := fun s =>
  match m s with
  | (Throw e, s') => if is_exception e then handler e s' else (Throw e, s')
  | (Ok a, s') => (Ok a, s')
  end.

(** An access that is undefined behaviour out of range. *)
Definition or_ub {S A} (o : option A) : M S A :=
  match o with Some a => pure a | None => throw UndefinedBehavior end.

(** [std::stoi]: white space, a sign (characters 45 and 43), and as many digits as there are. *)
Definition std_stoi (s : string) : outcome Z :=
  let '(_, s) := span_string is_space s in
  let '(sign, s) :=
    match s with
    | String c s' => if (Ascii.nat_of_ascii c =? 45)%nat then (-1, s') else if (Ascii.nat_of_ascii c =? 43)%nat then (1, s') else (1, s)
    | EmptyString => (1, s)
    end in
  match dec_value (fst (span_string is_digit s)) with
  | None => Throw (Invalid_argument "stoi")
  | Some v =>
      if (sign * v <? - 2 ^ 31) || (2 ^ 31 - 1 <? sign * v) then Throw (Out_of_range "stoi") else Ok (sign * v)
  end.

Lemma std_stoi_to_string n : 0 <= n < 2 ^ 31 -> std_stoi (std_to_string n) = Ok n.
Proof.
  intros Hn. unfold std_stoi. destruct (to_string_head n) as (c & s & E & Hc). rewrite E.
  assert (Hsp : is_space c = false /\ (Ascii.nat_of_ascii c =? 45)%nat = false /\ (Ascii.nat_of_ascii c =? 43)%nat = false).
  { destruct c as [[] [] [] [] [] [] [] []]; by vm_compute in Hc |- *. }
  destruct Hsp as (Hs1 & Hs2 & Hs3). cbn [span_string]. rewrite Hs1, Hs2, Hs3. rewrite <- E.
  rewrite <- (string_app_nil_r (std_to_string n)), span_string_app by (try done; apply to_string_digits).
  cbn [fst]. rewrite dec_value_to_string by lia. rewrite !Z.mul_1_l.
  rewrite !(proj2 (Z.ltb_ge _ _)) by lia. done.
Qed.

#[export] Instance outcome_ret : MRet outcome := @Ok.
#[export] Instance outcome_bind : MBind outcome := fun A B k m =>
  match m with Ok a => k a | Throw e => Throw e end.

(** *** Field updates: [upd proj f] applies [f] to the field [proj] *)

Class Setter {R T : Type} (proj : R -> T) : Type := upd : (T -> T) -> R -> R.
Arguments upd {R T} proj {Setter} f r /.

(** [derive_setter eta proj] builds the instance from an eta-expansion of the record. *)
Ltac derive_setter eta proj :=
  let R := match type of proj with ?R -> _ => R end in
  let T := match type of proj with _ -> ?T => T end in
  exact (fun (f : T -> T) (r : R) =>
    ltac:(let e := eval cbv beta delta [eta] in (eta r) in
          let p := eval pattern (proj r) in e in
          match p with ?g _ => let b := eval cbv beta in (g (f (proj r))) in exact b end)).

Definition setf {R T} (proj : R -> T) `{Setter R T proj} (v : T) : R -> R :=
  upd proj (fun _ => v).
Arguments setf {R T} proj {_} v r /.

Definition modify {R T} (proj : R -> T) `{Setter R T proj} (f : T -> T) : M R unit :=
  fun r => (Ok tt, upd proj f r).
Definition assign {R T} (proj : R -> T) `{Setter R T proj} (v : T) : M R unit :=
  fun r => (Ok tt, setf proj v r).

(** Run a member's function on the field [proj]. *)
Definition zoom {R T A} (proj : R -> T) `{Setter R T proj} (m : M T A) : M R A :=
  fun r => let '(o, t) := m (proj r) in (o, setf proj t r).

Declare Scope sponge_scope.
Delimit Scope sponge_scope with sponge.
Notation "p ::= v" := (assign p v) (at level 60, v at level 59) : sponge_scope.
Notation "p %= f" := (modify p f) (at level 60, f at level 59) : sponge_scope.
Notation "m1 ;; m2" := (bind m1 (fun _ => m2))
  (at level 100, right associativity, format "m1  ;; '//' m2") : sponge_scope.
Notation "'let*' x := m 'in' k" := (bind m (fun x => k))
  (at level 200, x pattern, m at level 100, k at level 200,
   format "'let*'  x  :=  m  'in' '//' k") : sponge_scope.
#[global] Open Scope sponge_scope.

(** *** Weakest preconditions

    [wpe m Q E s]: run in [s], [m] returns with a result and a state that
    satisfy [Q], or throws and leaves a state that satisfies [E].  [wp m Q s] is
    total correctness: [m] returns; no exception, no undefined behaviour, no
    lack of fuel. *)

Definition wpe {S A} (m : M S A) (Q : A -> S -> Prop) (E : exn -> S -> Prop) (s : S) : Prop :=
  match m s with (Ok a, s') => Q a s' | (Throw e, s') => E e s' end.

Notation wp m Q := (wpe m Q (fun _ _ => False)).

Section wp.
Context {S : Type}.
Implicit Types (E : exn -> S -> Prop) (s : S).

Lemma wp_run {A} (m : M S A) Q s :
  wp m Q s <-> exists a s', m s = (Ok a, s') /\ Q a s'.
Proof.
  unfold wpe. destruct (m s) as [[a|e] s']; split.
  - eauto.
  - by intros (? & ? & [= -> ->] & ?).
  - done.
  - by intros (? & ? & ? & ?).
Qed.

Lemma wp_returns {A} (m : M S A) Q s : wp m Q s -> exists a s', m s = (Ok a, s').
Proof. intros (a & s' & E & _)%wp_run. eauto. Qed.

Lemma wp_pure {A} (a : A) Q E s : Q a s -> wpe (pure a) Q E s.
Proof. done. Qed.

Lemma wp_throw {A} e (Q : A -> S -> Prop) E s : E e s -> wpe (throw e) Q E s.
Proof. done. Qed.

Lemma wp_bind {A B} (m : M S A) (k : A -> M S B) Q E s :
  wpe m (fun a s' => wpe (k a) Q E s') E s -> wpe (bind m k) Q E s.
Proof. unfold wpe, bind. by destruct (m s) as [[a|e] s']. Qed.

Lemma wp_mono {A} (m : M S A) (P Q : A -> S -> Prop) E s :
  wpe m P E s -> (forall a s', P a s' -> Q a s') -> wpe m Q E s.
Proof. unfold wpe. destruct (m s) as [[a|e] s']; auto. Qed.

Lemma wp_mono_exn {A} (m : M S A) (P Q : A -> S -> Prop) E E' s :
  wpe m P E s -> (forall a s', P a s' -> Q a s') -> (forall e s', E e s' -> E' e s') ->
  wpe m Q E' s.
Proof. unfold wpe. destruct (m s) as [[a|e] s']; auto. Qed.

Lemma wp_and {A} (m : M S A) (P Q : A -> S -> Prop) E s :
  wpe m P E s -> wpe m Q E s -> wpe m (fun a s' => P a s' /\ Q a s') E s.
Proof. unfold wpe. destruct (m s) as [[a|e] s']; auto. Qed.

Lemma wp_both {A} (m : M S A) (P Q : A -> S -> Prop) (E F : exn -> S -> Prop) s :
  wpe m P E s -> wpe m Q F s -> wpe m (fun a s' => P a s' /\ Q a s') (fun e s' => E e s' /\ F e s') s.
Proof. unfold wpe. destruct (m s) as [[a|e] s']; auto. Qed.

Lemma wp_true {A} (m : M S A) s : wpe m (fun _ _ => True) (fun _ _ => True) s.
Proof. unfold wpe. by destruct (m s) as [[] ?]. Qed.

Lemma wp_get Q E s : Q s s -> wpe get Q E s.
Proof. done. Qed.

Lemma wp_asks {A} (f : S -> A) Q E s : Q (f s) s -> wpe (asks f) Q E s.
Proof. done. Qed.

Lemma wp_or_ub {A} (o : option A) a Q E s : o = Some a -> Q a s -> wpe (or_ub o) Q E s.
Proof. by intros ->. Qed.

Lemma wp_of_outcome {A} (o : outcome A) a Q E s : o = Ok a -> Q a s -> wpe (of_outcome o) Q E s.
Proof. by intros ->. Qed.

Lemma wp_eq {A} (m : M S A) a s s' (Q : A -> S -> Prop) E : m s = (Ok a, s') -> Q a s' -> wpe m Q E s.
Proof. unfold wpe. by intros ->. Qed.

(** [wp_eq] and back. *)
(** What holds when a computation has returned, or has thrown. *)
Lemma wp_returned {A} (m : M S A) Q E s a : wpe m Q E s -> fst (m s) = Ok a -> Q a (snd (m s)).
Proof. unfold wpe. destruct (m s) as [o s']. simpl. by intros Hm ->. Qed.

Lemma wp_thrown {A} (m : M S A) Q E s e : wpe m Q E s -> fst (m s) = Throw e -> E e (snd (m s)).
Proof. unfold wpe. destruct (m s) as [o s']. simpl. by intros Hm ->. Qed.

Lemma wp_result {A} (m : M S A) a s s' : wp m (fun a' s'' => a' = a /\ s'' = s') s -> m s = (Ok a, s').
Proof. unfold wpe. by destruct (m s) as [[a'|e] s'']; [intros [-> ->] |]. Qed.

Lemma wp_throws {A} (m : M S A) e s s' (Q : A -> S -> Prop) E : m s = (Throw e, s') -> wpe m Q E s -> E e s'.
Proof. unfold wpe. by intros ->. Qed.

Lemma wp_modify {T} (proj : S -> T) `{Setter S T proj} f Q E s :
  Q tt (upd proj f s) -> wpe (proj %= f) Q E s.
Proof. done. Qed.

Lemma wp_assign {T} (proj : S -> T) `{Setter S T proj} v Q E s :
  Q tt (setf proj v s) -> wpe (proj ::= v) Q E s.
Proof. done. Qed.

Lemma wp_zoom {T A} (proj : S -> T) `{Setter S T proj} (m : M T A) Q E s :
  wpe m (fun a t => Q a (setf proj t s)) (fun e t => E e (setf proj t s)) (proj s) ->
  wpe (zoom proj m) Q E s.
Proof. unfold wpe, zoom. by destruct (m (proj s)) as [[a|e] t]. Qed.

(** Whatever a member's function does, only the field changes. *)
Lemma wp_zoom_any {T A} (proj : S -> T) `{Setter S T proj} (m : M T A) Q E s :
  (forall a t, Q a (setf proj t s)) -> (forall e t, E e (setf proj t s)) -> wpe (zoom proj m) Q E s.
Proof. intros HQ HE. unfold wpe, zoom. destruct (m (proj s)) as [[a|e] t]; auto. Qed.

Lemma wp_outcome {A} (o : outcome A) Q E s :
  match o with Ok a => Q a s | Throw e => E e s end -> wpe (of_outcome o) Q E s.
Proof. by destruct o. Qed.

Lemma wp_try_catch {A} (m : M S A) handler Q E s :
  wpe m Q (fun e s' => if is_exception e then wpe (handler e) Q E s' else E e s') s -> wpe (try_catch m handler) Q E s.
Proof. unfold wpe at 1 3, try_catch. destruct (m s) as [[a|e] s']; [done |]. by destruct (is_exception e). Qed.

Lemma wp_when (b : bool) (m : M S unit) Q E s :
  (b = true -> wpe m Q E s) -> (b = false -> Q tt s) -> wpe (when b m) Q E s.
Proof. destruct b; intros H1 H2; [by apply H1 | by apply H2]. Qed.

Lemma wp_if {A} (b : bool) (m1 m2 : M S A) Q E s :
  (b = true -> wpe m1 Q E s) -> (b = false -> wpe m2 Q E s) ->
  wpe (if b then m1 else m2) Q E s.
Proof. destruct b; auto. Qed.
End wp.

(** *** Frames: a computation that never changes what [f] shows of the state *)

Definition keeps {S T A} (f : S -> T) (m : M S A) : Prop := forall s, f (m s).2 = f s.

Section keeps.
Context {S T : Type} (f : S -> T).

Lemma keeps_bind {A B} (m : M S A) (k : A -> M S B) : keeps f m -> (forall a, keeps f (k a)) -> keeps f (bind m k).
Proof. intros Hm Hk s. unfold bind. specialize (Hm s). destruct (m s) as [[a|e] s']; [| done]. rewrite <- Hm. apply Hk. Qed.

Lemma keeps_if {A} (b : bool) (m1 m2 : M S A) : keeps f m1 -> keeps f m2 -> keeps f (if b then m1 else m2).
Proof. by destruct b. Qed.

Lemma keeps_when (b : bool) (m : M S unit) : keeps f m -> keeps f (when b m).
Proof. by destruct b. Qed.

(** A field [f] does not depend on. *)
Lemma keeps_zoom {R A} (proj : S -> R) `{Setter S R proj} (m : M R A) :
  (forall r s, f (setf proj r s) = f s) -> keeps f (zoom proj m).
Proof. intros Hf s. unfold zoom. destruct (m (proj s)). apply Hf. Qed.

(** A field [f] looks at. *)
Lemma keeps_zoom_in {R A} (proj : S -> R) `{Setter S R proj} (g : R -> T) (m : M R A) :
  keeps g m -> (forall r s, f (setf proj r s) = g r) -> (forall s, f s = g (proj s)) -> keeps f (zoom proj m).
Proof. intros Hm Hset Hf s. unfold zoom. specialize (Hm (proj s)). destruct (m (proj s)) as [o r]. simpl in Hm.
  change ((o, setf proj r s).2) with (setf proj r s). by rewrite Hset, Hf. Qed.

Lemma keeps_wp {A} (m : M S A) (Q : A -> S -> Prop) E s :
  keeps f m -> wpe m Q E s -> wpe m (fun a s' => Q a s' /\ f s' = f s) E s.
Proof. intros Hm. specialize (Hm s). unfold wpe. by destruct (m s) as [[a|e] s']. Qed.

Lemma keeps_value {A} (m : M S A) v s : keeps f m -> f s = v -> wpe m (fun _ s' => f s' = v) (fun _ _ => True) s.
Proof. intros Hm <-. eapply wp_mono; [apply keeps_wp, wp_true; exact Hm |]. by intros a s' [_ ?]. Qed.
End keeps.

(** [keeps_tac] follows the structure of a computation; what is left are the calls. *)
Ltac keeps_tac :=
  repeat lazymatch goal with
  | |- keeps _ (bind _ _) => apply keeps_bind; [| intros ?]
  | |- forall _, keeps _ _ => intros ?
  | |- keeps _ (when _ _) => apply keeps_when
  | |- keeps _ (match ?x with _ => _ end) => destruct x
  | |- keeps _ (let _ := _ in _) => cbv zeta
  | |- keeps _ (pure _) => intros ?; reflexivity
  | |- keeps _ (throw _) => intros ?; reflexivity
  | |- keeps _ (asks _) => intros ?; reflexivity
  | |- keeps _ (of_outcome _) => intros ?; reflexivity
  | |- keeps _ (modify _ _) => intros ?; reflexivity
  | |- keeps _ (assign _ _) => intros ?; reflexivity
  end.

(** [wp_step] runs the next primitive of a computation. *)
Ltac wp_step :=
  lazymatch goal with
  | |- wpe (bind _ _) _ _ _ => apply wp_bind
  | |- wpe (pure _) _ _ _ => apply wp_pure
  | |- wpe (throw _) _ _ _ => apply wp_throw
  | |- wpe get _ _ _ => apply wp_get
  | |- wpe (asks _) _ _ _ => apply wp_asks
  | |- wpe (modify _ _) _ _ _ => apply wp_modify
  | |- wpe (assign _ _) _ _ _ => apply wp_assign
  | |- wpe (zoom _ _) _ _ _ => apply wp_zoom
  end.
Ltac wp_steps := repeat wp_step.
