(* ===== verification/printing.v ===== *)
(** * Printing: formatted output, and [hexdump] of util/util

    What the sources use of [std::ostream]: numbers in base ten and sixteen, [setw] with
    [setfill], [boolalpha], and a [stringstream] that is written at its position.
    [Hexdump] models [hexdump]; its reference is a table with one row per sixteen bytes. *)

From S2P Require Import prelude.
From Stdlib Require HexadecimalString HexadecimalN HexadecimalPos.

(** ** Streams *)

(** [os << hex << n] for an unsigned number. *)
Definition hex_string (n : Z) : string := HexadecimalString.NilZero.string_of_uint (N.to_hex_uint (Z.to_N n)).

(** [std::string(n, c)] *)
Definition repeat_char (n : Z) (c : Ascii.ascii) : string := String.string_of_list_ascii (replicate (Z.to_nat n) c).

(** [os << setfill(c) << setw(w) << s] *)
Definition setw (w : Z) (c : Ascii.ascii) (s : string) : string :=
  repeat_char (w - Z.of_nat (String.length s)) c +:+ s.

Definition boolalpha (b : bool) : string := if b then "true" else "false".

Definition newline : string := String (Ascii.ascii_of_nat 10) EmptyString.
Definition quote : string := String (Ascii.ascii_of_nat 34) EmptyString.
Definition space_char : Ascii.ascii := Ascii.ascii_of_nat 32.
Definition zero_char : Ascii.ascii := Ascii.ascii_of_nat 48.
Definition dot_char : Ascii.ascii := Ascii.ascii_of_nat 46.

(** What a program printed to [cout] and [cerr]. *)
Record console : Type := mk_console { cout : string; cerr : string }.
Definition console_eta (c : console) : console := mk_console (cout c) (cerr c).
#[global] Instance set_cout : Setter cout := ltac:(derive_setter console_eta cout).
#[global] Instance set_cerr : Setter cerr := ltac:(derive_setter console_eta cerr).

Definition print (s : string) : M console unit := cout %= (fun o => o +:+ s).
Definition warn (s : string) : M console unit := cerr %= (fun o => o +:+ s).

Lemma print_wp s (Q : unit -> console -> Prop) E c : Q tt (mk_console (cout c +:+ s) (cerr c)) -> wpe (print s) Q E c.
Proof. done. Qed.
Lemma warn_wp s (Q : unit -> console -> Prop) E c : Q tt (mk_console (cout c) (cerr c +:+ s)) -> wpe (warn s) Q E c.
Proof. done. Qed.

(** [std::stringstream]: the characters, and the position of the next write; a new
    stream, and [str(s)], put the position at the beginning. *)
Module StringStream.
Record t : Type := mk { str : list Ascii.ascii; pos : nat }.
Definition new (s : list Ascii.ascii) : t := mk s 0.

(** [ss << c]: overwrite, or append at the end. *)
Definition put_char (c : Ascii.ascii) (ss : t) : t :=
  mk (take (pos ss) (str ss) ++ [c] ++ drop (S (pos ss)) (str ss)) (S (pos ss)).
End StringStream.

(** [isprint] in the C locale. *)
Definition isprint (b : byte) : bool := (0x20 <=? Z_of_byte b) && (Z_of_byte b <=? 0x7e).

(** A hexadecimal digit of a byte's half, and the two digits of a byte. *)
Definition hex_byte (b : byte) : string := setw 2 zero_char (hex_string (Z_of_byte b)).

(** ** [hexdump] *)

Module Hexdump.

(** The output so far, and the variables [pchars] and [printed]. *)
Record t : Type := mk { cout : string; pchars : StringStream.t; printed : Z }.

Definition eta (s : t) : t := mk (cout s) (pchars s) (printed s).
#[global] Instance set_cout : Setter cout := ltac:(derive_setter eta cout).
#[global] Instance set_pchars : Setter pchars := ltac:(derive_setter eta pchars).
#[global] Instance set_printed : Setter printed := ltac:(derive_setter eta printed).

Definition print (s : string) : M t unit := cout %= (fun o => o +:+ s).
Definition pchars_str (s : t) : string := String.string_of_list_ascii (StringStream.str (pchars s)).

(** The character in the right column. *)
Definition shown (b : byte) : Ascii.ascii := if isprint b then Ascii.ascii_of_byte b else dot_char.

(** The body of the loop; [printed] is an [int]. *)
Definition show_byte (indent_string : string) (b : byte) : M t unit :=
  let* n := asks printed in
  (if Z.land n 0xf =? 0 then
     when (negb (n =? 0))
       (let* pc := asks pchars_str in
        print ("    " +:+ pc +:+ newline) ;;
        pchars ::= StringStream.new [space_char]) ;;
     print (indent_string +:+ setw 8 zero_char (hex_string n) +:+ ":    ")
   else when (Z.land n 1 =? 0) (print " ")) ;;
  print (hex_byte b) ;;
  pchars %= StringStream.put_char (shown b) ;;
  (if n + 1 <? 2 ^ 31 then printed ::= n + 1 else throw UndefinedBehavior).

Fixpoint show_bytes (indent_string : string) (data : list byte) : M t unit :=
  match data with
  | [] => pure tt
  | b :: data' => show_byte indent_string b ;; show_bytes indent_string data'
  end.

(** [hexdump(data, len, indent)]: what it prints. *)
Definition hexdump (data : list byte) (indent : Z) : outcome string :=
  let indent_string := repeat_char indent space_char in
  let m :=
    show_bytes indent_string data ;;
    let* n := asks printed in
    let print_rem := (16 - Z.land n 0xf) mod 16 in
    let* pc := asks pchars_str in
    print (repeat_char (2 * print_rem + print_rem / 2 + 4) space_char +:+ pc) ;;
    print (newline +:+ newline) ;;
    asks cout in
  fst (m (mk EmptyString (StringStream.new [space_char]) 0)).

(** ** The table *)

(** The rows of sixteen bytes. *)
Fixpoint chunks (n : nat) (data : list byte) : list (list byte) :=
  match n with
  | O => []
  | S n => take 16 data :: chunks n (drop 16 data)
  end.
Definition rows (data : list byte) : list (list byte) := chunks (Z.to_nat ((len data + 15) / 16)) data.

(** The bytes of a row from column [k] on: a space before every second byte. *)
Fixpoint hex_cells (k : Z) (row : list byte) : string :=
  match row with
  | [] => EmptyString
  | b :: row' => (if (0 <? k) && Z.even k then " " else EmptyString) +:+ hex_byte b +:+ hex_cells (k + 1) row'
  end.

(** A row: its offset, its bytes in a column of 39 characters, its characters. *)
Definition row_line (indent_string : string) (i : Z) (row : list byte) : string :=
  let cells := hex_cells 0 row in
  indent_string +:+ setw 8 zero_char (hex_string (16 * i)) +:+ ":    " +:+
  (cells +:+ repeat_char (39 - Z.of_nat (String.length cells)) space_char) +:+ "    " +:+
  String.string_of_list_ascii (map shown row).

Fixpoint table (indent_string : string) (i : Z) (rs : list (list byte)) : string :=
  match rs with
  | [] => EmptyString
  | row :: rs' => row_line indent_string i row +:+ newline +:+ table indent_string (i + 1) rs'
  end.

(** *** A row *)

Lemma string_app_assoc (a b c : string) : (a +:+ b) +:+ c = a +:+ b +:+ c.
Proof.
  induction a as [|x a IH]; [done |].
  change (String x ((a +:+ b) +:+ c) = String x (a +:+ b +:+ c)). by rewrite IH.
Qed.

Lemma string_length_app (a b : string) : String.length (a +:+ b) = (String.length a + String.length b)%nat.
Proof.
  induction a as [|x a IH]; [done |].
  change (S (String.length (a +:+ b)) = S (String.length a + String.length b)%nat). by rewrite IH.
Qed.

Lemma land_15 n : Z.land n 0xf = n mod 16.
Proof. change 0xf with (Z.ones 4). by rewrite Z.land_ones. Qed.

Lemma land_1 n : (Z.land n 1 =? 0) = Z.even n.
Proof. change 1 with (Z.ones 1). rewrite Z.land_ones, Zmod_even by lia. by destruct (Z.even n). Qed.

(** Characters that are appended. *)
Definition at_end (cs : list Ascii.ascii) : StringStream.t := StringStream.mk cs (length cs).

Lemma put_char_end c cs : StringStream.put_char c (at_end cs) = at_end (cs ++ [c]).
Proof.
  unfold StringStream.put_char, at_end. cbn [StringStream.str StringStream.pos].
  rewrite take_ge, drop_ge by lia. rewrite length_app. f_equal. simpl. lia.
Qed.

(** A byte in the middle of a row, and the first byte of one. *)
Lemma show_byte_cell ind b o cs n :
  n mod 16 <> 0 -> n + 1 < 2 ^ 31 ->
  show_byte ind b (mk o (at_end cs) n) =
    (Ok tt, mk (o +:+ (if Z.even n then " " else EmptyString) +:+ hex_byte b) (at_end (cs ++ [shown b])) (n + 1)).
Proof.
  intros Hk Hn. rewrite <- put_char_end. unfold show_byte, bind at 1, asks. cbn [printed].
  rewrite land_15, land_1, (proj2 (Z.eqb_neq _ _) Hk), (proj2 (Z.ltb_lt _ _) Hn).
  rewrite <- string_app_assoc. destruct (Z.even n); [done |]. by rewrite string_app_nil_r.
Qed.

Definition end_row (n : Z) (pc : StringStream.t) : string :=
  if n =? 0 then EmptyString else "    " +:+ String.string_of_list_ascii (StringStream.str pc) +:+ newline.
Definition offset_label (ind : string) (n : Z) : string := ind +:+ setw 8 zero_char (hex_string n) +:+ ":    ".

Lemma show_byte_first ind b o pc n :
  n mod 16 = 0 -> n + 1 < 2 ^ 31 -> (n = 0 -> pc = StringStream.new [space_char]) ->
  show_byte ind b (mk o pc n) =
    (Ok tt, mk (o +:+ end_row n pc +:+ offset_label ind n +:+ hex_byte b) (at_end [shown b]) (n + 1)).
Proof.
  intros Hk Hn Hpc. unfold show_byte, bind at 1, asks. cbn [printed].
  rewrite land_15, Hk, (proj2 (Z.ltb_lt _ _) Hn). unfold end_row.
  destruct (Z.eqb_spec n 0) as [-> |].
  - rewrite Hpc by done. change (EmptyString +:+ ?x) with x. by rewrite <- (string_app_assoc o).
  - rewrite <- (string_app_assoc o), <- (string_app_assoc (o +:+ _)). done.
Qed.

(** The bytes of a row after its first. *)
Lemma show_cells ind i row : forall k o cs,
  0 < k -> k + len row <= 16 -> 0 <= i -> 16 * i + k + len row < 2 ^ 31 ->
  show_bytes ind row (mk o (at_end cs) (16 * i + k)) =
    (Ok tt, mk (o +:+ hex_cells k row) (at_end (cs ++ map shown row)) (16 * i + k + len row)).
Proof.
  induction row as [|b row IH]; intros k o cs Hk Hrow Hi Hmax.
  - cbn [show_bytes hex_cells map]. unfold pure. rewrite string_app_nil_r, app_nil_r, len_nil. do 2 f_equal. lia.
  - rewrite len_cons in Hrow, Hmax |- *. pose proof (len_nonneg row).
    cbn [show_bytes]. unfold bind. rewrite show_byte_cell by zarith.
    replace (16 * i + k + 1) with (16 * i + (k + 1)) by lia. rewrite IH by lia.
    replace (Z.even (16 * i + k)) with (Z.even k) by (rewrite Z.even_add, Z.even_mul; by destruct (Z.even k)).
    cbn [hex_cells map]. rewrite (proj2 (Z.ltb_lt 0 k)) by lia. cbn [andb].
    rewrite !string_app_assoc, <- !app_assoc. do 2 f_equal. lia.
Qed.

Lemma show_row ind i row o pc :
  row <> [] -> len row <= 16 -> 0 <= i -> 16 * i + len row < 2 ^ 31 ->
  (i = 0 -> pc = StringStream.new [space_char]) ->
  show_bytes ind row (mk o pc (16 * i)) =
    (Ok tt, mk (o +:+ end_row (16 * i) pc +:+ offset_label ind (16 * i) +:+ hex_cells 0 row)
      (at_end (map shown row)) (16 * i + len row)).
Proof.
  destruct row as [|b row]; [done |]. intros _ Hl Hi Hmax Hpc. rewrite len_cons in Hl, Hmax |- *. pose proof (len_nonneg row).
  cbn [show_bytes]. unfold bind. rewrite show_byte_first by (first [zarith | intros; apply Hpc; lia]).
  rewrite show_cells by lia. cbn [hex_cells map Z.ltb andb]. rewrite !string_app_assoc. do 2 f_equal. lia.
Qed.

(** *** The whole table *)

Lemma show_app ind d1 d2 s :
  show_bytes ind (d1 ++ d2) s = bind (show_bytes ind d1) (fun _ => show_bytes ind d2) s.
Proof.
  revert s. induction d1 as [|b d1 IH]; intros s; [done |]. cbn [app show_bytes]. unfold bind in *.
  destruct (show_byte ind b s) as [[[]|e] s']; [apply IH | done].
Qed.
Lemma length_hex_byte b : String.length (hex_byte b) = 2%nat.
Proof. by destruct b. Qed.

Lemma length_hex_cells row : forall k,
  0 < k -> Z.of_nat (String.length (hex_cells k row)) = 2 * len row + ((k + len row + 1) / 2 - (k + 1) / 2).
Proof.
  induction row as [|b row IH]; intros k Hk; cbn [hex_cells].
  - change (0 = 2 * 0 + ((k + 0 + 1) / 2 - (k + 1) / 2)). rewrite Z.add_0_r. lia.
  - rewrite !string_length_app, length_hex_byte, len_cons. rewrite (proj2 (Z.ltb_lt 0 k) Hk). cbn [andb].
    specialize (IH (k + 1) ltac:(lia)). destruct (Z.even k) eqn:Ek.
    + apply Z.even_spec in Ek as [m ->]. cbn [String.length]. zarith.
    + assert (Ho : Z.odd k = true) by (by rewrite <- Z.negb_even, Ek). apply Z.odd_spec in Ho as [m ->].
      cbn [String.length]. zarith.
Qed.

Lemma length_row row :
  row <> [] -> Z.of_nat (String.length (hex_cells 0 row)) = 2 * len row + (len row - 1) / 2.
Proof.
  destruct row as [|b row]; [done |]. intros _. change (hex_cells 0 (b :: row)) with (hex_byte b +:+ hex_cells 1 row).
  rewrite string_length_app, length_hex_byte, len_cons.
  pose proof (length_hex_cells row 1 ltac:(lia)) as H. zarith.
Qed.

Lemma repeat_char_add a b c : 0 <= a -> 0 <= b -> repeat_char (a + b) c = repeat_char a c +:+ repeat_char b c.
Proof.
  intros Ha Hb. unfold repeat_char. rewrite Z2Nat.inj_add by done. rewrite replicate_add.
  induction (replicate (Z.to_nat a) c) as [|x l IH]; [done |]. cbn [app String.string_of_list_ascii].
  rewrite IH. done.
Qed.

(** What the last lines of [hexdump] print. *)
Definition finish (s : t) : string :=
  let print_rem := (16 - Z.land (printed s) 0xf) mod 16 in
  (cout s +:+ (repeat_char (2 * print_rem + print_rem / 2 + 4) space_char +:+ pchars_str s)) +:+ (newline +:+ newline).

Lemma hexdump_finish data indent s :
  show_bytes (repeat_char indent space_char) data (mk EmptyString (StringStream.new [space_char]) 0) = (Ok tt, s) ->
  hexdump data indent = Ok (finish s).
Proof. intros E. unfold hexdump, bind at 1. rewrite E. by destruct s. Qed.

(** The padding of the last row brings its characters into their column. *)
Lemma finish_row i row o :
  row <> [] -> len row <= 16 ->
  finish (mk (o +:+ hex_cells 0 row) (at_end (map shown row)) (16 * i + len row)) =
    o +:+ (hex_cells 0 row +:+ repeat_char (39 - Z.of_nat (String.length (hex_cells 0 row))) space_char) +:+
    "    " +:+ String.string_of_list_ascii (map shown row) +:+ newline +:+ newline.
Proof.
  intros Hne Hl. rewrite length_row by done.
  assert (Hr : 0 < len row) by (destruct row; [done | rewrite len_cons; pose proof (len_nonneg row); lia]).
  unfold finish, pchars_str, at_end. cbn [printed cout pchars StringStream.str]. rewrite land_15.
  set (rem := (16 - _ mod 16) mod 16).
  assert (Erem : rem = 16 - len row) by (unfold rem; zarith).
  replace (39 - (2 * len row + (len row - 1) / 2)) with (2 * rem + rem / 2) by zarith.
  rewrite (repeat_char_add (2 * rem + rem / 2) 4) by zarith. change (repeat_char 4 space_char) with "    ".
  by rewrite !string_app_assoc.
Qed.

Lemma rows_short data : data <> [] -> len data <= 16 -> rows data = [data].
Proof.
  intros Hne Hl. assert (0 < len data) by (destruct data; [done | rewrite len_cons; pose proof (len_nonneg data); lia]).
  unfold rows. replace (Z.to_nat ((len data + 15) / 16)) with 1%nat by zarith. cbn [chunks].
  rewrite take_ge; [done |]. unfold len in Hl. lia.
Qed.

Lemma rows_long data : 16 < len data -> rows data = take 16 data :: rows (drop 16 data).
Proof.
  intros Hl. unfold rows. assert (El : len (drop 16 data) = len data - 16).
  { change (drop 16 data) with (zdrop 16 data). rewrite len_zdrop. lia. }
  rewrite El. replace (Z.to_nat ((len data + 15) / 16)) with (S (Z.to_nat ((len data - 16 + 15) / 16))) by zarith. done.
Qed.

Lemma show_rows ind n : forall data i o pc,
  (length data <= n)%nat -> data <> [] -> 0 <= i -> 16 * i + len data < 2 ^ 31 ->
  (i = 0 -> pc = StringStream.new [space_char]) ->
  exists s, show_bytes ind data (mk o pc (16 * i)) = (Ok tt, s) /\
    finish s = o +:+ end_row (16 * i) pc +:+ table ind i (rows data) +:+ newline.
Proof.
  induction n as [|n IH]; intros data i o pc Hn Hne Hi Hmax Hpc; [by destruct data; simpl in Hn; [| lia] |].
  destruct (Z.le_gt_cases (len data) 16) as [Hl|Hl].
  - eexists. split; [by apply show_row |]. rewrite <- !string_app_assoc, finish_row by done.
    rewrite rows_short by done. cbn [table]. unfold row_line, offset_label.
    by rewrite string_app_nil_r, !string_app_assoc.
  - assert (Et : len (take 16 data) = 16) by (change (len (ztake 16 data) = 16); rewrite len_ztake; lia).
    assert (Ed : len (drop 16 data) = len data - 16) by (change (len (zdrop 16 data) = len data - 16); rewrite len_zdrop; lia).
    assert (Htn : take 16 data <> []) by (intros E; rewrite E in Et; done).
    replace (show_bytes ind data) with (show_bytes ind (take 16 data ++ drop 16 data)) by (by rewrite take_drop). rewrite show_app. unfold bind. rewrite show_row by (first [done | lia]).
    replace (16 * i + len (take 16 data)) with (16 * (i + 1)) by lia.
    edestruct (IH (drop 16 data) (i + 1)) as (s & Erun & Es); [rewrite length_drop; unfold len in Hl; lia | | lia | lia | lia |].
    { intros E. rewrite E, len_nil in Ed. lia. }
    exists s. split; [exact Erun |]. rewrite Es, (rows_long data) by lia. cbn [table]. unfold end_row at 2. rewrite (proj2 (Z.eqb_neq _ _)) by lia.
    unfold row_line, offset_label, at_end. cbn [StringStream.str]. rewrite length_row, Et by done.
    change (repeat_char (39 - (2 * 16 + (16 - 1) / 2)) space_char) with EmptyString.
    by rewrite string_app_nil_r, !string_app_assoc.
Qed.

Lemma hexdump_rows data indent :
  data <> [] -> len data < 2 ^ 31 ->
  hexdump data indent = Ok (table (repeat_char indent space_char) 0 (rows data) +:+ newline).
Proof.
  intros Hne Hmax.
  destruct (show_rows (repeat_char indent space_char) (length data) data 0 EmptyString (StringStream.new [space_char]))
    as (s & Erun & Es); [done | done | lia | lia | done |].
  by rewrite (hexdump_finish _ _ _ Erun), Es.
Qed.

Lemma hexdump_total data indent : len data < 2 ^ 31 -> exists s, hexdump data indent = Ok s.
Proof. intros Hmax. destruct data; [by eexists |]. eexists. by apply hexdump_rows. Qed.
End Hexdump.

(** [hexdump] prints the table of the bytes: one row per sixteen bytes with its
    offset, the bytes in pairs in a column of fixed width, whatever the length of the last
    row, and their characters; no byte is left out and the counters do not overflow. *)
Theorem hexdump_table data indent :
  len data < 2 ^ 31 ->
  Hexdump.hexdump data indent =
    Ok (if bool_decide (data = []) then "     " +:+ newline +:+ newline
        else Hexdump.table (repeat_char indent space_char) 0 (Hexdump.rows data) +:+ newline).
Proof.
  intros Hmax. case_bool_decide as Hne; [by subst |]. by apply Hexdump.hexdump_rows.
Qed.

Lemma hexdump_table_witness :
  exists s, Hexdump.hexdump (replicate 17 x41) 2 = Ok s /\ String.length s = 136%nat.
Proof. eexists. split; [apply hexdump_table; by vm_compute | by vm_compute]. Defined.
