(* ===== verification/buffer.v ===== *)
(** * util/buffer.hh, util/buffer.cc: read-only strings and lists of them

    [Buffer] is a reference-counted string with an offset; the string behind
    the pointer never changes, so sharing is not observable and the model keeps
    the string itself.  [BufferList] is a queue of buffers, [BufferViewList] a
    queue of string views. *)

From S2P Require Import prelude.

Module Buffer.

(** [_storage] is the shared pointer ([None] when null). *)
Record t : Type := mk {
  _storage : option (list byte);
  _starting_offset : Z
}.

Definition empty : t := mk None 0.

(** [Buffer(std::string &&str)] *)
Definition of_string (s : list byte) : t := mk (Some s) 0.

Definition str (b : t) : list byte :=
  match _storage b with
  | None => []
  | Some s => zdrop (_starting_offset b) s
  end.

(** [str().at(n)] *)
Definition at_ (b : t) (n : Z) : outcome byte :=
  match zlookup (str b) n with
  | Some c => Ok c
  | None => Throw (Out_of_range "basic_string_view::at")
  end.

Definition size (b : t) : Z := len (str b).

Definition copy (b : t) : list byte := str b.

Definition remove_prefix (n : Z) (b : t) : outcome t :=
  if len (str b) <? n then Throw (Out_of_range "Buffer::remove_prefix")
  else
    let off := u64 (_starting_offset b + n) in
    match _storage b with
    | Some s => if off =? len s then Ok (mk None off) else Ok (mk (Some s) off)
    | None => Ok (mk None off)
    end.

(** The offset stays inside the string, and the string fits in memory. *)
Definition wf (b : t) : Prop :=
  match _storage b with
  | None => True
  | Some s => 0 <= _starting_offset b <= len s /\ len s < 2 ^ 64
  end.

Lemma size_nonneg b : 0 <= size b.
Proof. apply len_nonneg. Qed.

Lemma str_of_string s : str (of_string s) = s.
Proof. unfold str. simpl. by apply zdrop_nonpos. Qed.

Lemma wf_len b : wf b -> len (str b) < 2 ^ 64.
Proof. unfold wf, str. destruct (_storage b); [rewrite len_zdrop; lia | done]. Qed.

Lemma wf_of_string s : len s < 2 ^ 64 -> wf (of_string s).
Proof. unfold wf. simpl. pose proof (len_nonneg s). lia. Qed.

Lemma remove_prefix_str b n :
  wf b -> 0 <= n <= size b ->
  exists b', remove_prefix n b = Ok b' /\ str b' = zdrop n (str b) /\ wf b'.
Proof.
  intros Hwf Hn. unfold remove_prefix, size, str, wf in *.
  destruct b as [[s|] off]; simpl in *.
  - rewrite len_zdrop in *. rewrite (proj2 (Z.ltb_ge _ _)) by lia.
    rewrite u64_small by lia. destruct (Z.eqb_spec (off + n) (len s)); eexists; split_and!;
      try done; simpl; try lia; rewrite zdrop_zdrop by lia; try done.
    by rewrite zdrop_ge by lia.
  - unfold len in Hn. simpl in Hn. rewrite (proj2 (Z.ltb_ge _ _)) by (unfold len; simpl; lia).
    eexists; split_and!; try done. simpl. by rewrite zdrop_nonpos by lia.
Qed.

Lemma remove_prefix_too_long b n :
  size b < n -> remove_prefix n b = Throw (Out_of_range "Buffer::remove_prefix").
Proof. intros. unfold remove_prefix, size in *. by rewrite (proj2 (Z.ltb_lt _ _)). Qed.
End Buffer.

Module BufferList.

(** [_buffers] *)
Definition t : Type := list Buffer.t.

Definition of_buffer (b : Buffer.t) : t := [b].
Definition of_string (s : list byte) : t := [Buffer.of_string s].

Definition append (l other : t) : t := l ++ other.

(** [operator Buffer()] *)
Definition to_Buffer (l : t) : outcome Buffer.t :=
  match l with
  | [] => Ok Buffer.empty
  | [b] => Ok b
  | _ => Throw (Runtime_error "BufferList: please use concatenate() to combine a multi-Buffer BufferList into one Buffer")
  end.

Definition concatenate (l : t) : list byte :=
  foldl (fun ret buf => ret ++ Buffer.str buf) [] l.

Definition size (l : t) : Z :=
  foldl (fun ret buf => u64 (ret + Buffer.size buf)) 0 l.

(** The loop of [remove_prefix]; it pops one buffer per iteration, and those it has popped
    when it throws are gone. *)
Fixpoint remove_prefix (n : Z) (l : t) : outcome unit * t :=
  if n <=? 0 then (Ok tt, l)
  else match l with
  | [] => (Throw (Out_of_range "BufferList::remove_prefix"), [])
  | b :: l' =>
      if n <? len (Buffer.str b) then
        match Buffer.remove_prefix n b with
        | Ok b' => (Ok tt, b' :: l')
        | Throw e => (Throw e, b :: l')
        end
      else remove_prefix (n - len (Buffer.str b)) l'
  end.

(** The bytes of a list of buffers. *)
Definition bytes (l : t) : list byte := concat (map Buffer.str l).

Definition wf (l : t) : Prop := Forall Buffer.wf l.

Lemma concatenate_acc l acc :
  foldl (fun ret buf => ret ++ Buffer.str buf) acc l = acc ++ bytes l.
Proof.
  revert acc. induction l as [|b l IH]; intros acc; simpl.
  - unfold bytes. simpl. by rewrite app_nil_r.
  - rewrite IH. unfold bytes. simpl. by rewrite app_assoc.
Qed.

Lemma concatenate_bytes l : concatenate l = bytes l.
Proof. apply (concatenate_acc l []). Qed.

Lemma bytes_cons b l : bytes (b :: l) = Buffer.str b ++ bytes l.
Proof. done. Qed.

Lemma bytes_app l k : bytes (l ++ k) = bytes l ++ bytes k.
Proof. unfold bytes. by rewrite map_app, concat_app. Qed.

Lemma size_acc l acc :
  0 <= acc -> acc + len (bytes l) < 2 ^ 64 ->
  foldl (fun ret buf => u64 (ret + Buffer.size buf)) acc l = acc + len (bytes l).
Proof.
  revert acc. induction l as [|b l IH]; intros acc Ha Hb; simpl.
  - unfold bytes, len. simpl. lia.
  - rewrite bytes_cons, len_app in *. pose proof (len_nonneg (bytes l)).
    pose proof (Buffer.size_nonneg b) as Hs. unfold Buffer.size in *.
    rewrite u64_small by lia. rewrite IH; lia.
Qed.

Lemma size_bytes l : len (bytes l) < 2 ^ 64 -> size l = len (bytes l).
Proof. intros. unfold size. by rewrite size_acc. Qed.

(** Discarding a prefix of a list of buffers discards it from the bytes they
    hold, whatever the buffer boundaries. *)
Lemma remove_prefix_bytes l n :
  wf l -> 0 <= n <= len (bytes l) ->
  exists l', remove_prefix n l = (Ok tt, l') /\ bytes l' = zdrop n (bytes l) /\ wf l'.
Proof.
  revert n. induction l as [|b l IH]; intros n Hwf Hn; simpl.
  - unfold bytes, len in Hn. simpl in Hn. rewrite (proj2 (Z.leb_le _ _)) by lia.
    eexists. rewrite zdrop_nonpos by lia. done.
  - inversion Hwf as [|? ? Hb Hl]; subst. rewrite bytes_cons, len_app in *.
    destruct (Z.leb_spec n 0).
    { eexists. rewrite zdrop_nonpos by lia. done. }
    destruct (Z.ltb_spec n (len (Buffer.str b))).
    + destruct (Buffer.remove_prefix_str b n) as (b' & E & Es & Hwf').
      { done. } { unfold Buffer.size. lia. }
      rewrite E. eexists; split_and!; [done | | by constructor].
      rewrite bytes_cons, Es, zdrop_app_le by lia. done.
    + destruct (IH (n - len (Buffer.str b))) as (l' & E & Es & Hwf'); [done | lia |].
      eexists; split_and!; [done | | done]. by rewrite Es, zdrop_app_ge by lia.
Qed.

Lemma remove_prefix_out_of_range l n :
  wf l -> len (bytes l) < n ->
  remove_prefix n l = (Throw (Out_of_range "BufferList::remove_prefix"), []).
Proof.
  revert n. induction l as [|b l IH]; intros n Hwf Hn; simpl.
  - unfold bytes, len in Hn. simpl in Hn. by rewrite (proj2 (Z.leb_gt _ _)) by lia.
  - inversion Hwf as [|? ? Hb Hl]; subst. rewrite bytes_cons, len_app in *.
    pose proof (len_nonneg (Buffer.str b)). pose proof (len_nonneg (bytes l)).
    rewrite (proj2 (Z.leb_gt _ _)) by lia. rewrite (proj2 (Z.ltb_ge _ _)) by lia.
    apply IH; [done | lia].
Qed.
End BufferList.

Module BufferViewList.

(** [_views]: a [std::string_view] is the string it shows. *)
Definition t : Type := list (list byte).

Definition of_string_view (s : list byte) : t := [s].
Definition of_BufferList (buffers : BufferList.t) : t := map Buffer.str buffers.

Fixpoint remove_prefix (n : Z) (l : t) : outcome t :=
  if n <=? 0 then Ok l
  else match l with
  | [] => Throw (Out_of_range "BufferListView::remove_prefix")
  | v :: l' =>
      if n <? len v then Ok (zdrop n v :: l')
      else remove_prefix (n - len v) l'
  end.

Definition size (l : t) : Z := foldl (fun ret buf => u64 (ret + len buf)) 0 l.

(** An [iovec] is a pointer and a length; the pointer is shown as the bytes it
    points to. *)
Definition as_iovecs (l : t) : list (list byte * Z) := map (fun x => (x, len x)) l.

(** A view list and the buffer list it was made from discard the same bytes:
    the two loops agree on the bytes that are left. *)
Lemma remove_prefix_views l n :
  BufferList.wf l -> 0 <= n <= len (BufferList.bytes l) ->
  exists l' v', BufferList.remove_prefix n l = (Ok tt, l') /\
    remove_prefix n (of_BufferList l) = Ok v' /\ v' = of_BufferList l'.
Proof.
  revert n. induction l as [|b l IH]; intros n Hwf Hn; simpl.
  - unfold BufferList.bytes, len in Hn. simpl in Hn. rewrite (proj2 (Z.leb_le _ _)) by lia.
    by do 2 eexists.
  - inversion Hwf as [|? ? Hb Hl]; subst. rewrite BufferList.bytes_cons, len_app in *.
    destruct (Z.leb_spec n 0); [by do 2 eexists |].
    destruct (Z.ltb_spec n (len (Buffer.str b))).
    + destruct (Buffer.remove_prefix_str b n) as (b' & E & Es & Hwf').
      { done. } { unfold Buffer.size. lia. }
      rewrite E. do 2 eexists; split_and!; [done | done |]. simpl. by rewrite Es.
    + apply IH; [done | lia].
Qed.

Lemma views_bytes l : mjoin (of_BufferList l) = BufferList.bytes l.
Proof. induction l as [|b l IH]; [done |]. rewrite BufferList.bytes_cons, <- IH. done. Qed.

(** The bytes the views show. *)
Lemma views_remove_prefix l n :
  0 <= n <= len (mjoin l) -> exists l', remove_prefix n l = Ok l' /\ mjoin l' = zdrop n (mjoin l).
Proof.
  revert n. induction l as [|v l IH]; intros n Hn; simpl.
  - change (len (mjoin [])) with 0 in Hn. rewrite (proj2 (Z.leb_le _ _)) by lia. exists []. split; [done |].
    by rewrite zdrop_nonpos by lia.
  - change (mjoin (v :: l)) with (v ++ mjoin l) in *. rewrite len_app in Hn.
    destruct (Z.leb_spec n 0); [exists (v :: l); by rewrite zdrop_nonpos by lia |].
    destruct (Z.ltb_spec n (len v)).
    + exists (zdrop n v :: l). split; [done |]. by rewrite zdrop_app_le by lia.
    + rewrite zdrop_app_ge by lia. apply IH. lia.
Qed.

Lemma views_remove_prefix_over l n :
  len (mjoin l) < n -> remove_prefix n l = Throw (Out_of_range "BufferListView::remove_prefix").
Proof.
  revert n. induction l as [|v l IH]; intros n Hn; simpl.
  - change (len (mjoin [])) with 0 in Hn. by rewrite (proj2 (Z.leb_gt _ _)) by lia.
  - change (mjoin (v :: l)) with (v ++ mjoin l) in *. rewrite len_app in Hn.
    pose proof (len_nonneg v). pose proof (len_nonneg (mjoin l)).
    rewrite (proj2 (Z.leb_gt _ _)), (proj2 (Z.ltb_ge _ _)) by lia. apply IH. lia.
Qed.

Lemma views_size l : len (mjoin l) < 2 ^ 64 -> size l = len (mjoin l).
Proof.
  intros Hl. unfold size.
  assert (Hg : forall acc, 0 <= acc -> acc + len (mjoin l) < 2 ^ 64 ->
    foldl (fun ret buf => u64 (ret + len buf)) acc l = acc + len (mjoin l)).
  { clear Hl. induction l as [|v l IH]; intros acc Ha Hl; cbn [foldl]; [change (len (mjoin [])) with 0; lia |].
    change (mjoin (v :: l)) with (v ++ mjoin l) in Hl |- *. rewrite len_app in Hl |- *.
    pose proof (len_nonneg v). pose proof (len_nonneg (mjoin l)). rewrite u64_small by lia. rewrite IH by lia. lia. }
  rewrite Hg by lia. lia.
Qed.
End BufferViewList.
