(* ===== verification/wrapping_integers.v ===== *)
(** * wrapping_integers.hh, wrapping_integers.cc: 32-bit sequence numbers

    [wrap] and [unwrap] convert between 64-bit absolute sequence numbers and
    32-bit relative ones. *)

From S2P Require Import prelude.

Module WrappingInt32.

Record t : Type := mk { raw_value : Z }.

#[export] Instance eq_dec : EqDecision t.
Proof. solve_decision. Defined.

(** [explicit WrappingInt32(uint32_t)], with the conversion of its argument. *)
Definition of_Z (x : Z) : t := mk (u32 x).

Definition wf (w : t) : Prop := 0 <= raw_value w < 2 ^ 32.

(** [int32_t operator-(WrappingInt32, WrappingInt32)] *)
Definition diff (a b : t) : Z := i32 (u32 (raw_value a - raw_value b)).

(** [operator==] *)
Definition eqb (a b : t) : bool := raw_value a =? raw_value b.

(** [operator+(WrappingInt32, uint32_t)] *)
Definition add (a : t) (b : Z) : t := of_Z (raw_value a + u32 b).

(** [operator-(WrappingInt32, uint32_t)]: [a + -b] *)
Definition sub (a : t) (b : Z) : t := add a (u32 (- b)).

Lemma wf_of_Z x : wf (of_Z x).
Proof. apply u32_range. Qed.

Lemma wrapping_eqb_eq a b : eqb a b = true <-> a = b.
Proof.
  unfold eqb. rewrite Z.eqb_eq. destruct a, b; simpl. split; [by intros -> | by intros [=]].
Qed.

Lemma ext a b : raw_value a = raw_value b -> a = b.
Proof. destruct a, b. simpl. by intros ->. Qed.
End WrappingInt32.

Import WrappingInt32.

Definition wrap (n : Z) (isn : t) : t := of_Z (u32 n + raw_value isn).

(** [0xFFFFFFFF00000000] *)
Definition HIGH32 : Z := 0xFFFFFFFF00000000.

(** [1 << 31] is an [int]: its value is [-2^31], and it is sign-extended when
    it is added to the 64-bit checkpoint. *)
Definition INT_1_SHL_31 : Z := i32 (Z.shiftl 1 31).

Definition unwrap (n isn : t) (checkpoint : Z) : Z :=
  let low32bit := u32 (diff n isn) in
  let high32bit1 := Z.land (u64 (checkpoint + INT_1_SHL_31)) HIGH32 in
  let high32bit2 := Z.land (u64 (checkpoint - INT_1_SHL_31)) HIGH32 in
  let res1 := Z.lor low32bit high32bit1 in
  let res2 := Z.lor low32bit high32bit2 in
  if Z.max res1 checkpoint - Z.min res1 checkpoint <? Z.max res2 checkpoint - Z.min res2 checkpoint
  then res1 else res2.

(** ** The masks as arithmetic *)

Lemma land_HIGH32 a : 0 <= a < 2 ^ 64 -> Z.land a HIGH32 = a / 2 ^ 32 * 2 ^ 32.
Proof.
  intros Ha. change HIGH32 with (Z.shiftl (Z.ones 32) 32).
  rewrite <- Z.shiftr_div_pow2, <- Z.shiftl_mul_pow2 by lia.
  apply Z.bits_inj'. intros i Hi. rewrite Z.land_spec, !Z.shiftl_spec by lia.
  destruct (Z.ltb_spec i 32).
  - rewrite !(Z.testbit_neg_r _ (i - 32)) by lia. by rewrite andb_false_r.
  - rewrite Z.shiftr_spec, Z.testbit_ones_nonneg by lia.
    replace (i - 32 + 32) with i by lia. destruct (Z.ltb_spec (i - 32) 32).
    + by rewrite andb_true_r.
    + rewrite andb_false_r. symmetry. apply Z.bits_above_log2; [lia |].
      destruct (Z.eq_dec a 0) as [->|]; [simpl; lia |].
      apply Z.log2_lt_pow2; [lia |]. eapply Z.lt_le_trans; [apply Ha |].
      apply Z.pow_le_mono_r; lia.
Qed.

Lemma land_low_high l h : 0 <= l < 2 ^ 32 -> Z.land l (Z.shiftl h 32) = 0.
Proof.
  intros Hl. apply Z.bits_inj'. intros i Hi. rewrite Z.land_spec, Z.shiftl_spec, Z.bits_0 by lia.
  destruct (Z.ltb_spec i 32); [rewrite (Z.testbit_neg_r _ (i - 32)) by lia; apply andb_false_r |].
  rewrite (Z.bits_above_log2 l i); [done | lia |].
  destruct (Z.eq_dec l 0) as [->|]; [simpl; lia |]. apply Z.log2_lt_pow2; [lia |].
  eapply Z.lt_le_trans; [apply Hl | apply Z.pow_le_mono_r; lia].
Qed.

Lemma lor_low_high l h : 0 <= l < 2 ^ 32 -> Z.lor l (h * 2 ^ 32) = l + h * 2 ^ 32.
Proof.
  intros Hl. rewrite <- Z.shiftl_mul_pow2 by lia. pose proof (land_low_high l h Hl).
  by rewrite <- Z.lxor_lor, Z.add_nocarry_lxor.
Qed.

(** [unwrap] without its bit operations. *)
Definition unwrap_arith (low checkpoint : Z) : Z :=
  let res1 := low + u64 (checkpoint - 2 ^ 31) / 2 ^ 32 * 2 ^ 32 in
  let res2 := low + u64 (checkpoint + 2 ^ 31) / 2 ^ 32 * 2 ^ 32 in
  if Z.abs (res1 - checkpoint) <? Z.abs (res2 - checkpoint) then res1 else res2.

(** The offset of [n] from [isn], modulo 2^32. *)
Definition offset32 (n isn : t) : Z := u32 (raw_value n - raw_value isn).

Lemma u32_diff n isn : u32 (diff n isn) = offset32 n isn.
Proof. unfold diff, offset32, i32, u32. zarith. Qed.

Lemma unwrap_eq n isn checkpoint :
  unwrap n isn checkpoint = unwrap_arith (offset32 n isn) checkpoint.
Proof.
  unfold unwrap, unwrap_arith. rewrite u32_diff.
  change INT_1_SHL_31 with (- 2 ^ 31). rewrite Z.sub_opp_r, Z.add_opp_r.
  pose proof (u32_range (raw_value n - raw_value isn)).
  rewrite !land_HIGH32, !lor_low_high by auto using u64_range.
  set (r1 := offset32 n isn + u64 (checkpoint - 2 ^ 31) / 2 ^ 32 * 2 ^ 32).
  set (r2 := offset32 n isn + u64 (checkpoint + 2 ^ 31) / 2 ^ 32 * 2 ^ 32).
  replace (Z.max r1 checkpoint - Z.min r1 checkpoint) with (Z.abs (r1 - checkpoint)) by lia.
  by replace (Z.max r2 checkpoint - Z.min r2 checkpoint) with (Z.abs (r2 - checkpoint)) by lia.
Qed.

Lemma wrap_offset x isn : wf isn -> offset32 (wrap x isn) isn = u32 x.
Proof. unfold wf, offset32, wrap, of_Z, u32. simpl. intros. zarith. Qed.

Lemma wrap_eq_iff x isn n :
  wf isn -> wf n -> wrap x isn = n <-> u32 x = offset32 n isn.
Proof.
  intros Hi Hn. split.
  - intros <-. by rewrite wrap_offset.
  - intros E. apply ext. unfold wf, offset32, wrap, of_Z, u32 in *. simpl. zarith.
Qed.

Lemma unwrap_arith_spec low c :
  0 <= low < 2 ^ 32 -> 0 <= c < 2 ^ 64 ->
  let r := unwrap_arith low c in
  0 <= r < 2 ^ 64 /\ u32 r = low /\ (forall x, 0 <= x < 2 ^ 64 -> u32 x = low -> Z.abs (r - c) <= Z.abs (x - c)).
Proof.
  intros Hl Hc. unfold unwrap_arith, u64, u32.
  destruct (Z.ltb_spec (Z.abs (low + (c - 2 ^ 31) mod 2 ^ 64 / 2 ^ 32 * 2 ^ 32 - c))
    (Z.abs (low + (c + 2 ^ 31) mod 2 ^ 64 / 2 ^ 32 * 2 ^ 32 - c))); split_and!.
  all: try zarith. all: intros x Hx E. all: zarith.
Qed.

(** ** Properties *)

(** [C29] [unwrap] returns a 64-bit absolute sequence number that wraps to [n],
    and no other 64-bit number that wraps to [n] is closer to the checkpoint. *)
Theorem unwrap_closest n isn checkpoint :
  wf n -> wf isn -> 0 <= checkpoint < 2 ^ 64 ->
  0 <= unwrap n isn checkpoint < 2 ^ 64 /\
  wrap (unwrap n isn checkpoint) isn = n /\
  (forall x, 0 <= x < 2 ^ 64 -> wrap x isn = n ->
    Z.abs (unwrap n isn checkpoint - checkpoint) <= Z.abs (x - checkpoint)).
Proof.
  intros Hn Hi Hc. rewrite unwrap_eq.
  destruct (unwrap_arith_spec (offset32 n isn) checkpoint) as (Hr & Hw & Hmin);
    [apply u32_range | done |].
  split_and!; try lia.
  - by apply wrap_eq_iff.
  - intros x Hx Ex. apply Hmin; [done |]. by apply wrap_eq_iff.
Qed.

Lemma unwrap_wrap_near x isn checkpoint :
  wf isn -> 0 <= x < 2 ^ 64 -> 0 <= checkpoint < 2 ^ 64 ->
  - 2 ^ 31 < x - checkpoint <= 2 ^ 31 ->
  unwrap (wrap x isn) isn checkpoint = x.
Proof.
  intros Hi Hx Hc Hn. rewrite unwrap_eq, wrap_offset by done.
  unfold unwrap_arith, u64, u32.
  destruct (Z.ltb_spec (Z.abs (x mod 2 ^ 32 + (checkpoint - 2 ^ 31) mod 2 ^ 64 / 2 ^ 32 * 2 ^ 32 - checkpoint))
    (Z.abs (x mod 2 ^ 32 + (checkpoint + 2 ^ 31) mod 2 ^ 64 / 2 ^ 32 * 2 ^ 32 - checkpoint)));
    zarith.
Qed.

(** Round trip: an absolute sequence number survives [wrap] and [unwrap]
    when the checkpoint is within 2^31 of it; a number exactly 2^31 ahead of
    the checkpoint is recovered, so ties go upwards. *)
Theorem unwrap_wrap x isn checkpoint :
  wf isn -> 0 <= x < 2 ^ 64 -> 0 <= checkpoint < 2 ^ 64 ->
  - 2 ^ 31 < x - checkpoint <= 2 ^ 31 ->
  unwrap (wrap x isn) isn checkpoint = x.
Proof. apply unwrap_wrap_near. Qed.

Lemma wf_wrap x isn : wf (wrap x isn).
Proof. apply wf_of_Z. Qed.

Lemma wrap_0 isn : wf isn -> wrap 0 isn = isn.
Proof. intros. apply ext. unfold wf, wrap, of_Z, u32 in *. simpl. zarith. Qed.

Lemma wrap_add x y isn : wrap (x + y) isn = add (wrap x isn) y.
Proof. apply ext. unfold wrap, add, of_Z, u32. simpl. zarith. Qed.

Lemma wrap_u64 x isn : wrap (u64 x) isn = wrap x isn.
Proof. apply ext. unfold wrap, of_Z, u32, u64. simpl. zarith. Qed.

Lemma sub_of_add w x : wf w -> sub (add w x) x = w.
Proof. intros [? ?]. apply ext. unfold sub, add, of_Z, u32. simpl. zarith. Qed.

#[export] Hint Resolve wf_wrap wf_of_Z : sponge.

(** ** Witnesses *)

Lemma unwrap_closest_witness :
  wrap (unwrap (of_Z 4294967295) (of_Z 10) (3 * 2 ^ 32)) (of_Z 10) = of_Z 4294967295 /\
  unwrap (of_Z 4294967295) (of_Z 10) (3 * 2 ^ 32) = 3 * 2 ^ 32 - 11.
Proof.
  split; [| reflexivity].
  apply (unwrap_closest (of_Z 4294967295) (of_Z 10) (3 * 2 ^ 32)); vm_compute; auto; split; congruence.
Defined.

Lemma unwrap_wrap_witness :
  unwrap (wrap (2 ^ 33 + 2 ^ 31) (of_Z 99)) (of_Z 99) (2 ^ 33) = 2 ^ 33 + 2 ^ 31.
Proof. apply unwrap_wrap; vm_compute; auto; split; congruence. Defined.
