(* ===== verification/byte_stream.v ===== *)
(** * byte_stream.hh, byte_stream.cc: the flow-controlled in-memory stream

    [ByteStream.t] holds the class's fields; [Spec] is the abstract contract (a
    bounded FIFO of bytes), which the operations are shown to refine. *)

From S2P Require Import prelude buffer.

Module ByteStream.

Record t : Type := mk {
  _buffer : list Buffer.t;      (** [std::deque<Buffer>] *)
  _capacity : Z;
  _written_cnt : Z;
  _read_cnt : Z;
  _input_ended_flag : bool;
  _error : bool
}.

Definition eta (s : t) : t :=
  mk (_buffer s) (_capacity s) (_written_cnt s) (_read_cnt s) (_input_ended_flag s) (_error s).
#[global] Instance set_buffer : Setter _buffer := ltac:(derive_setter eta _buffer).
#[global] Instance set_written_cnt : Setter _written_cnt := ltac:(derive_setter eta _written_cnt).
#[global] Instance set_read_cnt : Setter _read_cnt := ltac:(derive_setter eta _read_cnt).
#[global] Instance set_input_ended_flag : Setter _input_ended_flag :=
  ltac:(derive_setter eta _input_ended_flag).
#[global] Instance set_error_flag : Setter _error := ltac:(derive_setter eta _error).

(** The constructor. *)
Definition new (capacity : Z) : t := mk [] capacity 0 0 false false.

Definition buffer_size (s : t) : Z := u64 (_written_cnt s - _read_cnt s).

Definition remaining_capacity (s : t) : Z := u64 (_capacity s - buffer_size s).

Definition write (data : list byte) : M t Z := fun s =>
  let ret := Z.min (len data) (remaining_capacity s) in
  (_buffer %= (fun b => b ++ [Buffer.of_string (ztake ret data)]) ;;
   _written_cnt %= (fun c => u64 (c + ret)) ;;
   pure ret) s.

(** The loop of [peek_output] over the buffers. *)
Fixpoint peek_loop (bufs : list Buffer.t) (n : Z) (ret : list byte) : list byte :=
  match bufs with
  | [] => ret
  | buffer :: bufs' =>
      if Buffer.size buffer <=? n
      then peek_loop bufs' (n - Buffer.size buffer) (ret ++ Buffer.str buffer)
      else ret ++ ztake n (Buffer.str buffer)
  end.

Definition peek_output (len_ : Z) (s : t) : list byte :=
  peek_loop (_buffer s) (Z.min len_ (buffer_size s)) [].

(** The loop of [pop_output]; [front()] of an empty deque is undefined. *)
Fixpoint pop_loop (bufs : list Buffer.t) (n : Z) : outcome (list Buffer.t) :=
  if n <=? 0 then Ok bufs
  else match bufs with
  | [] => Throw UndefinedBehavior
  | front :: bufs' =>
      if Buffer.size front <=? n
      then pop_loop bufs' (n - Buffer.size front)
      else front' ← Buffer.remove_prefix n front; Ok (front' :: bufs')
  end.

Definition pop_output (len_ : Z) : M t unit := fun s =>
  let n := Z.min len_ (buffer_size s) in
  (_read_cnt %= (fun c => u64 (c + n)) ;;
   let* bufs := of_outcome (pop_loop (_buffer s) n) in
   _buffer ::= bufs) s.

Definition read (len_ : Z) : M t (list byte) :=
  let* ret := asks (peek_output len_) in
  pop_output len_ ;;
  pure ret.

Definition end_input : M t unit := _input_ended_flag ::= true.
Definition set_error : M t unit := _error ::= true.

Definition input_ended (s : t) : bool := _input_ended_flag s.
Definition error (s : t) : bool := _error s.
Definition buffer_empty (s : t) : bool := buffer_size s =? 0.
Definition eof (s : t) : bool := _input_ended_flag s && buffer_empty s.
Definition bytes_written (s : t) : Z := _written_cnt s.
Definition bytes_read (s : t) : Z := _read_cnt s.

(** ** Invariant

    The bytes a stream holds are the concatenation of its buffers. *)

Definition contents (s : t) : list byte := BufferList.bytes (_buffer s).

Record wf (s : t) : Prop := {
  wf_buffers : BufferList.wf (_buffer s);
  wf_written : 0 <= _written_cnt s < 2 ^ 64;
  wf_read : 0 <= _read_cnt s < 2 ^ 64;
  wf_size : buffer_size s = len (contents s);
  wf_capacity : len (contents s) <= _capacity s < 2 ^ 64
}.

Lemma wf_new capacity : 0 <= capacity < 2 ^ 64 -> wf (new capacity).
Proof. intros. split; simpl; [by apply Forall_nil | lia | lia | done |]. unfold contents, len. simpl. lia. Qed.

Lemma remaining_capacity_eq s : wf s -> remaining_capacity s = _capacity s - len (contents s).
Proof.
  intros [_ _ _ Hs Hc]. unfold remaining_capacity. rewrite Hs. apply u64_small.
  pose proof (len_nonneg (contents s)). lia.
Qed.

Lemma buffer_empty_eq s : wf s -> buffer_empty s = bool_decide (contents s = []).
Proof.
  intros Hwf. unfold buffer_empty. rewrite wf_size by done.
  case_bool_decide as E; [by rewrite E |].
  apply Z.eqb_neq. intros E'. by apply E, len_nil_inv.
Qed.

(** *** write *)

Lemma stream_write_wp data s (Q : Z -> t -> Prop) E :
  wf s ->
  (forall s', wf s' ->
    contents s' = contents s ++ ztake (_capacity s - len (contents s)) data ->
    _capacity s' = _capacity s ->
    _written_cnt s' = u64 (_written_cnt s + Z.min (len data) (_capacity s - len (contents s))) ->
    _read_cnt s' = _read_cnt s ->
    _input_ended_flag s' = _input_ended_flag s -> _error s' = _error s ->
    Q (Z.min (len data) (_capacity s - len (contents s))) s') ->
  wpe (write data) Q E s.
Proof.
  intros Hwf HQ. unfold write, wpe. simpl. rewrite remaining_capacity_eq by done.
  set (n := Z.min (len data) (_capacity s - len (contents s))) in *.
  pose proof (len_nonneg data). pose proof (len_nonneg (contents s)).
  pose proof (wf_capacity _ Hwf) as Hc.
  assert (Hn : ztake n data = ztake (_capacity s - len (contents s)) data).
  { unfold n. destruct (Z.min_spec (len data) (_capacity s - len (contents s))) as [[? ->]|[? ->]]; [|done].
    rewrite !ztake_ge; [done | lia | lia]. }
  assert (Hlen : len (contents s ++ ztake n data) = len (contents s) + n).
  { rewrite len_app, len_ztake. lia. }
  assert (Hcont : BufferList.bytes (_buffer s ++ [Buffer.of_string (ztake n data)])
    = contents s ++ ztake n data).
  { rewrite BufferList.bytes_app, BufferList.bytes_cons, Buffer.str_of_string.
    unfold BufferList.bytes at 2. simpl. by rewrite app_nil_r. }
  apply HQ; simpl; try done.
  - destruct Hwf as [Hb Hw Hr Hs _]. split; unfold contents, buffer_size in *; simpl in *;
      rewrite ?Hcont.
    + apply Forall_app; split; [done |]. constructor; [| done].
      apply Buffer.wf_of_string. rewrite len_ztake. lia.
    + auto with sponge.
    + done.
    + rewrite Hlen, <- Hs. unfold u64 in *. zarith.
    + lia.
  - unfold contents at 1. simpl. by rewrite Hcont, Hn.
Qed.

(** *** peek and pop *)

Lemma peek_loop_eq bufs n ret :
  0 <= n -> peek_loop bufs n ret = ret ++ ztake n (BufferList.bytes bufs).
Proof.
  revert n ret. induction bufs as [|b bufs IH]; intros n ret Hn; simpl.
  - unfold BufferList.bytes, ztake. simpl. by rewrite take_nil, app_nil_r.
  - rewrite BufferList.bytes_cons. unfold Buffer.size.
    destruct (Z.leb_spec (len (Buffer.str b)) n).
    + rewrite IH by lia. by rewrite ztake_app_ge, app_assoc.
    + by rewrite ztake_app_le by lia.
Qed.

Lemma peek_output_eq s n : wf s -> 0 <= n -> peek_output n s = ztake n (contents s).
Proof.
  intros Hwf Hn. unfold peek_output. rewrite wf_size by done.
  pose proof (len_nonneg (contents s)). rewrite peek_loop_eq by lia. simpl. fold (contents s).
  destruct (Z.min_spec n (len (contents s))) as [[? ->]|[? ->]]; [done |].
  by rewrite !ztake_ge by lia.
Qed.

Lemma pop_loop_eq bufs n :
  BufferList.wf bufs -> n <= len (BufferList.bytes bufs) ->
  exists bufs', pop_loop bufs n = Ok bufs' /\ BufferList.wf bufs' /\
    BufferList.bytes bufs' = zdrop n (BufferList.bytes bufs).
Proof.
  revert n. induction bufs as [|b bufs IH]; intros n Hwf Hn; simpl.
  - unfold BufferList.bytes, len in Hn. simpl in Hn. rewrite (proj2 (Z.leb_le _ _)) by lia.
    eexists; split_and!; [done | done |]. by rewrite zdrop_nonpos.
  - destruct (Z.leb_spec n 0).
    { eexists; split_and!; [done | done |]. by rewrite zdrop_nonpos. }
    inversion Hwf as [|? ? Hb Hl]; subst. rewrite BufferList.bytes_cons, len_app in *.
    unfold Buffer.size. destruct (Z.leb_spec (len (Buffer.str b)) n).
    + destruct (IH (n - len (Buffer.str b))) as (bufs' & -> & Hwf' & E); [done | lia |].
      eexists; split_and!; [done | done |]. by rewrite E, zdrop_app_ge.
    + destruct (Buffer.remove_prefix_str b n) as (b' & E & Es & Hwf'); [done | unfold Buffer.size; lia |].
      rewrite E. eexists; split_and!; [done | by constructor |].
      by rewrite BufferList.bytes_cons, Es, zdrop_app_le by lia.
Qed.

Lemma pop_output_wp n s (Q : unit -> t -> Prop) E :
  wf s -> 0 <= n ->
  (forall s', wf s' ->
    contents s' = zdrop n (contents s) ->
    _capacity s' = _capacity s ->
    _written_cnt s' = _written_cnt s ->
    _read_cnt s' = u64 (_read_cnt s + Z.min n (len (contents s))) ->
    _input_ended_flag s' = _input_ended_flag s -> _error s' = _error s ->
    Q tt s') ->
  wpe (pop_output n) Q E s.
Proof.
  intros Hwf Hn HQ. unfold pop_output, wpe. simpl. rewrite (wf_size s) by done.
  pose proof (len_nonneg (contents s)).
  set (k := Z.min n (len (contents s))) in *.
  assert (Hk : zdrop k (contents s) = zdrop n (contents s)).
  { unfold k. destruct (Z.min_spec n (len (contents s))) as [[? ->]|[? ->]]; [done |].
    by rewrite !zdrop_ge by lia. }
  destruct (pop_loop_eq (_buffer s) k) as (bufs' & Epop & Hwf' & Eb);
    [apply Hwf | unfold k, contents; lia |].
  unfold bind, of_outcome. simpl. rewrite Epop. simpl. apply HQ; simpl; try done.
  - destruct Hwf as [_ Hw Hr Hs Hc]. split; unfold contents, buffer_size in *; simpl in *.
    + done.
    + done.
    + auto with sponge.
    + rewrite Eb, len_zdrop, Z.max_r by lia. unfold u64 in *. zarith.
    + rewrite Eb, len_zdrop, Z.max_r by lia. lia.
  - by rewrite <- Hk.
Qed.

Lemma stream_read_wp n s (Q : list byte -> t -> Prop) E :
  wf s -> 0 <= n ->
  (forall s', wf s' ->
    contents s' = zdrop n (contents s) ->
    _capacity s' = _capacity s ->
    _written_cnt s' = _written_cnt s ->
    _read_cnt s' = u64 (_read_cnt s + Z.min n (len (contents s))) ->
    _input_ended_flag s' = _input_ended_flag s -> _error s' = _error s ->
    Q (ztake n (contents s)) s') ->
  wpe (read n) Q E s.
Proof.
  intros Hwf Hn HQ. unfold read. wp_steps. rewrite peek_output_eq by done.
  apply pop_output_wp; [done | done |]. intros. by apply HQ.
Qed.

Lemma end_input_wf s : wf s -> wf (setf _input_ended_flag true s).
Proof. intros [? ? ? ? ?]. by split. Qed.

Lemma set_error_wf s : wf s -> wf (setf _error true s).
Proof. intros [? ? ? ? ?]. by split. Qed.
End ByteStream.

(** ** The contract

    A stream is the log of all the bytes it has ever accepted, with a cursor:
    writing appends what fits in the capacity, reading returns the bytes after
    the cursor and moves it. *)

Module Spec.
Record t : Type := mk {
  log : list byte;
  cursor : Z;
  capacity : Z;
  ended : bool;
  failed : bool
}.

Definition new (capacity : Z) : t := mk [] 0 capacity false false.

Definition room (a : t) : Z := capacity a - (len (log a) - cursor a).

Definition write (data : list byte) (a : t) : Z * t :=
  (Z.min (len data) (room a),
   mk (log a ++ ztake (room a) data) (cursor a) (capacity a) (ended a) (failed a)).

Definition peek (n : Z) (a : t) : list byte :=
  slice (cursor a) (Z.min (cursor a + n) (len (log a))) (log a).

Definition pop (n : Z) (a : t) : t :=
  mk (log a) (Z.min (cursor a + n) (len (log a))) (capacity a) (ended a) (failed a).
End Spec.

(** The operations of the class, as a client sees them. *)
Inductive op : Type :=
| Write (data : list byte)
| Peek_output (n : Z)
| Pop_output (n : Z)
| Read (n : Z)
| End_input
| Set_error.

(** What the client gets back: a count, or bytes. *)
Inductive reply : Type :=
| Count (n : Z)
| Bytes (bs : list byte)
| Done.

Definition op_ok (o : op) : Prop :=
  match o with
  | Peek_output n | Pop_output n | Read n => 0 <= n
  | _ => True
  end.

Definition exec (o : op) : M ByteStream.t reply :=
  match o with
  | Write data => let* n := ByteStream.write data in pure (Count n)
  | Peek_output n => let* bs := asks (ByteStream.peek_output n) in pure (Bytes bs)
  | Pop_output n => ByteStream.pop_output n ;; pure Done
  | Read n => let* bs := ByteStream.read n in pure (Bytes bs)
  | End_input => ByteStream.end_input ;; pure Done
  | Set_error => ByteStream.set_error ;; pure Done
  end.

(** Once the input has ended nothing more can be written. *)
Definition spec_exec (o : op) (a : Spec.t) : reply * Spec.t :=
  match o with
  | Write data =>
      if Spec.ended a then (Count 0, a)
      else let '(n, a') := Spec.write data a in (Count n, a')
  | Peek_output n => (Bytes (Spec.peek n a), a)
  | Pop_output n => (Done, Spec.pop n a)
  | Read n => (Bytes (Spec.peek n a), Spec.pop n a)
  | End_input => (Done, Spec.mk (Spec.log a) (Spec.cursor a) (Spec.capacity a) true (Spec.failed a))
  | Set_error => (Done, Spec.mk (Spec.log a) (Spec.cursor a) (Spec.capacity a) (Spec.ended a) true)
  end.

Fixpoint exec_all (ops : list op) : M ByteStream.t (list reply) :=
  match ops with
  | [] => pure []
  | o :: ops' => let* r := exec o in let* rs := exec_all ops' in pure (r :: rs)
  end.

Fixpoint spec_exec_all (ops : list op) (a : Spec.t) : list reply * Spec.t :=
  match ops with
  | [] => ([], a)
  | o :: ops' =>
      let '(r, a1) := spec_exec o a in
      let '(rs, a2) := spec_exec_all ops' a1 in (r :: rs, a2)
  end.

(** The writer's part of the contract: no call of [write] after [end_input]. *)
Fixpoint writer_ok (ended : bool) (ops : list op) : bool :=
  match ops with
  | [] => true
  | Write _ :: ops' => negb ended && writer_ok ended ops'
  | End_input :: ops' => writer_ok true ops'
  | _ :: ops' => writer_ok ended ops'
  end.

(** The simulation relation. *)
Record refines (s : ByteStream.t) (a : Spec.t) : Prop := {
  ref_wf : ByteStream.wf s;
  ref_cursor : 0 <= Spec.cursor a <= len (Spec.log a);
  ref_contents : ByteStream.contents s = zdrop (Spec.cursor a) (Spec.log a);
  ref_capacity : ByteStream._capacity s = Spec.capacity a;
  ref_written : ByteStream._written_cnt s = u64 (len (Spec.log a));
  ref_read : ByteStream._read_cnt s = u64 (Spec.cursor a);
  ref_ended : ByteStream._input_ended_flag s = Spec.ended a;
  ref_failed : ByteStream._error s = Spec.failed a
}.

Lemma refines_new capacity :
  0 <= capacity < 2 ^ 64 -> refines (ByteStream.new capacity) (Spec.new capacity).
Proof. intros. split; try done. by apply ByteStream.wf_new. Qed.

Lemma refines_size s a :
  refines s a -> len (ByteStream.contents s) = len (Spec.log a) - Spec.cursor a.
Proof. intros []. rewrite ref_contents0, len_zdrop. lia. Qed.

Lemma write_refines data s a E :
  refines s a ->
  wpe (ByteStream.write data)
    (fun n s' => n = (Spec.write data a).1 /\ refines s' (Spec.write data a).2) E s.
Proof.
  intros R. pose proof (refines_size _ _ R) as Hlen. destruct R.
  apply ByteStream.stream_write_wp; [done |].
  intros s' Hwf' Ec Ecap Ew Er Ee Eer. unfold Spec.write, Spec.room. simpl.
  rewrite <- ref_capacity0, <- Hlen. split; [done |].
  split; simpl; try congruence.
  - rewrite len_app. pose proof (len_nonneg (ztake (ByteStream._capacity s - len (ByteStream.contents s)) data)). lia.
  - rewrite zdrop_app_le by lia. by rewrite Ec, ref_contents0.
  - rewrite Ew, ref_written0, len_app, len_ztake. pose proof (len_nonneg data).
    pose proof (ByteStream.wf_capacity _ ref_wf0). unfold u64. zarith.
Qed.

Lemma peek_refines n s a :
  refines s a -> 0 <= n -> ByteStream.peek_output n s = Spec.peek n a.
Proof.
  intros [] Hn. rewrite ByteStream.peek_output_eq by done. rewrite ref_contents0.
  unfold Spec.peek, slice. destruct (Z.min_spec (Spec.cursor a + n) (len (Spec.log a))) as [[? ->]|[? ->]].
  - f_equal. lia.
  - rewrite !ztake_ge; [done | |]; rewrite len_zdrop; lia.
Qed.

Lemma pop_refines n s a E :
  refines s a -> 0 <= n ->
  wpe (ByteStream.pop_output n) (fun _ s' => refines s' (Spec.pop n a)) E s.
Proof.
  intros R Hn. pose proof (refines_size _ _ R) as Hlen. destruct R.
  apply ByteStream.pop_output_wp; [done | done |].
  intros s' Hwf' Ec Ecap Ew Er Ee Eer. unfold Spec.pop.
  split; simpl; try congruence.
  - lia.
  - rewrite Ec, ref_contents0. destruct (Z.min_spec (Spec.cursor a + n) (len (Spec.log a))) as [[? ->]|[? ->]].
    + rewrite zdrop_zdrop by lia. f_equal.
    + rewrite !zdrop_ge; [done | lia |]. rewrite len_zdrop. lia.
  - rewrite Er, ref_read0, Hlen. unfold u64. zarith.
Qed.

Lemma read_refines n s a E :
  refines s a -> 0 <= n ->
  wpe (ByteStream.read n) (fun bs s' => bs = Spec.peek n a /\ refines s' (Spec.pop n a)) E s.
Proof.
  intros R Hn. unfold ByteStream.read. wp_step. wp_step. rewrite (peek_refines _ _ _ R Hn).
  wp_step. eapply wp_mono; [by apply pop_refines |]. intros [] s' HR. by wp_step.
Qed.

Lemma exec_refines o s a :
  refines s a -> op_ok o -> writer_ok (Spec.ended a) [o] = true ->
  wp (exec o) (fun r s' => r = (spec_exec o a).1 /\ refines s' (spec_exec o a).2) s.
Proof.
  intros R Ho Hw. destruct o as [data|n|n|n| |]; simpl in Ho; cbn [exec spec_exec].
  - simpl in Hw. replace (Spec.ended a) with false by (by destruct (Spec.ended a)).
    wp_step. eapply wp_mono; [by apply write_refines |]. intros k s' [-> HR].
    destruct (Spec.write data a). by wp_steps.
  - wp_steps. by rewrite (peek_refines _ _ a) by done.
  - wp_step. eapply wp_mono; [by apply pop_refines |]. intros [] s' HR. by wp_steps.
  - wp_step. eapply wp_mono; [by apply read_refines |]. intros bs s' [-> HR]. by wp_steps.
  - wp_steps. split; [done |]. destruct R. split; try done. by apply ByteStream.end_input_wf.
  - wp_steps. split; [done |]. destruct R. split; try done. by apply ByteStream.set_error_wf.
Qed.

Lemma writer_ok_cons o ops a :
  writer_ok (Spec.ended a) (o :: ops) = true ->
  writer_ok (Spec.ended a) [o] = true /\ writer_ok (Spec.ended (spec_exec o a).2) ops = true.
Proof. destruct o; simpl; by destruct (Spec.ended a). Qed.

Lemma exec_all_refines ops s a :
  refines s a -> Forall op_ok ops -> writer_ok (Spec.ended a) ops = true ->
  wp (exec_all ops) (fun rs s' => rs = (spec_exec_all ops a).1 /\ refines s' (spec_exec_all ops a).2) s.
Proof.
  intros R Ho. revert s a R. induction Ho as [|o ops Ho Hops IH]; intros s a R Hw.
  - simpl. by wp_steps.
  - apply writer_ok_cons in Hw as [Hw1 Hw2]. simpl exec_all. simpl spec_exec_all.
    wp_step. eapply wp_mono; [by apply exec_refines |]. intros r s1 [-> R1].
    destruct (spec_exec o a) as [r a1]. simpl in R1, Hw2.
    wp_step. eapply wp_mono; [by apply IH |]. intros rs s2 [-> R2].
    destruct (spec_exec_all ops a1) as [rs a2]. by wp_steps.
Qed.

(** ** Properties *)

(** [C8] Refinement: every sequence of calls on a fresh stream in which nothing is
    written after [end_input] returns normally, with the counts and bytes the
    append-only-log contract gives, and leaves a stream whose buffers, counters and
    flags represent the contract's state.  The contract takes no bytes once the input
    has ended; that the writer keeps to it is a hypothesis, since [write] itself does
    not look at the flag ([write_after_end_input]). *)
Theorem byte_stream_refinement capacity ops :
  0 <= capacity < 2 ^ 64 -> Forall op_ok ops -> writer_ok false ops = true ->
  exists rs s', exec_all ops (ByteStream.new capacity) = (Ok rs, s') /\
    rs = (spec_exec_all ops (Spec.new capacity)).1 /\
    refines s' (spec_exec_all ops (Spec.new capacity)).2.
Proof.
  intros Hc Hops Hw. apply (wp_run (exec_all ops)), exec_all_refines; [| done | done].
  by apply refines_new.
Qed.

(** [write] takes no notice of [end_input]: a stream whose input has ended
    still accepts, counts and stores every byte that fits. *)
Theorem write_after_end_input data s :
  ByteStream.wf s -> ByteStream.input_ended s = true ->
  exists s', ByteStream.write data s
      = (Ok (Z.min (len data) (ByteStream.remaining_capacity s)), s') /\
    ByteStream.contents s'
      = ByteStream.contents s ++ ztake (ByteStream.remaining_capacity s) data /\
    ByteStream.input_ended s' = true.
Proof.
  intros Hwf He. rewrite ByteStream.remaining_capacity_eq by done.
  destruct (proj1 (wp_run (ByteStream.write data)
    (fun n s' => n = Z.min (len data) (ByteStream._capacity s - len (ByteStream.contents s)) /\
      ByteStream.contents s' = ByteStream.contents s ++
        ztake (ByteStream._capacity s - len (ByteStream.contents s)) data /\
      ByteStream.input_ended s' = true) s)) as (n & s' & E & -> & ? & ?); [| eauto].
  apply ByteStream.stream_write_wp; [done |]. intros s' _ Ec _ _ _ Ee _. split_and!; try done.
  unfold ByteStream.input_ended in *. congruence.
Qed.

(** ** Witnesses *)

Definition demo_ops : list op :=
  [Write [x61; x62; x63]; Peek_output 1; Read 2; Write [x64; x65; x66]; End_input; Pop_output 1; Read 9].

Lemma byte_stream_refinement_witness :
  exists rs s', exec_all demo_ops (ByteStream.new 4) = (Ok rs, s') /\
    rs = [Count 3; Bytes [x61]; Bytes [x61; x62]; Count 3; Done; Done; Bytes [x64; x65; x66]].
Proof.
  destruct (byte_stream_refinement 4 demo_ops) as (rs & s' & E & Er & _).
  - lia.
  - repeat constructor; simpl; lia.
  - reflexivity.
  - exists rs, s'. split; [exact E | rewrite Er; reflexivity].
Defined.

Lemma write_after_end_input_witness :
  exists s', ByteStream.write [x61] (setf ByteStream._input_ended_flag true (ByteStream.new 4))
      = (Ok 1, s') /\ ByteStream.contents s' = [x61] /\ ByteStream.input_ended s' = true.
Proof.
  destruct (write_after_end_input [x61] (setf ByteStream._input_ended_flag true (ByteStream.new 4)))
    as (s' & E & Ec & Ee).
  - apply ByteStream.end_input_wf, ByteStream.wf_new. lia.
  - reflexivity.
  - exists s'. rewrite E, Ec, Ee. vm_compute. auto.
Defined.
