(* ===== verification/stream_reassembler.v ===== *)
(** * stream_reassembler.hh, stream_reassembler.cc: reassembly of substrings

    The class keeps a ring of [_capacity] slots; slot [i % _capacity] holds
    byte [i] of the stream while it waits for the bytes before it. *)

From S2P Require Import prelude buffer byte_stream.

Module StreamReassembler.

Record t : Type := mk {
  _output : ByteStream.t;
  _capacity : Z;
  _stream : list (byte * bool);   (** [std::vector<std::pair<char, bool>>] *)
  _cur_index : Z;
  _eof_index : Z;
  _unassembled_bytes_cnt : Z
}.

Definition eta (r : t) : t :=
  mk (_output r) (_capacity r) (_stream r) (_cur_index r) (_eof_index r) (_unassembled_bytes_cnt r).
#[global] Instance set_output : Setter _output := ltac:(derive_setter eta _output).
#[global] Instance set_stream : Setter _stream := ltac:(derive_setter eta _stream).
#[global] Instance set_cur_index : Setter _cur_index := ltac:(derive_setter eta _cur_index).
#[global] Instance set_eof_index : Setter _eof_index := ltac:(derive_setter eta _eof_index).
#[global] Instance set_unassembled_bytes_cnt : Setter _unassembled_bytes_cnt :=
  ltac:(derive_setter eta _unassembled_bytes_cnt).

Definition new (capacity : Z) : t :=
  mk (ByteStream.new capacity) capacity (replicate (Z.to_nat capacity) (x00, false)) 0 UINT64_MAX 0.

(** [_stream[i % _capacity]]; the remainder by zero is undefined. *)
Definition slot (i : Z) : M t (byte * bool) := fun r =>
  (if _capacity r =? 0 then throw UndefinedBehavior
   else or_ub (zlookup (_stream r) (i mod _capacity r))) r.

(** [_stream[i % _capacity] = v], after a read of the same slot. *)
Definition set_slot (i : Z) (v : byte * bool) : M t unit := fun r =>
  (_stream %= zinsert (i mod _capacity r) v) r.

(** [data[j]]: the character after the last one is the terminator. *)
Definition char_at (data : list byte) (j : Z) : option byte :=
  if j =? len data then Some x00 else zlookup data j.

Definition inconsistent_substrings : exn :=
  Runtime_error "StreamReassembler::push_substring: Inconsistent substrings!".
Definition inconsistent_eof : exn :=
  Runtime_error "StreamReassembler::push_substring: Inconsistent EOF indexes!".

(** The first loop: store the bytes [i], ..., [ed - 1]. *)
Fixpoint store_loop (fuel : nat) (data : list byte) (i j ed : Z) : M t unit :=
  if ed <=? i then pure tt
  else match fuel with
  | O => throw OutOfFuel
  | S fuel =>
      let* p := slot i in
      let* c := or_ub (char_at data j) in
      (if p.2 then
         (if decide (p.1 = c) then pure tt else throw inconsistent_substrings)
       else
         set_slot i (c, true) ;;
         _unassembled_bytes_cnt %= (fun n => u64 (n + 1))) ;;
      store_loop fuel data (u64 (i + 1)) (u64 (j + 1)) ed
  end.

(** The second loop: take the contiguous bytes out of the ring. *)
Fixpoint drain_loop (fuel : nat) (str : list byte) : M t (list byte) :=
  match fuel with
  | O => throw OutOfFuel
  | S fuel =>
      let* cur := asks _cur_index in
      let* eof := asks _eof_index in
      if cur <? eof then
        let* p := slot cur in
        if p.2 then
          set_slot cur (x00, false) ;;
          _unassembled_bytes_cnt %= (fun n => u64 (n - 1)) ;;
          _cur_index %= (fun n => u64 (n + 1)) ;;
          drain_loop fuel (str ++ [p.1])
        else pure str
      else pure str
  end.

Definition push_substring (data : list byte) (index : Z) (eof : bool) : M t unit :=
  let* st := asks (fun r => Z.max index (_cur_index r)) in
  let* ed := asks (fun r =>
    Z.min (u64 (index + len data))
      (Z.min (u64 (u64 (_cur_index r + _capacity r) - ByteStream.buffer_size (_output r)))
         (_eof_index r))) in
  let* eof_index := asks _eof_index in
  (if eof then
     if eof_index =? UINT64_MAX then _eof_index ::= u64 (index + len data)
     else if negb (eof_index =? u64 (index + len data)) then throw inconsistent_eof
     else pure tt
   else pure tt) ;;
  store_loop (Z.to_nat (ed - st)) data st (u64 (st - index)) ed ;;
  let* capacity := asks _capacity in
  let* str := drain_loop (S (Z.to_nat capacity)) [] in
  zoom _output (ByteStream.write str) ;;
  let* cur := asks _cur_index in
  let* eof_index := asks _eof_index in
  when (cur =? eof_index) (zoom _output ByteStream.end_input).

Definition stream_out (r : t) : ByteStream.t := _output r.
Definition unassembled_bytes (r : t) : Z := _unassembled_bytes_cnt r.
Definition empty (r : t) : bool := unassembled_bytes r =? 0.

(** ** Invariant *)

(** The byte waiting at stream index [i], if the ring holds it. *)
Definition pending (r : t) (i : Z) : option byte :=
  match zlookup (_stream r) (i mod _capacity r) with
  | Some (b, true) => Some b
  | _ => None
  end.

(** The number of occupied slots. *)
Definition occupied (l : list (byte * bool)) : Z := len (List.filter snd l).

Lemma occupied_insert l k p q :
  zlookup l k = Some p ->
  occupied (zinsert k q l) = occupied l - (if p.2 then 1 else 0) + (if q.2 then 1 else 0).
Proof.
  intros Hk. pose proof (zlookup_Some_range _ _ _ Hk) as Hr.
  unfold zlookup in Hk. rewrite decide_True in Hk by lia.
  unfold occupied, zinsert, len. rewrite insert_take_drop by (apply lookup_lt_is_Some_1; eauto).
  rewrite <- (take_drop_middle l (Z.to_nat k) p) at 3 by done.
  rewrite !List.filter_app, !length_app. simpl.
  destruct p as [? []], q as [? []]; simpl; lia.
Qed.

Lemma occupied_bound l : 0 <= occupied l <= len l.
Proof.
  unfold occupied, len. pose proof (List.filter_length_le snd l). lia.
Qed.

(** Two indexes of one window do not share a slot. *)
Lemma window_inj c w i j :
  0 < c -> w <= i < w + c -> w <= j < w + c -> i mod c = j mod c -> i = j.
Proof.
  intros Hc Hi Hj E.
  pose proof (Z.div_mod i c) as Di. pose proof (Z.div_mod j c) as Dj.
  assert (i / c = j / c) by nia. lia.
Qed.

(** Every slot belongs to an index of the window. *)
Lemma window_slot c w p : 0 < c -> 0 <= p < c -> exists k, w <= k < w + c /\ k mod c = p.
Proof.
  intros Hc Hp. exists (w + (p - w) mod c). pose proof (Z.mod_pos_bound (p - w) c Hc).
  split; [lia |]. rewrite Zplus_mod_idemp_r. replace (w + (p - w)) with p by lia.
  by apply Z.mod_small.
Qed.

(** [core P L rd r]: [L] is the log of all the bytes assembled so far, [rd] the
    number of them the reader has consumed, and every byte kept or assembled at
    index [k] satisfies [P k].  Nothing is assumed of the peer when [P] is
    trivial; a well-behaved peer is one whose bytes satisfy "[P k b] iff [b] is
    byte [k] of the stream". *)
Record core (P : Z -> byte -> Prop) (L : list byte) (rd : Z) (r : t) : Prop := {
  core_cap : 0 < _capacity r;
  core_fit : rd + 2 * _capacity r < 2 ^ 64;
  core_ring : len (_stream r) = _capacity r;
  core_cur : _cur_index r = len L;
  core_rd : 0 <= rd <= len L;
  core_lim : len L <= rd + _capacity r;
  core_log : forall k b, zlookup L k = Some b -> P k b;
  core_pending : forall k b, len L <= k < len L + _capacity r -> pending r k = Some b ->
    k < rd + _capacity r /\ P k b;
  core_eof : 0 <= _eof_index r < 2 ^ 64;
  core_count : _unassembled_bytes_cnt r = occupied (_stream r)
}.

(** The output stream holds the log. *)
Definition output_ok (L : list byte) (rd : Z) (r : t) : Prop :=
  refines (_output r)
    (Spec.mk L rd (_capacity r) (ByteStream.input_ended (_output r)) (ByteStream.error (_output r))).

Lemma slot_wp i r (Q : byte * bool -> t -> Prop) E :
  0 < _capacity r -> len (_stream r) = _capacity r ->
  (forall p, zlookup (_stream r) (i mod _capacity r) = Some p ->
    pending r i = (if p.2 then Some p.1 else None) -> Q p r) ->
  wpe (slot i) Q E r.
Proof.
  intros Hc Hl HQ. unfold slot, wpe. rewrite (proj2 (Z.eqb_neq _ _)) by lia.
  destruct (zlookup_lt_is_Some (_stream r) (i mod _capacity r)) as [p Hp].
  { rewrite Hl. apply Z.mod_pos_bound. lia. }
  rewrite Hp. simpl. apply HQ; [done |]. unfold pending. rewrite Hp. by destruct p as [? []].
Qed.

Lemma set_slot_wp i v r (Q : unit -> t -> Prop) E :
  Q tt (upd _stream (zinsert (i mod _capacity r) v) r) -> wpe (set_slot i v) Q E r.
Proof. done. Qed.

(** Writing slot [i] changes what is pending at [i] and nowhere else in the window. *)
Lemma pending_set r i v k w :
  0 < _capacity r -> len (_stream r) = _capacity r ->
  w <= i < w + _capacity r -> w <= k < w + _capacity r ->
  pending (upd _stream (zinsert (i mod _capacity r) v) r) k =
    if decide (k = i) then (if v.2 then Some v.1 else None) else pending r k.
Proof.
  intros Hc Hl Hi Hk. unfold pending. simpl.
  pose proof (Z.mod_pos_bound i (_capacity r) Hc).
  case_decide as E.
  - subst k. rewrite zlookup_zinsert_eq by lia. by destruct v as [? []].
  - rewrite zlookup_zinsert_ne; [done | lia |]. intros E'. apply E.
    symmetry in E'. by eapply (window_inj (_capacity r) w).
Qed.

(** What the loops leave alone. *)
Definition same_frame (r r' : t) : Prop :=
  _output r' = _output r /\ _capacity r' = _capacity r /\ _eof_index r' = _eof_index r.

(** Storing a byte that satisfies [P] in a free slot of the window. *)
Lemma core_store P L rd r i c p :
  core P L rd r -> len L <= i < rd + _capacity r -> P i c ->
  zlookup (_stream r) (i mod _capacity r) = Some p -> p.2 = false ->
  core P L rd (upd _unassembled_bytes_cnt (fun n => u64 (n + 1))
    (upd _stream (zinsert (i mod _capacity r) (c, true)) r)).
Proof.
  intros [] Hi HP Hp Hf.
  assert (Hset : forall k, len L <= k < len L + _capacity r ->
    pending (upd _stream (zinsert (i mod _capacity r) (c, true)) r) k =
      if decide (k = i) then Some c else pending r k).
  { intros k Hk. rewrite (pending_set r i (c, true) k (len L)); auto; lia. }
  split; try done; simpl.
  - by rewrite len_zinsert.
  - intros k b Hk Hb.
    change (pending (upd _stream (zinsert (i mod _capacity r) (c, true)) r) k = Some b) in Hb.
    rewrite Hset in Hb by done. case_decide; [simplify_eq; split; [lia | done] | by apply core_pending0].
  - rewrite (occupied_insert _ _ p) by done. rewrite Hf. simpl.
    pose proof (occupied_bound (_stream r)). rewrite core_count0, u64_small; lia.
Qed.

Lemma store_loop_wp P L rd data index ed fuel i r :
  core P L rd r -> 0 <= index <= i -> len L <= i ->
  (i < ed -> ed <= rd + _capacity r /\ ed <= index + len data) ->
  ed - i <= Z.of_nat fuel ->
  (forall k c, zlookup data k = Some c -> P (index + k) c) ->
  wpe (store_loop fuel data i (i - index) ed)
    (fun _ r' => core P L rd r' /\ same_frame r r' /\
      forall k, len L <= k < len L + _capacity r ->
        pending r' k = if decide (i <= k < ed) then zlookup data (k - index) else pending r k)
    (fun e r' => e = inconsistent_substrings /\ core P L rd r' /\ same_frame r r' /\
      exists k b c, P k b /\ P k c /\ b <> c) r.
Proof.
  revert i r. induction fuel as [|fuel IH]; intros i r Hcore Hidx Hi Hed Hfuel HP; simpl.
  { destruct (Z.leb_spec ed i); [| lia]. wp_step. split_and!; try done.
    intros k Hk. by rewrite decide_False by lia. }
  destruct (Z.leb_spec ed i) as [|Hlt].
  { wp_step. split_and!; try done. intros k Hk. by rewrite decide_False by lia. }
  destruct (Hed Hlt) as [Hlim Hdata]. pose proof Hcore as Hcore'. destruct Hcore'.
  destruct (zlookup_lt_is_Some data (i - index)) as [c Hc]; [lia |].
  assert (HPc : P i c). { replace i with (index + (i - index)) by lia. by apply HP. }
  wp_step. apply slot_wp; [done | done |]. intros [b f] Hp Hpend.
  wp_step. eapply wp_or_ub.
  { unfold char_at. rewrite (proj2 (Z.eqb_neq _ _)) by lia. exact Hc. }
  rewrite !u64_small by lia. replace (i - index + 1) with (i + 1 - index) by lia.
  wp_step. destruct f; simpl in *.
  - destruct (decide (b = c)) as [->|Hbc].
    + wp_step. eapply wp_mono; [apply IH; auto; lia |].
      intros _ r' (HC & HF & Hk). split_and!; [done | done |]. intros k Hkr. rewrite Hk by done.
      repeat case_decide; try done; try lia. replace k with i in * by lia. congruence.
    + wp_step. split_and!; [done | done | done |].
      destruct (core_pending0 i b) as [_ Hb]; [lia | done |]. by exists i, b, c.
  - wp_step. apply set_slot_wp. wp_step.
    assert (Hcore1 := core_store P L rd r i c _ Hcore ltac:(lia) HPc Hp eq_refl).
    eapply wp_mono_exn; [apply IH; auto; simpl; lia | |].
    + intros _ r' (HC & HF & Hk). split_and!; [done | done |]. intros k Hkr.
      rewrite Hk by done.
      change (pending (upd _unassembled_bytes_cnt (fun n => u64 (n + 1)) ?r) k) with (pending r k).
      rewrite (pending_set r i (c, true) k (len L)) by (auto; lia).
      repeat case_decide; try done; try lia. subst k. by simpl.
    + intros e r' (-> & HC & HF & Hk). by split_and!.
Qed.

(** Taking the byte at the head of the window out of the ring. *)
Definition take_head (r : t) : t :=
  upd _cur_index (fun n => u64 (n + 1)) (upd _unassembled_bytes_cnt (fun n => u64 (n - 1))
    (upd _stream (zinsert (_cur_index r mod _capacity r) (x00, false)) r)).

Lemma take_head_pending P L rd r k :
  core P L rd r -> len L < k <= len L + _capacity r ->
  pending (take_head r) k = if decide (k = len L + _capacity r) then None else pending r k.
Proof.
  intros [] Hk. unfold take_head.
  change (pending (upd _cur_index ?f (upd _unassembled_bytes_cnt ?g ?r)) k) with (pending r k).
  rewrite core_cur0. case_decide as E.
  - unfold pending. simpl. subst k.
    replace (len L + _capacity r) with (len L + 1 * _capacity r) by lia.
    rewrite Z.mod_add by lia.
    rewrite zlookup_zinsert_eq; [done |]. rewrite core_ring0. apply Z.mod_pos_bound. lia.
  - rewrite (pending_set r (len L) (x00, false) k (len L)) by (auto; lia).
    by rewrite decide_False by lia.
Qed.

Lemma core_take_head P L rd r b :
  core P L rd r -> pending r (len L) = Some b -> core P (L ++ [b]) rd (take_head r).
Proof.
  intros Hcore Hb. pose proof (fun k => take_head_pending P L rd r k Hcore) as Hth.
  destruct Hcore. destruct (core_pending0 (len L) b) as [Hlim HPb]; [lia | done |].
  assert (Hl : len (L ++ [b]) = len L + 1) by (by rewrite len_app).
  split; simpl; rewrite ?Hl; try lia; auto.
  - by rewrite len_zinsert.
  - rewrite core_cur0. apply u64_small. lia.
  - intros k c Hk. destruct (Z.lt_ge_cases k (len L)).
    + rewrite zlookup_app_l in Hk by done. auto.
    + rewrite zlookup_app_r in Hk by done. apply zlookup_Some_range in Hk as Hr.
      rewrite len_singleton in Hr. replace k with (len L) in * by lia.
      rewrite Z.sub_diag, zlookup_cons_0 in Hk. by simplify_eq.
  - intros k c Hk Hc. change (_capacity (take_head r)) with (_capacity r) in Hk.
    rewrite Hth in Hc by lia. case_decide; [done |]. apply core_pending0; [lia | done].
  - unfold pending in Hb. rewrite core_cur0.
    destruct (zlookup (_stream r) (len L mod _capacity r)) as [[b' []]|] eqn:Ep; simplify_eq.
    rewrite (occupied_insert _ _ _ _ Ep). simpl. rewrite core_count0.
    pose proof (occupied_bound (_stream r)).
    pose proof (occupied_bound (zinsert (len L mod _capacity r) (x00, false) (_stream r))) as Hb2.
    rewrite (occupied_insert _ _ _ _ Ep) in Hb2. simpl in Hb2. rewrite u64_small; lia.
Qed.

Lemma drain_loop_wp P rd fuel L str r :
  core P L rd r -> rd + _capacity r - len L < Z.of_nat fuel ->
  wp (drain_loop fuel str) (fun str' r' => exists new,
    str' = str ++ new /\ core P (L ++ new) rd r' /\ same_frame r r' /\
    (forall k, len L <= k < len (L ++ new) -> pending r k = zlookup (L ++ new) k) /\
    (forall k, len (L ++ new) <= k < len L + _capacity r -> pending r' k = pending r k) /\
    (forall k, len L + _capacity r <= k < len (L ++ new) + _capacity r -> pending r' k = None) /\
    (len (L ++ new) < _eof_index r -> pending r' (len (L ++ new)) = None) /\
    (len L <= _eof_index r -> len (L ++ new) <= _eof_index r)) r.
Proof.
  revert L str r. induction fuel as [|fuel IH]; intros L str r Hcore Hfuel; [destruct Hcore; lia |].
  simpl. wp_step. wp_step. wp_step. wp_step. pose proof Hcore as Hcore'. destruct Hcore'.
  rewrite core_cur0. destruct (Z.ltb_spec (len L) (_eof_index r)) as [Hlt|Hge].
  2:{ wp_step. exists []. rewrite !app_nil_r. split_and!; try done; intros; lia. }
  wp_step. apply slot_wp; [done | done |]. intros [b []] Hp Hpend; simpl in *.
  2:{ wp_step. exists []. rewrite !app_nil_r. split_and!; try done; intros; lia. }
  wp_step. apply set_slot_wp. wp_steps.
  assert (E : upd _cur_index (fun n => u64 (n + 1)) (upd _unassembled_bytes_cnt (fun n => u64 (n - 1))
    (upd _stream (zinsert (len L mod _capacity r) (x00, false)) r)) = take_head r).
  { unfold take_head. by rewrite core_cur0. }
  rewrite E. clear E.
  pose proof (core_take_head P L rd r b Hcore Hpend) as Hcore1.
  assert (Hl : len (L ++ [b]) = len L + 1) by (by rewrite len_app).
  eapply wp_mono; [apply IH; [done | rewrite Hl; simpl; lia] |].
  intros str' r' (new & -> & HC & HF & Hin & Hsame & Hnone & Hhead & Heof).
  exists (b :: new). rewrite <- !app_assoc in *. simpl in *.
  rewrite Hl in *.
  assert (Hlim : len L + 1 <= len (L ++ b :: new) <= rd + _capacity r).
  { pose proof (core_lim _ _ _ _ HC) as Hl'. destruct HF as (_ & HFc & _). rewrite HFc in Hl'.
    rewrite len_app, len_cons in *. pose proof (len_nonneg new). simpl in *. lia. }
  split_and!; try done.
  - intros k Hk. destruct (decide (k = len L)) as [->|].
    + rewrite zlookup_app_r, Z.sub_diag by lia. done.
    + rewrite <- Hin by lia. rewrite (take_head_pending P L rd) by (auto; lia).
      by rewrite decide_False by lia.
  - intros k Hk. rewrite Hsame by lia. rewrite (take_head_pending P L rd) by (auto; lia).
    by rewrite decide_False by lia.
  - intros k Hk. destruct (decide (k = len L + _capacity r)) as [->|]; [| apply Hnone; lia].
    rewrite Hsame by lia. rewrite (take_head_pending P L rd) by (auto; lia). by rewrite decide_True.
  - intros _. apply Heof. lia.
Qed.

(** The stream indexes whose byte has been assembled or is kept in the ring. *)
Definition known (r : t) (k : Z) : Prop :=
  0 <= k < _cur_index r \/
  (_cur_index r <= k < _cur_index r + _capacity r /\ pending r k <> None).

(** The end of what [push_substring] stores of [data] at [index]. *)
Definition store_end (data : list byte) (index rd : Z) (r : t) : Z :=
  Z.min (u64 (index + len data)) (Z.min (rd + _capacity r) (_eof_index r)).

Lemma window_end_eq L rd r :
  core (fun _ _ => True) L rd r -> output_ok L rd r ->
  u64 (u64 (_cur_index r + _capacity r) - ByteStream.buffer_size (_output r)) = rd + _capacity r.
Proof.
  intros [] Ho. rewrite ByteStream.wf_size by apply Ho. rewrite (refines_size _ _ Ho). simpl.
  rewrite core_cur0. unfold u64. zarith.
Qed.

Lemma core_weaken (P P' : Z -> byte -> Prop) L rd r :
  core P L rd r -> (forall k b, P k b -> P' k b) -> core P' L rd r.
Proof.
  intros [] HP. split; auto. intros k b Hk Hb. destruct (core_pending0 k b Hk Hb). auto.
Qed.

Lemma core_set_eof P L rd r e : core P L rd r -> core P L rd (setf _eof_index (u64 e) r).
Proof. intros []. split; try done. apply u64_range. Qed.

(** What the two loops do together. *)
Lemma known_loops L new r r2 r3 data index st ed :
  _cur_index r = len L -> _cur_index r3 = len (L ++ new) ->
  _capacity r3 = _capacity r -> len (L ++ new) <= len L + _capacity r ->
  ed <= len L + _capacity r -> 0 <= index -> st = Z.max index (len L) ->
  (st < ed -> ed <= index + len data) ->
  (forall k, len L <= k < len L + _capacity r ->
    pending r2 k = if decide (st <= k < ed) then zlookup data (k - index) else pending r k) ->
  (forall k, len L <= k < len (L ++ new) -> pending r2 k = zlookup (L ++ new) k) ->
  (forall k, len (L ++ new) <= k < len L + _capacity r -> pending r3 k = pending r2 k) ->
  (forall k, len L + _capacity r <= k < len (L ++ new) + _capacity r -> pending r3 k = None) ->
  forall k, known r3 k <-> known r k \/ index <= k < ed.
Proof.
  intros Hc Hc3 Hcap Hlim Hed Hidx Hst Hdata H2 Hin H3 Hnone k. unfold known.
  rewrite Hc, Hc3, Hcap. rewrite len_app in *. pose proof (len_nonneg new). pose proof (len_nonneg L).
  assert (Hwin : index <= k < ed -> len L <= k -> pending r2 k <> None).
  { intros ? ?. rewrite H2, decide_True by lia.
    destruct (zlookup_lt_is_Some data (k - index)) as [c ->]; [lia | done]. }
  assert (Hout : len L <= k < len L + _capacity r -> ~ index <= k < ed -> pending r2 k = pending r k).
  { intros ? ?. rewrite H2, decide_False by lia. done. }
  destruct (decide (k < len L)); [split; intros; lia |].
  destruct (decide (k < len L + len new)).
  { assert (pending r2 k <> None).
    { rewrite Hin by lia. destruct (zlookup_lt_is_Some (L ++ new) k) as [c ->]; [| done].
      rewrite len_app. lia. }
    split; [| lia]. intros _. destruct (decide (index <= k < ed)); [by right |]. left. right.
    rewrite <- Hout by lia. split; [lia | done]. }
  destruct (decide (k < len L + _capacity r)).
  - rewrite H3 by lia. split.
    + intros [|[_ Hp]]; [lia |]. destruct (decide (index <= k < ed)); [by right |].
      left. right. rewrite <- Hout by lia. split; [lia | done].
    + intros [[|[? Hp]]|Hw]; [lia | |]; right; (split; [lia |]).
      * destruct (decide (index <= k < ed)); [apply Hwin; lia |]. by rewrite Hout by lia.
      * apply Hwin; lia.
  - split; [| lia]. intros [|[? Hp]]; [lia |]. exfalso. apply Hp, Hnone. lia.
Qed.

(** The effect of a [push_substring] that returns. *)
Record pushed (P : Z -> byte -> Prop) (L : list byte) (rd : Z) (data : list byte) (index : Z)
    (eof : bool) (r : t) (L' : list byte) (r' : t) : Prop := {
  pushed_core : core P L' rd r';
  pushed_output : output_ok L' rd r';
  pushed_prefix : exists new, L' = L ++ new;
  pushed_cap : _capacity r' = _capacity r;
  pushed_eof : _eof_index r' = if eof then u64 (index + len data) else _eof_index r;
  pushed_known : forall k, known r' k <-> known r k \/ index <= k < store_end data index rd r;
  pushed_head : len L' < _eof_index r' -> pending r' (len L') = None;
  pushed_stop : len L <= _eof_index r' -> len L' <= _eof_index r';
  pushed_ended : ByteStream.input_ended (_output r') =
    (ByteStream.input_ended (_output r) || (len L' =? _eof_index r'));
  pushed_error : ByteStream.error (_output r') = ByteStream.error (_output r)
}.

(** The two exceptions, and what they say about the peer. *)
Definition push_failed (P : Z -> byte -> Prop) (L : list byte) (rd : Z) (data : list byte) (index : Z)
    (eof : bool) (r : t) (e : exn) (r' : t) : Prop :=
  (e = inconsistent_eof /\ r' = r /\ eof = true /\ _eof_index r <> UINT64_MAX /\
     _eof_index r <> u64 (index + len data)) \/
  (e = inconsistent_substrings /\ core P L rd r' /\ output_ok L rd r' /\
     _capacity r' = _capacity r /\ exists k b c, P k b /\ P k c /\ b <> c).

(** Writing the drained bytes out, and ending the output at [_eof_index]. *)
Lemma output_wp P L new rd r (Q : unit -> t -> Prop) E :
  core P (L ++ new) rd r -> output_ok L rd r ->
  (forall out, output_ok (L ++ new) rd (setf _output out r) ->
    ByteStream.input_ended out =
      (ByteStream.input_ended (_output r) || (_cur_index r =? _eof_index r)) ->
    ByteStream.error out = ByteStream.error (_output r) ->
    Q tt (setf _output out r)) ->
  wpe (zoom _output (ByteStream.write new) ;;
       let* cur := asks _cur_index in
       let* eof_index := asks _eof_index in
       when (cur =? eof_index) (zoom _output ByteStream.end_input)) Q E r.
Proof.
  intros Hcore Ho HQ. wp_step. wp_step. eapply wp_mono; [by apply write_refines |].
  intros n out [_ HR]. unfold Spec.write, Spec.room in HR. simpl in HR.
  assert (Hfit : ztake (_capacity r - (len L - rd)) new = new).
  { apply ztake_ge. destruct Hcore. rewrite len_app in *. lia. }
  rewrite Hfit in HR.
  pose proof (ref_ended _ _ HR) as He. pose proof (ref_failed _ _ HR) as Hf. simpl in He, Hf.
  wp_steps. apply wp_when; intros Hcur; simpl in Hcur.
  - unfold ByteStream.end_input. wp_steps. unfold setf. simpl.
    apply (HQ (setf ByteStream._input_ended_flag true out)); simpl.
    + destruct HR; split; try done; by apply ByteStream.end_input_wf.
    + by rewrite Hcur, orb_true_r.
    + done.
  - apply (HQ out).
    + unfold output_ok. simpl. unfold ByteStream.input_ended, ByteStream.error in *. by rewrite He, Hf.
    + by rewrite Hcur, orb_false_r.
    + done.
Qed.

(** The index of the end, when the substring carries it. *)
Definition eof_after (data : list byte) (index : Z) (eof : bool) (r : t) : Z :=
  if eof then u64 (index + len data) else _eof_index r.

Lemma set_eof_wp data index eof r (Q : unit -> t -> Prop) (E : exn -> t -> Prop) :
  Q tt (setf _eof_index (eof_after data index eof r) r) ->
  (eof = true -> _eof_index r <> UINT64_MAX -> _eof_index r <> u64 (index + len data) -> E inconsistent_eof r) ->
  wpe (if eof then
       if _eof_index r =? UINT64_MAX then _eof_index ::= u64 (index + len data)
       else if negb (_eof_index r =? u64 (index + len data)) then throw inconsistent_eof
       else pure tt
     else pure tt) Q E r.
Proof.
  unfold eof_after. intros HQ HE. destruct eof.
  2:{ wp_step. by destruct r. }
  destruct (Z.eqb_spec (_eof_index r) UINT64_MAX); [by wp_step |].
  destruct (Z.eqb_spec (_eof_index r) (u64 (index + len data))) as [Heq|]; simpl.
  - wp_step. rewrite <- Heq in HQ. by destruct r.
  - wp_step. by apply HE.
Qed.

Lemma push_wp P L rd data index eof r :
  core P L rd r -> output_ok L rd r -> 0 <= index < 2 ^ 64 -> len data < 2 ^ 64 ->
  (forall k c, zlookup data k = Some c -> P (index + k) c) ->
  wpe (push_substring data index eof)
    (fun _ r' => exists L', pushed P L rd data index eof r L' r')
    (push_failed P L rd data index eof r) r.
Proof.
  intros Hcore Ho Hidx Hlen HP. unfold push_substring. wp_steps.
  rewrite (window_end_eq L rd r) by (eauto using core_weaken).
  fold (store_end data index rd r). set (ed := store_end data index rd r).
  apply set_eof_wp; [| by left]. set (e' := eof_after data index eof r).
  set (r1 := setf _eof_index e' r).
  assert (Hcore1 : core P L rd r1).
  { unfold r1, e', eof_after. destruct eof; [by apply core_set_eof |]. by destruct r. }
  (* the store loop *)
  pose proof (core_cur _ _ _ _ Hcore) as Hcur. rewrite Hcur.
  pose proof (core_rd _ _ _ _ Hcore). pose proof (core_cap _ _ _ _ Hcore).
  pose proof (core_fit _ _ _ _ Hcore). pose proof (core_lim _ _ _ _ Hcore).
  pose proof (len_nonneg data).
  assert (Hed : Z.max index (len L) < ed -> ed <= index + len data).
  { unfold ed, store_end, u64. zarith. }
  assert (Hedlim : ed <= rd + _capacity r) by (unfold ed, store_end; lia).
  rewrite (u64_small (Z.max index (len L) - index)) by lia.
  wp_step. eapply wp_mono_exn.
  { apply (store_loop_wp P L rd data index ed _ (Z.max index (len L)) r1); auto; try lia. }
  2:{ intros e r' (-> & HC & (HFo & HFc & _) & Hk). right. split_and!; try done.
      unfold output_ok. by rewrite HFo, HFc. }
  intros _ r2 (Hcore2 & (HFo & HFc & HFe) & Hp2).
  (* the drain loop *)
  wp_step. wp_step. wp_step. eapply wp_mono_exn.
  { apply (drain_loop_wp P rd _ L [] r2); [done |]. rewrite HFc. simpl. lia. }
  2:{ done. }
  intros str r3 (new & -> & Hcore3 & (HFo3 & HFc3 & HFe3) & Hin & Hsame & Hnone & Hhead & Hstop).
  rewrite app_nil_l. rewrite HFc in *.
  (* the output *)
  eapply output_wp; [done | unfold output_ok; by rewrite HFo3, HFc3, HFo |].
  intros out Hout Hend Herr. exists (L ++ new).
  assert (Hcap3 : _capacity r3 = _capacity r) by (rewrite HFc3; done).
  assert (Heof3 : _eof_index r3 = e') by (rewrite HFe3, HFe; done).
  pose proof (core_cur _ _ _ _ Hcore3) as Hcur3. pose proof (core_lim _ _ _ _ Hcore3).
  split; simpl; rewrite ?Hcap3, ?Heof3; try done.
  - destruct Hcore3. by split.
  - by exists new.
  - apply (known_loops L new r r2 r3 data index (Z.max index (len L)) ed); auto; try lia.
  - rewrite <- Heof3, HFe3. exact Hhead.
  - rewrite <- Heof3, HFe3. exact Hstop.
  - rewrite Hend, HFo3, HFo, Hcur3, Heof3. done.
  - by rewrite Herr, HFo3, HFo.
Qed.

Lemma pending_new capacity k : pending (new capacity) k = None.
Proof.
  unfold pending, zlookup. simpl. case_decide; [| done].
  destruct (replicate (Z.to_nat capacity) (x00, false) !! Z.to_nat (k mod capacity))
    as [p|] eqn:E; [| done]. apply lookup_replicate in E as [-> _]. done.
Qed.

Lemma core_new P capacity :
  0 < capacity -> 2 * capacity < 2 ^ 64 -> core P [] 0 (new capacity).
Proof.
  intros Hc Hf.
  assert (Hno : forall k b, zlookup (@nil byte) k <> Some b).
  { intros k b Hb. apply zlookup_Some_range in Hb. unfold len in Hb. simpl in Hb. lia. }
  split; simpl; change (len []) with 0; try lia; try (unfold UINT64_MAX; lia).
  - unfold len. rewrite length_replicate. lia.
  - intros k b Hb. by destruct (Hno k b).
  - intros k b _ Hb. by rewrite pending_new in Hb.
  - unfold occupied. by induction (Z.to_nat capacity).
Qed.

Lemma output_new capacity : 0 < capacity -> 2 * capacity < 2 ^ 64 -> output_ok [] 0 (new capacity).
Proof. intros. apply refines_new. lia. Qed.

(** A ring whose occupied slots belong to [n] consecutive indexes has at most
    [n] of them. *)
Lemma occupied_window c w (n : nat) l :
  0 < c -> len l = c ->
  (forall p b, zlookup l p = Some (b, true) ->
    exists k, w <= k < w + Z.of_nat n /\ k mod c = p) ->
  occupied l <= Z.of_nat n.
Proof.
  intros Hc. revert l. induction n as [|n IH]; intros l Hl Hocc.
  - assert (Hnone : Forall (fun x => x.2 = false) l).
    { apply Forall_lookup_2. intros i [b []] Hi; [| done].
      destruct (Hocc (Z.of_nat i) b) as (k & ? & _); [| lia].
      unfold zlookup. rewrite decide_True, Nat2Z.id by lia. done. }
    unfold occupied. clear -Hnone. induction Hnone as [|[b []] l ? ? IH]; simpl in *; done.
  - destruct (zlookup_lt_is_Some l ((w + Z.of_nat n) mod c)) as [p Hp].
    { rewrite Hl. by apply Z.mod_pos_bound. }
    pose proof (occupied_insert l _ p (x00, false) Hp) as Ho. simpl in Ho.
    assert (occupied (zinsert ((w + Z.of_nat n) mod c) (x00, false) l) <= Z.of_nat n).
    { apply IH; [by rewrite len_zinsert |]. intros q b Hq.
      pose proof (zlookup_Some_range _ _ _ Hp) as Hr.
      destruct (decide (q = (w + Z.of_nat n) mod c)) as [->|].
      { by rewrite zlookup_zinsert_eq in Hq by done. }
      rewrite zlookup_zinsert_ne in Hq by (auto; lia).
      destruct (Hocc q b Hq) as (k & Hk & <-). exists k. split; [| done].
      destruct (decide (k = w + Z.of_nat n)) as [->|]; [done | lia]. }
    destruct (p.2); lia.
Qed.

(** What is kept out of order fits in what the output leaves of the capacity. *)
Lemma unassembled_bound P L rd r :
  core P L rd r -> _unassembled_bytes_cnt r <= rd + _capacity r - len L.
Proof.
  intros [].
  rewrite core_count0. replace (rd + _capacity r - len L) with (Z.of_nat (Z.to_nat (rd + _capacity r - len L))) by lia.
  apply (occupied_window (_capacity r) (len L)); [done | done |].
  intros p b Hp. pose proof (zlookup_Some_range _ _ _ Hp) as Hr. rewrite core_ring0 in Hr.
  destruct (window_slot (_capacity r) (len L) p) as (k & Hkr & Hk); [done | done |].
  exists k. split; [| done]. assert (k < rd + _capacity r); [| lia].
  apply (core_pending0 k b); [lia |]. unfold pending. by rewrite Hk, Hp.
Qed.

Lemma buffer_size_eq L rd r : output_ok L rd r -> ByteStream.buffer_size (_output r) = len L - rd.
Proof. intros Ho. rewrite ByteStream.wf_size by apply Ho. by rewrite (refines_size _ _ Ho). Qed.

Lemma read_output_wp P L rd r n (Q : list byte -> t -> Prop) E :
  core P L rd r -> output_ok L rd r -> 0 <= n ->
  Z.min (rd + n) (len L) + 2 * _capacity r < 2 ^ 64 ->
  (forall r', core P L (Z.min (rd + n) (len L)) r' -> output_ok L (Z.min (rd + n) (len L)) r' ->
    _capacity r' = _capacity r -> _eof_index r' = _eof_index r -> _cur_index r' = _cur_index r ->
    (forall k, pending r' k = pending r k) ->
    ByteStream.input_ended (_output r') = ByteStream.input_ended (_output r) ->
    ByteStream.error (_output r') = ByteStream.error (_output r) ->
    Q (slice rd (Z.min (rd + n) (len L)) L) r') ->
  wpe (zoom _output (ByteStream.read n)) Q E r.
Proof.
  intros Hcore Ho Hn Hfit HQ. wp_step. eapply wp_mono; [by apply read_refines |].
  intros bs out [-> HR]. unfold Spec.peek, Spec.pop in *. simpl in *.
  pose proof (ref_ended _ _ HR) as He. pose proof (ref_failed _ _ HR) as Hf. simpl in He, Hf.
  apply HQ; try done.
  - destruct Hcore. split; simpl; try done; try lia.
    intros k b Hk Hb. destruct (core_pending0 k b Hk Hb). split; [lia | done].
  - unfold output_ok. simpl. unfold ByteStream.input_ended, ByteStream.error in *. by rewrite He, Hf.
Qed.

(** ** A well-behaved peer *)

(** [data] is what the stream [S] holds at [index], and [eof] marks its end. *)
Record honest (S data : list byte) (index : Z) (eof : bool) : Prop := {
  honest_index : 0 <= index;
  honest_end : index + len data <= len S;
  honest_data : data = slice index (index + len data) S;
  honest_eof : eof = true -> index + len data = len S
}.

Definition byte_of (S : list byte) (k : Z) (b : byte) : Prop := zlookup S k = Some b.

(** [r] has assembled the first [_cur_index r] bytes of [S], [rd] of which were read. *)
Record assembled (S : list byte) (rd : Z) (r : t) : Prop := {
  as_fit : len S + 2 * _capacity r < 2 ^ 64;
  as_cur : _cur_index r <= len S;
  as_core : core (byte_of S) (ztake (_cur_index r) S) rd r;
  as_output : output_ok (ztake (_cur_index r) S) rd r;
  as_eof : _eof_index r = UINT64_MAX \/ _eof_index r = len S;
  as_head : pending r (_cur_index r) = None;
  as_ended : ByteStream.input_ended (_output r) = (_cur_index r =? _eof_index r)
}.

Lemma honest_bytes S data index eof :
  honest S data index eof -> forall k c, zlookup data k = Some c -> byte_of S (index + k) c.
Proof.
  intros [] k c Hk. pose proof (zlookup_Some_range _ _ _ Hk) as Hr. unfold byte_of.
  rewrite honest_data0 in Hk. by rewrite zlookup_slice in Hk by lia.
Qed.

(** A log of bytes of [S] is a prefix of [S]. *)
Lemma log_prefix S L rd r :
  core (byte_of S) L rd r -> len L <= len S /\ L = ztake (_cur_index r) S.
Proof.
  intros []. assert (Hlen : len L <= len S).
  { destruct (decide (len L = 0)) as [E|]; [rewrite E; apply len_nonneg |].
    destruct (zlookup_lt_is_Some L (len L - 1)) as [b Hb]; [pose proof (len_nonneg L); lia |].
    apply core_log0, zlookup_Some_range in Hb. lia. }
  split; [done |]. rewrite core_cur0. by apply zlookup_ext.
Qed.

Lemma assembled_new S capacity :
  0 < capacity -> len S + 2 * capacity < 2 ^ 64 -> assembled S 0 (new capacity).
Proof.
  intros Hc Hf. pose proof (len_nonneg S).
  assert (E : ztake 0 S = []) by (by apply ztake_nonpos).
  split; simpl; rewrite ?E; try done; auto.
  - by apply core_new; lia.
  - by apply output_new; lia.
  - apply pending_new.
Qed.

(** A push that returns keeps [assembled] when the end it leaves is that of [S]. *)
Lemma pushed_assembled S rd data index eof r L' r' :
  assembled S rd r -> pushed (byte_of S) (ztake (_cur_index r) S) rd data index eof r L' r' ->
  _eof_index r' = _eof_index r \/ _eof_index r' = len S -> assembled S rd r'.
Proof.
  intros [] [] Heof'. pose proof (core_cap _ _ _ _ pushed_core0).
  destruct (log_prefix _ _ _ _ pushed_core0) as [HL' EL'].
  pose proof (core_cur _ _ _ _ pushed_core0) as Hcur'.
  assert (HeS : _eof_index r' = UINT64_MAX \/ _eof_index r' = len S) by (destruct Heof'; intuition congruence).
  split; rewrite ?pushed_cap0, <- ?EL'; try done; try lia.
  - destruct (pending r' (_cur_index r')) as [b|] eqn:Eb; [| done].
    destruct (core_pending _ _ _ _ pushed_core0 (_cur_index r') b) as [_ Hb];
      [rewrite Hcur'; lia | done |].
    apply zlookup_Some_range in Hb.
    rewrite Hcur', pushed_head0 in Eb; [done |].
    unfold UINT64_MAX in HeS. destruct HeS; lia.
  - rewrite pushed_ended0, as_ended0, <- Hcur'.
    destruct (Z.eqb_spec (_cur_index r) (_eof_index r)) as [E|]; [| done].
    symmetry. simpl. apply Z.eqb_eq.
    assert (Hle : len (ztake (_cur_index r) S) <= len L').
    { destruct pushed_prefix0 as [new ->]. rewrite len_app. pose proof (len_nonneg new). lia. }
    rewrite <- (core_cur _ _ _ _ as_core0) in Hle.
    unfold UINT64_MAX in *. destruct Heof', as_eof0; lia.
Qed.

Lemma push_assembled S rd data index eof r :
  assembled S rd r -> honest S data index eof ->
  wp (push_substring data index eof) (fun _ r' => assembled S rd r' /\
    _capacity r' = _capacity r /\
    ByteStream.error (_output r') = ByteStream.error (_output r) /\
    _eof_index r' = (if eof then len S else _eof_index r) /\
    (forall k, known r' k <->
      known r k \/ index <= k < Z.min (index + len data) (rd + _capacity r))) r.
Proof.
  intros Ha Hh. pose proof Ha as []. pose proof (honest_bytes _ _ _ _ Hh) as HP. destruct Hh.
  pose proof (len_nonneg data). pose proof (core_cap _ _ _ _ as_core0).
  assert (Hsum : u64 (index + len data) = index + len data) by (apply u64_small; lia).
  eapply wp_mono_exn.
  { apply (push_wp (byte_of S)); [done | done | lia | lia | done]. }
  2:{ intros e r' [(-> & -> & He & Hm & Hn)|(-> & _ & _ & _ & k & b & c & Hb & Hc & Hne)].
      - rewrite Hsum, (honest_eof0 He) in Hn. by destruct as_eof0.
      - unfold byte_of in *. congruence. }
  intros [] r' (L' & Hp).
  assert (Heof' : _eof_index r' = if eof then len S else _eof_index r).
  { rewrite (pushed_eof _ _ _ _ _ _ _ _ _ Hp), Hsum. destruct eof; auto. }
  split_and!; [| apply Hp | apply Hp | done |].
  - eapply pushed_assembled; [done | done |]. rewrite Heof'. destruct eof; auto.
  - intros k. rewrite (pushed_known _ _ _ _ _ _ _ _ _ Hp). unfold store_end. rewrite Hsum.
    unfold UINT64_MAX in *. destruct as_eof0 as [-> | ->]; pose proof (core_fit _ _ _ _ as_core0); intuition lia.
Qed.

(** A push without bytes or end mark changes nothing, whatever its index. *)
Lemma push_nothing S rd index r :
  assembled S rd r -> 0 <= index < 2 ^ 64 ->
  wp (push_substring [] index false) (fun _ r' =>
    assembled S rd r' /\ _capacity r' = _capacity r /\ _eof_index r' = _eof_index r /\
    (forall k, known r' k <-> known r k)) r.
Proof.
  intros Ha Hi. pose proof Ha as [].
  eapply wp_mono_exn.
  { apply (push_wp (byte_of S)); [done | done | lia | by vm_compute |].
    intros k c Hk. apply zlookup_Some_range in Hk. change (len []) with 0 in Hk. lia. }
  2:{ intros e r' [(_ & _ & [=] & _)|(_ & _ & _ & _ & k & b & c & Hb & Hc & Hne)].
      unfold byte_of in *. congruence. }
  intros [] r' (L' & Hp). split_and!; [| apply Hp | exact (pushed_eof _ _ _ _ _ _ _ _ _ Hp) |].
  - eapply pushed_assembled; [done | done |]. rewrite (pushed_eof _ _ _ _ _ _ _ _ _ Hp). auto.
  - intros k. rewrite (pushed_known _ _ _ _ _ _ _ _ _ Hp). unfold store_end. change (len []) with 0.
    rewrite Z.add_0_r, u64_small by lia. intuition lia.
Qed.

Lemma read_assembled S rd r n :
  assembled S rd r -> 0 <= n ->
  wp (zoom _output (ByteStream.read n)) (fun bs r' =>
    let rd' := Z.min (rd + n) (_cur_index r) in
    bs = slice rd rd' S /\ assembled S rd' r' /\ _capacity r' = _capacity r /\
    _cur_index r' = _cur_index r /\ _eof_index r' = _eof_index r /\
    (forall k, known r' k <-> known r k)) r.
Proof.
  intros [] Hn. pose proof (core_cur _ _ _ _ as_core0) as Hc.
  pose proof (core_rd _ _ _ _ as_core0) as Hrd. pose proof (len_nonneg S).
  eapply (read_output_wp (byte_of S)); try done; [rewrite <- Hc; lia |].
  rewrite <- Hc. intros r' Hcore' Ho' Ecap Eeof Ecur Epend Eend Eerr. split_and!; try done.
  - unfold slice. rewrite <- (ztake_zdrop (_cur_index r) S) at 2.
    rewrite zdrop_app_le by lia. rewrite ztake_app_le; [done |]. rewrite len_zdrop. lia.
  - by split; rewrite ?Ecap, ?Ecur, ?Eeof, ?Epend, ?Eend.
  - intros k. unfold known. by rewrite Ecap, Ecur, Epend.
Qed.
End StreamReassembler.

(** ** Traces: pushes from the network, reads from the application *)

Module ReassemblerTrace.
Import StreamReassembler.

Inductive event : Type :=
| Push (data : list byte) (index : Z) (eof : bool)
| Read_output (n : Z).

(** One event; the bytes are what the application reads. *)
Definition exec_event (ev : event) : M t (list byte) :=
  match ev with
  | Push data index eof => push_substring data index eof ;; pure []
  | Read_output n => zoom _output (ByteStream.read n)
  end.

(** All the events, with the bytes read in order. *)
Fixpoint exec_events (evs : list event) : M t (list byte) :=
  match evs with
  | [] => pure []
  | ev :: evs' => let* bs := exec_event ev in let* bs' := exec_events evs' in pure (bs ++ bs')
  end.

(** All the events, with the owner catching what a push throws. *)
Fixpoint run_catch (evs : list event) (r : t) : list (outcome (list byte)) * t :=
  match evs with
  | [] => ([], r)
  | ev :: evs' =>
      let '(o, r1) := exec_event ev r in
      let '(os, r2) := run_catch evs' r1 in (o :: os, r2)
  end.

Definition honest_event (S : list byte) (ev : event) : Prop :=
  match ev with
  | Push data index eof => honest S data index eof
  | Read_output n => 0 <= n
  end.

(** Any arguments the C++ types allow. *)
Definition sane_event (ev : event) : Prop :=
  match ev with
  | Push data index eof => 0 <= index < 2 ^ 64 /\ len data < 2 ^ 64
  | Read_output n => 0 <= n
  end.

Definition benign (o : outcome (list byte)) : Prop :=
  match o with
  | Ok _ => True
  | Throw e => e = inconsistent_substrings \/ e = inconsistent_eof
  end.

Lemma assembled_contents S rd r :
  assembled S rd r -> ByteStream.contents (_output r) = slice rd (_cur_index r) S.
Proof.
  intros []. rewrite (ref_contents _ _ as_output0). simpl.
  pose proof (core_rd _ _ _ _ as_core0). rewrite <- (core_cur _ _ _ _ as_core0) in *.
  rewrite <- slice_0, zdrop_slice by lia. f_equal.
Qed.

Lemma exec_event_honest S rd r ev :
  assembled S rd r -> honest_event S ev ->
  wp (exec_event ev) (fun bs r' => exists rd', assembled S rd' r' /\ rd <= rd' /\
    bs = slice rd rd' S) r.
Proof.
  intros Ha Hev. destruct ev as [data index eof|n]; simpl in *.
  - wp_step. eapply wp_mono; [by apply push_assembled |]. intros [] r' (Ha' & _). wp_step.
    exists rd. split_and!; [done | lia |]. by rewrite slice_nil by lia.
  - eapply wp_mono; [by apply read_assembled |]. intros bs r' (-> & Ha' & _).
    eexists. split_and!; [done | | done]. pose proof (core_rd _ _ _ _ (as_core _ _ _ Ha)) as Hr.
    rewrite <- (core_cur _ _ _ _ (as_core _ _ _ Ha)) in Hr. lia.
Qed.

Lemma exec_events_honest S rd r evs :
  assembled S rd r -> Forall (honest_event S) evs ->
  wp (exec_events evs) (fun bs r' => exists rd', assembled S rd' r' /\ rd <= rd' /\
    bs = slice rd rd' S) r.
Proof.
  intros Ha Hevs. revert rd r Ha. induction Hevs as [|ev evs Hev _ IH]; intros rd r Ha; simpl.
  - wp_step. exists rd. split_and!; [done | lia |]. by rewrite slice_nil by lia.
  - wp_step. eapply wp_mono; [by apply exec_event_honest |]. intros bs r1 (rd1 & Ha1 & Hle1 & ->).
    wp_step. eapply wp_mono; [by apply IH |]. intros bs' r2 (rd2 & Ha2 & Hle2 & ->).
    wp_step. exists rd2. split_and!; [done | lia |].
    pose proof (core_rd _ _ _ _ (as_core _ _ _ Ha)). by rewrite slice_app by lia.
Qed.

(** *** Coverage *)

Definition covers (k : Z) (ev : event) : Prop :=
  match ev with
  | Push data index eof => index <= k < index + len data
  | Read_output _ => False
  end.

Definition is_push (ev : event) : Prop :=
  match ev with Push _ _ _ => True | Read_output _ => False end.

Definition has_eof (ev : event) : Prop :=
  match ev with Push _ _ eof => eof = true | Read_output _ => False end.

Lemma exec_events_known S r evs :
  assembled S 0 r -> len S <= _capacity r ->
  Forall (honest_event S) evs -> Forall is_push evs ->
  wp (exec_events evs) (fun _ r' => assembled S 0 r' /\
    (forall k, known r' k <-> known r k \/ Exists (covers k) evs) /\
    (_eof_index r = len S \/ Exists has_eof evs -> _eof_index r' = len S)) r.
Proof.
  intros Ha Hcap Hevs Hpush. revert r Ha Hcap.
  induction evs as [|ev evs IH]; intros r Ha Hcap; simpl.
  - wp_step. split_and!; [done | |].
    + intros k. rewrite Exists_nil. tauto.
    + rewrite Exists_nil. tauto.
  - inversion Hevs as [|? ? Hev Hevs']; inversion Hpush as [|? ? Hp Hpush']; subst.
    destruct ev as [data index eof|]; [| done]. simpl in *.
    wp_step. wp_step. eapply wp_mono; [by apply push_assembled |].
    intros [] r1 (Ha1 & Hc1 & _ & He1 & Hk1). wp_step. wp_step.
    eapply wp_mono; [apply IH; auto; lia |]. intros bs r2 (Ha2 & Hk2 & He2). wp_step.
    split_and!; [done | |].
    + intros k. rewrite Hk2, Hk1, Exists_cons. simpl. pose proof (honest_end _ _ _ _ Hev).
      intuition lia.
    + rewrite Exists_cons. simpl. intros He. apply He2. rewrite He1.
      destruct eof; [by left |]. destruct He as [|[|]]; [by left | done | by right].
Qed.

(** *** Arbitrary peers *)

Definition safe_state (n : Z) (r : t) : Prop :=
  exists L rd, core (fun _ _ => True) L rd r /\ output_ok L rd r /\ rd <= n * _capacity r.

Lemma exec_event_safe n N r ev :
  safe_state n r -> sane_event ev -> 0 <= n -> n + 1 <= N -> (N + 2) * _capacity r < 2 ^ 64 ->
  benign (exec_event ev r).1 /\ safe_state (n + 1) (exec_event ev r).2 /\
  _capacity (exec_event ev r).2 = _capacity r.
Proof.
  intros (L & rd & Hc & Ho & Hrd) Hev Hn HN Hfit. pose proof (core_cap _ _ _ _ Hc).
  pose proof (core_lim _ _ _ _ Hc). pose proof (core_rd _ _ _ _ Hc).
  assert (Hwp : wpe (exec_event ev) (fun _ r' => safe_state (n + 1) r' /\ _capacity r' = _capacity r)
    (fun e r' => benign (Throw e) /\ safe_state (n + 1) r' /\ _capacity r' = _capacity r) r).
  { destruct ev as [data index eof|k]; simpl in *.
    - wp_step. destruct Hev as [Hidx Hlen].
      eapply wp_mono_exn; [by apply (push_wp (fun _ _ => True) L rd) | |].
      + intros [] r' (L' & []). wp_step. split; [| done]. exists L', rd. rewrite pushed_cap0.
        split_and!; try done. nia.
      + intros e r' [(-> & -> & _)|(-> & HC & HO & HE & _)]; simpl; split_and!; auto.
        * exists L, rd. split_and!; try done. nia.
        * exists L, rd. rewrite HE. split_and!; try done. nia.
    - eapply (read_output_wp (fun _ _ => True)); try done; [nia |].
      intros r' Hc' Ho' Ecap _ _ _ _ _. split; [| done]. do 2 eexists. split_and!; try done.
      rewrite Ecap. nia. }
  unfold wpe in Hwp. destruct (exec_event ev r) as [[bs|e] r']; simpl in *; tauto.
Qed.

Lemma safe_state_mono n n' r : safe_state n r -> n <= n' -> safe_state n' r.
Proof.
  intros (L & rd & Hc & Ho & Hrd) Hn. exists L, rd. split_and!; try done.
  pose proof (core_cap _ _ _ _ Hc). nia.
Qed.

(** Setting the error flag of the output keeps the invariants. *)
Definition fail_output (r : t) : t := upd _output (setf ByteStream._error true) r.

Lemma core_fail P L rd r : core P L rd r -> core P L rd (fail_output r).
Proof. intros []. by split. Qed.

Lemma output_fail L rd r : output_ok L rd r -> output_ok L rd (fail_output r).
Proof. intros []. split; try done. by apply ByteStream.set_error_wf. Qed.

Lemma safe_state_fail n r : safe_state n r -> safe_state n (fail_output r).
Proof. intros (L & rd & Hc & Ho & Hrd). exists L, rd. auto using core_fail, output_fail. Qed.

Lemma assembled_fail S rd r : assembled S rd r -> assembled S rd (fail_output r).
Proof. intros []. split; auto using core_fail, output_fail. Qed.

Lemma run_catch_safe evs n N r :
  safe_state n r -> Forall sane_event evs -> 0 <= n -> n + len evs <= N ->
  (N + 2) * _capacity r < 2 ^ 64 ->
  Forall benign (run_catch evs r).1 /\ safe_state (n + len evs) (run_catch evs r).2 /\
  _capacity (run_catch evs r).2 = _capacity r.
Proof.
  intros Hs Hevs. revert n r Hs. induction Hevs as [|ev evs Hev _ IH]; intros n r Hs Hn HN Hfit; simpl.
  - rewrite len_nil, Z.add_0_r. by split_and!.
  - rewrite len_cons in *. pose proof (len_nonneg evs).
    destruct (exec_event_safe n N r ev) as (Hb & Hs1 & Hc1); auto; [lia |].
    destruct (exec_event ev r) as [o r1]. simpl in *.
    destruct (IH (n + 1) r1) as (Hbs & Hs2 & Hc2); auto; [lia | lia | by rewrite Hc1 |].
    destruct (run_catch evs r1) as [os r2]. simpl in *. split_and!.
    + by constructor.
    + by rewrite Z.add_assoc.
    + congruence.
Qed.
End ReassemblerTrace.

(** ** Properties *)

Import StreamReassembler ReassemblerTrace.

(** [C5] One call of [push_substring] with bytes of the stream [S]: it returns,
    it keeps exactly the bytes that lie in the window (below the reader's
    position plus the capacity), it assembles every byte up to the first one
    still missing, and it ends the output when the end is reached. *)
Theorem push_substring_correct S rd data index eof r :
  assembled S rd r -> honest S data index eof ->
  exists r', push_substring data index eof r = (Ok tt, r') /\
    assembled S rd r' /\
    _eof_index r' = (if eof then len S else _eof_index r) /\
    (forall k, known r' k <->
      known r k \/ index <= k < Z.min (index + len data) (rd + _capacity r)).
Proof.
  intros Ha Hh.
  destruct (proj1 (wp_run _ _ _) (push_assembled S rd data index eof r Ha Hh))
    as ([] & r' & E & Ha' & _ & _ & He & Hk).
  by exists r'.
Qed.

(** [C6] Stream integrity: from a fresh reassembler, whatever the order, overlap
    and repetition of the pushes of bytes of [S], and however the application
    reads, nothing is thrown, and what was read followed by what is buffered is
    a prefix of [S]; the whole of [S] once the output has ended. *)
Theorem reassembler_prefix S capacity evs :
  0 < capacity -> len S + 2 * capacity < 2 ^ 64 -> Forall (honest_event S) evs ->
  exists out r', exec_events evs (new capacity) = (Ok out, r') /\
    out ++ ByteStream.contents (stream_out r') = ztake (ByteStream.bytes_written (stream_out r')) S /\
    (ByteStream.input_ended (stream_out r') = true -> out ++ ByteStream.contents (stream_out r') = S).
Proof.
  intros Hc Hf Hevs.
  destruct (proj1 (wp_run _ _ _) (exec_events_honest S 0 (new capacity) evs (assembled_new S capacity Hc Hf) Hevs))
    as (out & r' & E & rd & Ha & Hrd & ->).
  exists (slice 0 rd S), r'. split; [done |]. unfold stream_out.
  rewrite (assembled_contents S rd r' Ha). destruct Ha.
  pose proof (core_rd _ _ _ _ as_core0). rewrite <- (core_cur _ _ _ _ as_core0) in *.
  rewrite slice_app, slice_0 by lia. unfold ByteStream.bytes_written.
  rewrite (ref_written _ _ as_output0). simpl. rewrite <- (core_cur _ _ _ _ as_core0).
  rewrite u64_small by (pose proof (core_cap _ _ _ _ as_core0); lia). split; [done |].
  rewrite as_ended0. intros He%Z.eqb_eq. apply ztake_ge.
  unfold UINT64_MAX in *. pose proof (core_cap _ _ _ _ as_core0). lia.
Qed.

(** [C7] Completeness: when the stream fits in the capacity and the pushes, in
    any order, cover all its bytes and one carries its end, the whole stream is
    assembled and the output is ended. *)
Theorem reassembler_complete S capacity evs :
  0 < capacity -> len S <= capacity -> len S + 2 * capacity < 2 ^ 64 ->
  Forall (honest_event S) evs -> Forall is_push evs ->
  (forall k, 0 <= k < len S -> Exists (covers k) evs) -> Exists has_eof evs ->
  exists out r', exec_events evs (new capacity) = (Ok out, r') /\
    ByteStream.contents (stream_out r') = S /\
    ByteStream.input_ended (stream_out r') = true /\ empty r' = true.
Proof.
  intros Hc Hl Hf Hevs Hpush Hcov Heof.
  destruct (proj1 (wp_run _ _ _) (exec_events_known S (new capacity) evs
    (assembled_new S capacity Hc Hf) Hl Hevs Hpush)) as (out & r' & E & Ha & Hk & He).
  specialize (He (or_intror Heof)).
  exists out, r'. split; [done |]. unfold stream_out. rewrite (assembled_contents S 0 r' Ha).
  assert (Hcur : _cur_index r' = len S).
  { destruct (Z.eq_dec (_cur_index r') (len S)) as [|Hne]; [done |].
    pose proof (as_cur _ _ _ Ha). pose proof (core_rd _ _ _ _ (as_core _ _ _ Ha)) as Hr.
    rewrite <- (core_cur _ _ _ _ (as_core _ _ _ Ha)) in Hr.
    destruct (proj2 (Hk (_cur_index r'))) as [|[_ Hp]]; [right; apply Hcov; lia | lia |].
    by rewrite (as_head _ _ _ Ha) in Hp. }
  split_and!.
  - rewrite slice_0. apply ztake_ge. lia.
  - rewrite (as_ended _ _ _ Ha). apply Z.eqb_eq. congruence.
  - unfold empty, unassembled_bytes. apply Z.eqb_eq.
    rewrite (core_count _ _ _ _ (as_core _ _ _ Ha)).
    pose proof (occupied_bound (_stream r')).
    enough (occupied (_stream r') <= Z.of_nat 0) by lia.
    pose proof (as_core _ _ _ Ha) as Hcore. pose proof (core_cur _ _ _ _ Hcore) as Hcl.
    apply (occupied_window (_capacity r') (_cur_index r')); [apply Hcore | apply Hcore |].
    intros p b Hp. exfalso. pose proof (core_cap _ _ _ _ Hcore) as Hcap'.
    pose proof (zlookup_Some_range _ _ _ Hp) as Hpr. rewrite (core_ring _ _ _ _ Hcore) in Hpr.
    destruct (window_slot (_capacity r') (_cur_index r') p) as (k & Hkr & Hk'); [done | done |].
    destruct (core_pending _ _ _ _ Hcore k b) as [_ Hb].
    + rewrite <- Hcl. lia.
    + unfold pending. by rewrite Hk', Hp.
    + apply zlookup_Some_range in Hb. lia.
Qed.

(** Safety against any peer: whatever bytes, indexes and end marks arrive
    and whatever the application reads, a push returns or throws one of its two
    [runtime_error]s, never runs into undefined behaviour and always terminates;
    and what is buffered in the output and what is kept out of order never
    exceed the capacity together. *)
Theorem reassembler_safe capacity evs :
  0 < capacity -> Forall sane_event evs -> (len evs + 2) * capacity < 2 ^ 64 ->
  let '(os, r') := run_catch evs (new capacity) in
  Forall benign os /\
  unassembled_bytes r' = occupied (_stream r') /\
  ByteStream.buffer_size (stream_out r') + unassembled_bytes r' <= capacity.
Proof.
  intros Hc Hevs Hf. pose proof (len_nonneg evs).
  destruct (run_catch_safe evs 0 (len evs) (new capacity)) as (Hb & (L & rd & HC & HO & _) & Hcap);
    auto; try lia.
  { exists [], 0. split_and!; [apply core_new; nia | apply output_new; nia | simpl; lia]. }
  destruct (run_catch evs (new capacity)) as [os r']. simpl in *.
  split_and!; [done | by apply HC |]. unfold stream_out. rewrite (buffer_size_eq L rd) by done.
  pose proof (unassembled_bound _ _ _ _ HC) as Hu. unfold unassembled_bytes. lia.
Qed.

(** ** Witnesses *)

Definition demo_stream : list byte := [x61; x62; x63; x64].

Lemma demo_honest_tail : honest demo_stream [x63; x64] 2 true.
Proof. split; vm_compute; congruence. Qed.

Lemma demo_honest_head : honest demo_stream [x61; x62; x63] 0 false.
Proof. split; vm_compute; congruence. Qed.

Lemma push_substring_correct_witness :
  exists r', push_substring [x63; x64] 2 true (new 5) = (Ok tt, r') /\
    assembled demo_stream 0 r' /\ _eof_index r' = 4 /\ known r' 3.
Proof.
  destruct (push_substring_correct demo_stream 0 [x63; x64] 2 true (new 5))
    as (r' & E & Ha & He & Hk).
  - apply assembled_new; vm_compute; congruence.
  - exact demo_honest_tail.
  - exists r'. split; [exact E |]. split; [exact Ha |]. split; [exact He |].
    apply Hk. right. vm_compute. split; congruence.
Defined.

Definition demo_events : list event :=
  [Push [x63; x64] 2 true; Push [x61; x62; x63] 0 false; Read_output 3; Push [x63; x64] 2 true].

Lemma demo_events_honest : Forall (honest_event demo_stream) demo_events.
Proof.
  repeat constructor; simpl; try lia; try apply demo_honest_tail; try apply demo_honest_head;
    vm_compute; congruence.
Qed.

Lemma reassembler_prefix_witness :
  exists out r', exec_events demo_events (new 5) = (Ok out, r') /\
    out ++ ByteStream.contents (stream_out r') = ztake (ByteStream.bytes_written (stream_out r')) demo_stream.
Proof.
  destruct (reassembler_prefix demo_stream 5 demo_events) as (out & r' & E & Hp & _).
  - lia.
  - vm_compute. reflexivity.
  - exact demo_events_honest.
  - exists out, r'. split; [exact E | exact Hp].
Defined.

Definition demo_pushes : list event := [Push [x63; x64] 2 true; Push [x61; x62; x63] 0 false].

Lemma reassembler_complete_witness :
  exists out r', exec_events demo_pushes (new 5) = (Ok out, r') /\
    ByteStream.contents (stream_out r') = demo_stream.
Proof.
  destruct (reassembler_complete demo_stream 5 demo_pushes) as (out & r' & E & Hp & _).
  - lia.
  - vm_compute. congruence.
  - vm_compute. reflexivity.
  - repeat constructor; simpl; try lia; try apply demo_honest_tail; try apply demo_honest_head;
      vm_compute; congruence.
  - repeat constructor.
  - intros k Hk. change (len demo_stream) with 4 in Hk. destruct (decide (k < 2)).
    + right. left. simpl. change (len [x61; x62; x63]) with 3. lia.
    + left. simpl. change (len [x63; x64]) with 2. lia.
  - left. reflexivity.
  - exists out, r'. split; [exact E | exact Hp].
Defined.

Definition demo_attack : list event :=
  [Push [x63; x64] 2 true; Push [x78; x79] 2 false; Push [x61] 18446744073709551615 true; Read_output 9].

Lemma reassembler_safe_witness :
  let '(os, r') := run_catch demo_attack (new 5) in
  Forall benign os /\ ByteStream.buffer_size (stream_out r') + unassembled_bytes r' <= 5.
Proof.
  pose proof (reassembler_safe 5 demo_attack) as H.
  destruct (run_catch demo_attack (new 5)) as [os r'].
  destruct H as (Hb & _ & Hs).
  - lia.
  - repeat constructor; simpl; try lia; vm_compute; congruence.
  - vm_compute. reflexivity.
  - split; [exact Hb | exact Hs].
Defined.
