(* ===== verification/parser.v ===== *)
(** * util/parser.hh, util/parser.cc: network byte order

    [NetParser] takes big-endian integers off the front of a [Buffer];
    [NetUnparser] appends them to a string. *)

From S2P Require Import prelude buffer.

Inductive ParseResult : Type :=
| NoError
| BadChecksum
| PacketTooShort
| WrongIPVersion
| HeaderTooShort
| TruncatedPacket
| Unsupported.

#[global] Instance ParseResult_eq_dec : EqDecision ParseResult.
Proof. solve_decision. Defined.

(** [static_cast<size_t>(r)] *)
Definition ParseResult_index (r : ParseResult) : Z :=
  match r with
  | NoError => 0
  | BadChecksum => 1
  | PacketTooShort => 2
  | WrongIPVersion => 3
  | HeaderTooShort => 4
  | TruncatedPacket => 5
  | Unsupported => 6
  end.

(** The array [_names] of [as_string]. *)
Definition ParseResult_names : list string :=
  ["NoError"; "BadChecksum"; "PacketTooShort"; "WrongIPVersion"; "HeaderTooShort"; "TruncatedPacket"]%string.

(** Indexing past the end of the array is undefined. *)
Definition as_string (r : ParseResult) : outcome string :=
  match zlookup ParseResult_names (ParseResult_index r) with
  | Some s => Ok s
  | None => Throw UndefinedBehavior
  end.

(** ** Big-endian integers *)

Definition be_step (acc : Z) (b : byte) : Z := acc * 2 ^ 8 + Z_of_byte b.
Definition be_value (bs : list byte) : Z := foldl be_step 0 bs.

(** The [n] low-order bytes of [v], most significant first. *)
Fixpoint be_bytes (n : nat) (v : Z) : list byte :=
  match n with
  | O => []
  | S n => byte_of_Z (v / 2 ^ (8 * Z.of_nat n)) :: be_bytes n v
  end.

Lemma length_be_bytes n v : length (be_bytes n v) = n.
Proof. induction n; simpl; auto. Qed.

Lemma len_be_bytes n v : len (be_bytes n v) = Z.of_nat n.
Proof. unfold len. by rewrite length_be_bytes. Qed.

Lemma be_value_acc bs acc :
  foldl be_step acc bs = acc * 2 ^ (8 * len bs) + be_value bs.
Proof.
  unfold be_value. revert acc. induction bs as [|b bs IH]; intros acc; simpl.
  - change (8 * len []) with 0. simpl. lia.
  - rewrite IH, (IH (be_step 0 b)), len_cons. unfold be_step. pose proof (len_nonneg bs).
    replace (8 * (1 + len bs)) with (8 + 8 * len bs) by lia. rewrite Z.pow_add_r by lia. lia.
Qed.

Lemma be_value_cons b bs : be_value (b :: bs) = Z_of_byte b * 2 ^ (8 * len bs) + be_value bs.
Proof. unfold be_value at 1. simpl. by rewrite be_value_acc. Qed.

Lemma be_value_app bs cs : be_value (bs ++ cs) = be_value bs * 2 ^ (8 * len cs) + be_value cs.
Proof. unfold be_value at 1. rewrite foldl_app. apply be_value_acc. Qed.

Lemma be_value_range bs : 0 <= be_value bs < 2 ^ (8 * len bs).
Proof.
  induction bs as [|b bs IH]; [done |].
  rewrite be_value_cons, len_cons. pose proof (Z_of_byte_range b). pose proof (len_nonneg bs).
  replace (8 * (1 + len bs)) with (8 + 8 * len bs) by lia. rewrite Z.pow_add_r by lia. nia.
Qed.

Lemma be_value_be_bytes n v : be_value (be_bytes n v) = v mod 2 ^ (8 * Z.of_nat n).
Proof.
  induction n as [|n IH].
  - simpl. change (2 ^ (8 * Z.of_nat 0)) with 1. by rewrite Z.mod_1_r.
  - simpl be_bytes. rewrite be_value_cons, IH, len_be_bytes, Z_of_byte_of_Z. unfold u8.
    replace (8 * Z.of_nat (S n)) with (8 * Z.of_nat n + 8) by lia.
    rewrite Z.pow_add_r, Z.rem_mul_r by lia. lia.
Qed.

Lemma be_bytes_high n v a k :
  Z.of_nat n <= k -> be_bytes n (v + a * 2 ^ (8 * k)) = be_bytes n v.
Proof.
  induction n as [|n IH]; intros Hk; [done |]. simpl. rewrite IH by lia. f_equal.
  replace (8 * k) with (8 * (k - Z.of_nat n - 1) + 8 + 8 * Z.of_nat n) by lia.
  rewrite !Z.pow_add_r by lia. rewrite Z.mul_assoc, Z.div_add by lia. rewrite Z.mul_assoc.
  apply byte_of_Z_add.
Qed.

Lemma be_bytes_mod n v : be_bytes n (v mod 2 ^ (8 * Z.of_nat n)) = be_bytes n v.
Proof.
  rewrite <- (be_bytes_high n (v mod _) (v / 2 ^ (8 * Z.of_nat n)) (Z.of_nat n)) by lia.
  f_equal. pose proof (Z.div_mod v (2 ^ (8 * Z.of_nat n))). lia.
Qed.

Lemma be_bytes_be_value bs n : length bs = n -> be_bytes n (be_value bs) = bs.
Proof.
  revert n. induction bs as [|b bs IH]; intros [|n] Hn; try done. simpl in *.
  pose proof (be_value_range bs) as Hr.
  assert (Hl : len bs = Z.of_nat n) by (unfold len; lia).
  rewrite be_value_cons, Hl in *. f_equal.
  - rewrite Z.div_add_l, Z.div_small by lia. rewrite Z.add_0_r. apply byte_of_Z_of_byte.
  - rewrite Z.add_comm, be_bytes_high by lia. apply IH. lia.
Qed.

(** ** NetParser *)

Module NetParser.

Record t : Type := mk { _buffer : Buffer.t; _error : ParseResult }.

Definition eta (p : t) : t := mk (_buffer p) (_error p).
#[global] Instance set_buffer : Setter _buffer := ltac:(derive_setter eta _buffer).
#[global] Instance set_error_field : Setter _error := ltac:(derive_setter eta _error).

(** [NetParser(Buffer buffer)] *)
Definition new (buffer : Buffer.t) : t := mk buffer NoError.

Definition buffer (p : t) : Buffer.t := _buffer p.
Definition get_error (p : t) : ParseResult := _error p.
Definition set_error (res : ParseResult) : M t unit := _error ::= res.
Definition error (p : t) : bool := bool_decide (get_error p <> NoError).

Definition _check_size (size : Z) : M t unit :=
  let* n := asks (fun p => Buffer.size (_buffer p)) in
  when (n <? size) (set_error PacketTooShort).

(** The loop of [_parse_int<T>] for a [T] of [w] bytes: [ret <<= 8] and
    [ret += _buffer.at(i)], both converted to [T]. *)
Fixpoint parse_loop (w : nat) (k : nat) (i ret : Z) : M t Z :=
  match k with
  | O => pure ret
  | S k =>
      let* b := asks _buffer in
      let* c := of_outcome (Buffer.at_ b i) in
      let T x := x mod 2 ^ (8 * Z.of_nat w) in
      parse_loop w k (i + 1) (T (T (Z.shiftl ret 8) + Z_of_byte c))
  end.

Definition _parse_int (w : nat) : M t Z :=
  _check_size (Z.of_nat w) ;;
  let* err := asks error in
  if err then pure 0
  else
    let* ret := parse_loop w w 0 0 in
    let* b := asks _buffer in
    let* b' := of_outcome (Buffer.remove_prefix (Z.of_nat w) b) in
    _buffer ::= b' ;;
    pure ret.

Definition u32 : M t Z := _parse_int 4.
Definition u16 : M t Z := _parse_int 2.
Definition u8 : M t Z := _parse_int 1.

Definition remove_prefix (n : Z) : M t unit :=
  _check_size n ;;
  let* err := asks error in
  if err then pure tt
  else
    let* b := asks _buffer in
    let* b' := of_outcome (Buffer.remove_prefix n b) in
    _buffer ::= b'.

(** ** What the parser does *)

Definition str (p : t) : list byte := Buffer.str (_buffer p).

(** [ok p s]: no error so far, and [s] is left to parse. *)
Record ok (p : t) (s : list byte) : Prop := {
  ok_wf : Buffer.wf (_buffer p);
  ok_str : str p = s;
  ok_error : _error p = NoError
}.

Lemma ok_new s : len s < 2 ^ 64 -> ok (new (Buffer.of_string s)) s.
Proof.
  intros Hs. split; [by apply Buffer.wf_of_string | apply Buffer.str_of_string | done].
Qed.

Lemma parse_loop_wp w k i ret p bs rest (Q : Z -> t -> Prop) E :
  zdrop i (str p) = bs ++ rest -> length bs = k -> 0 <= i -> 0 <= ret < 2 ^ (8 * i) ->
  Z.of_nat w = i + Z.of_nat k ->
  Q (ret * 2 ^ (8 * Z.of_nat k) + be_value bs) p -> wpe (parse_loop w k i ret) Q E p.
Proof.
  revert i ret bs. induction k as [|k IH]; intros i ret bs Hs Hk Hi Hret Hw HQ; simpl.
  - destruct bs; [| done]. wp_step. by rewrite Z.mul_1_r, Z.add_0_r in HQ.
  - destruct bs as [|b bs]; [done |]. simpl in Hs, Hk.
    wp_steps. unfold Buffer.at_, of_outcome, wpe.
    assert (Hb : zlookup (Buffer.str (_buffer p)) i = Some b).
    { fold (str p). rewrite <- (Z.add_0_r i), <- zlookup_zdrop by lia. by rewrite Hs. }
    rewrite Hb. fold (wpe (parse_loop w k (i + 1)
      (((Z.shiftl ret 8) mod 2 ^ (8 * Z.of_nat w) + Z_of_byte b) mod 2 ^ (8 * Z.of_nat w))) Q E p).
    rewrite Z.shiftl_mul_pow2 by lia. pose proof (Z_of_byte_range b).
    assert (Hpow : 2 ^ (8 * (i + 1)) = 2 ^ (8 * i) * 2 ^ 8).
    { rewrite <- Z.pow_add_r by lia. f_equal. lia. }
    assert (Hle : 2 ^ (8 * (i + 1)) <= 2 ^ (8 * Z.of_nat w)).
    { apply Z.pow_le_mono_r; lia. }
    rewrite (Z.mod_small (ret * 2 ^ 8)) by nia. rewrite Z.mod_small by nia.
    apply (IH (i + 1) _ bs); try lia.
    + rewrite <- zdrop_zdrop, Hs by lia. done.
    + rewrite be_value_cons in HQ. replace (len bs) with (Z.of_nat k) in HQ by (unfold len; lia).
      replace (8 * Z.of_nat (S k)) with (8 + 8 * Z.of_nat k) in HQ by lia.
      rewrite Z.pow_add_r in HQ by lia. by rewrite Z.mul_add_distr_r, <- Z.mul_assoc, <- Z.add_assoc.
Qed.

Lemma parse_int_wp w p bs rest (Q : Z -> t -> Prop) E :
  ok p (bs ++ rest) -> length bs = w ->
  (forall p', ok p' rest -> Q (be_value bs) p') -> wpe (_parse_int w) Q E p.
Proof.
  intros [Hwf Hs He] Hw HQ. unfold _parse_int, _check_size. wp_steps.
  assert (Hsize : Buffer.size (_buffer p) = Z.of_nat w + len rest).
  { unfold Buffer.size. fold (str p). rewrite Hs, len_app. unfold len. lia. }
  pose proof (len_nonneg rest). rewrite Hsize, (proj2 (Z.ltb_ge _ _)) by lia. simpl. wp_steps.
  unfold error, get_error. rewrite He. simpl. wp_step.
  apply (parse_loop_wp _ _ _ _ _ bs rest); try done; try lia; [].
  wp_steps. destruct (Buffer.remove_prefix_str (_buffer p) (Z.of_nat w)) as (b' & Eb & Es & Hwf');
    [done | lia |].
  rewrite Eb. simpl. apply HQ. split; simpl; [done | | done].
  unfold str. simpl. rewrite Es. fold (str p). rewrite Hs, zdrop_app_ge by (unfold len; lia).
  apply zdrop_nonpos. unfold len. lia.
Qed.

(** Too few bytes: the error is set, zero is returned and nothing is consumed. *)
Lemma parse_int_short w p (Q : Z -> t -> Prop) E :
  len (str p) < Z.of_nat w -> Q 0 (setf _error PacketTooShort p) -> wpe (_parse_int w) Q E p.
Proof.
  intros Hs HQ. unfold _parse_int, _check_size. wp_steps. unfold Buffer.size. fold (str p).
  rewrite (proj2 (Z.ltb_lt _ _)) by lia. simpl. unfold set_error. by wp_steps.
Qed.

Lemma remove_prefix_wp n p s (Q : unit -> t -> Prop) E :
  ok p s -> 0 <= n <= len s -> (forall p', ok p' (zdrop n s) -> Q tt p') ->
  wpe (remove_prefix n) Q E p.
Proof.
  intros [Hwf Hs He] Hn HQ. unfold remove_prefix, _check_size. wp_steps.
  assert (Hsize : Buffer.size (_buffer p) = len s) by (by rewrite <- Hs).
  rewrite Hsize, (proj2 (Z.ltb_ge _ _)) by lia. simpl. wp_steps.
  unfold error, get_error. rewrite He. simpl. wp_steps.
  destruct (Buffer.remove_prefix_str (_buffer p) n) as (b' & Eb & Es & Hwf'); [done | lia |].
  rewrite Eb. simpl. apply HQ. split; simpl; [done | | done].
  unfold str. simpl. rewrite Es. by rewrite <- Hs.
Qed.
End NetParser.

(** ** NetUnparser *)

Module NetUnparser.

(** The loop of [_unparse_int<T>] for a [T] of [w] bytes, [k] iterations from the end. *)
Fixpoint unparse_loop (k : nat) (s : list byte) (val : Z) : list byte :=
  match k with
  | O => s
  | S k =>
      let the_byte := Z.land (Z.shiftr val (Z.of_nat k * 8)) 0xff in
      unparse_loop k (s ++ [byte_of_Z the_byte]) val
  end.

Definition _unparse_int (w : nat) (s : list byte) (val : Z) : list byte := unparse_loop w s val.

Definition u32 (s : list byte) (val : Z) : list byte := _unparse_int 4 s val.
Definition u16 (s : list byte) (val : Z) : list byte := _unparse_int 2 s val.
Definition u8 (s : list byte) (val : Z) : list byte := _unparse_int 1 s val.

Lemma unparse_int_eq w s val : _unparse_int w s val = s ++ be_bytes w val.
Proof.
  unfold _unparse_int. revert s. induction w as [|w IH]; intros s; simpl.
  - by rewrite app_nil_r.
  - rewrite IH, <- app_assoc. simpl. do 2 f_equal.
    change 255 with (Z.ones 8). rewrite Z.land_ones, Z.shiftr_div_pow2 by lia.
    fold (prelude.u8 (val / 2 ^ (Z.of_nat w * 8))). by rewrite byte_of_Z_u8, (Z.mul_comm 8).
Qed.

Lemma u32_eq s val : u32 s val = s ++ be_bytes 4 val.
Proof. apply unparse_int_eq. Qed.
Lemma u16_eq s val : u16 s val = s ++ be_bytes 2 val.
Proof. apply unparse_int_eq. Qed.
Lemma u8_eq s val : u8 s val = s ++ be_bytes 1 val.
Proof. apply unparse_int_eq. Qed.
End NetUnparser.

#[global] Hint Rewrite NetUnparser.u32_eq NetUnparser.u16_eq NetUnparser.u8_eq : unparse.

(** Parsing what was unparsed. *)
Lemma parse_be_bytes_wp w v p rest (Q : Z -> NetParser.t -> Prop) E :
  NetParser.ok p (be_bytes w v ++ rest) ->
  (forall p', NetParser.ok p' rest -> Q (v mod 2 ^ (8 * Z.of_nat w)) p') ->
  wpe (NetParser._parse_int w) Q E p.
Proof.
  intros Hp HQ. eapply NetParser.parse_int_wp; [done | apply length_be_bytes |].
  intros p' Hp'. rewrite be_value_be_bytes. auto.
Qed.

(** ** Properties *)

(** Round trip: an unsigned integer of [w] bytes written by [NetUnparser]
    and read back by [NetParser] is itself, and what follows is left unread. *)
Theorem unparse_parse_roundtrip w v s rest :
  0 <= v < 2 ^ (8 * Z.of_nat w) -> len (s ++ be_bytes w v ++ rest) < 2 ^ 64 ->
  exists p1 p2,
    NetParser.remove_prefix (len s) (NetParser.new (Buffer.of_string (NetUnparser._unparse_int w s v ++ rest)))
      = (Ok tt, p1) /\
    NetParser._parse_int w p1 = (Ok v, p2) /\
    NetParser.str p2 = rest /\ NetParser.get_error p2 = NoError.
Proof.
  intros Hv Hlen. rewrite NetUnparser.unparse_int_eq, <- app_assoc.
  assert (H : wp (NetParser.remove_prefix (len s) ;; NetParser._parse_int w)
    (fun r p2 => r = v /\ NetParser.ok p2 rest)
    (NetParser.new (Buffer.of_string (s ++ be_bytes w v ++ rest)))).
  { wp_step. eapply NetParser.remove_prefix_wp; [by apply NetParser.ok_new | |].
    - pose proof (len_nonneg s). pose proof (len_nonneg (be_bytes w v ++ rest)).
      rewrite len_app. lia.
    - intros p1 Hp1. rewrite zdrop_app_ge, Z.sub_diag, zdrop_nonpos in Hp1 by lia.
      eapply parse_be_bytes_wp; [done |]. intros p2 Hp2. by rewrite Z.mod_small. }
  unfold wpe, bind in H.
  destruct (NetParser.remove_prefix _ _) as [[[]|] p1]; [| done].
  destruct (NetParser._parse_int w p1) as [[r|] p2] eqn:E2; [| done].
  destruct H as [-> [_ Hs He]]. by exists p1, p2.
Qed.

(** [as_string] has a name for every result but [Unsupported], which reads
    past the end of its array of names. *)
Theorem as_string_defined r :
  (r <> Unsupported <-> exists s, as_string r = Ok s) /\
  as_string Unsupported = Throw UndefinedBehavior.
Proof.
  split; [| reflexivity]. split.
  - intros Hr. destruct r; try (eexists; reflexivity). by destruct Hr.
  - intros [s Hs] Hr. rewrite Hr in Hs. discriminate Hs.
Qed.

(** ** Witness *)

Lemma unparse_parse_roundtrip_witness :
  exists p1 p2,
    NetParser.remove_prefix 1 (NetParser.new (Buffer.of_string (NetUnparser._unparse_int 2 [x61] 0x806 ++ [x62])))
      = (Ok tt, p1) /\
    NetParser._parse_int 2 p1 = (Ok 0x806, p2) /\
    NetParser.str p2 = [x62] /\ NetParser.get_error p2 = NoError.
Proof.
  apply (unparse_parse_roundtrip 2 0x806 [x61] [x62]).
  - simpl. lia.
  - vm_compute. reflexivity.
Defined.
