(* ===== verification/wire_format.v ===== *)
(** * What every message format promises

    A format has a parser that fills an object from a buffer and a serializer
    that may throw.  The law is what the layers above rely on: what is written
    can be read back, whatever object it is read into. *)

From S2P Require Import prelude buffer parser.

Class WireFormat (A : Type) : Type := {
  wire_parse : Buffer.t -> A -> outcome (ParseResult * A);
  wire_serialize : A -> outcome (list byte);
  (** the objects that can be written *)
  wire_wf : A -> Prop;
  (** the same message: equal but for derived fields and for how bytes are stored *)
  wire_same : A -> A -> Prop;
  wire_roundtrip : forall a prev, wire_wf a ->
    exists bs a', wire_serialize a = Ok bs /\
      wire_parse (Buffer.of_string bs) prev = Ok (NoError, a') /\ wire_same a a'
}.

(** Read [n] bytes, one [u8] at a time. *)
Fixpoint parse_bytes (n : nat) : M NetParser.t (list Z) :=
  match n with
  | O => pure []
  | S n =>
      let* b := NetParser.u8 in
      let* bs := parse_bytes n in
      pure (b :: bs)
  end.

(** Write a list of bytes, one [u8] at a time. *)
Fixpoint unparse_bytes (s : list byte) (bs : list Z) : list byte :=
  match bs with
  | [] => s
  | b :: bs' => unparse_bytes (NetUnparser.u8 s b) bs'
  end.

Definition is_u8 (x : Z) : Prop := 0 <= x < 2 ^ 8.

(** The bytes of a list of [uint8_t]. *)
Definition raw_bytes (bs : list Z) : list byte := flat_map (be_bytes 1) bs.

Lemma unparse_bytes_eq s bs : unparse_bytes s bs = s ++ raw_bytes bs.
Proof.
  revert s. induction bs as [|b bs IH]; intros s; simpl; [by rewrite app_nil_r |].
  rewrite IH, NetUnparser.u8_eq, <- app_assoc. done.
Qed.

Lemma len_raw_bytes bs : len (raw_bytes bs) = len bs.
Proof.
  induction bs as [|b bs IH]; [done |]. change (raw_bytes (b :: bs)) with (be_bytes 1 b ++ raw_bytes bs).
  rewrite len_app, len_be_bytes, len_cons. lia.
Qed.

Lemma parse_bytes_wp bs n p rest (Q : list Z -> NetParser.t -> Prop) E :
  Forall is_u8 bs -> length bs = n -> NetParser.ok p (raw_bytes bs ++ rest) ->
  (forall p', NetParser.ok p' rest -> Q bs p') -> wpe (parse_bytes n) Q E p.
Proof.
  revert n p Q. induction bs as [|b bs IH]; intros n p Q Hwf Hlen Hp HQ; destruct n; try done; simpl.
  - wp_step. auto.
  - inversion Hwf; subst. change (raw_bytes (b :: bs)) with (be_bytes 1 b ++ raw_bytes bs) in Hp.
    rewrite <- app_assoc in Hp.
    wp_step. eapply parse_be_bytes_wp; [exact Hp |]. intros p1 Hp1.
    wp_step. eapply IH; [done | simpl in Hlen; lia | exact Hp1 |]. intros p2 Hp2. wp_step.
    rewrite Z.mod_small by done. auto.
Qed.

(** *** Parsing bytes of unknown origin

    Whatever the bytes are, if there are enough of them they are the image of
    the value that is read. *)
Lemma parse_int_any w p s (Q : Z -> NetParser.t -> Prop) E :
  NetParser.ok p s -> Z.of_nat w <= len s ->
  (forall v rest p', s = be_bytes w v ++ rest -> 0 <= v < 2 ^ (8 * Z.of_nat w) ->
     NetParser.ok p' rest -> Q v p') ->
  wpe (NetParser._parse_int w) Q E p.
Proof.
  intros Hp Hw HQ. set (bs := ztake (Z.of_nat w) s). set (rest := zdrop (Z.of_nat w) s).
  assert (Hs : s = bs ++ rest) by (by rewrite <- (ztake_zdrop (Z.of_nat w) s)).
  assert (Hl : length bs = w).
  { assert (len bs = Z.of_nat w) by (unfold bs; rewrite len_ztake; lia). unfold len in *. lia. }
  rewrite Hs in Hp. eapply NetParser.parse_int_wp; [exact Hp | done |]. intros p' Hp'.
  apply (HQ _ rest); [by rewrite be_bytes_be_value | | done].
  pose proof (be_value_range bs). by replace (len bs) with (Z.of_nat w) in * by (unfold len; lia).
Qed.

Lemma parse_bytes_any n p s (Q : list Z -> NetParser.t -> Prop) E :
  NetParser.ok p s -> Z.of_nat n <= len s ->
  (forall bs rest p', s = raw_bytes bs ++ rest -> length bs = n -> Forall is_u8 bs ->
     NetParser.ok p' rest -> Q bs p') ->
  wpe (parse_bytes n) Q E p.
Proof.
  revert p s Q. induction n as [|n IH]; intros p s Q Hp Hn HQ; simpl.
  - wp_step. by apply (HQ [] s).
  - wp_step. eapply parse_int_any; [exact Hp | lia |]. intros v rest p1 -> Hv Hp1.
    rewrite len_app, len_be_bytes in Hn. wp_step. eapply IH; [exact Hp1 | lia |].
    intros bs rest' p2 -> Hl Hbs Hp2. wp_step.
    apply (HQ (v :: bs) rest'); simpl; [done | lia | by constructor | done].
Qed.

(** Read the next value [v] from [p], whose remaining bytes [Hp] describes. *)
Ltac parse_any Hp v :=
  let rest := fresh "rest" in let p' := fresh "p" in
  let bound := repeat rewrite ?len_app, ?len_be_bytes, ?len_raw_bytes in *; unfold len in *; simpl in *; lia in
  wp_step;
  lazymatch goal with
  | |- wpe (parse_bytes _) _ _ _ =>
      eapply parse_bytes_any; [exact Hp | bound |]; clear Hp; intros v rest p' -> ? ? Hp
  | |- _ => eapply parse_int_any; [exact Hp | bound |]; clear Hp; intros v rest p' -> ? Hp
  end.

(** The parser of a buffer starts with all of its bytes. *)
Lemma parser_ok buffer : Buffer.wf buffer -> NetParser.ok (NetParser.new buffer) (Buffer.str buffer).
Proof. by split. Qed.

(** *** Parsing bytes of any number

    A parser that has met an error or not, and has at most [n] bytes left. *)
Definition bounded (n : Z) (p : NetParser.t) : Prop :=
  Buffer.wf (NetParser._buffer p) /\ len (NetParser.str p) <= n.

Lemma bounded_new buffer : Buffer.wf buffer -> bounded (len (Buffer.str buffer)) (NetParser.new buffer).
Proof. by split. Qed.

Lemma bounded_check w n p (Q : unit -> NetParser.t -> Prop) E :
  bounded n p ->
  (forall p', bounded n p' -> (NetParser.error p' = false -> p' = p /\ w <= len (NetParser.str p)) -> Q tt p') ->
  wpe (NetParser._check_size w) Q E p.
Proof.
  intros Hp HQ. unfold NetParser._check_size. wp_steps. apply wp_when; intros C.
  - unfold NetParser.set_error. wp_step. by apply HQ.
  - apply HQ; [done |]. intros _. split; [done |]. by apply Z.ltb_ge in C.
Qed.

Lemma parse_int_bounded w n p (Q : Z -> NetParser.t -> Prop) E :
  bounded n p -> (forall v p', 0 <= v < 2 ^ (8 * Z.of_nat w) -> bounded n p' -> Q v p') ->
  wpe (NetParser._parse_int w) Q E p.
Proof.
  intros Hp HQ. pose proof (Z.pow_pos_nonneg 2 (8 * Z.of_nat w) ltac:(lia) ltac:(lia)).
  destruct (NetParser.error p) eqn:Ep.
  - unfold NetParser._parse_int. wp_step. eapply bounded_check; [exact Hp |]. intros p' Hp' Herr. wp_steps.
    destruct (NetParser.error p') eqn:Ep'; [wp_step; by apply HQ; [lia |] |].
    destruct (Herr eq_refl) as [-> _]. congruence.
  - destruct (Z.leb_spec (Z.of_nat w) (len (NetParser.str p))).
    + destruct Hp as [Hwf Hlen]. unfold NetParser.error in Ep. apply bool_decide_eq_false, dec_stable in Ep.
      eapply parse_int_any; [by split | done |]. intros v rest p' Es Hv [Hwf' Es' _]. apply HQ; [done |].
      split; [done |]. rewrite Es in Hlen. rewrite len_app, len_be_bytes in Hlen. rewrite Es'. lia.
    + apply NetParser.parse_int_short; [done |]. by apply HQ; [lia |].
Qed.

Lemma remove_prefix_bounded k n p (Q : unit -> NetParser.t -> Prop) E :
  bounded n p -> 0 <= k -> (forall p', bounded n p' -> Q tt p') -> wpe (NetParser.remove_prefix k) Q E p.
Proof.
  intros Hp Hk HQ. unfold NetParser.remove_prefix. wp_step. eapply bounded_check; [exact Hp |]. intros p' Hp' Herr.
  wp_steps. destruct (NetParser.error p') eqn:Ep'; [wp_step; by apply HQ |].
  destruct (Herr eq_refl) as [-> Hlen]. wp_steps.
  destruct (Buffer.remove_prefix_str (NetParser._buffer p) k) as (b' & Eb & Es & Hwf'); [apply Hp | done |].
  eapply wp_of_outcome; [exact Eb |]. wp_step. apply HQ. split; [done |]. unfold NetParser.str. simpl. rewrite Es, len_zdrop.
  destruct Hp as [_ Hn]. unfold NetParser.str in Hn. pose proof (len_nonneg (Buffer.str (NetParser._buffer p))). lia.
Qed.

#[export] Hint Rewrite unparse_bytes_eq : unparse.
