(* ===== verification/checksum.v ===== *)
(** * util/util.hh, util/util.cc: [InternetChecksum]

    The ones'-complement sum of 16-bit words, and why storing its complement in
    a field makes the whole message check to zero. *)

From S2P Require Import prelude parser.

Module InternetChecksum.

Record t : Type := mk { _sum : Z; _parity : bool }.

(** [InternetChecksum(const uint32_t initial_sum)] *)
Definition new (initial_sum : Z) : t := mk initial_sum false.

Definition add_byte (c : t) (b : byte) : t :=
  let val := Z_of_byte b in
  let val := if negb (_parity c) then u16 (Z.shiftl val 8) else val in
  mk (u32 (_sum c + val)) (negb (_parity c)).

Definition add (data : list byte) (c : t) : t := foldl add_byte c data.

(** [while (ret > 0xffff)]: fold the carries back in. *)
Fixpoint fold_loop (fuel : nat) (ret : Z) : outcome Z :=
  if 0xffff <? ret then
    match fuel with
    | O => Throw OutOfFuel
    | S fuel => fold_loop fuel (u32 (Z.shiftr ret 16 + Z.land ret 0xffff))
    end
  else Ok ret.

(** Two iterations are enough for 32 bits. *)
Definition value (c : t) : outcome Z := ret ← fold_loop 2 (_sum c); Ok (u16 (Z.lnot ret)).

(** ** The sum, without its width *)

Fixpoint ones_sum (parity : bool) (data : list byte) : Z :=
  match data with
  | [] => 0
  | b :: data => (if parity then 1 else 2 ^ 8) * Z_of_byte b + ones_sum (negb parity) data
  end.

Definition odd_len (data : list byte) : bool := Nat.odd (length data).

Lemma add_eq data s p :
  add data (mk (u32 s) p) = mk (u32 (s + ones_sum p data)) (xorb p (odd_len data)).
Proof.
  unfold add. revert s p. induction data as [|b data IH]; intros s p; simpl.
  - unfold odd_len. simpl. by rewrite Z.add_0_r, xorb_false_r.
  - unfold add_byte at 2. simpl. pose proof (Z_of_byte_range b).
    assert (E : (if negb p then u16 (Z.shiftl (Z_of_byte b) 8) else Z_of_byte b)
      = (if p then 1 else 2 ^ 8) * Z_of_byte b).
    { destruct p; simpl negb; cbv iota; [lia |].
      rewrite Z.shiftl_mul_pow2 by lia. rewrite u16_small by lia. lia. }
    rewrite E. set (v := (if p then 1 else 2 ^ 8) * Z_of_byte b).
    replace (u32 (u32 s + v)) with (u32 (s + v)) by (unfold u32; by rewrite Zplus_mod_idemp_l).
    rewrite IH. f_equal; [by rewrite Z.add_assoc |].
    unfold odd_len. simpl length. rewrite Nat.odd_succ, <- Nat.negb_odd.
    by destruct p, (Nat.odd (length data)).
Qed.

Lemma add_new init data :
  0 <= init < 2 ^ 32 ->
  add data (new init) = mk (u32 (init + ones_sum false data)) (odd_len data).
Proof.
  intros Hi. unfold new. rewrite <- (u32_small init) at 1 by done. rewrite add_eq.
  by rewrite xorb_false_l.
Qed.

Lemma ones_sum_app p a b :
  ones_sum p (a ++ b) = ones_sum p a + ones_sum (xorb p (odd_len a)) b.
Proof.
  revert p. induction a as [|x a IH]; intros p; simpl.
  - unfold odd_len. simpl. by rewrite xorb_false_r.
  - rewrite IH. unfold odd_len. simpl length. rewrite Nat.odd_succ, <- Nat.negb_odd, <- Z.add_assoc.
    f_equal. f_equal. f_equal. by destruct p, (Nat.odd (length a)).
Qed.

Lemma ones_sum_bound p data : 0 <= ones_sum p data <= 2 ^ 16 * len data.
Proof.
  revert p. induction data as [|b data IH]; intros p; simpl; [done |].
  rewrite len_cons. pose proof (Z_of_byte_range b). pose proof (IH (negb p)). destruct p; lia.
Qed.

Lemma ones_sum_word v : ones_sum false (be_bytes 2 v) = u16 v.
Proof.
  simpl. rewrite !Z_of_byte_of_Z. unfold u8, u16. zarith.
Qed.

(** ** The folded sum *)

(** The representative of [s] modulo 65535 that the loop finds. *)
Definition folded (s : Z) : Z := if s =? 0 then 0 else (s - 1) mod 65535 + 1.

Lemma fold_step ret :
  0 <= ret < 2 ^ 32 -> u32 (Z.shiftr ret 16 + Z.land ret 0xffff) = ret / 2 ^ 16 + ret mod 2 ^ 16.
Proof.
  intros Hr. change 0xffff with (Z.ones 16). rewrite Z.land_ones, Z.shiftr_div_pow2 by lia.
  apply u32_small. zarith.
Qed.

Lemma folded_small s : 0 <= s <= 65535 -> folded s = s.
Proof.
  intros Hs. unfold folded. destruct (Z.eqb_spec s 0); [done |]. rewrite Z.mod_small; lia.
Qed.

Lemma folded_add s q : 0 < s -> 0 < s + q * 65535 -> folded (s + q * 65535) = folded s.
Proof.
  intros Hs Hq. unfold folded. rewrite !(proj2 (Z.eqb_neq _ _)) by lia.
  replace (s + q * 65535 - 1) with (s - 1 + q * 65535) by lia. by rewrite Z.mod_add.
Qed.

Lemma folded_step s : 0xffff < s -> folded (s / 2 ^ 16 + s mod 2 ^ 16) = folded s.
Proof.
  intros Hs. replace (s / 2 ^ 16 + s mod 2 ^ 16) with (s + - (s / 2 ^ 16) * 65535) by zarith.
  apply folded_add; zarith.
Qed.

Lemma fold_loop_eq s : 0 <= s < 2 ^ 32 -> fold_loop 2 s = Ok (folded s).
Proof.
  intros Hs. unfold fold_loop.
  destruct (Z.ltb_spec 0xffff s); [| by rewrite folded_small by lia].
  rewrite fold_step by done. rewrite <- (folded_step s) by done.
  assert (Ht : 0 <= s / 2 ^ 16 + s mod 2 ^ 16 <= 131070) by zarith.
  set (t := s / 2 ^ 16 + s mod 2 ^ 16) in *. clearbody t. clear s Hs H.
  destruct (Z.ltb_spec 0xffff t); [| by rewrite folded_small by lia].
  rewrite fold_step by lia. rewrite <- (folded_step t) by done.
  assert (Hv : 0 <= t / 2 ^ 16 + t mod 2 ^ 16 <= 65535) by zarith.
  by rewrite (proj2 (Z.ltb_ge _ _)), folded_small by lia.
Qed.

Lemma folded_range s : 0 <= s -> 0 <= folded s <= 65535.
Proof.
  intros. unfold folded. destruct (Z.eqb_spec s 0); [lia |].
  pose proof (Z.mod_pos_bound (s - 1) 65535). lia.
Qed.

(** The loop terminates, and the checksum is the complement of the folded sum. *)
Lemma value_eq init data :
  0 <= init -> init + ones_sum false data < 2 ^ 32 ->
  value (add data (new init)) = Ok (65535 - folded (init + ones_sum false data)).
Proof.
  intros Hi Hs. pose proof (ones_sum_bound false data).
  rewrite add_new by lia. unfold value. cbn [_sum]. rewrite u32_small by lia.
  rewrite fold_loop_eq by lia. cbn [mbind outcome_bind]. f_equal.
  pose proof (folded_range (init + ones_sum false data) ltac:(lia)).
  set (f := folded _) in *. unfold u16.
  replace (Z.lnot f) with (65535 - f + -1 * 2 ^ 16) by (unfold Z.lnot; lia).
  rewrite Z.mod_add by lia. apply Z.mod_small. lia.
Qed.

(** Whatever was added, even if the sum wrapped, the loop ends. *)
Lemma value_total init data :
  0 <= init < 2 ^ 32 -> exists v, value (add data (new init)) = Ok v /\ 0 <= v < 2 ^ 16.
Proof.
  intros Hi. rewrite add_new by done. unfold value. cbn [_sum].
  rewrite fold_loop_eq by apply u32_range. cbn [mbind outcome_bind]. eexists. split; [done |]. apply u16_range.
Qed.

Lemma folded_complement s : 0 <= s -> folded (s + (65535 - folded s)) = 65535.
Proof.
  intros Hs. destruct (Z.eq_dec s 0) as [->|]; [done |].
  assert (E : s - folded s = (s - 1) / 65535 * 65535).
  { unfold folded. rewrite (proj2 (Z.eqb_neq _ _)) by lia.
    pose proof (Z.div_mod (s - 1) 65535). lia. }
  replace (s + (65535 - folded s)) with (65535 + (s - 1) / 65535 * 65535) by lia.
  pose proof (Z.div_pos (s - 1) 65535). rewrite folded_add; [by apply folded_small | lia | lia].
Qed.

(** A checksum is zero exactly when the sum is a positive multiple of 65535. *)
Lemma value_zero init data :
  0 <= init -> init + ones_sum false data < 2 ^ 32 ->
  value (add data (new init)) = Ok 0 <->
  0 < init + ones_sum false data /\ (init + ones_sum false data) mod 65535 = 0.
Proof.
  intros Hi Hs. pose proof (ones_sum_bound false data). rewrite value_eq by done.
  set (s := init + ones_sum false data) in *.
  assert (Hs0 : 0 <= s) by lia. clearbody s. clear -Hs0.
  unfold folded. destruct (Z.eqb_spec s 0) as [E|E].
  - rewrite E. split; [done | lia].
  - split; [intros [= Hv]; zarith | intros [? ?]; f_equal; zarith].
Qed.

Lemma checksum_field init pre post :
  0 <= init -> odd_len pre = false ->
  init + 2 ^ 16 * (len pre + len post + 2) < 2 ^ 32 ->
  exists ck,
    value (add (pre ++ be_bytes 2 0 ++ post) (new init)) = Ok ck /\ 0 <= ck < 2 ^ 16 /\
    value (add (pre ++ be_bytes 2 ck ++ post) (new init)) = Ok 0.
Proof.
  intros Hi Hp Hs. pose proof (len_nonneg pre). pose proof (len_nonneg post).
  pose proof (ones_sum_bound false pre). pose proof (ones_sum_bound false post).
  assert (Hsum : forall v, ones_sum false (pre ++ be_bytes 2 v ++ post)
    = ones_sum false pre + ones_sum false post + u16 v).
  { intros v. rewrite !ones_sum_app, Hp. change (odd_len (be_bytes 2 v)) with false.
    cbn [xorb]. rewrite ones_sum_word. lia. }
  set (s := init + (ones_sum false pre + ones_sum false post)) in *.
  assert (Hval : forall v, 0 <= v < 2 ^ 16 ->
    value (add (pre ++ be_bytes 2 v ++ post) (new init)) = Ok (65535 - folded (s + v))).
  { intros v Hv. rewrite value_eq; rewrite ?Hsum, ?(u16_small v), ?Z.add_assoc by done;
      [| lia | unfold s in *; lia]. unfold s. by rewrite Z.add_assoc. }
  pose proof (folded_range s ltac:(lia)).
  exists (65535 - folded s). split; [| split; [lia |]].
  - rewrite Hval by lia. by rewrite Z.add_0_r.
  - rewrite Hval by lia. by rewrite folded_complement by lia.
Qed.
End InternetChecksum.

(** ** Properties *)


(** Checksums: with the checksum of a message computed with zeroes in a
    16-bit field at an even offset, and then stored in that field, the message
    checks to zero, whatever the initial sum (the pseudo-header). *)
Theorem checksum_verifies init pre post :
  0 <= init -> InternetChecksum.odd_len pre = false ->
  init + 2 ^ 16 * (len pre + len post + 2) < 2 ^ 32 ->
  exists ck,
    InternetChecksum.value (InternetChecksum.add (pre ++ be_bytes 2 0 ++ post) (InternetChecksum.new init)) = Ok ck /\
    0 <= ck < 2 ^ 16 /\
    InternetChecksum.value (InternetChecksum.add (pre ++ be_bytes 2 ck ++ post) (InternetChecksum.new init)) = Ok 0.
Proof. apply InternetChecksum.checksum_field. Qed.

(** ** Witness *)

Lemma checksum_verifies_witness :
  exists ck,
    InternetChecksum.value (InternetChecksum.add ([x45; x00] ++ be_bytes 2 0 ++ [xc0; xa8; x01]) (InternetChecksum.new 7)) = Ok ck /\
    0 <= ck < 2 ^ 16 /\
    InternetChecksum.value (InternetChecksum.add ([x45; x00] ++ be_bytes 2 ck ++ [xc0; xa8; x01]) (InternetChecksum.new 7)) = Ok 0.
Proof.
  apply checksum_verifies.
  - lia.
  - reflexivity.
  - vm_compute. reflexivity.
Defined.
