(* ===== verification/tcp_segment.v ===== *)
(** * tcp_helpers/tcp_header, tcp_helpers/tcp_segment: TCP segments on the wire *)

From S2P Require Import prelude buffer parser wire_format checksum wrapping_integers.

Module TCPHeader.

Definition LENGTH : Z := 20.

Record t : Type := mk {
  sport : Z;
  dport : Z;
  seqno : WrappingInt32.t;
  ackno : WrappingInt32.t;
  doff : Z;
  urg : bool;
  ack : bool;
  psh : bool;
  rst : bool;
  syn : bool;
  fin : bool;
  win : Z;
  cksum : Z;
  uptr : Z
}.

Definition eta (h : t) : t :=
  mk (sport h) (dport h) (seqno h) (ackno h) (doff h) (urg h) (ack h) (psh h) (rst h) (syn h) (fin h)
     (win h) (cksum h) (uptr h).
#[global] Instance set_sport : Setter sport := ltac:(derive_setter eta sport).
#[global] Instance set_dport : Setter dport := ltac:(derive_setter eta dport).
#[global] Instance set_seqno : Setter seqno := ltac:(derive_setter eta seqno).
#[global] Instance set_ackno : Setter ackno := ltac:(derive_setter eta ackno).
#[global] Instance set_ack : Setter ack := ltac:(derive_setter eta ack).
#[global] Instance set_rst : Setter rst := ltac:(derive_setter eta rst).
#[global] Instance set_syn : Setter syn := ltac:(derive_setter eta syn).
#[global] Instance set_fin : Setter fin := ltac:(derive_setter eta fin).
#[global] Instance set_win : Setter win := ltac:(derive_setter eta win).
#[global] Instance set_cksum : Setter cksum := ltac:(derive_setter eta cksum).

(** The default member initialisers. *)
Definition default : t :=
  mk 0 0 (WrappingInt32.of_Z 0) (WrappingInt32.of_Z 0) (LENGTH / 4)
     false false false false false false 0 0 0.

(** Every field is assigned before the first [return], so the header that was
    there before does not matter. *)
Definition parse : M NetParser.t (ParseResult * t) :=
  let* sport := NetParser.u16 in
  let* dport := NetParser.u16 in
  let* seqno := NetParser.u32 in
  let* ackno := NetParser.u32 in
  let* doff_b := NetParser.u8 in
  let doff := Z.shiftr doff_b 4 in
  let* fl_b := NetParser.u8 in
  let* win := NetParser.u16 in
  let* cksum := NetParser.u16 in
  let* uptr := NetParser.u16 in
  let h := mk sport dport (WrappingInt32.of_Z seqno) (WrappingInt32.of_Z ackno) doff
    (to_bool (Z.land fl_b 0x20)) (to_bool (Z.land fl_b 0x10)) (to_bool (Z.land fl_b 0x08))
    (to_bool (Z.land fl_b 0x04)) (to_bool (Z.land fl_b 0x02)) (to_bool (Z.land fl_b 0x01))
    win cksum uptr in
  if doff <? 5 then pure (HeaderTooShort, h)
  else
    NetParser.remove_prefix (doff * 4 - LENGTH) ;;
    let* err := asks NetParser.error in
    if err then let* e := asks NetParser.get_error in pure (e, h)
    else pure (NoError, h).

Definition flags_byte (h : t) : Z :=
  Z.lor (Z.lor (Z.lor (Z.lor (Z.lor (if urg h then 0x20 else 0) (if ack h then 0x10 else 0))
    (if psh h then 0x08 else 0)) (if rst h then 0x04 else 0)) (if syn h then 0x02 else 0))
    (if fin h then 0x01 else 0).

(** [serialize]: the checksum field is written as it stands. *)
Definition serialize (h : t) : outcome (list byte) :=
  if doff h <? 5 then Throw (Runtime_error "TCP header too short")
  else
    let ret := NetUnparser.u16 [] (sport h) in
    let ret := NetUnparser.u16 ret (dport h) in
    let ret := NetUnparser.u32 ret (WrappingInt32.raw_value (seqno h)) in
    let ret := NetUnparser.u32 ret (WrappingInt32.raw_value (ackno h)) in
    let ret := NetUnparser.u8 ret (u8 (Z.shiftl (doff h) 4)) in
    let ret := NetUnparser.u8 ret (flags_byte h) in
    let ret := NetUnparser.u16 ret (win h) in
    let ret := NetUnparser.u16 ret (cksum h) in
    let ret := NetUnparser.u16 ret (uptr h) in
    Ok (resize (4 * doff h) ret).

(** [operator==]: the ports and the checksum are not compared. *)
Definition eqb (a b : t) : bool :=
  WrappingInt32.eqb (seqno a) (seqno b) && WrappingInt32.eqb (ackno a) (ackno b) &&
  (doff a =? doff b) && Bool.eqb (urg a) (urg b) && Bool.eqb (ack a) (ack b) &&
  Bool.eqb (psh a) (psh b) && Bool.eqb (rst a) (rst b) && Bool.eqb (syn a) (syn b) &&
  Bool.eqb (fin a) (fin b) && (win a =? win b) && (uptr a =? uptr b).

(** The ranges of the field types; the data offset is four bits on the wire. *)
Record wf (h : t) : Prop := {
  wf_sport : 0 <= sport h < 2 ^ 16;
  wf_dport : 0 <= dport h < 2 ^ 16;
  wf_seqno : WrappingInt32.wf (seqno h);
  wf_ackno : WrappingInt32.wf (ackno h);
  wf_doff : 5 <= doff h < 16;
  wf_win : 0 <= win h < 2 ^ 16;
  wf_cksum : 0 <= cksum h < 2 ^ 16;
  wf_uptr : 0 <= uptr h < 2 ^ 16
}.

(** ** The wire image *)

Definition fixed_part (h : t) : list byte :=
  be_bytes 2 (sport h) ++ be_bytes 2 (dport h) ++ be_bytes 4 (WrappingInt32.raw_value (seqno h)) ++
  be_bytes 4 (WrappingInt32.raw_value (ackno h)) ++ be_bytes 1 (u8 (Z.shiftl (doff h) 4)) ++
  be_bytes 1 (flags_byte h) ++ be_bytes 2 (win h) ++ be_bytes 2 (cksum h) ++ be_bytes 2 (uptr h).

Definition options (h : t) : list byte := replicate (Z.to_nat (4 * doff h - 20)) x00.

Lemma len_fixed_part h : len (fixed_part h) = 20.
Proof. unfold fixed_part. rewrite !len_app, !len_be_bytes. lia. Qed.

Lemma len_options h : 5 <= doff h -> len (options h) = 4 * doff h - 20.
Proof. intros. unfold options, len. rewrite length_replicate. lia. Qed.

Lemma tcp_serialize_eq h : 5 <= doff h -> serialize h = Ok (fixed_part h ++ options h).
Proof.
  intros Hd. unfold serialize. rewrite (proj2 (Z.ltb_ge _ _)) by lia.
  autorewrite with unparse. rewrite app_nil_l, <- !app_assoc.
  fold (fixed_part h). unfold resize. rewrite len_fixed_part.
  by rewrite ztake_ge by (rewrite len_fixed_part; lia).
Qed.

Lemma of_Z_raw w : WrappingInt32.wf w -> WrappingInt32.of_Z (WrappingInt32.raw_value w) = w.
Proof. intros [? ?]. apply WrappingInt32.ext. simpl. apply u32_small. lia. Qed.

Lemma tcp_parse_wp h p rest (Q : ParseResult * t -> NetParser.t -> Prop) E :
  wf h -> NetParser.ok p (fixed_part h ++ options h ++ rest) ->
  (forall p', NetParser.ok p' rest -> Q (NoError, h) p') -> wpe parse Q E p.
Proof.
  intros [] Hp HQ. unfold parse. unfold fixed_part in Hp. rewrite <- !app_assoc in Hp.
  assert (Hd : Z.shiftr (u8 (Z.shiftl (doff h) 4)) 4 = doff h).
  { rewrite Z.shiftl_mul_pow2, Z.shiftr_div_pow2 by lia. unfold u8. zarith. }
  assert (Hf : 0 <= flags_byte h < 2 ^ 8).
  { unfold flags_byte. destruct (urg h), (ack h), (psh h), (rst h), (syn h), (fin h); by vm_compute. }
  do 9 (wp_step; eapply parse_be_bytes_wp; [exact Hp |]; clear Hp p; intros p Hp).
  change (8 * Z.of_nat 4) with 32. change (8 * Z.of_nat 2) with 16. change (8 * Z.of_nat 1) with 8.
  rewrite (Z.mod_small (u8 _)) by apply u8_range. rewrite Hd.
  rewrite !(Z.mod_small _ (2 ^ 16)) by done. rewrite !(Z.mod_small _ (2 ^ 32)) by done.
  rewrite (Z.mod_small (flags_byte h)) by done. rewrite !of_Z_raw by done.
  rewrite (proj2 (Z.ltb_ge _ _)) by lia.
  assert (Hopt : len (options h) = doff h * 4 - LENGTH).
  { rewrite len_options by lia. unfold LENGTH. lia. }
  wp_step. eapply NetParser.remove_prefix_wp; [exact Hp | rewrite len_app; pose proof (len_nonneg rest); unfold LENGTH in *; lia |].
  intros p' Hp'. rewrite zdrop_app_ge, Hopt, Z.sub_diag, zdrop_nonpos in Hp' by lia.
  wp_steps. unfold NetParser.error, NetParser.get_error. rewrite (NetParser.ok_error _ _ Hp'). simpl. wp_step.
  replace (mk _ _ _ _ _ _ _ _ _ _ _ _ _ _) with h; [by apply HQ |].
  destruct h. unfold flags_byte. simpl. clear.
  f_equal; destruct urg0, ack0, psh0, rst0, syn0, fin0; reflexivity.
Qed.
(** What is read has the ranges of the field types, whatever the bytes are. *)
Lemma tcp_parse_bounded n p (Q : ParseResult * t -> NetParser.t -> Prop) E :
  bounded n p ->
  (forall r h p', 0 <= sport h < 2 ^ 16 -> 0 <= dport h < 2 ^ 16 -> 0 <= win h < 2 ^ 16 -> bounded n p' -> Q (r, h) p') ->
  wpe parse Q E p.
Proof.
  intros Hp HQ. unfold parse.
  do 9 (wp_step; eapply parse_int_bounded; [exact Hp |]; clear Hp p; intros ? p ? Hp).
  apply wp_if; intros C; [wp_step; by apply HQ |]. apply Z.ltb_ge in C.
  wp_step. eapply remove_prefix_bounded; [exact Hp | unfold LENGTH; lia |]. intros p' Hp'. wp_steps.
  apply wp_if; intros _; wp_steps; by apply HQ.
Qed.
End TCPHeader.

Module TCPSegment.

Record t : Type := mk { _header : TCPHeader.t; _payload : Buffer.t }.

Definition eta (s : t) : t := mk (_header s) (_payload s).
#[global] Instance set_header : Setter _header := ltac:(derive_setter eta _header).
#[global] Instance set_payload : Setter _payload := ltac:(derive_setter eta _payload).

Definition default : t := mk TCPHeader.default Buffer.empty.

Definition header (s : t) : TCPHeader.t := _header s.
Definition payload (s : t) : Buffer.t := _payload s.

Definition length_in_sequence_space (s : t) : Z :=
  len (Buffer.str (payload s)) + (if TCPHeader.syn (header s) then 1 else 0)
    + (if TCPHeader.fin (header s) then 1 else 0).

(** [parse]: the result of [_header.parse] is not looked at; what counts is the
    error recorded in the parser. *)
Definition parse (buffer : Buffer.t) (datagram_layer_checksum : Z) (s : t) : outcome (ParseResult * t) :=
  let check := InternetChecksum.add (Buffer.str buffer) (InternetChecksum.new datagram_layer_checksum) in
  v ← InternetChecksum.value check;
  if to_bool v then Ok (BadChecksum, s)
  else
    match TCPHeader.parse (NetParser.new buffer) with
    | (Ok (_, h), p) => Ok (NetParser.get_error p, mk h (NetParser.buffer p))
    | (Throw e, _) => Throw e
    end.

Definition serialize (datagram_layer_checksum : Z) (s : t) : outcome BufferList.t :=
  let header_out := setf TCPHeader.cksum 0 (_header s) in
  hdr0 ← TCPHeader.serialize header_out;
  let check := InternetChecksum.new datagram_layer_checksum in
  let check := InternetChecksum.add hdr0 check in
  let check := InternetChecksum.add (Buffer.str (_payload s)) check in
  v ← InternetChecksum.value check;
  hdr ← TCPHeader.serialize (setf TCPHeader.cksum v header_out);
  Ok (BufferList.append (BufferList.of_string hdr) (BufferList.of_buffer (_payload s))).

(** The segments that fit into a datagram and can be read back from it. *)
Record sendable (s : t) : Prop := {
  send_header : TCPHeader.wf (_header s);
  send_size : len (Buffer.str (_payload s)) < 2 ^ 15
}.

Lemma length_nonneg s : 0 <= length_in_sequence_space s.
Proof.
  unfold length_in_sequence_space. pose proof (len_nonneg (Buffer.str (payload s))).
  destruct (TCPHeader.syn (header s)), (TCPHeader.fin (header s)); lia.
Qed.

(** The checksum field splits the header at an even offset. *)
Definition before_cksum (h : TCPHeader.t) : list byte :=
  be_bytes 2 (TCPHeader.sport h) ++ be_bytes 2 (TCPHeader.dport h) ++
  be_bytes 4 (WrappingInt32.raw_value (TCPHeader.seqno h)) ++
  be_bytes 4 (WrappingInt32.raw_value (TCPHeader.ackno h)) ++
  be_bytes 1 (u8 (Z.shiftl (TCPHeader.doff h) 4)) ++ be_bytes 1 (TCPHeader.flags_byte h) ++
  be_bytes 2 (TCPHeader.win h).

Lemma fixed_part_split h v :
  TCPHeader.fixed_part (setf TCPHeader.cksum v h) =
    before_cksum h ++ be_bytes 2 v ++ be_bytes 2 (TCPHeader.uptr h).
Proof. unfold TCPHeader.fixed_part, before_cksum. rewrite <- !app_assoc. done. Qed.

Lemma add_app a b c :
  InternetChecksum.add b (InternetChecksum.add a c) = InternetChecksum.add (a ++ b) c.
Proof. unfold InternetChecksum.add. by rewrite foldl_app. Qed.

(** A serialised segment: its bytes, and that they check to zero. *)
Lemma segment_serialize_eq pseudo s :
  TCPHeader.wf (_header s) -> 0 <= pseudo < 2 ^ 24 -> len (Buffer.str (_payload s)) < 2 ^ 15 ->
  exists ck bl, serialize pseudo s = Ok bl /\ 0 <= ck < 2 ^ 16 /\
    let h := setf TCPHeader.cksum ck (_header s) in
    let bs := TCPHeader.fixed_part h ++ TCPHeader.options h ++ Buffer.str (_payload s) in
    BufferList.concatenate bl = bs /\ len bs < 2 ^ 16 /\
    InternetChecksum.value (InternetChecksum.add bs (InternetChecksum.new pseudo)) = Ok 0.
Proof.
  intros Hh Hp Hl. set (h := _header s) in *. set (pl := Buffer.str (_payload s)) in *.
  pose proof (len_nonneg pl). pose proof (TCPHeader.wf_doff _ Hh).
  assert (Hopt : 0 <= len (TCPHeader.options h) <= 40).
  { rewrite TCPHeader.len_options by lia. lia. }
  assert (Hpre : len (before_cksum h) = 16).
  { unfold before_cksum. rewrite !len_app, !len_be_bytes. lia. }
  assert (Hsplit : forall v, TCPHeader.fixed_part (setf TCPHeader.cksum v h) ++ TCPHeader.options h ++ pl =
    before_cksum h ++ be_bytes 2 v ++ (be_bytes 2 (TCPHeader.uptr h) ++ TCPHeader.options h ++ pl)).
  { intros v. rewrite fixed_part_split, <- !app_assoc. done. }
  destruct (InternetChecksum.checksum_field pseudo (before_cksum h)
    (be_bytes 2 (TCPHeader.uptr h) ++ TCPHeader.options h ++ pl)) as (ck & Hck & Hr & Hz).
  { lia. } { done. }
  { rewrite !len_app, Hpre, len_be_bytes. lia. }
  exists ck. eexists. unfold serialize. fold h.
  rewrite TCPHeader.tcp_serialize_eq by (simpl; lia). cbn [mbind outcome_bind].
  rewrite add_app, <- app_assoc. fold pl.
  change (TCPHeader.options (setf TCPHeader.cksum 0 h)) with (TCPHeader.options h).
  rewrite Hsplit, Hck. cbn [mbind outcome_bind].
  rewrite TCPHeader.tcp_serialize_eq by (simpl; lia). cbn [mbind outcome_bind].
  split; [done |]. split; [done |].
  change (setf TCPHeader.cksum ck (setf TCPHeader.cksum 0 h)) with (setf TCPHeader.cksum ck h).
  change (TCPHeader.options (setf TCPHeader.cksum ck h)) with (TCPHeader.options h).
  split_and!.
  - rewrite BufferList.concatenate_bytes. unfold BufferList.append, BufferList.of_string, BufferList.of_buffer.
    rewrite BufferList.bytes_app, !BufferList.bytes_cons, Buffer.str_of_string.
    change (BufferList.bytes []) with (@nil byte). rewrite !app_nil_r, <- app_assoc. done.
  - rewrite !len_app, TCPHeader.len_fixed_part. lia.
  - by rewrite Hsplit.
Qed.

Lemma segment_parse_stored pseudo h pl b s0 :
  TCPHeader.wf h -> Buffer.wf b -> Buffer.str b = TCPHeader.fixed_part h ++ TCPHeader.options h ++ pl ->
  InternetChecksum.value (InternetChecksum.add (Buffer.str b) (InternetChecksum.new pseudo)) = Ok 0 ->
  exists s', parse b pseudo s0 = Ok (NoError, s') /\ _header s' = h /\ Buffer.str (_payload s') = pl.
Proof.
  intros Hh Hb Es Hz. unfold parse. rewrite Hz. cbn [mbind outcome_bind]. simpl to_bool. cbv iota.
  assert (Hwp : wp TCPHeader.parse (fun r p' => r.2 = h /\ NetParser.ok p' pl) (NetParser.new b)).
  { eapply TCPHeader.tcp_parse_wp; [done | | by intros]. pose proof (parser_ok b Hb) as Hp. by rewrite Es in Hp. }
  apply wp_run in Hwp as ([e h'] & p' & -> & Eh & Hp'). simpl in Eh. subst h'.
  eexists. unfold NetParser.get_error. rewrite (NetParser.ok_error _ _ Hp').
  split; [done |]. split; [done |]. apply Hp'.
Qed.

(** The ranges of the fields that the layers above use. *)
Record ranges (n : Z) (s : t) : Prop := {
  range_sport : 0 <= TCPHeader.sport (_header s) < 2 ^ 16;
  range_dport : 0 <= TCPHeader.dport (_header s) < 2 ^ 16;
  range_win : 0 <= TCPHeader.win (_header s) < 2 ^ 16;
  range_payload : len (Buffer.str (_payload s)) <= n
}.

(** Any bytes: [parse] returns; what it accepts fits. *)
Lemma segment_parse_total buffer pseudo s0 :
  Buffer.wf buffer -> 0 <= pseudo < 2 ^ 32 ->
  exists r s', parse buffer pseudo s0 = Ok (r, s') /\
    (r = NoError -> ranges (len (Buffer.str buffer)) s' /\
       InternetChecksum.value (InternetChecksum.add (Buffer.str buffer) (InternetChecksum.new pseudo)) = Ok 0).
Proof.
  intros Hb Hps. unfold parse.
  destruct (InternetChecksum.value_total pseudo (Buffer.str buffer)) as (v & Ev & _); [done |].
  rewrite Ev. cbn [mbind outcome_bind]. unfold to_bool.
  destruct (Z.eqb_spec v 0) as [-> |]; simpl negb; cbv iota; [| by eexists _, _].
  assert (Hwp : wp TCPHeader.parse (fun r p' => 0 <= TCPHeader.sport r.2 < 2 ^ 16 /\ 0 <= TCPHeader.dport r.2 < 2 ^ 16 /\
    0 <= TCPHeader.win r.2 < 2 ^ 16 /\ bounded (len (Buffer.str buffer)) p') (NetParser.new buffer)).
  { eapply TCPHeader.tcp_parse_bounded; [by apply bounded_new |]. by intros. }
  apply wp_run in Hwp as ([e h] & p & -> & H1 & H2 & H3 & H4). eexists _, _. split; [done |]. intros _.
  split; [| done]. split; [done | done | done | apply H4].
Qed.
End TCPSegment.

(** ** Properties *)

(** [C30] Round trip of segments: for every well-formed header (any data offset)
    and payload of less than 2^15 bytes, and a pseudo-header checksum below 2^24 (that of an
    IPv4 header is), [serialize] returns, and [parse] of its bytes with the same
    pseudo-header checksum succeeds with the same payload and the same header,
    up to the checksum field that [serialize] fills in. *)
Theorem segment_roundtrip pseudo s s0 :
  TCPHeader.wf (TCPSegment.header s) -> 0 <= pseudo < 2 ^ 24 ->
  len (Buffer.str (TCPSegment.payload s)) < 2 ^ 15 ->
  exists bl ck s',
    TCPSegment.serialize pseudo s = Ok bl /\
    TCPSegment.parse (Buffer.of_string (BufferList.concatenate bl)) pseudo s0 = Ok (NoError, s') /\
    TCPSegment.header s' = setf TCPHeader.cksum ck (TCPSegment.header s) /\
    Buffer.str (TCPSegment.payload s') = Buffer.str (TCPSegment.payload s).
Proof.
  intros Hh Hp Hl.
  destruct (TCPSegment.segment_serialize_eq pseudo s Hh Hp Hl) as (ck & bl & E & Hck & Ebl & Hlen & Hz).
  destruct (TCPSegment.segment_parse_stored pseudo (setf TCPHeader.cksum ck (TCPSegment._header s))
    (Buffer.str (TCPSegment._payload s)) (Buffer.of_string (BufferList.concatenate bl)) s0) as (s' & Es & Eh & Epl).
  { by destruct Hh. } { apply Buffer.wf_of_string. rewrite Ebl. lia. }
  { by rewrite Buffer.str_of_string. } { by rewrite Buffer.str_of_string, Ebl. }
  by exists bl, ck, s'.
Qed.

(** A segment whose data offset is below the minimum is reported as
    [HeaderTooShort] by [TCPHeader::parse], but [TCPSegment::parse] drops that
    result and accepts the segment whenever its checksum is right. *)
Theorem segment_parse_short_doff buffer pseudo s0 p h :
  InternetChecksum.value (InternetChecksum.add (Buffer.str buffer) (InternetChecksum.new pseudo)) = Ok 0 ->
  TCPHeader.parse (NetParser.new buffer) = (Ok (HeaderTooShort, h), p) ->
  NetParser.get_error p = NoError ->
  exists s', TCPSegment.parse buffer pseudo s0 = Ok (NoError, s') /\ TCPSegment.header s' = h.
Proof.
  intros Hz Hp He. unfold TCPSegment.parse. rewrite Hz. cbn [mbind outcome_bind]. simpl to_bool. cbv iota.
  rewrite Hp, He. by eexists.
Qed.

(** ** Witnesses *)

Definition demo_header : TCPHeader.t :=
  TCPHeader.mk 80 4660 (WrappingInt32.of_Z 99) (WrappingInt32.of_Z 7) 6 false true false false true true 500 0 0.
Definition demo_segment : TCPSegment.t := TCPSegment.mk demo_header (Buffer.of_string [x68; x69; x21]).

Lemma segment_roundtrip_witness :
  exists bl ck s',
    TCPSegment.serialize 1000 demo_segment = Ok bl /\
    TCPSegment.parse (Buffer.of_string (BufferList.concatenate bl)) 1000 TCPSegment.default = Ok (NoError, s') /\
    TCPSegment.header s' = setf TCPHeader.cksum ck demo_header /\
    Buffer.str (TCPSegment.payload s') = [x68; x69; x21].
Proof.
  apply (segment_roundtrip 1000 demo_segment TCPSegment.default).
  - split; vm_compute; split; congruence.
  - lia.
  - vm_compute. reflexivity.
Defined.

(** Twenty bytes with a data offset of four and a correct checksum. *)
Definition short_doff_bytes : list byte :=
  be_bytes 2 80 ++ be_bytes 2 4660 ++ be_bytes 4 99 ++ be_bytes 4 7 ++ be_bytes 1 64 ++ be_bytes 1 2 ++
  be_bytes 2 500 ++ be_bytes 2 43803 ++ be_bytes 2 0.

Lemma segment_parse_short_doff_witness :
  exists s', TCPSegment.parse (Buffer.of_string short_doff_bytes) 0 TCPSegment.default = Ok (NoError, s') /\
    TCPHeader.doff (TCPSegment.header s') = 4.
Proof.
  destruct (segment_parse_short_doff (Buffer.of_string short_doff_bytes) 0 TCPSegment.default
    (NetParser.mk (Buffer.mk None 20) NoError)
    (TCPHeader.mk 80 4660 (WrappingInt32.of_Z 99) (WrappingInt32.of_Z 7) 4 false false false false true false 500 43803 0))
    as (s' & Es & Eh).
  - vm_compute. reflexivity.
  - vm_compute. reflexivity.
  - reflexivity.
  - exists s'. rewrite Es, Eh. split; reflexivity.
Defined.
