(* ===== verification/tcp_stream.v ===== *)
(** * What a TCP sender owes to the receiver of its stream

    The contract between [TCPSender] and [TCPReceiver]: which segments may
    travel from one to the other when the stream is [S] and its initial sequence
    number [isn].  The sender is proved to emit only such segments, the receiver
    to rebuild [S] from any of them in any order. *)

From S2P Require Import prelude buffer wrapping_integers stream_reassembler tcp_segment.

(** [segment_of S isn a seg]: [seg] is a segment of a connection that sends [S];
    [a] is its absolute sequence number.  It is a SYN with the first bytes of
    [S], or bytes of [S] from index [a - 1], or it carries nothing (a bare ACK or
    a keep-alive, whatever its sequence number). *)
Definition segment_of (S : list byte) (isn : WrappingInt32.t) (a : Z) (seg : TCPSegment.t) : Prop :=
  let h := TCPSegment.header seg in
  let data := Buffer.str (TCPSegment.payload seg) in
  TCPHeader.seqno h = wrap a isn /\ 0 <= a < 2 ^ 64 /\
  if TCPHeader.syn h then a = 0 /\ StreamReassembler.honest S data 0 (TCPHeader.fin h)
  else (1 <= a /\ StreamReassembler.honest S data (a - 1) (TCPHeader.fin h)) \/
       (data = [] /\ TCPHeader.fin h = false).


Section segment_of.
Context (isn : WrappingInt32.t).
Implicit Types (S data : list byte) (a : Z) (seg : TCPSegment.t).

Lemma honest_app S data S' index :
  StreamReassembler.honest S data index false -> StreamReassembler.honest (S ++ S') data index false.
Proof.
  intros []. pose proof (len_nonneg data). pose proof (len_nonneg S').
  split; [done | rewrite len_app; lia | | done].
  by rewrite slice_app_l by lia.
Qed.

(** Bytes written later do not invalidate a segment, unless it carries the FIN. *)
Lemma segment_of_app S S' a seg :
  segment_of S isn a seg -> TCPHeader.fin (TCPSegment.header seg) = false ->
  segment_of (S ++ S') isn a seg.
Proof.
  intros (Es & Ha & Hd) Hf. split; [done |]. split; [done |]. rewrite Hf in *.
  destruct (TCPHeader.syn (TCPSegment.header seg)).
  - destruct Hd. split; [done |]. by apply honest_app.
  - destruct Hd as [[? ?]|?]; [left | by right]. split; [done |]. by apply honest_app.
Qed.

(** The segment a sender builds from the next bytes of the stream. *)
Lemma segment_of_slice S a rd n seg :
  let h := TCPSegment.header seg in
  0 <= rd -> 0 <= n -> rd + n <= len S -> len S + 2 < 2 ^ 64 ->
  TCPHeader.seqno h = wrap a isn ->
  Buffer.str (TCPSegment.payload seg) = slice rd (rd + n) S ->
  a = (if TCPHeader.syn h then 0 else 1 + rd) -> (TCPHeader.syn h = true -> rd = 0) ->
  (TCPHeader.fin h = true -> rd + n = len S) ->
  segment_of S isn a seg.
Proof.
  intros h Hrd Hn Hle Hfit Es Ed Ea Hsyn Hfin. unfold segment_of. fold h. rewrite Ed.
  assert (Hl : len (slice rd (rd + n) S) = n) by (rewrite len_slice; lia).
  assert (Hh : StreamReassembler.honest S (slice rd (rd + n) S) rd (TCPHeader.fin h)).
  { split; rewrite ?Hl; try done. }
  split; [done |]. destruct (TCPHeader.syn h).
  - rewrite (Hsyn eq_refl) in *. split; [lia | done].
  - split; [lia |]. left. replace (a - 1) with rd by lia. split; [lia | done].
Qed.

(** A segment without payload or FIN belongs to every stream. *)
Lemma segment_of_empty S a seg :
  0 <= a < 2 ^ 64 -> TCPHeader.seqno (TCPSegment.header seg) = wrap a isn ->
  TCPHeader.syn (TCPSegment.header seg) = false -> TCPHeader.fin (TCPSegment.header seg) = false ->
  Buffer.str (TCPSegment.payload seg) = [] -> segment_of S isn a seg.
Proof. intros Ha Es Hs Hf Hp. split; [done |]. split; [done |]. rewrite Hs. auto. Qed.
End segment_of.
