(* ===== verification/tcp_receiver.v ===== *)
(** * tcp_receiver.hh, tcp_receiver.cc: the receiving half of TCP

    The receiver finds the initial sequence number in the first SYN, turns the
    sequence number of each later segment into an index of the byte stream, and
    hands the payload to the reassembler.  Its theorems are stated against the
    stream [S] the peer is sending. *)

From S2P Require Import prelude buffer wrapping_integers byte_stream stream_reassembler tcp_segment tcp_stream.

Module TCPReceiver.

Record t : Type := mk {
  _reassembler : StreamReassembler.t;
  _capacity : Z;
  _isn : option WrappingInt32.t
}.

Definition eta (r : t) : t := mk (_reassembler r) (_capacity r) (_isn r).
#[global] Instance set_reassembler : Setter _reassembler := ltac:(derive_setter eta _reassembler).
#[global] Instance set_isn : Setter _isn := ltac:(derive_setter eta _isn).

Definition new (capacity : Z) : t := mk (StreamReassembler.new capacity) capacity None.

Definition stream_out (r : t) : ByteStream.t := StreamReassembler.stream_out (_reassembler r).
Definition unassembled_bytes (r : t) : Z := StreamReassembler.unassembled_bytes (_reassembler r).

Definition segment_received (seg : TCPSegment.t) : M t unit :=
  let header := TCPSegment.header seg in
  let* isn := asks _isn in
  let body (isn : WrappingInt32.t) : M t unit :=
    let* checkpoint := asks (fun r => ByteStream.bytes_written (stream_out r)) in
    let abs_seq := unwrap (TCPHeader.seqno header) isn checkpoint in
    let stream_index := u64 (u64 (abs_seq - 1) + (if TCPHeader.syn header then 1 else 0)) in
    zoom _reassembler
      (StreamReassembler.push_substring (Buffer.copy (TCPSegment.payload seg)) stream_index
         (TCPHeader.fin header)) in
  match isn with
  | None =>
      if negb (TCPHeader.syn header) then pure tt
      else _isn ::= Some (TCPHeader.seqno header) ;; body (TCPHeader.seqno header)
  | Some isn => body isn
  end.

Definition ackno (r : t) : option WrappingInt32.t :=
  match _isn r with
  | None => None
  | Some isn =>
      let abs_seq := u64 (u64 (ByteStream.bytes_written (stream_out r) + 1)
        + (if ByteStream.input_ended (stream_out r) then 1 else 0)) in
      Some (wrap abs_seq isn)
  end.

Definition window_size (r : t) : Z := u64 (_capacity r - ByteStream.buffer_size (stream_out r)).

(** The application reads from [stream_out()]. *)
Definition read (n : Z) : M t (list byte) :=
  zoom _reassembler (zoom StreamReassembler._output (ByteStream.read n)).

(** ** Invariant *)

(** [receiving S isn rd r]: the peer sends [S] from the initial sequence number
    [isn]; [r] has assembled a prefix of it and the application has read [rd] bytes. *)
Record receiving (S : list byte) (isn : WrappingInt32.t) (rd : Z) (r : t) : Prop := {
  rc_wf : WrappingInt32.wf isn;
  rc_isn : _isn r = None \/ _isn r = Some isn;
  rc_cap : StreamReassembler._capacity (_reassembler r) = _capacity r;
  rc_asm : StreamReassembler.assembled S rd (_reassembler r)
}.

(** Number of bytes of the stream assembled so far. *)
Definition assembled_bytes (r : t) : Z := StreamReassembler._cur_index (_reassembler r).

(** The end of the stream, once it is known. *)
Definition eof_index (r : t) : Z := StreamReassembler._eof_index (_reassembler r).

(** The sequence number can be told apart from its copies 2^32 away. *)
Definition near (r : t) (a : Z) : Prop := - 2 ^ 31 < a - assembled_bytes r <= 2 ^ 31.

Lemma assembled_range S rd (r : StreamReassembler.t) :
  StreamReassembler.assembled S rd r ->
  0 <= rd <= StreamReassembler._cur_index r /\ StreamReassembler._cur_index r <= len S /\
  StreamReassembler._cur_index r <= rd + StreamReassembler._capacity r /\
  0 < StreamReassembler._capacity r /\ len S + 2 * StreamReassembler._capacity r < 2 ^ 64.
Proof.
  intros []. destruct as_core. rewrite <- core_cur in *. lia.
Qed.

Lemma receiver_bytes_written S isn rd r :
  receiving S isn rd r -> ByteStream.bytes_written (stream_out r) = assembled_bytes r.
Proof.
  intros []. destruct (assembled_range _ _ _ rc_asm0) as (? & ? & ? & ? & ?).
  unfold stream_out, StreamReassembler.stream_out, ByteStream.bytes_written, assembled_bytes.
  rewrite (ref_written _ _ (StreamReassembler.as_output _ _ _ rc_asm0)). simpl.
  rewrite <- (StreamReassembler.core_cur _ _ _ _ (StreamReassembler.as_core _ _ _ rc_asm0)).
  apply u64_small. lia.
Qed.

Lemma window_size_eq S isn rd r :
  receiving S isn rd r -> window_size r = rd + _capacity r - assembled_bytes r.
Proof.
  intros []. destruct (assembled_range _ _ _ rc_asm0) as (? & ? & ? & ? & ?).
  unfold window_size, stream_out, StreamReassembler.stream_out, assembled_bytes.
  rewrite (StreamReassembler.buffer_size_eq _ _ _ (StreamReassembler.as_output _ _ _ rc_asm0)).
  rewrite <- (StreamReassembler.core_cur _ _ _ _ (StreamReassembler.as_core _ _ _ rc_asm0)).
  rewrite u64_small; lia.
Qed.

Lemma ackno_eq S isn rd r :
  receiving S isn rd r ->
  ackno r = match _isn r with
            | None => None
            | Some _ => Some (wrap (assembled_bytes r + 1 +
                (if ByteStream.input_ended (stream_out r) then 1 else 0)) isn)
            end.
Proof.
  intros Hr. pose proof (receiver_bytes_written _ _ _ _ Hr) as Hb. destruct Hr.
  unfold ackno. destruct rc_isn0 as [-> | ->]; [done |].
  destruct (assembled_range _ _ _ rc_asm0) as (? & ? & ? & ? & ?).
  rewrite Hb. unfold assembled_bytes in *. rewrite (u64_small (_ + 1)) by lia. by rewrite wrap_u64.
Qed.

Lemma receiving_new S isn capacity :
  WrappingInt32.wf isn -> 0 < capacity -> len S + 2 * capacity < 2 ^ 64 ->
  receiving S isn 0 (new capacity).
Proof. intros. split; simpl; auto. by apply StreamReassembler.assembled_new. Qed.

(** The index [push_substring] is called with. *)
Lemma stream_index_eq S isn rd r a seg :
  receiving S isn rd r -> segment_of S isn a seg -> near r a ->
  let checkpoint := ByteStream.bytes_written (stream_out r) in
  u64 (u64 (unwrap (TCPHeader.seqno (TCPSegment.header seg)) isn checkpoint - 1)
    + (if TCPHeader.syn (TCPSegment.header seg) then 1 else 0))
  = if TCPHeader.syn (TCPSegment.header seg) then 0 else u64 (a - 1).
Proof.
  intros Hr (Es & Ha & Hd) Hn. rewrite (receiver_bytes_written _ _ _ _ Hr). simpl.
  destruct (assembled_range _ _ _ (rc_asm _ _ _ _ Hr)) as (? & ? & ? & ? & ?).
  rewrite Es, unwrap_wrap_near; [| apply Hr | done | unfold assembled_bytes in *; lia | apply Hn].
  destruct (TCPHeader.syn (TCPSegment.header seg)).
  - destruct Hd as [-> _]. reflexivity.
  - rewrite Z.add_0_r. apply u64_small, u64_range.
Qed.

Lemma push_segment S isn rd r a seg :
  receiving S isn rd r -> segment_of S isn a seg -> _isn r = Some isn ->
  let h := TCPSegment.header seg in
  let index := if TCPHeader.syn h then 0 else u64 (a - 1) in
  let data := Buffer.copy (TCPSegment.payload seg) in
  wp (zoom _reassembler (StreamReassembler.push_substring data index (TCPHeader.fin h)))
    (fun _ r' => receiving S isn rd r' /\ _isn r' = Some isn /\ _capacity r' = _capacity r /\
      eof_index r' = (if TCPHeader.fin h then len S else eof_index r) /\
      (forall k, StreamReassembler.known (_reassembler r') k <->
        StreamReassembler.known (_reassembler r) k \/
        index <= k < Z.min (index + len data) (assembled_bytes r + window_size r))) r.
Proof.
  intros Hr (Es & Ha & Hd) Hisn h index data. pose proof (window_size_eq _ _ _ _ Hr) as Hw.
  pose proof Hr as []. wp_step. unfold data, Buffer.copy.
  replace (assembled_bytes r + window_size r) with (rd + _capacity r) by lia.
  assert (Hcase : StreamReassembler.honest S (Buffer.str (TCPSegment.payload seg)) index (TCPHeader.fin h) \/
    (Buffer.str (TCPSegment.payload seg) = [] /\ TCPHeader.fin h = false)).
  { unfold index, h in *. destruct (TCPHeader.syn (TCPSegment.header seg)).
    - left. apply Hd.
    - destruct Hd as [[? ?]|?]; [left | by right]. by rewrite u64_small by lia. }
  destruct Hcase as [Hh|[Ed Ef]].
  - eapply wp_mono; [by apply StreamReassembler.push_assembled |].
    intros [] q (Ha' & Ec & _ & Ee & Hk). simpl. rewrite <- rc_cap0. split_and!; try done.
    split; simpl; auto. congruence.
  - rewrite Ed, Ef. eapply wp_mono.
    { apply StreamReassembler.push_nothing; [done |]. unfold index.
      destruct (TCPHeader.syn h); [done | apply u64_range]. }
    intros [] q (Ha' & Ec & Ee & Hk). simpl. split_and!; try done.
    + split; simpl; auto. congruence.
    + intros k. rewrite Hk. change (len []) with 0. intuition lia.
Qed.

Lemma receiver_segment_wp S isn rd r a seg :
  receiving S isn rd r -> segment_of S isn a seg -> near r a ->
  _isn r <> None \/ TCPHeader.syn (TCPSegment.header seg) = true ->
  let h := TCPSegment.header seg in
  let index := if TCPHeader.syn h then 0 else u64 (a - 1) in
  wp (segment_received seg)
    (fun _ r' => receiving S isn rd r' /\ _isn r' = Some isn /\ _capacity r' = _capacity r /\
      eof_index r' = (if TCPHeader.fin h then len S else eof_index r) /\
      (forall k, StreamReassembler.known (_reassembler r') k <->
        StreamReassembler.known (_reassembler r) k \/
        index <= k < Z.min (index + len (Buffer.copy (TCPSegment.payload seg)))
                           (assembled_bytes r + window_size r))) r.
Proof.
  intros Hr Hs Hn Hopen. pose proof (stream_index_eq _ _ _ _ _ _ Hr Hs Hn) as Hidx.
  unfold segment_received. wp_step. wp_step. pose proof (rc_isn _ _ _ _ Hr) as [Ei|Ei]; rewrite Ei.
  - destruct Hopen as [|Hsyn]; [done |]. rewrite Hsyn in *. simpl.
    pose proof Hs as (Es & Ha & Hd). rewrite Hsyn in Hd. destruct Hd as [-> Hh].
    assert (E0 : TCPHeader.seqno (TCPSegment.header seg) = isn).
    { rewrite Es. apply wrap_0, Hr. }
    wp_step. wp_step. wp_step. wp_step. rewrite E0.
    change (stream_out (setf _isn (Some isn) r)) with (stream_out r).
    rewrite E0 in Hidx. rewrite Hidx.
    assert (Hr1 : receiving S isn rd (setf _isn (Some isn) r)).
    { destruct Hr. split; simpl; auto. }
    pose proof (push_segment S isn rd _ 0 seg Hr1) as Hp. simpl in Hp. rewrite Hsyn in Hp.
    by apply Hp.
  - wp_step. wp_step. rewrite Hidx. by apply push_segment.
Qed.

Lemma receiver_read_wp S isn rd r n :
  receiving S isn rd r -> 0 <= n ->
  wp (read n) (fun bs r' =>
    let rd' := Z.min (rd + n) (assembled_bytes r) in
    bs = slice rd rd' S /\ receiving S isn rd' r' /\ _isn r' = _isn r /\
    _capacity r' = _capacity r /\ assembled_bytes r' = assembled_bytes r /\ eof_index r' = eof_index r /\
    (forall k, StreamReassembler.known (_reassembler r') k <-> StreamReassembler.known (_reassembler r) k)) r.
Proof.
  intros [] Hn. unfold read. wp_step. eapply wp_mono; [by apply StreamReassembler.read_assembled |].
  intros bs q (-> & Ha & Ec & Ecur & Ee & Hk). split_and!; try done.
  split; simpl; auto. congruence.
Qed.
(** *** Arbitrary peers

    Whatever segments arrive, the receiver keeps a state from which nothing
    worse than one of the reassembler's two exceptions can happen; [n] counts
    the events. *)

Definition safe (n : Z) (r : t) : Prop :=
  ReassemblerTrace.safe_state n (_reassembler r) /\
  StreamReassembler._capacity (_reassembler r) = _capacity r.

Definition benign (e : exn) : Prop :=
  e = StreamReassembler.inconsistent_substrings \/ e = StreamReassembler.inconsistent_eof.

Lemma reassembler_event_wp n N r ev (Q : list byte -> t -> Prop) (E : exn -> t -> Prop) :
  safe n r -> ReassemblerTrace.sane_event ev -> 0 <= n -> n + 1 <= N -> (N + 2) * _capacity r < 2 ^ 64 ->
  (forall bs q, safe (n + 1) (setf _reassembler q r) -> Q bs (setf _reassembler q r)) ->
  (forall e q, benign e -> safe (n + 1) (setf _reassembler q r) -> E e (setf _reassembler q r)) ->
  wpe (zoom _reassembler (ReassemblerTrace.exec_event ev)) Q E r.
Proof.
  intros [Hs Hc] Hev Hn HN Hcap HQ HE. rewrite <- Hc in Hcap. wp_step.
  destruct (ReassemblerTrace.exec_event_safe n N (_reassembler r) ev Hs Hev Hn HN Hcap) as (Hb & Hs' & Hc').
  unfold wpe. destruct (ReassemblerTrace.exec_event ev (_reassembler r)) as [[bs|e] q]; simpl in *.
  - apply HQ. split; simpl; congruence.
  - apply HE; [done |]. split; simpl; congruence.
Qed.

Lemma segment_received_safe n N r seg :
  safe n r -> len (Buffer.str (TCPSegment.payload seg)) < 2 ^ 64 -> 0 <= n -> n + 1 <= N ->
  (N + 2) * _capacity r < 2 ^ 64 ->
  wpe (segment_received seg) (fun _ r' => safe (n + 1) r' /\ _capacity r' = _capacity r)
    (fun e r' => benign e /\ safe (n + 1) r' /\ _capacity r' = _capacity r) r.
Proof.
  intros Hs Hl Hn HN Hcap.
  assert (Hpush : forall r1 index, safe n r1 -> _capacity r1 = _capacity r -> 0 <= index < 2 ^ 64 ->
    wpe (zoom _reassembler (StreamReassembler.push_substring (Buffer.copy (TCPSegment.payload seg)) index
        (TCPHeader.fin (TCPSegment.header seg))))
      (fun _ r' => safe (n + 1) r' /\ _capacity r' = _capacity r)
      (fun e r' => benign e /\ safe (n + 1) r' /\ _capacity r' = _capacity r) r1).
  { intros r1 index Hs1 Hc1 Hi.
    pose proof (reassembler_event_wp n N r1 (ReassemblerTrace.Push (Buffer.copy (TCPSegment.payload seg)) index
        (TCPHeader.fin (TCPSegment.header seg)))
      (fun _ r' => safe (n + 1) r' /\ _capacity r' = _capacity r)
      (fun e r' => benign e /\ safe (n + 1) r' /\ _capacity r' = _capacity r)) as H.
    unfold wpe, zoom in *. simpl in H. unfold bind in H.
    destruct (StreamReassembler.push_substring _ _ _ (_reassembler r1)) as [[[]|e] q];
      apply H; try done; lia. }
  unfold segment_received. wp_step. wp_step. destruct (_isn r) as [isn|].
  - wp_step. wp_step. apply Hpush; [done | done | apply u64_range].
  - destruct (TCPHeader.syn (TCPSegment.header seg)); simpl.
    + do 4 wp_step. apply Hpush; [done | done | apply u64_range].
    + wp_step. split; [| done]. destruct Hs as [Hs ?]. split; [| done].
      eapply ReassemblerTrace.safe_state_mono; [done | lia].
Qed.

Lemma safe_new capacity : 0 < capacity -> 2 * capacity < 2 ^ 64 -> safe 0 (new capacity).
Proof.
  intros. split; [| done]. exists [], 0.
  split_and!; [by apply StreamReassembler.core_new | by apply StreamReassembler.output_new | simpl; lia].
Qed.

Lemma safe_mono n n' r : safe n r -> n <= n' -> safe n' r.
Proof. intros [? ?] ?. split; eauto using ReassemblerTrace.safe_state_mono. Qed.
End TCPReceiver.

(** ** Reachable states

    The network delivers segments of the connection in any order, any number of
    times, and anything at all before the SYN; the application reads when it
    likes. *)

Module ReceiverTrace.
Import TCPReceiver.

Inductive event : Type :=
| Deliver (seg : TCPSegment.t)
| Read_output (n : Z).

Definition exec_event (ev : event) : M t (list byte) :=
  match ev with
  | Deliver seg => segment_received seg ;; pure []
  | Read_output n => read n
  end.

(** What may happen in state [r]. *)
Definition allowed (S : list byte) (isn : WrappingInt32.t) (r : t) (ev : event) : Prop :=
  match ev with
  | Deliver seg =>
      (exists a, segment_of S isn a seg /\ near r a) \/
      (_isn r = None /\ TCPHeader.syn (TCPSegment.header seg) = false)
  | Read_output n => 0 <= n
  end.

Definition output_of (o : outcome (list byte)) : list byte :=
  match o with Ok bs => bs | Throw _ => [] end.

(** [reach S isn capacity out r]: [r] is reached from a fresh receiver and the
    application has read [out] on the way. *)
Inductive reach (S : list byte) (isn : WrappingInt32.t) (capacity : Z) : list byte -> t -> Prop :=
| reach_new : reach S isn capacity [] (new capacity)
| reach_step out r ev o r' :
    reach S isn capacity out r -> allowed S isn r ev -> exec_event ev r = (o, r') ->
    reach S isn capacity (out ++ output_of o) r'.

(** Number of the first byte after the window. *)
Definition right_edge (r : t) : Z := assembled_bytes r + window_size r.

Lemma known_below S rd (q q' : StreamReassembler.t) :
  StreamReassembler.assembled S rd q -> StreamReassembler.assembled S rd q' ->
  (forall k, StreamReassembler.known q k -> StreamReassembler.known q' k) ->
  StreamReassembler._cur_index q <= StreamReassembler._cur_index q'.
Proof.
  intros Ha Ha' Hk. destruct (Z.le_gt_cases (StreamReassembler._cur_index q) (StreamReassembler._cur_index q'))
    as [|Hlt]; [done |].
  destruct (assembled_range _ _ _ Ha') as (? & _).
  destruct (Hk (StreamReassembler._cur_index q')) as [|[_ Hne]]; [left; lia | lia |].
  by rewrite (StreamReassembler.as_head _ _ _ Ha') in Hne.
Qed.

Lemma receiver_event_wp S isn rd r ev :
  receiving S isn rd r -> allowed S isn r ev ->
  wp (exec_event ev) (fun bs r' => exists rd', receiving S isn rd' r' /\ rd <= rd' /\
    bs = slice rd rd' S /\ _capacity r' = _capacity r /\
    (_isn r <> None -> _isn r' = Some isn) /\
    assembled_bytes r <= assembled_bytes r' /\ right_edge r <= right_edge r') r.
Proof.
  intros Hr Hev. pose proof (window_size_eq _ _ _ _ Hr) as Hw. unfold right_edge.
  pose proof (assembled_range _ _ _ (rc_asm _ _ _ _ Hr)) as (Hrd & _).
  destruct ev as [seg|n]; simpl in *.
  - assert (Hskip : _isn r = None -> TCPHeader.syn (TCPSegment.header seg) = false ->
      segment_received seg r = (Ok tt, r)).
    { intros Ei Es. unfold segment_received, bind, asks. by rewrite Ei, Es. }
    wp_step. destruct (decide (_isn r = None /\ TCPHeader.syn (TCPSegment.header seg) = false)) as [[Ei Es]|Hopen].
    { unfold wpe at 1. rewrite Hskip by done. wp_step. exists rd.
      rewrite slice_nil by lia. split_and!; try done; lia. }
    destruct Hev as [(a & Hs & Hn)|]; [| done].
    eapply wp_mono; [eapply (receiver_segment_wp S isn rd); try done |].
    { destruct (_isn r); [by left | right]. by destruct (TCPHeader.syn _); [| destruct Hopen]. }
    intros [] r' (Hr' & Ei & Ec & _ & Hk). wp_step. exists rd. rewrite slice_nil by lia.
    pose proof (window_size_eq _ _ _ _ Hr') as Hw'. split_and!; try done; try lia.
    apply (known_below S rd); [apply Hr | apply Hr' |].
    intros k Hkn. apply Hk. by left.
  - eapply wp_mono; [by apply receiver_read_wp |]. intros bs r' (-> & Hr' & Ei & Ec & Ea & _).
    pose proof (window_size_eq _ _ _ _ Hr') as Hw'. unfold assembled_bytes in *.
    eexists. split_and!; try done; try lia.
    intros Hi. rewrite Ei. by destruct (rc_isn _ _ _ _ Hr).
Qed.

Lemma reach_receiving S isn capacity out r :
  WrappingInt32.wf isn -> 0 < capacity -> len S + 2 * capacity < 2 ^ 64 ->
  reach S isn capacity out r ->
  exists rd, receiving S isn rd r /\ _capacity r = capacity /\ out = slice 0 rd S.
Proof.
  intros Hw Hc Hf. induction 1 as [|out r ev o r' _ (rd & Hr & Ec & ->) Hev Hexec].
  { exists 0. split_and!; [by apply receiving_new | done | by rewrite slice_nil]. }
  pose proof (receiver_event_wp _ _ _ _ _ Hr Hev) as Hwp. unfold wpe in Hwp. rewrite Hexec in Hwp.
  destruct o as [bs|]; [| done]. destruct Hwp as (rd' & Hr' & Hle & -> & Ec' & _).
  pose proof (assembled_range _ _ _ (rc_asm _ _ _ _ Hr)) as (? & _).
  exists rd'. split_and!; [done | congruence |]. simpl. by rewrite slice_app by lia.
Qed.
End ReceiverTrace.

(** ** Properties *)

Import TCPReceiver ReceiverTrace.

(** [C9] One segment of the connection, at absolute sequence number [a] within
    2^31 of the bytes assembled: [segment_received] returns, learns the initial
    sequence number from a SYN, and accepts exactly the bytes of the payload
    that lie in the window it advertises. *)
Theorem segment_received_correct S isn rd r a seg :
  receiving S isn rd r -> segment_of S isn a seg -> near r a ->
  _isn r <> None \/ TCPHeader.syn (TCPSegment.header seg) = true ->
  let index := if TCPHeader.syn (TCPSegment.header seg) then 0 else u64 (a - 1) in
  exists r', segment_received seg r = (Ok tt, r') /\
    receiving S isn rd r' /\ _isn r' = Some isn /\
    (forall k, StreamReassembler.known (_reassembler r') k <->
      StreamReassembler.known (_reassembler r) k \/
      index <= k < Z.min (index + len (Buffer.copy (TCPSegment.payload seg)))
                         (ByteStream.bytes_written (stream_out r) + window_size r)).
Proof.
  intros Hr Hs Hn Ho index. rewrite (receiver_bytes_written _ _ _ _ Hr).
  destruct (proj1 (wp_run _ _ _) (receiver_segment_wp S isn rd r a seg Hr Hs Hn Ho))
    as ([] & r' & E & Hr' & Ei & _ & _ & Hk).
  by exists r'.
Qed.

(** [C10] Integrity and feedback: in every reachable state, what the application
    has read followed by what it can still read is a prefix of the peer's
    stream (all of it once the input has ended); the acknowledgment number is
    the wrapped number of the first byte not yet assembled, one more after the
    FIN, and absent before the SYN; the window is the capacity less the bytes
    not yet read; and whatever comes next does not throw. *)
Theorem receiver_integrity S isn capacity out r :
  WrappingInt32.wf isn -> 0 < capacity -> len S + 2 * capacity < 2 ^ 64 ->
  reach S isn capacity out r ->
  let n := ByteStream.bytes_written (stream_out r) in
  let ended := ByteStream.input_ended (stream_out r) in
  out ++ ByteStream.contents (stream_out r) = ztake n S /\
  (ended = true -> n = len S) /\
  ackno r = match _isn r with
            | None => None
            | Some _ => Some (wrap (n + 1 + (if ended then 1 else 0)) isn)
            end /\
  window_size r = capacity - (n - len out) /\
  (forall ev, allowed S isn r ev -> exists bs r', exec_event ev r = (Ok bs, r')).
Proof.
  intros Hw Hc Hf Hreach.
  destruct (reach_receiving _ _ _ _ _ Hw Hc Hf Hreach) as (rd & Hr & Ec & ->). simpl.
  pose proof (assembled_range _ _ _ (rc_asm _ _ _ _ Hr)) as (? & ? & ? & ? & ?).
  rewrite (receiver_bytes_written _ _ _ _ Hr). unfold assembled_bytes in *. split_and!.
  - unfold stream_out, StreamReassembler.stream_out.
    rewrite (ReassemblerTrace.assembled_contents S rd) by apply Hr.
    by rewrite slice_app, slice_0 by lia.
  - unfold stream_out, StreamReassembler.stream_out.
    destruct Hr, rc_asm0. rewrite as_ended. intros He%Z.eqb_eq. unfold UINT64_MAX in *. lia.
  - by rewrite (ackno_eq _ _ _ _ Hr).
  - rewrite (window_size_eq _ _ _ _ Hr). unfold assembled_bytes. rewrite len_slice by lia. lia.
  - intros ev Hev. destruct (proj1 (wp_run _ _ _) (receiver_event_wp _ _ _ _ _ Hr Hev)) as (bs & r' & E & _).
    eauto.
Qed.

(** Neither edge of the window ever moves back: no segment and no read
    makes the receiver acknowledge less, or withdraw what it has advertised. *)
Theorem receiver_window_monotone S isn capacity out r ev o r' :
  WrappingInt32.wf isn -> 0 < capacity -> len S + 2 * capacity < 2 ^ 64 ->
  reach S isn capacity out r -> allowed S isn r ev -> exec_event ev r = (o, r') ->
  let left r := ByteStream.bytes_written (stream_out r) in
  left r <= left r' /\ left r + window_size r <= left r' + window_size r'.
Proof.
  intros Hw Hc Hf Hreach Hev Hexec. simpl.
  destruct (reach_receiving _ _ _ _ _ Hw Hc Hf Hreach) as (rd & Hr & _).
  pose proof (receiver_event_wp _ _ _ _ _ Hr Hev) as Hwp. unfold wpe in Hwp. rewrite Hexec in Hwp.
  destruct o; [| done]. destruct Hwp as (rd' & Hr' & _ & _ & _ & _ & Hl & He).
  rewrite (receiver_bytes_written _ _ _ _ Hr), (receiver_bytes_written _ _ _ _ Hr'). done.
Qed.

(** ** Witnesses *)

Definition demo_isn : WrappingInt32.t := WrappingInt32.of_Z 4294967294.

Definition demo_seg (syn fin : bool) (seqno : Z) (data : list byte) : TCPSegment.t :=
  TCPSegment.mk
    (setf TCPHeader.seqno (WrappingInt32.of_Z seqno) (setf TCPHeader.syn syn (setf TCPHeader.fin fin TCPHeader.default)))
    (Buffer.of_string data).

(** The SYN, and the tail of the stream, two sequence numbers past the wrap. *)
Definition demo_syn : TCPSegment.t := demo_seg true false 4294967294 [].
Definition demo_tail : TCPSegment.t := demo_seg false true 1 [x63; x64].

Lemma demo_syn_of : segment_of demo_stream demo_isn 0 demo_syn.
Proof. split; [reflexivity |]. split; [lia |]. split; [done |]. split; vm_compute; congruence. Qed.

Lemma demo_tail_of : segment_of demo_stream demo_isn 3 demo_tail.
Proof. split; [reflexivity |]. split; [lia |]. left. split; [lia |]. split; vm_compute; congruence. Qed.

Lemma demo_receiving : receiving demo_stream demo_isn 0 (new 5).
Proof. apply receiving_new; [vm_compute; split; congruence | lia | vm_compute; reflexivity]. Qed.

Lemma segment_received_correct_witness :
  exists r', segment_received demo_syn (new 5) = (Ok tt, r') /\
    receiving demo_stream demo_isn 0 r' /\ _isn r' = Some demo_isn.
Proof.
  destruct (segment_received_correct demo_stream demo_isn 0 (new 5) 0 demo_syn) as (r' & E & Hr & Ei & _).
  - exact demo_receiving.
  - exact demo_syn_of.
  - vm_compute. split; congruence.
  - right. reflexivity.
  - exists r'. split; [exact E |]. split; [exact Hr | exact Ei].
Defined.

Definition demo_state : t := (exec_event (Deliver demo_tail) (exec_event (Deliver demo_syn) (new 5)).2).2.

Lemma receiver_demo_reach : reach demo_stream demo_isn 5 [] demo_state.
Proof.
  eapply (reach_step _ _ _ []) with (o := Ok []) (ev := Deliver demo_tail).
  - eapply (reach_step _ _ _ []) with (o := Ok []) (ev := Deliver demo_syn); [constructor | | vm_compute; reflexivity].
    left. exists 0. split; [exact demo_syn_of | vm_compute; split; congruence].
  - left. exists 3. split; [exact demo_tail_of | vm_compute; split; congruence].
  - vm_compute. reflexivity.
Qed.

Lemma receiver_integrity_witness :
  ByteStream.contents (stream_out demo_state) = [] /\ window_size demo_state = 5 /\
  ackno demo_state = Some (WrappingInt32.of_Z 4294967295).
Proof.
  destruct (receiver_integrity demo_stream demo_isn 5 [] demo_state) as (H1 & _ & H3 & H4 & _).
  - vm_compute. split; congruence.
  - lia.
  - vm_compute. reflexivity.
  - exact receiver_demo_reach.
  - rewrite H3, H4. vm_compute. auto.
Defined.

Definition demo_next : event := Deliver (demo_seg false false 4294967295 [x61; x62]).

Lemma receiver_window_monotone_witness :
  ByteStream.bytes_written (stream_out demo_state) + window_size demo_state <=
  ByteStream.bytes_written (stream_out (exec_event demo_next demo_state).2)
    + window_size (exec_event demo_next demo_state).2.
Proof.
  apply (receiver_window_monotone demo_stream demo_isn 5 [] demo_state demo_next
    (exec_event demo_next demo_state).1).
  - vm_compute. split; congruence.
  - lia.
  - vm_compute. reflexivity.
  - exact receiver_demo_reach.
  - left. exists 1. split; [| vm_compute; split; congruence].
    split; [reflexivity |]. split; [lia |]. left. split; [lia |]. split; vm_compute; congruence.
  - apply surjective_pairing.
Defined.
