(* ===== verification/tcp_sender.v ===== *)
(** * tcp_sender.hh, tcp_sender.cc, tcp_config.hh: the sending half of TCP

    The sender cuts its outgoing stream into segments, keeps the unacknowledged
    ones for retransmission, and runs the retransmission timer and, when it is
    enabled, Reno congestion control. *)

From S2P Require Import prelude buffer wrapping_integers byte_stream stream_reassembler tcp_segment tcp_stream.

Module TCPConfig.
Definition DEFAULT_CAPACITY : Z := 64000.
Definition MAX_PAYLOAD_SIZE : Z := 1000.
Definition TIMEOUT_DFLT : Z := 1000.
Definition MAX_RETX_ATTEMPTS : Z := 8.

Record t : Type := mk {
  rt_timeout : Z;
  recv_capacity : Z;
  send_capacity : Z;
  fixed_isn : option WrappingInt32.t;
  congestion_control : bool
}.

Definition eta (c : t) : t :=
  mk (rt_timeout c) (recv_capacity c) (send_capacity c) (fixed_isn c) (congestion_control c).
#[global] Instance set_rt_timeout : Setter rt_timeout := ltac:(derive_setter eta rt_timeout).

Definition default : t := mk TIMEOUT_DFLT DEFAULT_CAPACITY DEFAULT_CAPACITY None false.
End TCPConfig.

Module Timer.

Record t : Type := mk {
  _time_count : Z;      (** [uint32_t] *)
  _time_out : Z;        (** [uint32_t] *)
  _is_running : bool
}.

Definition new (time_out : Z) : t := mk 0 time_out false.

Definition stop (tm : t) : t := mk (_time_count tm) (_time_out tm) false.
Definition set_time_out (time_out : Z) (tm : t) : t := mk (_time_count tm) (u32 time_out) (_is_running tm).
Definition get_time_out (tm : t) : Z := _time_out tm.
Definition restart (tm : t) : t := mk 0 (_time_out tm) true.

(** The milliseconds are a [size_t], the counter a [uint32_t]. *)
Definition tick (ms : Z) (tm : t) : t :=
  if _is_running tm then mk (u32 (_time_count tm + ms)) (_time_out tm) true else tm.

Definition check_time_out (tm : t) : bool := _is_running tm && (_time_out tm <=? _time_count tm).
Definition is_running (tm : t) : bool := _is_running tm.
End Timer.

Module TCPSender.

Record t : Type := mk {
  _isn : WrappingInt32.t;
  _segments_out : list TCPSegment.t;
  _initial_retransmission_timeout : Z;
  _stream : ByteStream.t;
  _next_seqno : Z;
  _timer : Timer.t;
  _outstanding_seg : list (Z * TCPSegment.t);
  _consecutive_retransmissions_count : Z;
  _bytes_in_flight : Z;
  _window_size : Z;
  _set_syn_flag : bool;
  _set_fin_flag : bool;
  _congestion_control_enabled : bool;
  _congestion_window : Z;
  _slow_start_threshold : Z;
  _dup_ack_count : Z;
  _last_ackno_absolute : Z;
  _in_fast_recovery : bool
}.

Definition eta (s : t) : t :=
  mk (_isn s) (_segments_out s) (_initial_retransmission_timeout s) (_stream s) (_next_seqno s)
     (_timer s) (_outstanding_seg s) (_consecutive_retransmissions_count s) (_bytes_in_flight s)
     (_window_size s) (_set_syn_flag s) (_set_fin_flag s) (_congestion_control_enabled s)
     (_congestion_window s) (_slow_start_threshold s) (_dup_ack_count s) (_last_ackno_absolute s)
     (_in_fast_recovery s).
#[global] Instance set_segments_out : Setter _segments_out := ltac:(derive_setter eta _segments_out).
#[global] Instance set_stream : Setter _stream := ltac:(derive_setter eta _stream).
#[global] Instance set_next_seqno : Setter _next_seqno := ltac:(derive_setter eta _next_seqno).
#[global] Instance set_timer : Setter _timer := ltac:(derive_setter eta _timer).
#[global] Instance set_outstanding_seg : Setter _outstanding_seg := ltac:(derive_setter eta _outstanding_seg).
#[global] Instance set_consecutive : Setter _consecutive_retransmissions_count :=
  ltac:(derive_setter eta _consecutive_retransmissions_count).
#[global] Instance set_bytes_in_flight : Setter _bytes_in_flight := ltac:(derive_setter eta _bytes_in_flight).
#[global] Instance set_window_size : Setter _window_size := ltac:(derive_setter eta _window_size).
#[global] Instance set_set_syn_flag : Setter _set_syn_flag := ltac:(derive_setter eta _set_syn_flag).
#[global] Instance set_set_fin_flag : Setter _set_fin_flag := ltac:(derive_setter eta _set_fin_flag).
#[global] Instance set_congestion_window : Setter _congestion_window := ltac:(derive_setter eta _congestion_window).
#[global] Instance set_slow_start_threshold : Setter _slow_start_threshold :=
  ltac:(derive_setter eta _slow_start_threshold).
#[global] Instance set_dup_ack_count : Setter _dup_ack_count := ltac:(derive_setter eta _dup_ack_count).
#[global] Instance set_last_ackno_absolute : Setter _last_ackno_absolute :=
  ltac:(derive_setter eta _last_ackno_absolute).
#[global] Instance set_in_fast_recovery : Setter _in_fast_recovery := ltac:(derive_setter eta _in_fast_recovery).

(** The constructor; [random_isn] is what [random_device] returns. *)
Definition new (capacity retx_timeout : Z) (fixed_isn : option WrappingInt32.t) (enable_cc : bool)
    (random_isn : Z) : t :=
  mk (default (WrappingInt32.of_Z random_isn) fixed_isn) [] retx_timeout (ByteStream.new capacity) 0
     (Timer.new retx_timeout) [] 0 0 1 false false enable_cc TCPConfig.MAX_PAYLOAD_SIZE UINT64_MAX 0 0 false.

Definition stream_in (s : t) : ByteStream.t := _stream s.
Definition bytes_in_flight (s : t) : Z := _bytes_in_flight s.
Definition consecutive_retransmissions (s : t) : Z := _consecutive_retransmissions_count s.
Definition segments_out (s : t) : list TCPSegment.t := _segments_out s.
Definition next_seqno_absolute (s : t) : Z := _next_seqno s.
Definition next_seqno (s : t) : WrappingInt32.t := wrap (_next_seqno s) (_isn s).
Definition congestion_window (s : t) : Z := _congestion_window s.
Definition slow_start_threshold (s : t) : Z := _slow_start_threshold s.
Definition dup_ack_count (s : t) : Z := _dup_ack_count s.
Definition in_fast_recovery (s : t) : bool := _in_fast_recovery s.

Definition _effective_window_size (s : t) : Z :=
  let adv := Z.max (_window_size s) 1 in
  if negb (_congestion_control_enabled s) then adv else Z.min adv (_congestion_window s).

(** The first half of the body of [fill_window]'s loop: the next segment, still
    without its sequence number. *)
Definition build_seg (window_size : Z) : M t TCPSegment.t :=
  let* syn_sent := asks _set_syn_flag in
  let syn := negb syn_sent in
  when syn (_set_syn_flag ::= true) ;;
  let* payload_size := asks (fun s =>
    Z.min TCPConfig.MAX_PAYLOAD_SIZE
      (Z.min (u64 (u64 (window_size - _bytes_in_flight s) - (if syn then 1 else 0)))
         (ByteStream.buffer_size (_stream s)))) in
  let* payload := zoom _stream (ByteStream.read payload_size) in
  let seg := TCPSegment.mk (setf TCPHeader.syn syn TCPHeader.default) (Buffer.of_string payload) in
  let* fin := asks (fun s =>
    negb (_set_fin_flag s) && ByteStream.eof (_stream s) &&
    (u64 (_bytes_in_flight s + TCPSegment.length_in_sequence_space seg) <? window_size)) in
  when fin (_set_fin_flag ::= true) ;;
  pure (upd TCPSegment._header (setf TCPHeader.fin fin) seg).

(** The second half: send the segment and keep a copy of it. *)
Definition send_seg (seg : TCPSegment.t) : M t unit :=
  let length := TCPSegment.length_in_sequence_space seg in
  let* seqno := asks next_seqno in
  let seg := upd TCPSegment._header (setf TCPHeader.seqno seqno) seg in
  _segments_out %= (fun q => q ++ [seg]) ;;
  let* running := asks (fun s => Timer.is_running (_timer s)) in
  when (negb running) (_timer %= Timer.restart) ;;
  let* abs_seq := asks _next_seqno in
  _outstanding_seg %= (fun q => q ++ [(abs_seq, seg)]) ;;
  _next_seqno %= (fun n => u64 (n + length)) ;;
  _bytes_in_flight %= (fun n => u64 (n + length)).

(** One turn of the loop; [false] is the [break]. *)
Definition fill_step (window_size : Z) : M t bool :=
  let* seg := build_seg window_size in
  if TCPSegment.length_in_sequence_space seg =? 0 then pure false
  else send_seg seg ;; pure true.

(** The loop; every turn but the last sends at least one sequence number, so
    the room in the window bounds the number of turns. *)
Fixpoint fill_loop (fuel : nat) (window_size : Z) : M t unit :=
  let* in_flight := asks _bytes_in_flight in
  if in_flight <? window_size then
    match fuel with
    | O => throw OutOfFuel
    | S fuel =>
        let* more := fill_step window_size in
        if more then fill_loop fuel window_size else pure tt
    end
  else pure tt.

Definition fill_window : M t unit :=
  let* window_size := asks _effective_window_size in
  let* in_flight := asks _bytes_in_flight in
  fill_loop (S (Z.to_nat (window_size - in_flight))) window_size.

Definition _on_new_ack (newly_acked_bytes : Z) : M t unit :=
  let* recovering := asks _in_fast_recovery in
  (if recovering then
     let* ssthresh := asks _slow_start_threshold in
     _congestion_window ::= ssthresh ;;
     _in_fast_recovery ::= false
   else pure tt) ;;
  let* cwnd := asks _congestion_window in
  let* ssthresh := asks _slow_start_threshold in
  (if cwnd <? ssthresh then _congestion_window ::= u64 (cwnd + newly_acked_bytes)
   else if cwnd =? 0 then throw UndefinedBehavior
   else _congestion_window ::= u64 (cwnd + u64 (TCPConfig.MAX_PAYLOAD_SIZE * newly_acked_bytes) / cwnd)) ;;
  _dup_ack_count ::= 0.

Definition _on_dup_ack : M t unit :=
  let* q := asks _outstanding_seg in
  match q with
  | [] => pure tt
  | (_, front) :: _ =>
      _dup_ack_count %= (fun n => u32 (n + 1)) ;;
      let* dups := asks _dup_ack_count in
      let* recovering := asks _in_fast_recovery in
      let* cwnd := asks _congestion_window in
      if (dups =? 3) && negb recovering then
        _slow_start_threshold ::= Z.max (cwnd / 2) (2 * TCPConfig.MAX_PAYLOAD_SIZE) ;;
        let* ssthresh := asks _slow_start_threshold in
        _congestion_window ::= u64 (ssthresh + 3 * TCPConfig.MAX_PAYLOAD_SIZE) ;;
        _in_fast_recovery ::= true ;;
        _segments_out %= (fun out => out ++ [front])
      else if recovering && (3 <? dups) then
        _congestion_window ::= u64 (cwnd + TCPConfig.MAX_PAYLOAD_SIZE)
      else pure tt
  end.

Definition _on_congestion_timeout : M t unit :=
  let* cwnd := asks _congestion_window in
  _slow_start_threshold ::= Z.max (cwnd / 2) (2 * TCPConfig.MAX_PAYLOAD_SIZE) ;;
  _congestion_window ::= TCPConfig.MAX_PAYLOAD_SIZE ;;
  _dup_ack_count ::= 0 ;;
  _in_fast_recovery ::= false.

(** The loop of [ack_received] over the queue of outstanding segments: what is
    left of the queue, [newly_acked_bytes] and [_bytes_in_flight]. *)
Fixpoint ack_loop (abs_ackno : Z) (q : list (Z * TCPSegment.t)) (newly in_flight : Z)
    : list (Z * TCPSegment.t) * Z * Z :=
  match q with
  | [] => ([], newly, in_flight)
  | (abs_seq, seg) :: q' =>
      let n := TCPSegment.length_in_sequence_space seg in
      if u64 (u64 (abs_seq + n) - 1) <? abs_ackno
      then ack_loop abs_ackno q' (u64 (newly + n)) (u64 (in_flight - n))
      else (q, newly, in_flight)
  end.

Definition ack_received (ackno : WrappingInt32.t) (window_size : Z) : M t unit :=
  let* abs_ackno := asks (fun s => unwrap ackno (_isn s) (next_seqno_absolute s)) in
  let* next := asks next_seqno_absolute in
  if next <? abs_ackno then pure tt
  else
    let* q := asks _outstanding_seg in
    let* in_flight := asks _bytes_in_flight in
    let '(q', newly_acked_bytes, in_flight') := ack_loop abs_ackno q 0 in_flight in
    _outstanding_seg ::= q' ;;
    _bytes_in_flight ::= in_flight' ;;
    let* enabled := asks _congestion_control_enabled in
    let* last := asks _last_ackno_absolute in
    when enabled (
      (if 0 <? newly_acked_bytes then _on_new_ack newly_acked_bytes
       else if abs_ackno =? last then _on_dup_ack
       else pure tt) ;;
      _last_ackno_absolute ::= abs_ackno) ;;
    let* rto := asks _initial_retransmission_timeout in
    when (0 <? newly_acked_bytes) (
      _consecutive_retransmissions_count ::= 0 ;;
      _timer %= Timer.set_time_out rto ;;
      _timer %= Timer.restart) ;;
    let* in_flight := asks _bytes_in_flight in
    when (in_flight =? 0) (_timer %= Timer.stop) ;;
    _window_size ::= window_size ;;
    fill_window.

Definition tick (ms_since_last_tick : Z) : M t unit :=
  _timer %= Timer.tick ms_since_last_tick ;;
  let* expired := asks (fun s => Timer.check_time_out (_timer s)) in
  let* q := asks _outstanding_seg in
  match expired, q with
  | true, (_, front) :: _ =>
      let* enabled := asks _congestion_control_enabled in
      when enabled _on_congestion_timeout ;;
      _segments_out %= (fun out => out ++ [front]) ;;
      let* window := asks _window_size in
      when (0 <? window) (
        _consecutive_retransmissions_count %= (fun n => u32 (n + 1)) ;;
        _timer %= (fun tm => Timer.set_time_out (Timer.get_time_out tm * 2) tm)) ;;
      _timer %= Timer.restart
  | _, _ => pure tt
  end.

Definition send_empty_segment : M t unit :=
  let* seqno := asks next_seqno in
  let seg := upd TCPSegment._header (setf TCPHeader.seqno seqno) TCPSegment.default in
  _segments_out %= (fun q => q ++ [seg]).

(** ** Invariant *)

(** A segment the sender may have made of the stream [W]; [fin] says whether the
    FIN has been sent. *)
Definition good (W : list byte) (isn : WrappingInt32.t) (fin : bool) (a : Z) (seg : TCPSegment.t) : Prop :=
  segment_of W isn a seg /\ a <= len W + 2 /\
  (TCPHeader.fin (TCPSegment.header seg) = true -> fin = true) /\
  TCPSegment.sendable seg.

(** The outstanding segments cover the sequence numbers from [una] to [next],
    each one starting where the one before it ends. *)
Fixpoint chain (W : list byte) (isn : WrappingInt32.t) (fin : bool) (una : Z)
    (q : list (Z * TCPSegment.t)) (next : Z) : Prop :=
  match q with
  | [] => una = next
  | (a, seg) :: q' =>
      a = una /\ good W isn fin a seg /\ 0 < TCPSegment.length_in_sequence_space seg /\
      chain W isn fin (a + TCPSegment.length_in_sequence_space seg) q' next
  end.

(** Segments waiting to be sent, or sent. *)
Definition emitted (W : list byte) (isn : WrappingInt32.t) (fin : bool) (out : list TCPSegment.t) : Prop :=
  Forall (fun seg => exists a, good W isn fin a seg) out.

Definition b2z (b : bool) : Z := if b then 1 else 0.

(** [sending W una rd s]: the writer has written [W], of which the sender has
    taken [rd] bytes; everything before the absolute sequence number [una] is
    acknowledged. *)
Record sending (W : list byte) (una rd : Z) (s : t) : Prop := {
  sd_wf : WrappingInt32.wf (_isn s);
  sd_stream : refines (_stream s)
    (Spec.mk W rd (ByteStream._capacity (_stream s)) (ByteStream.input_ended (_stream s))
       (ByteStream.error (_stream s)));
  sd_fit : len W + 2 < 2 ^ 64;
  sd_next : _next_seqno s = b2z (_set_syn_flag s) + rd + b2z (_set_fin_flag s);
  sd_syn : _set_syn_flag s = false -> rd = 0 /\ _set_fin_flag s = false;
  sd_fin : _set_fin_flag s = true -> ByteStream.input_ended (_stream s) = true /\ rd = len W;
  sd_una : 0 <= una;
  sd_chain : chain W (_isn s) (_set_fin_flag s) una (_outstanding_seg s) (_next_seqno s);
  sd_flight : _bytes_in_flight s = _next_seqno s - una;
  sd_limit : _bytes_in_flight s <= UINT16_MAX;
  sd_timer : Timer.is_running (_timer s) = (0 <? _bytes_in_flight s);
  sd_window : 0 <= _window_size s < 2 ^ 16;
  sd_queue : emitted W (_isn s) (_set_fin_flag s) (_segments_out s);
  sd_backoff : exists c, 0 <= c /\ _consecutive_retransmissions_count s = u32 c /\
    Timer.get_time_out (_timer s) = u32 (_initial_retransmission_timeout s * 2 ^ c)
}.

Lemma good_mono W isn fin fin' a seg : good W isn fin a seg -> good W isn (fin' || fin) a seg.
Proof. intros (? & ? & H & ?). split_and!; [done | done | | done]. intros Hf. rewrite (H Hf). apply orb_true_r. Qed.

Lemma chain_mono W isn fin fin' una q next :
  chain W isn fin una q next -> chain W isn (fin' || fin) una q next.
Proof.
  revert una. induction q as [|[a sg] q IH]; intros una; simpl; [done |].
  intros (-> & ? & ? & ?). split_and!; auto using good_mono.
Qed.

Lemma emitted_mono W isn fin fin' out : emitted W isn fin out -> emitted W isn (fin' || fin) out.
Proof. apply Forall_impl. intros seg [a Ha]. eauto using good_mono. Qed.

(** More bytes may be written until the FIN is sent. *)
Lemma good_app W W' isn a seg : good W isn false a seg -> good (W ++ W') isn false a seg.
Proof.
  intros (? & ? & H & ?). split_and!; [| rewrite len_app; pose proof (len_nonneg W'); lia | done | done].
  apply segment_of_app; [done |].
  destruct (TCPHeader.fin (TCPSegment.header seg)); [by discriminate H | done].
Qed.

Lemma chain_app_stream W W' isn una q next :
  chain W isn false una q next -> chain (W ++ W') isn false una q next.
Proof.
  revert una. induction q as [|[a sg] q IH]; intros una; simpl; [done |].
  intros (-> & ? & ? & ?). split_and!; auto using good_app.
Qed.

Lemma emitted_app_stream W W' isn out : emitted W isn false out -> emitted (W ++ W') isn false out.
Proof. apply Forall_impl. intros seg [a Ha]. eauto using good_app. Qed.

Lemma chain_snoc W isn fin una q next seg :
  chain W isn fin una q next -> good W isn fin next seg -> 0 < TCPSegment.length_in_sequence_space seg ->
  chain W isn fin una (q ++ [(next, seg)]) (next + TCPSegment.length_in_sequence_space seg).
Proof.
  revert una. induction q as [|[a sg] q IH]; intros una; simpl.
  - intros -> ? ?. done.
  - intros (-> & ? & ? & ?) ? ?. split_and!; auto.
Qed.

Lemma chain_le W isn fin una q next : chain W isn fin una q next -> una <= next.
Proof.
  revert una. induction q as [|[a sg] q IH]; intros una; simpl; [lia |].
  intros (-> & _ & ? & Hc). apply IH in Hc. lia.
Qed.

Lemma chain_nil W isn fin una q next : chain W isn fin una q next -> q = [] <-> una = next.
Proof.
  destruct q as [|[a sg] q]; simpl; [done |]. intros (-> & _ & ? & Hc). apply chain_le in Hc.
  split; [done | lia].
Qed.

(** What the sender does not touch while it fills the window. *)
Definition same_control (s s' : t) : Prop :=
  _isn s' = _isn s /\ _initial_retransmission_timeout s' = _initial_retransmission_timeout s /\
  _window_size s' = _window_size s /\
  _consecutive_retransmissions_count s' = _consecutive_retransmissions_count s /\
  Timer._time_out (_timer s') = Timer._time_out (_timer s) /\
  _congestion_control_enabled s' = _congestion_control_enabled s /\
  _congestion_window s' = _congestion_window s /\ _slow_start_threshold s' = _slow_start_threshold s /\
  _dup_ack_count s' = _dup_ack_count s /\ _last_ackno_absolute s' = _last_ackno_absolute s /\
  _in_fast_recovery s' = _in_fast_recovery s /\
  ByteStream._capacity (_stream s') = ByteStream._capacity (_stream s) /\
  ByteStream.input_ended (_stream s') = ByteStream.input_ended (_stream s) /\
  ByteStream.error (_stream s') = ByteStream.error (_stream s).

(** The new segments are queued for sending and, in the same order, kept. *)
Definition queued (s s' : t) : Prop :=
  (_set_fin_flag s = true -> _set_fin_flag s' = true) /\
  exists new, _outstanding_seg s' = _outstanding_seg s ++ new /\
    _segments_out s' = _segments_out s ++ map snd new.

(** Nothing is left that the sender could put in a segment. *)
Definition exhausted (s : t) : Prop :=
  _set_syn_flag s = true /\ ByteStream.buffer_empty (_stream s) = true /\
  (_set_fin_flag s = true \/ ByteStream.input_ended (_stream s) = false).

Lemma same_control_refl s : same_control s s.
Proof. by unfold same_control. Qed.

Lemma same_control_trans s1 s2 s3 : same_control s1 s2 -> same_control s2 s3 -> same_control s1 s3.
Proof. unfold same_control. intros; split_and!; intuition congruence. Qed.

Lemma queued_refl s : queued s s.
Proof. split; [done |]. exists []. by rewrite !app_nil_r. Qed.

Lemma queued_trans s1 s2 s3 : queued s1 s2 -> queued s2 s3 -> queued s1 s3.
Proof.
  intros (F1 & n1 & E1 & G1) (F2 & n2 & E2 & G2). split; [auto |]. exists (n1 ++ n2).
  rewrite E2, E1, G2, G1, map_app, !app_assoc. done.
Qed.

Lemma sending_range W una rd s :
  sending W una rd s ->
  0 <= rd <= len W /\ 0 <= _bytes_in_flight s <= _next_seqno s /\ _next_seqno s <= len W + 2 /\
  ByteStream.buffer_size (_stream s) = len W - rd.
Proof.
  intros []. pose proof (ref_cursor _ _ sd_stream0) as Hr. simpl in Hr.
  apply chain_le in sd_chain0. rewrite ByteStream.wf_size by apply sd_stream0.
  rewrite (refines_size _ _ sd_stream0). simpl. unfold b2z in *.
  destruct (_set_syn_flag s), (_set_fin_flag s); lia.
Qed.
(** *** fill_window *)

(** Taking the next [n] bytes of the stream, at most what it holds. *)
Lemma take_wp W una rd s n (Q : list byte -> ByteStream.t -> Prop) E :
  sending W una rd s -> 0 <= n <= len W - rd ->
  (forall st, refines st (Spec.mk W (rd + n) (ByteStream._capacity (_stream s))
      (ByteStream.input_ended (_stream s)) (ByteStream.error (_stream s))) ->
    Q (slice rd (rd + n) W) st) ->
  wpe (ByteStream.read n) Q E (_stream s).
Proof.
  intros Hs Hn HQ. eapply wp_mono; [apply read_refines; [apply Hs | lia] |].
  intros bs st [-> HR]. unfold Spec.peek, Spec.pop in *. simpl in *.
  rewrite Z.min_l in * by lia. by apply HQ.
Qed.

Lemma refines_ended st a : refines st a -> ByteStream.input_ended st = Spec.ended a.
Proof. intros []. done. Qed.
Lemma refines_error st a : refines st a -> ByteStream.error st = Spec.failed a.
Proof. intros []. done. Qed.
Lemma refines_empty st a :
  refines st a -> ByteStream.buffer_empty st = (len (Spec.log a) - Spec.cursor a =? 0).
Proof.
  intros R. unfold ByteStream.buffer_empty. rewrite ByteStream.wf_size by apply R.
  by rewrite (refines_size _ _ R).
Qed.

(** The two assignments of the flags, whether or not they are executed. *)
Lemma set_syn_eq s Q E :
  Q tt (setf _set_syn_flag true s) -> wpe (when (negb (_set_syn_flag s)) (_set_syn_flag ::= true)) Q E s.
Proof. by destruct s as [? ? ? ? ? ? ? ? ? ? [] ? ? ? ? ? ? ?]. Qed.

Lemma set_fin_eq s fin Q E :
  Q tt (setf _set_fin_flag (fin || _set_fin_flag s) s) -> wpe (when fin (_set_fin_flag ::= true)) Q E s.
Proof. by destruct fin, s. Qed.

(** The segment [build_seg] returns. *)
Definition built (syn fin : bool) (data : list byte) : TCPSegment.t :=
  TCPSegment.mk (setf TCPHeader.fin fin (setf TCPHeader.syn syn TCPHeader.default)) (Buffer.of_string data).

Lemma built_length syn fin data :
  TCPSegment.length_in_sequence_space (built syn fin data) = len data + b2z syn + b2z fin.
Proof. unfold TCPSegment.length_in_sequence_space. simpl. by rewrite Buffer.str_of_string. Qed.

(** Nothing but the sequence number, the SYN and the FIN is set in a header. *)
Lemma plain_sendable seqno syn fin rst payload :
  WrappingInt32.wf seqno -> len (Buffer.str payload) < 2 ^ 15 ->
  TCPSegment.sendable (TCPSegment.mk (setf TCPHeader.rst rst (setf TCPHeader.seqno seqno
    (setf TCPHeader.fin fin (setf TCPHeader.syn syn TCPHeader.default)))) payload).
Proof. intros Hs Hl. split; [| done]. split; try done; by vm_compute. Qed.

(** [n] bytes, the SYN if it has not been sent, the FIN if it fits. *)
Lemma build_seg_wp W una rd s window (Q : TCPSegment.t -> t -> Prop) E :
  sending W una rd s -> _bytes_in_flight s < window <= UINT16_MAX ->
  let syn := negb (_set_syn_flag s) in
  let n := Z.min TCPConfig.MAX_PAYLOAD_SIZE (Z.min (window - _bytes_in_flight s - b2z syn) (len W - rd)) in
  let fin := negb (_set_fin_flag s) && (ByteStream.input_ended (_stream s) && (len W - (rd + n) =? 0)) &&
    (_bytes_in_flight s + (n + b2z syn) <? window) in
  (forall st, refines st (Spec.mk W (rd + n) (ByteStream._capacity (_stream s))
      (ByteStream.input_ended (_stream s)) (ByteStream.error (_stream s))) ->
    0 <= n <= len W - rd ->
    Q (built syn fin (slice rd (rd + n) W))
      (setf _set_fin_flag (fin || _set_fin_flag s) (setf _stream st (setf _set_syn_flag true s)))) ->
  wpe (build_seg window) Q E s.
Proof.
  intros Hs Hwin syn n fin HQ.
  pose proof (sending_range _ _ _ _ Hs) as (Hrd & Hbif & Hnext & Hbuf). unfold UINT16_MAX in *.
  pose proof (sd_fit _ _ _ _ Hs).
  assert (Hn : 0 <= n <= len W - rd).
  { unfold n, TCPConfig.MAX_PAYLOAD_SIZE, b2z. destruct syn; lia. }
  assert (Hlen : len (slice rd (rd + n) W) = n) by (rewrite len_slice; lia).
  unfold build_seg. wp_step. wp_step. fold syn. wp_step. apply set_syn_eq.
  wp_step. wp_step. cbn [_bytes_in_flight _stream setf upd set_set_syn_flag]. rewrite Hbuf.
  replace (u64 (u64 (window - _bytes_in_flight s) - (if syn then 1 else 0)))
    with (window - _bytes_in_flight s - b2z syn).
  2:{ unfold b2z. rewrite !u64_small; destruct syn; try lia; rewrite u64_small; lia. }
  fold n. wp_step. wp_step. eapply (take_wp W una rd s n); [done | done |]. intros st HR.
  wp_step. wp_step. cbn [_bytes_in_flight _stream _set_fin_flag setf upd set_set_syn_flag set_stream].
  unfold ByteStream.eof. rewrite (refines_empty _ _ HR).
  change (ByteStream._input_ended_flag st) with (ByteStream.input_ended st).
  rewrite (refines_ended _ _ HR). cbn [Spec.log Spec.cursor Spec.ended].
  assert (Hseg : TCPSegment.length_in_sequence_space (TCPSegment.mk
      (setf TCPHeader.syn syn TCPHeader.default) (Buffer.of_string (slice rd (rd + n) W))) = n + b2z syn).
  { unfold TCPSegment.length_in_sequence_space. simpl. rewrite Buffer.str_of_string, Hlen.
    unfold b2z. lia. }
  simpl in Hseg |- *. rewrite !Hseg, !u64_small
    by (unfold b2z, n, TCPConfig.MAX_PAYLOAD_SIZE; destruct syn; lia).
  fold fin. wp_step. apply set_fin_eq. wp_step. by apply HQ.
Qed.
(** The state [send_seg] leaves, with the timer written out. *)
Definition sent (seg : TCPSegment.t) (s : t) : t :=
  let seg' := upd TCPSegment._header (setf TCPHeader.seqno (next_seqno s)) seg in
  let n := TCPSegment.length_in_sequence_space seg in
  upd _bytes_in_flight (fun k => u64 (k + n)) (upd _next_seqno (fun k => u64 (k + n))
    (upd _outstanding_seg (fun q => q ++ [(_next_seqno s, seg')])
      (upd _timer (fun tm => if Timer.is_running tm then tm else Timer.restart tm)
        (upd _segments_out (fun q => q ++ [seg']) s)))).

Lemma send_seg_wp seg s (Q : unit -> t -> Prop) E : Q tt (sent seg s) -> wpe (send_seg seg) Q E s.
Proof.
  unfold send_seg, sent, wpe, bind, asks, when, modify. simpl.
  destruct s as [? ? ? ? ? [? ? []] ? ? ? ? ? ? ? ? ? ? ? ?]; done.
Qed.

(** The state after [build_seg]. *)
Definition taken (st : ByteStream.t) (fin : bool) (s : t) : t :=
  setf _set_fin_flag (fin || _set_fin_flag s) (setf _stream st (setf _set_syn_flag true s)).

(** The segment that is sent next. *)
Lemma segment_next_sent W una rd s n fin :
  let syn := negb (_set_syn_flag s) in
  sending W una rd s -> _set_fin_flag s = false -> 0 <= n <= len W - rd -> n <= TCPConfig.MAX_PAYLOAD_SIZE ->
  (fin = true -> rd + n = len W) ->
  let seg := upd TCPSegment._header (setf TCPHeader.seqno (next_seqno s)) (built syn fin (slice rd (rd + n) W)) in
  TCPSegment.length_in_sequence_space seg = n + b2z syn + b2z fin /\
  segment_of W (_isn s) (_next_seqno s) seg /\ TCPSegment.sendable seg.
Proof.
  intros syn Hs Ef Hn Hmax Hfin seg. pose proof (sending_range _ _ _ _ Hs) as (Hrd & _). pose proof Hs as [].
  assert (Hlen : len (slice rd (rd + n) W) = n) by (rewrite len_slice; lia).
  assert (Enext : _next_seqno s = b2z (_set_syn_flag s) + rd) by (rewrite sd_next0, Ef; unfold b2z; lia).
  split; [| split].
  - change (TCPSegment.length_in_sequence_space seg)
      with (TCPSegment.length_in_sequence_space (built syn fin (slice rd (rd + n) W))). by rewrite built_length, Hlen.
  - apply (segment_of_slice _ _ _ rd n); simpl; try done; try lia.
    + rewrite Enext. unfold syn. destruct (_set_syn_flag s) eqn:Ey; simpl; [lia |].
      destruct (sd_syn0 eq_refl). simpl. lia.
    + unfold syn. intros Ey. destruct (_set_syn_flag s); [done |]. by destruct (sd_syn0 eq_refl).
  - apply (plain_sendable (next_seqno s) syn fin false); [apply wf_wrap |].
    change (len (Buffer.str (Buffer.of_string (slice rd (rd + n) W))) < 2 ^ 15).
    rewrite Buffer.str_of_string, Hlen. unfold TCPConfig.MAX_PAYLOAD_SIZE in *. lia.
Qed.

Lemma sending_sent W una rd s st n fin :
  let syn := negb (_set_syn_flag s) in
  sending W una rd s -> _set_fin_flag s = false -> 0 <= n <= len W - rd -> n <= TCPConfig.MAX_PAYLOAD_SIZE ->
  refines st (Spec.mk W (rd + n) (ByteStream._capacity (_stream s))
    (ByteStream.input_ended (_stream s)) (ByteStream.error (_stream s))) ->
  (fin = true -> ByteStream.input_ended (_stream s) = true /\ rd + n = len W) ->
  0 < n + b2z syn + b2z fin -> _bytes_in_flight s + (n + b2z syn + b2z fin) <= UINT16_MAX ->
  let s' := sent (built syn fin (slice rd (rd + n) W)) (taken st fin s) in
  sending W una (rd + n) s' /\ same_control s s' /\ queued s s' /\
  _bytes_in_flight s' = _bytes_in_flight s + (n + b2z syn + b2z fin).
Proof.
  intros syn Hs Ef Hn Hmax HR Hfin Hpos Hlim s'. unfold UINT16_MAX in *.
  pose proof (sending_range _ _ _ _ Hs) as (Hrd & Hbif & Hnext & _). pose proof Hs as [].
  pose proof (refines_ended _ _ HR) as He. pose proof (refines_error _ _ HR) as Herr.
  pose proof (ref_capacity _ _ HR) as Hcap. simpl in He, Herr, Hcap.
  assert (Enext : _next_seqno s = b2z (_set_syn_flag s) + rd) by (rewrite sd_next0, Ef; unfold b2z; lia).
  assert (Esyn : b2z (_set_syn_flag s) + b2z syn = 1) by (unfold syn; by destruct (_set_syn_flag s)).
  destruct (segment_next_sent W una rd s n fin Hs Ef Hn Hmax) as (Hseg & Hof & Hsend); [by intros ->; apply Hfin |].
  fold syn in Hseg, Hof, Hsend. set (seg := upd TCPSegment._header _ _) in *.
  assert (Hb' : _bytes_in_flight s' = _bytes_in_flight s + (n + b2z syn + b2z fin)).
  { simpl. change (TCPSegment.length_in_sequence_space (built syn fin (slice rd (rd + n) W)))
      with (TCPSegment.length_in_sequence_space seg). rewrite Hseg, u64_small; lia. }
  assert (Hn' : _next_seqno s' = _next_seqno s + (n + b2z syn + b2z fin)).
  { simpl. change (TCPSegment.length_in_sequence_space (built syn fin (slice rd (rd + n) W)))
      with (TCPSegment.length_in_sequence_space seg). rewrite Hseg, u64_small; [lia |].
    unfold b2z in *. destruct syn, fin; lia. }
  split_and!; [| | split; [congruence | by exists [(_next_seqno s, seg)]] | done].
  - split; rewrite ?Hb', ?Hn'; try done; simpl; rewrite ?Ef, ?orb_false_r.
    + by rewrite He, Herr, Hcap.
    + unfold b2z in *. destruct (_set_syn_flag s); lia.
    + rewrite He. done.
    + rewrite <- Hseg. rewrite Ef in sd_chain0. apply (chain_mono _ _ _ fin) in sd_chain0.
      rewrite orb_false_r in sd_chain0. apply (chain_snoc _ _ _ _ _ _ seg); [done | by split_and! | lia].
    + lia.
    + rewrite sd_timer0, (proj2 (Z.ltb_lt 0 (_bytes_in_flight s + _))) by lia.
      destruct (Z.ltb_spec 0 (_bytes_in_flight s)) as [Hb|Hb]; [| done].
      by rewrite sd_timer0.
    + rewrite Ef in sd_queue0. apply (emitted_mono _ _ _ fin) in sd_queue0. rewrite orb_false_r in sd_queue0.
      apply Forall_app; split; [done |]. constructor; [| done]. exists (_next_seqno s). by split_and!.
    + by destruct (Timer.is_running (_timer s)).
  - unfold same_control. simpl. rewrite He, Herr, Hcap. split_and!; try done.
    by destruct (Timer.is_running (_timer s)).
Qed.

(** When there is nothing to send, [build_seg] changes nothing that matters. *)
Lemma sending_idle W una rd s st :
  sending W una rd s -> _set_syn_flag s = true ->
  refines st (Spec.mk W rd (ByteStream._capacity (_stream s))
    (ByteStream.input_ended (_stream s)) (ByteStream.error (_stream s))) ->
  sending W una rd (taken st false s) /\ same_control s (taken st false s) /\ queued s (taken st false s).
Proof.
  intros [] Ey HR.
  pose proof (refines_ended _ _ HR) as He. pose proof (refines_error _ _ HR) as Herr.
  pose proof (ref_capacity _ _ HR) as Hcap. simpl in He, Herr, Hcap. split_and!.
  - rewrite Ey in *. split; simpl; rewrite ?He, ?Herr, ?Hcap; done.
  - unfold same_control. simpl. by rewrite He, Herr, Hcap.
  - split; [done |]. exists []. simpl. by rewrite !app_nil_r.
Qed.

Lemma fill_step_wp W una rd s window E :
  sending W una rd s -> _bytes_in_flight s < window <= UINT16_MAX ->
  wpe (fill_step window) (fun more s' => exists rd', sending W una rd' s' /\ same_control s s' /\
    queued s s' /\ _bytes_in_flight s' <= window /\
    (if more then _bytes_in_flight s < _bytes_in_flight s' else exhausted s')) E s.
Proof.
  intros Hs Hwin. unfold fill_step. wp_step. eapply (build_seg_wp W una rd); [done | done |].
  set (syn := negb (_set_syn_flag s)).
  set (n := Z.min TCPConfig.MAX_PAYLOAD_SIZE (Z.min (window - _bytes_in_flight s - b2z syn) (len W - rd))).
  set (fin := negb (_set_fin_flag s) && _ && _). intros st HR Hn. fold (taken st fin s).
  pose proof (sending_range _ _ _ _ Hs) as (Hrd & Hbif & Hnext & Hbuf).
  assert (Hlen : len (slice rd (rd + n) W) = n) by (rewrite len_slice; lia).
  assert (Hfin : fin = true -> ByteStream.input_ended (_stream s) = true /\ rd + n = len W /\
    _bytes_in_flight s + (n + b2z syn) < window).
  { unfold fin. rewrite !andb_true_iff, Z.eqb_eq, Z.ltb_lt. intuition lia. }
  rewrite built_length, Hlen. destruct (Z.eqb_spec (n + b2z syn + b2z fin) 0) as [E0|E0].
  - (* nothing to send *)
    assert (n = 0 /\ syn = false /\ fin = false) as (En & Esyn & Efin).
    { unfold b2z in E0. destruct syn, fin; split_and!; try done; lia. }
    assert (Eflag : _set_syn_flag s = true) by (unfold syn in Esyn; by destruct (_set_syn_flag s)).
    assert (Eall : len W - rd = 0).
    { unfold n, b2z, TCPConfig.MAX_PAYLOAD_SIZE in En. rewrite Esyn in En. lia. }
    rewrite En, Z.add_0_r in HR. rewrite Efin. wp_step. exists rd.
    destruct (sending_idle W una rd s st Hs Eflag HR) as (? & ? & ?). split_and!; try done; simpl; [lia |].
    split_and!; simpl; [done | rewrite (refines_empty _ _ HR); simpl; by apply Z.eqb_eq |].
    rewrite (refines_ended _ _ HR). simpl.
    assert (Hlt : (_bytes_in_flight s + (n + b2z syn) <? window) = true).
    { apply Z.ltb_lt. rewrite En, Esyn. simpl. lia. }
    assert (Heq : (len W - (rd + n) =? 0) = true) by (apply Z.eqb_eq; lia).
    unfold fin in Efin. rewrite Hlt, Heq in Efin.
    destruct (_set_fin_flag s), (ByteStream.input_ended (_stream s)); simpl in Efin; auto.
  - (* a segment is sent *)
    assert (Efin0 : _set_fin_flag s = false).
    { destruct (_set_fin_flag s) eqn:Ef; [exfalso | done]. destruct (sd_fin _ _ _ _ Hs Ef) as [_ Er].
      destruct (_set_syn_flag s) eqn:Ey; [| by destruct (sd_syn _ _ _ _ Hs Ey); congruence].
      unfold syn, fin, b2z in E0. simpl in E0. lia. }
    assert (Hup : _bytes_in_flight s + (n + b2z syn + b2z fin) <= window).
    { unfold b2z in *. destruct fin; [destruct Hfin; lia |]. unfold n. destruct syn; lia. }
    wp_step. apply send_seg_wp. wp_step.
    destruct (sending_sent W una rd s st n fin) as (? & ? & ? & Eb); try done; try lia.
    { intros Hf. destruct (Hfin Hf) as (? & ? & _). done. }
    { fold syn. unfold b2z in *. destruct syn, fin; lia. }
    { fold syn. lia. }
    fold syn in Eb. exists (rd + n). split_and!; try done; rewrite Eb; [lia |].
    unfold b2z in *. destruct syn, fin; lia.
Qed.
Lemma fill_loop_wp W una window fuel rd s E :
  sending W una rd s -> window <= UINT16_MAX -> window - _bytes_in_flight s < Z.of_nat fuel ->
  wpe (fill_loop fuel window) (fun _ s' => exists rd', sending W una rd' s' /\ same_control s s' /\
    queued s s' /\ _bytes_in_flight s' <= Z.max (_bytes_in_flight s) window /\
    (window <= _bytes_in_flight s' \/ exhausted s')) E s.
Proof.
  revert rd s. induction fuel as [|fuel IH]; intros rd s Hs Hw Hf; simpl; wp_step; wp_step;
    (destruct (Z.ltb_spec (_bytes_in_flight s) window) as [Hlt|Hge];
      [| wp_step; exists rd; split_and!; auto using same_control_refl, queued_refl; lia]); [lia |].
  wp_step. eapply wp_mono; [by apply (fill_step_wp W una rd) |].
  intros [] s1 (rd1 & Hs1 & Hc1 & Hq1 & Hle & Hmore).
  - eapply wp_mono; [apply (IH rd1); [done | done | lia] |].
    intros [] s2 (rd2 & Hs2 & Hc2 & Hq2 & Hle2 & Hend). exists rd2. split_and!; try done.
    + by eapply same_control_trans.
    + by eapply queued_trans.
    + lia.
  - wp_step. exists rd1. split_and!; try done; [lia | by right].
Qed.

Lemma effective_window_bound s :
  0 <= _window_size s < 2 ^ 16 -> _effective_window_size s <= UINT16_MAX.
Proof.
  intros. unfold _effective_window_size, UINT16_MAX.
  destruct (_congestion_control_enabled s); simpl; lia.
Qed.

Lemma fill_window_wp W una rd s E :
  sending W una rd s ->
  wpe fill_window (fun _ s' => exists rd', sending W una rd' s' /\ same_control s s' /\ queued s s' /\
    _bytes_in_flight s' <= Z.max (_bytes_in_flight s) (_effective_window_size s) /\
    (_effective_window_size s <= _bytes_in_flight s' \/ exhausted s')) E s.
Proof.
  intros Hs. unfold fill_window. do 4 wp_step.
  apply (fill_loop_wp W una _ _ rd); [done | apply effective_window_bound, Hs | lia].
Qed.
(** *** ack_received *)

(** The loop drops the leading segments that end at or before the
    acknowledgment number, and no others. *)
Lemma ack_loop_spec W isn fin ack next : next < 2 ^ 64 -> forall q una newly,
  0 <= una -> 0 <= newly -> newly + (next - una) < 2 ^ 64 -> chain W isn fin una q next ->
  exists acked q' una', q = acked ++ q' /\
    ack_loop ack q newly (next - una) = (q', newly + (una' - una), next - una') /\
    chain W isn fin una' q' next /\ una <= una' /\ (una < una' -> una' <= ack) /\
    (acked = [] <-> una' = una) /\
    Forall (fun p => p.1 + TCPSegment.length_in_sequence_space p.2 <= ack) acked /\
    match q' with
    | [] => True
    | (a, seg) :: _ => ack < a + TCPSegment.length_in_sequence_space seg
    end.
Proof.
  intros Hnext. induction q as [|[a seg] q IH]; intros una newly Hu Hn Hlim Hc.
  { exists [], [], una. simpl in *. split_and!; try done; try lia. by rewrite Z.sub_diag, Z.add_0_r. }
  pose proof Hc as (-> & Hg & Hpos & Hc'). pose proof (chain_le _ _ _ _ _ _ Hc') as Hle. simpl.
  set (n := TCPSegment.length_in_sequence_space seg) in *.
  rewrite (u64_small (una + n)), (u64_small (una + n - 1)) by lia.
  destruct (Z.ltb_spec (una + n - 1) ack) as [Hlt|Hge].
  - rewrite (u64_small (newly + n)), (u64_small (next - una - n)) by lia.
    replace (next - una - n) with (next - (una + n)) by lia.
    destruct (IH (una + n) (newly + n)) as (acked & q' & una' & -> & E & Hch & Hl & Hk & _ & Hall & Hq');
      [lia | lia | lia | done |].
    exists ((una, seg) :: acked), q', una'. split_and!; try done; try lia.
    + rewrite E. by replace (newly + n + (una' - (una + n))) with (newly + (una' - una)) by lia.
    + split; [done | lia].
    + constructor; [simpl; fold n; lia | done].
  - exists [], ((una, seg) :: q), una. split_and!; try done; try lia.
    by rewrite Z.sub_diag, Z.add_0_r.
Qed.

(** What the congestion-control updates leave alone; a fast retransmission puts
    the first outstanding segment back on the queue. *)
Definition cc_frame (s s' : t) : Prop :=
  _isn s' = _isn s /\ _initial_retransmission_timeout s' = _initial_retransmission_timeout s /\
  _stream s' = _stream s /\ _next_seqno s' = _next_seqno s /\ _timer s' = _timer s /\
  _outstanding_seg s' = _outstanding_seg s /\
  _consecutive_retransmissions_count s' = _consecutive_retransmissions_count s /\
  _bytes_in_flight s' = _bytes_in_flight s /\ _window_size s' = _window_size s /\
  _set_syn_flag s' = _set_syn_flag s /\ _set_fin_flag s' = _set_fin_flag s /\
  _congestion_control_enabled s' = _congestion_control_enabled s /\
  (_segments_out s' = _segments_out s \/
   exists a seg q, _outstanding_seg s = (a, seg) :: q /\ _segments_out s' = _segments_out s ++ [seg]).

(** The congestion window is at least one segment and at most [B]; the threshold
    is unset, or at least two segments and at most [B]. *)
Record reno (B : Z) (s : t) : Prop := {
  rn_cwnd : TCPConfig.MAX_PAYLOAD_SIZE <= _congestion_window s <= B;
  rn_ssthresh : (_slow_start_threshold s = UINT64_MAX /\ _in_fast_recovery s = false) \/
    2 * TCPConfig.MAX_PAYLOAD_SIZE <= _slow_start_threshold s <= B
}.

Lemma reno_le B B' s : reno B s -> B <= B' -> reno B' s.
Proof. intros [] ?. split; [lia |]. destruct rn_ssthresh0 as [|]; [by left | right; lia]. Qed.

Lemma on_new_ack_wp B n s E :
  reno B s -> 0 < n <= UINT16_MAX -> B + UINT16_MAX < 2 ^ 64 ->
  wpe (_on_new_ack n) (fun _ s' => reno (B + UINT16_MAX) s' /\ cc_frame s s' /\
    _dup_ack_count s' = 0 /\ _in_fast_recovery s' = false) E s.
Proof.
  intros [] Hn HB. unfold TCPConfig.MAX_PAYLOAD_SIZE, UINT16_MAX in *. unfold _on_new_ack.
  wp_step. wp_step. wp_step.
  set (cwnd := if _in_fast_recovery s then _slow_start_threshold s else _congestion_window s).
  assert (Hc : 1000 <= cwnd <= B).
  { unfold cwnd. destruct (_in_fast_recovery s); [| lia]. destruct rn_ssthresh0 as [[_ [=]]|]; lia. }
  assert (Hpre : forall Q, Q tt (setf _in_fast_recovery false (setf _congestion_window cwnd s)) ->
    wpe (if _in_fast_recovery s then
           let* ssthresh := asks _slow_start_threshold in
           _congestion_window ::= ssthresh ;; _in_fast_recovery ::= false
         else pure tt) Q E s).
  { intros Q HQ. unfold cwnd in HQ. destruct (_in_fast_recovery s) eqn:Efr; [by wp_steps |].
    wp_step. destruct s. simpl in *. by subst. }
  apply Hpre. clear Hpre. wp_step. wp_step. wp_step. wp_step. simpl.
  destruct (Z.ltb_spec cwnd (_slow_start_threshold s)).
  - wp_steps. rewrite u64_small by lia. split_and!; [| by unfold cc_frame; simpl; auto 20 | done | done].
    split; simpl; unfold TCPConfig.MAX_PAYLOAD_SIZE; [lia |]. destruct rn_ssthresh0 as [[? ?]|]; [by left | right; lia].
  - rewrite (proj2 (Z.eqb_neq cwnd 0)) by lia. wp_steps.
    assert (Hd : 0 <= u64 (1000 * n) / cwnd <= 65535).
    { rewrite u64_small by lia. split; [apply Z.div_pos; lia |].
      apply Z.div_le_upper_bound; nia. }
    change TCPConfig.MAX_PAYLOAD_SIZE with 1000. rewrite (u64_small (cwnd + _)) by lia. split_and!; [| by unfold cc_frame; simpl; auto 20 | done | done].
    split; simpl; unfold TCPConfig.MAX_PAYLOAD_SIZE; [lia |]. destruct rn_ssthresh0 as [[? ?]|]; [by left | right; lia].
Qed.

Lemma on_dup_ack_wp B s E :
  reno B s -> UINT16_MAX <= B -> B + UINT16_MAX < 2 ^ 64 ->
  wpe _on_dup_ack (fun _ s' => reno (B + UINT16_MAX) s' /\ cc_frame s s') E s.
Proof.
  intros [] HB1 HB. unfold TCPConfig.MAX_PAYLOAD_SIZE, UINT16_MAX in *. unfold _on_dup_ack.
  wp_step. wp_step. destruct (_outstanding_seg s) as [|[a seg] q] eqn:Eq.
  { wp_step. split; [| by unfold cc_frame; intuition].
    split; unfold TCPConfig.MAX_PAYLOAD_SIZE; [lia |]. destruct rn_ssthresh0; [by left | right; lia]. }
  do 8 wp_step. simpl.
  assert (Hhalf : 0 <= _congestion_window s / 2 <= B) by zarith.
  apply wp_if; intros _; [| apply wp_if; intros _].
  - wp_steps. simpl. rewrite u64_small by (unfold TCPConfig.MAX_PAYLOAD_SIZE; lia).
    split; [| unfold cc_frame; simpl; rewrite Eq; split_and!; try done; right; by exists a, seg, q].
    split; simpl; unfold TCPConfig.MAX_PAYLOAD_SIZE; [zarith | right; lia].
  - wp_steps. simpl. rewrite u64_small by (unfold TCPConfig.MAX_PAYLOAD_SIZE; lia).
    split; [| by unfold cc_frame; simpl; rewrite Eq; split_and!; auto].
    split; simpl; unfold TCPConfig.MAX_PAYLOAD_SIZE; [lia |]. destruct rn_ssthresh0; [by left | right; lia].
  - wp_steps. split; [| by unfold cc_frame; simpl; rewrite Eq; split_and!; auto].
    split; simpl; unfold TCPConfig.MAX_PAYLOAD_SIZE; [lia |]. destruct rn_ssthresh0; [by left | right; lia].
Qed.

Lemma on_congestion_timeout_wp B s E :
  reno B s -> UINT16_MAX <= B ->
  wpe _on_congestion_timeout (fun _ s' => reno B s' /\ cc_frame s s' /\
    _congestion_window s' = TCPConfig.MAX_PAYLOAD_SIZE /\ _segments_out s' = _segments_out s) E s.
Proof.
  intros [] HB. unfold _on_congestion_timeout, UINT16_MAX, TCPConfig.MAX_PAYLOAD_SIZE in *. wp_steps.
  split_and!; [| by unfold cc_frame; simpl; auto 20 | done | done].
  split; simpl; unfold TCPConfig.MAX_PAYLOAD_SIZE; [lia | right; zarith].
Qed.
(** The timer after an acknowledgment of [newly] sequence numbers. *)
Definition ack_timer (newly : Z) (s : t) : t :=
  let s1 := if 0 <? newly
    then upd _timer Timer.restart (upd _timer (Timer.set_time_out (_initial_retransmission_timeout s))
      (setf _consecutive_retransmissions_count 0 s))
    else s in
  if _bytes_in_flight s1 =? 0 then upd _timer Timer.stop s1 else s1.

Lemma ack_timer_wp newly k s (Q : unit -> t -> Prop) E :
  wpe k Q E (ack_timer newly s) ->
  wpe (let* rto := asks _initial_retransmission_timeout in
       when (0 <? newly) (
         _consecutive_retransmissions_count ::= 0 ;;
         _timer %= Timer.set_time_out rto ;;
         _timer %= Timer.restart) ;;
       let* in_flight := asks _bytes_in_flight in
       when (in_flight =? 0) (_timer %= Timer.stop) ;; k) Q E s.
Proof.
  intros HQ. unfold ack_timer in HQ. wp_step. wp_step. wp_step.
  apply wp_when; intros Hn; rewrite Hn in HQ; wp_steps; apply wp_when; intros Hb; wp_steps; simpl in *;
    by rewrite Hb in HQ.
Qed.

(** The state before the window is filled again. *)
Definition acked (q' : list (Z * TCPSegment.t)) (in_flight' : Z) (s : t) : t :=
  setf _bytes_in_flight in_flight' (setf _outstanding_seg q' s).

Lemma sending_acked W una rd s s2 una' q' win :
  sending W una rd s ->
  chain W (_isn s) (_set_fin_flag s) una' q' (_next_seqno s) -> una <= una' ->
  cc_frame (acked q' (_next_seqno s - una') s) s2 -> 0 <= win < 2 ^ 16 ->
  sending W una' rd (setf _window_size win (ack_timer (una' - una) s2)).
Proof.
  intros [] Hc Hle (E1 & E2 & E3 & E4 & E5 & E6 & E7 & E8 & E9 & E10 & E11 & E12 & Hq) Hwin.
  simpl in *. pose proof (chain_le _ _ _ _ _ _ Hc) as Hle'.
  set (s3 := ack_timer (una' - una) s2).
  assert (F : _isn s3 = _isn s /\ _stream s3 = _stream s /\ _next_seqno s3 = _next_seqno s /\
    _set_syn_flag s3 = _set_syn_flag s /\ _set_fin_flag s3 = _set_fin_flag s /\
    _outstanding_seg s3 = q' /\ _bytes_in_flight s3 = _next_seqno s - una' /\
    _segments_out s3 = _segments_out s2 /\
    _initial_retransmission_timeout s3 = _initial_retransmission_timeout s).
  { unfold s3, ack_timer. destruct (0 <? una' - una); simpl; destruct (_ =? 0); simpl; split_and!; done. }
  destruct F as (F1 & F2 & F3 & F4 & F5 & F6 & F7 & F8 & F9).
  split; simpl; rewrite ?F1, ?F2, ?F3, ?F4, ?F5, ?F6, ?F7, ?F8, ?F9; try done; try lia.
  - unfold s3, ack_timer. destruct (Z.ltb_spec 0 (una' - una)); simpl; rewrite E8.
    + destruct (Z.eqb_spec (_next_seqno s - una') 0), (Z.ltb_spec 0 (_next_seqno s - una')); simpl; lia || done.
    + replace una' with una in * by lia. rewrite <- sd_flight0 in *.
      destruct (Z.eqb_spec (_bytes_in_flight s) 0); simpl; rewrite ?E5, ?sd_timer0; [| done].
      destruct (Z.ltb_spec 0 (_bytes_in_flight s)); lia || done.
  - unfold emitted in *. destruct Hq as [-> | (a & seg & q & -> & ->)]; [done |].
    apply Forall_app; split; [done |]. constructor; [| done]. simpl in Hc. exists a. apply Hc.
  - unfold s3, ack_timer. destruct (0 <? una' - una); simpl.
    + exists 0. destruct (_ =? 0); simpl; rewrite E2, Z.mul_1_r; split_and!; try done; lia.
    + destruct sd_backoff0 as (c & ? & ? & ?). exists c.
      destruct (_ =? 0); simpl; rewrite ?E5, ?E7; done.
Qed.
(** The congestion-control part of [ack_received]. *)
Lemma ack_cc_wp B newly abs_ackno k s (Q : unit -> t -> Prop) E :
  reno B s -> 0 <= newly <= UINT16_MAX -> UINT16_MAX <= B -> B + UINT16_MAX < 2 ^ 64 ->
  (forall s', reno (B + UINT16_MAX) s' -> cc_frame s s' -> wpe k Q E s') ->
  wpe (let* enabled := asks _congestion_control_enabled in
       let* last := asks _last_ackno_absolute in
       when enabled (
         (if 0 <? newly then _on_new_ack newly
          else if abs_ackno =? last then _on_dup_ack
          else pure tt) ;;
         _last_ackno_absolute ::= abs_ackno) ;; k) Q E s.
Proof.
  intros Hr Hn HB1 HB HQ. do 5 wp_step.
  assert (Hlast : forall s', reno (B + UINT16_MAX) s' -> cc_frame s s' ->
    wpe k Q E (setf _last_ackno_absolute abs_ackno s')) by (intros s' [] Hf; by apply HQ).
  assert (Hz : reno (B + UINT16_MAX) s) by (eapply reno_le; [done | unfold UINT16_MAX; lia]).
  assert (Hf0 : cc_frame s s) by (unfold cc_frame; auto 20).
  apply wp_when; intros _; [| by apply HQ]. wp_step. destruct (Z.ltb_spec 0 newly).
  - eapply wp_mono; [apply (on_new_ack_wp B); [done | lia | done] |].
    intros [] s' (? & ? & _). wp_step. by apply Hlast.
  - destruct (abs_ackno =? _last_ackno_absolute s).
    + eapply wp_mono; [by apply (on_dup_ack_wp B) |]. intros [] s' (? & ?). wp_step. by apply Hlast.
    + wp_step. wp_step. by apply Hlast.
Qed.

(** What an acknowledgment that is not ahead of the sender does. *)
Record ack_result (W : list byte) (B una abs_ackno win : Z) (s s' : t) : Prop := {
  ar_split : exists una' rd' gone q' new,
    _outstanding_seg s = gone ++ q' /\ _outstanding_seg s' = q' ++ new /\
    sending W una' rd' s' /\ una <= una' /\ (una < una' -> una' <= abs_ackno) /\
    (gone = [] <-> una' = una) /\
    Forall (fun p => p.1 + TCPSegment.length_in_sequence_space p.2 <= abs_ackno) gone /\
    match q' with
    | [] => True
    | (a, seg) :: _ => abs_ackno < a + TCPSegment.length_in_sequence_space seg
    end /\
    (una < una' -> _consecutive_retransmissions_count s' = 0 /\
      Timer.get_time_out (_timer s') = u32 (_initial_retransmission_timeout s')) /\
    (q' = [] -> _segments_out s' = _segments_out s ++ map snd new) /\
    _bytes_in_flight s' <= Z.max (_next_seqno s - una') (_effective_window_size s') /\
    chain W (_isn s) (_set_fin_flag s) una' q' (_next_seqno s);
  ar_fin : _set_fin_flag s = true -> _set_fin_flag s' = true;
  ar_reno : reno (B + UINT16_MAX) s';
  ar_window : _window_size s' = win;
  ar_isn : _isn s' = _isn s;
  ar_rto : _initial_retransmission_timeout s' = _initial_retransmission_timeout s;
  ar_capacity : ByteStream._capacity (_stream s') = ByteStream._capacity (_stream s);
  ar_ended : ByteStream.input_ended (_stream s') = ByteStream.input_ended (_stream s);
  ar_error : ByteStream.error (_stream s') = ByteStream.error (_stream s);
  ar_full : _effective_window_size s' <= _bytes_in_flight s' \/ exhausted s'
}.

Lemma effective_window_same s s' : same_control s s' -> _effective_window_size s' = _effective_window_size s.
Proof.
  intros (_ & _ & E1 & _ & _ & E2 & E3 & _). unfold _effective_window_size. by rewrite E1, E2, E3.
Qed.

Lemma ack_received_wp W B una rd s ackno win E :
  let abs_ackno := unwrap ackno (_isn s) (next_seqno_absolute s) in
  sending W una rd s -> reno B s -> 0 <= win < 2 ^ 16 -> UINT16_MAX <= B -> B + UINT16_MAX < 2 ^ 64 ->
  wpe (ack_received ackno win) (fun _ s' =>
    if next_seqno_absolute s <? abs_ackno then s' = s else ack_result W B una abs_ackno win s s') E s.
Proof.
  intros abs_ackno Hs Hr Hwin HB1 HB. unfold ack_received. do 4 wp_step. fold abs_ackno.
  destruct (next_seqno_absolute s <? abs_ackno); [by wp_step |]. do 4 wp_step.
  pose proof (sending_range _ _ _ _ Hs) as (_ & Hbif & Hnext & _). pose proof Hs as [].
  destruct (ack_loop_spec W (_isn s) (_set_fin_flag s) abs_ackno (_next_seqno s) ltac:(lia)
    (_outstanding_seg s) una 0) as (gone & q' & una' & Eq & El & Hc & Hle & Hack & Hgone & Hall & Hfront);
    [lia | lia | lia | done |].
  rewrite sd_flight0, El, Z.add_0_l. pose proof (chain_le _ _ _ _ _ _ Hc). wp_step. wp_step. wp_step. wp_step.
  fold (acked q' (_next_seqno s - una') s).
  apply (ack_cc_wp B); [by destruct Hr | unfold UINT16_MAX in *; lia | done | done |].
  intros s2 Hr2 Hf2. apply ack_timer_wp. wp_step. wp_step.
  pose proof (sending_acked W una rd s s2 una' q' win Hs Hc Hle Hf2 Hwin) as Hs3.
  set (s3 := setf _window_size win (ack_timer (una' - una) s2)) in *.
  assert (F : reno (B + UINT16_MAX) s3 /\ _isn s3 = _isn s /\ _stream s3 = _stream s /\
    _initial_retransmission_timeout s3 = _initial_retransmission_timeout s /\ _outstanding_seg s3 = q' /\
    _set_fin_flag s3 = _set_fin_flag s /\
    (una < una' -> _consecutive_retransmissions_count s3 = 0 /\
      Timer._time_out (_timer s3) = u32 (_initial_retransmission_timeout s3)) /\
    _bytes_in_flight s3 = _next_seqno s - una' /\ (q' = [] -> _segments_out s3 = _segments_out s)).
  { destruct Hf2 as (E1 & E2 & E3 & E4 & E5 & E6 & E7 & E8 & E9 & E10 & E11 & E12 & Hq2). simpl in *.
    assert (Hq2' : q' = [] -> _segments_out s2 = _segments_out s).
    { intros ->. by destruct Hq2 as [| (? & ? & ? & [=] & _)]. }
    unfold s3, ack_timer. destruct (Z.ltb_spec 0 (una' - una)); simpl; destruct (_ =? 0); simpl;
      split_and!; try done; try (by destruct Hr2); lia. }
  destruct F as (F1 & F2 & F3 & F4 & F5 & F7 & F6 & F8 & F9).
  eapply wp_mono; [by apply (fill_window_wp W una' rd) |].
  intros [] s4 (rd4 & Hs4 & Hc4 & (Hfin4 & new & En & Eo4) & Hlim4 & Hfull).
  pose proof (effective_window_same _ _ Hc4) as Hw4.
  destruct Hc4 as (G1 & G2 & G3 & G4 & G5 & G6 & G7 & G8 & G9 & G10 & G11 & G12 & G13 & G14).
  split; rewrite ?Hw4, ?G1, ?G2, ?G3, ?G12, ?G13, ?G14, ?F2, ?F3; try done.
  - exists una', rd4, gone, q', new. rewrite En, F5. split_and!; try done.
    + unfold Timer.get_time_out. by rewrite G4, G5.
    + intros Eq'. by rewrite Eo4, F9.
    + by rewrite <- F8.
  - by rewrite <- F7.
  - destruct F1. split; by rewrite ?G7, ?G8, ?G11.
Qed.
(** *** tick and the other operations *)

(** The state after the timer has expired and the segment [front] was sent again. *)
Definition retransmitted (front : TCPSegment.t) (s : t) : t :=
  let s1 := upd _segments_out (fun out => out ++ [front]) s in
  upd _timer Timer.restart
    (if 0 <? _window_size s
     then upd _timer (fun tm => Timer.set_time_out (Timer.get_time_out tm * 2) tm)
       (upd _consecutive_retransmissions_count (fun n => u32 (n + 1)) s1)
     else s1).

Lemma sending_retransmitted W una rd s s1 a front q :
  sending W una rd s -> _outstanding_seg s = (a, front) :: q -> cc_frame s s1 ->
  _segments_out s1 = _segments_out s -> sending W una rd (retransmitted front s1).
Proof.
  intros [] Eq (E1 & E2 & E3 & E4 & E5 & E6 & E7 & E8 & E9 & E10 & E11 & E12 & _) Eo.
  rewrite Eq in sd_chain0. pose proof sd_chain0 as (-> & Hg & Hpos & Hc'). pose proof (chain_le _ _ _ _ _ _ Hc').
  set (s2 := retransmitted front s1).
  assert (F : _isn s2 = _isn s /\ _stream s2 = _stream s /\ _next_seqno s2 = _next_seqno s /\
    _set_syn_flag s2 = _set_syn_flag s /\ _set_fin_flag s2 = _set_fin_flag s /\
    _outstanding_seg s2 = _outstanding_seg s /\ _bytes_in_flight s2 = _bytes_in_flight s /\
    _segments_out s2 = _segments_out s ++ [front] /\ _window_size s2 = _window_size s /\
    _initial_retransmission_timeout s2 = _initial_retransmission_timeout s /\
    Timer.is_running (_timer s2) = true).
  { unfold s2, retransmitted. rewrite <- Eo. destruct (0 <? _window_size s1); simpl; by split_and!. }
  destruct F as (F1 & F2 & F3 & F4 & F5 & F6 & F7 & F8 & F9 & F10 & F11).
  split; rewrite ?F1, ?F2, ?F3, ?F4, ?F5, ?F6, ?F7, ?F8, ?F9, ?F10, ?F11, ?Eq; try done.
  - symmetry. apply Z.ltb_lt. lia.
  - apply Forall_app; split; [done |]. constructor; [eauto | done].
  - destruct sd_backoff0 as (c & Hc & Ec & Et). unfold s2, retransmitted.
    destruct (0 <? _window_size s1); simpl; rewrite E5, E7.
    + exists (c + 1). split_and!; [lia | rewrite Ec; unfold u32; zarith |].
      unfold Timer.get_time_out in *. rewrite Et, Z.pow_add_r by lia. unfold u32.
      rewrite Zmult_mod_idemp_l. f_equal. lia.
    + by exists c.
Qed.

Lemma sending_tick W una rd s ms : sending W una rd s -> sending W una rd (upd _timer (Timer.tick ms) s).
Proof.
  intros []. split; simpl; try done.
  - rewrite <- sd_timer0. unfold Timer.tick, Timer.is_running. by destruct (Timer._is_running (_timer s)) eqn:E.
  - destruct sd_backoff0 as (c & ? & ? & ?). exists c. split_and!; try done.
    unfold Timer.tick. by destruct (Timer._is_running (_timer s)).
Qed.

Lemma sender_tick_wp W B una rd s ms E :
  let tm := Timer.tick ms (_timer s) in
  sending W una rd s -> reno B s -> UINT16_MAX <= B ->
  wpe (tick ms) (fun _ s' => sending W una rd s' /\ reno B s' /\
    if Timer.check_time_out tm then
      exists a front q s1, _outstanding_seg s = (a, front) :: q /\ cc_frame (upd _timer (Timer.tick ms) s) s1 /\
        (_congestion_control_enabled s = true -> _congestion_window s1 = TCPConfig.MAX_PAYLOAD_SIZE) /\
        _segments_out s1 = _segments_out s /\ s' = retransmitted front s1
    else s' = upd _timer (Timer.tick ms) s) E s.
Proof.
  intros tm Hs Hr HB. pose proof (sending_tick _ _ _ _ ms Hs) as Hs1.
  unfold tick. do 6 wp_step. simpl. fold tm.
  destruct (Timer.check_time_out tm) eqn:Et; [| wp_step; split_and!; [done | by destruct Hr | done]].
  destruct (_outstanding_seg s) as [|[a front] q] eqn:Eq.
  { exfalso. pose proof Hs1 as []. simpl in *. rewrite Eq in sd_chain0. simpl in sd_chain0.
    apply andb_true_iff in Et as [Er _]. fold tm in sd_timer0. unfold Timer.is_running in sd_timer0.
    rewrite Er in sd_timer0. symmetry in sd_timer0. apply Z.ltb_lt in sd_timer0. lia. }
  do 3 wp_step.
  assert (Hfin : forall s1, reno B s1 -> cc_frame (upd _timer (Timer.tick ms) s) s1 ->
    (_congestion_control_enabled s = true -> _congestion_window s1 = TCPConfig.MAX_PAYLOAD_SIZE) ->
    _segments_out s1 = _segments_out s ->
    wpe (_segments_out %= (fun out => out ++ [front]) ;;
      let* window := asks _window_size in
      when (0 <? window) (
        _consecutive_retransmissions_count %= (fun n => u32 (n + 1)) ;;
        _timer %= (fun tm => Timer.set_time_out (Timer.get_time_out tm * 2) tm)) ;;
      _timer %= Timer.restart) (fun _ s' => sending W una rd s' /\ reno B s' /\
        exists a0 front0 q0 s2, (a, front) :: q = (a0, front0) :: q0 /\
        cc_frame (upd _timer (Timer.tick ms) s) s2 /\
        (_congestion_control_enabled s = true -> _congestion_window s2 = TCPConfig.MAX_PAYLOAD_SIZE) /\
        _segments_out s2 = _segments_out s /\ s' = retransmitted front0 s2) E s1).
  { intros s1 Hr1 Hf1 Hw Ho.
    pose proof (sending_retransmitted W una rd _ s1 a front q Hs1 Eq Hf1 Ho) as Hs2.
    assert (Hr2 : reno B (retransmitted front s1)).
    { destruct Hr1. unfold retransmitted. by destruct (0 <? _window_size s1). }
    unfold retransmitted in *. do 5 wp_step. apply wp_when; simpl; intros Ew; rewrite Ew in *; wp_steps;
      (split_and!; [done | done |]); exists a, front, q, s1; by rewrite Ew. }
  apply wp_when; intros Ecc.
  - eapply wp_mono; [apply (on_congestion_timeout_wp B); [by destruct Hr | done] |].
    intros [] s1 (? & ? & ? & ?). by apply Hfin.
  - simpl in Ecc. apply Hfin; [by destruct Hr | by unfold cc_frame; auto 20 | congruence | done].
Qed.

(** The state an expired timer leaves, field by field. *)
Lemma tick_expired ms s a front q :
  _outstanding_seg s = (a, front) :: q -> Timer.check_time_out (Timer.tick ms (_timer s)) = true ->
  tick ms s = (Ok tt,
    let backs_off := 0 <? _window_size s in
    let cc := _congestion_control_enabled s in
    mk (_isn s) (_segments_out s ++ [front]) (_initial_retransmission_timeout s) (_stream s) (_next_seqno s)
      (Timer.mk 0 (if backs_off then u32 (Timer.get_time_out (_timer s) * 2)
                   else Timer.get_time_out (_timer s)) true)
      (_outstanding_seg s)
      (if backs_off then u32 (_consecutive_retransmissions_count s + 1)
       else _consecutive_retransmissions_count s)
      (_bytes_in_flight s) (_window_size s) (_set_syn_flag s) (_set_fin_flag s) cc
      (if cc then TCPConfig.MAX_PAYLOAD_SIZE else _congestion_window s)
      (if cc then Z.max (_congestion_window s / 2) (2 * TCPConfig.MAX_PAYLOAD_SIZE)
       else _slow_start_threshold s)
      (if cc then 0 else _dup_ack_count s) (_last_ackno_absolute s)
      (if cc then false else _in_fast_recovery s)).
Proof.
  intros Eq Et.
  assert (Er : Timer._is_running (_timer s) = true).
  { unfold Timer.tick, Timer.check_time_out in Et. by destruct (Timer._is_running (_timer s)) eqn:Er; [| rewrite Er in Et]. }
  destruct s as [isn so rto st ns [tc tmo rn] os cr bif ws syn fin [] cw ss da la fr]; simpl in *; subst os rn;
    unfold tick, bind, when, asks, modify; simpl; rewrite Et; simpl; by destruct (0 <? ws).
Qed.

Lemma send_empty_wp W una rd s (Q : unit -> t -> Prop) E :
  sending W una rd s ->
  (forall seg, TCPHeader.seqno (TCPSegment.header seg) = next_seqno s ->
    TCPSegment.length_in_sequence_space seg = 0 ->
    sending W una rd (upd _segments_out (fun out => out ++ [seg]) s) ->
    Q tt (upd _segments_out (fun out => out ++ [seg]) s)) ->
  wpe send_empty_segment Q E s.
Proof.
  intros Hs HQ. unfold send_empty_segment. wp_steps. apply HQ; [done | done |].
  pose proof (sending_range _ _ _ _ Hs) as (? & ? & ? & ?). destruct Hs. split; simpl; try done.
  apply Forall_app; split; [done |]. constructor; [| done]. exists (_next_seqno s).
  split_and!; [| done | done | exact (plain_sendable (next_seqno s) false false false Buffer.empty (wf_wrap _ _) eq_refl)].
  apply segment_of_empty; simpl; try done. lia.
Qed.
(** *** The writer's side *)

Lemma sending_write W una rd s data E :
  sending W una rd s -> ByteStream.input_ended (_stream s) = false -> len W + len data + 2 < 2 ^ 64 ->
  wpe (zoom _stream (ByteStream.write data)) (fun n s' =>
    n = Z.min (len data) (ByteStream.remaining_capacity (_stream s)) /\
    sending (W ++ ztake (ByteStream.remaining_capacity (_stream s)) data) una rd s' /\
    exists st, s' = setf _stream st s /\
      ByteStream.input_ended st = ByteStream.input_ended (_stream s) /\
      ByteStream.error st = ByteStream.error (_stream s)) E s.
Proof.
  intros Hs He Hfit. pose proof Hs as []. wp_step. eapply wp_mono; [by apply write_refines |].
  intros n st [-> HR]. rewrite ByteStream.remaining_capacity_eq by apply sd_stream0.
  rewrite (refines_size _ _ sd_stream0). unfold Spec.write, Spec.room in *. simpl in *.
  assert (Ef : _set_fin_flag s = false).
  { destruct (_set_fin_flag s); [by destruct (sd_fin0 eq_refl); congruence | done]. }
  split; [done |]. split; [| exists st; by rewrite (refines_ended _ _ HR), (refines_error _ _ HR)].
  pose proof (len_nonneg data). rewrite Ef in *.
  split; simpl; rewrite ?Ef; try done; auto using chain_app_stream, emitted_app_stream.
  - by rewrite (refines_ended _ _ HR), (refines_error _ _ HR), (ref_capacity _ _ HR).
  - rewrite len_app, len_ztake. lia.
Qed.

Lemma sending_end_input W una rd s :
  sending W una rd s -> sending W una rd (upd _stream (setf ByteStream._input_ended_flag true) s).
Proof.
  intros []. split; simpl; try done.
  - destruct sd_stream0. split; try done. by apply ByteStream.end_input_wf.
  - intros Hf. by destruct (sd_fin0 Hf).
Qed.

Lemma sending_set_error W una rd s :
  sending W una rd s -> sending W una rd (upd _stream (setf ByteStream._error true) s).
Proof.
  intros []. split; simpl; try done.
  destruct sd_stream0. split; try done. by apply ByteStream.set_error_wf.
Qed.

Lemma sending_pop W una rd s seg q :
  sending W una rd s -> _segments_out s = seg :: q -> sending W una rd (setf _segments_out q s).
Proof.
  intros [] Eq. split; simpl; try done. rewrite Eq in sd_queue0. by inversion sd_queue0.
Qed.

Lemma sending_new capacity rto isn cc random :
  0 <= capacity < 2 ^ 64 -> 0 <= rto < 2 ^ 16 -> WrappingInt32.wf isn ->
  sending [] 0 0 (new capacity rto (Some isn) cc random) /\
  reno UINT16_MAX (new capacity rto (Some isn) cc random).
Proof.
  intros Hc Ht Hi. split; split; try done; simpl; try lia.
  - by apply refines_new.
  - constructor.
  - exists 0. split_and!; [lia | done |]. unfold u32. rewrite Z.mod_small; lia.
Qed.
(** The constructor draws a number when none is fixed. *)
Lemma new_isn capacity rto fixed cc random :
  new capacity rto fixed cc random =
  new capacity rto (Some (default (WrappingInt32.of_Z random) fixed)) cc random.
Proof. done. Qed.

(** *** Only the writer ends the stream *)

Definition stream_ended (s : t) : bool := ByteStream.input_ended (_stream s).

Lemma read_keeps_ended n : keeps ByteStream.input_ended (ByteStream.read n).
Proof.
  unfold ByteStream.read. keeps_tac. intros s. unfold ByteStream.pop_output.
  refine (keeps_bind ByteStream.input_ended _ _ _ _ s); keeps_tac.
Qed.

Lemma fill_keeps_ended : keeps stream_ended fill_window.
Proof.
  unfold fill_window. keeps_tac. generalize (S (Z.to_nat (a - a0))). intros fuel.
  induction fuel as [|fuel IH]; cbn [fill_loop]; keeps_tac; [| exact IH]. clear IH.
  unfold fill_step, build_seg, send_seg. keeps_tac.
  by apply (keeps_zoom_in _ _ ByteStream.input_ended); [apply read_keeps_ended | |].
Qed.

Lemma ack_keeps_ended ackno win : keeps stream_ended (ack_received ackno win).
Proof. unfold ack_received, _on_new_ack, _on_dup_ack. keeps_tac. apply fill_keeps_ended. Qed.

Lemma tick_keeps_ended ms : keeps stream_ended (tick ms).
Proof. unfold tick, _on_congestion_timeout. keeps_tac. Qed.

Lemma empty_keeps_ended : keeps stream_ended send_empty_segment.
Proof. unfold send_empty_segment. keeps_tac. Qed.

(** *** Without congestion control its state never changes *)

Definition cc_state (s : t) : option (Z * Z * bool) :=
  if _congestion_control_enabled s then None
  else Some (_congestion_window s, _slow_start_threshold s, _in_fast_recovery s).

Lemma cc_state_reno B s s' : cc_state s' = cc_state s -> _congestion_control_enabled s = false -> reno B s -> reno B s'.
Proof.
  unfold cc_state. intros Es E. rewrite E in Es. destruct (_congestion_control_enabled s'); [done |]. injection Es as E1 E2 E3.
  intros []. split; by rewrite ?E1, ?E2, ?E3.
Qed.

(** Code that runs only with congestion control. *)
Lemma keeps_enabled {A} (k : bool -> M t A) :
  keeps cc_state (k false) -> keeps _congestion_control_enabled (k true) ->
  keeps cc_state (let* enabled := asks _congestion_control_enabled in k enabled).
Proof.
  intros Hoff Hon s. change (cc_state (k (_congestion_control_enabled s) s).2 = cc_state s).
  destruct (_congestion_control_enabled s) eqn:E; [| apply Hoff]. unfold cc_state. by rewrite Hon, E.
Qed.

Lemma fill_keeps {T} (f : t -> T) :
  (forall st s, f (setf _stream st s) = f s) -> (forall b s, f (setf _set_syn_flag b s) = f s) ->
  (forall b s, f (setf _set_fin_flag b s) = f s) -> (forall seg, keeps f (send_seg seg)) -> keeps f fill_window.
Proof.
  intros Hst Hsyn Hfin Hseg. unfold fill_window. apply keeps_bind; [by intros ? |]. intros w. apply keeps_bind; [by intros ? |].
  intros b. generalize (S (Z.to_nat (w - b))). intros fuel.
  induction fuel as [|fuel IH]; cbn [fill_loop]; (apply keeps_bind; [by intros ? |]); intros n; destruct (n <? w); try (by intros ?).
  apply keeps_bind; [| intros []; [exact IH | by intros ?]]. unfold fill_step. apply keeps_bind.
  - unfold build_seg. apply keeps_bind; [by intros ? |]. intros syn. apply keeps_bind; [apply keeps_when; intros ?; apply Hsyn |].
    intros _. apply keeps_bind; [by intros ? |]. intros k. apply keeps_bind; [apply keeps_zoom; apply Hst |]. intros d.
    apply keeps_bind; [by intros ? |]. intros fin. apply keeps_bind; [apply keeps_when; intros ?; apply Hfin | by intros ? ?].
  - intros seg. destruct (_ =? 0); [by intros ? |]. apply keeps_bind; [apply Hseg | by intros ? ?].
Qed.

Lemma fill_keeps_cc : keeps cc_state fill_window.
Proof. apply fill_keeps; try done. intros seg. unfold send_seg. keeps_tac. Qed.

Lemma fill_keeps_enabled : keeps _congestion_control_enabled fill_window.
Proof. apply fill_keeps; try done. intros seg. unfold send_seg. keeps_tac. Qed.

Ltac keeps_cc :=
  repeat lazymatch goal with
  | |- keeps cc_state (let* _ := asks _congestion_control_enabled in _) => apply keeps_enabled
  | |- keeps cc_state (bind _ _) => apply keeps_bind; [| intros ?]
  | |- keeps cc_state (match ?x with _ => _ end) => destruct x
  | |- keeps cc_state (when false _) => intros ?; reflexivity
  | |- _ => progress keeps_tac
  end.

Lemma ack_keeps_cc ackno win : keeps cc_state (ack_received ackno win).
Proof. unfold ack_received, _on_new_ack, _on_dup_ack. keeps_cc; first [apply fill_keeps_cc | apply fill_keeps_enabled]. Qed.

Lemma tick_keeps_cc ms : keeps cc_state (tick ms).
Proof. unfold tick, _on_congestion_timeout. keeps_cc. Qed.

Lemma empty_keeps_cc : keeps cc_state send_empty_segment.
Proof. unfold send_empty_segment. keeps_tac. Qed.
End TCPSender.

(** ** Reachable states

    The owner may call the operations in any order: the application writes and
    ends the stream, the network delivers acknowledgments with any number and
    any window, time passes, and segments are taken off the queue. *)

Module SenderTrace.
Import TCPSender.

Inductive event : Type :=
| Write (data : list byte)
| End_input
| Fill_window
| Ack (ackno : WrappingInt32.t) (window_size : Z)
| Tick (ms : Z)
| Send_empty
| Pop_segment.

(** One event; the result is the segment taken off [segments_out()], if any. *)
Definition exec_event (ev : event) : M t (list TCPSegment.t) :=
  match ev with
  | Write data => zoom _stream (ByteStream.write data) ;; pure []
  | End_input => zoom _stream ByteStream.end_input ;; pure []
  | Fill_window => fill_window ;; pure []
  | Ack ackno window_size => ack_received ackno window_size ;; pure []
  | Tick ms => tick ms ;; pure []
  | Send_empty => send_empty_segment ;; pure []
  | Pop_segment =>
      let* q := asks segments_out in
      match q with
      | [] => pure []
      | seg :: q' => _segments_out ::= q' ;; pure [seg]
      end
  end.

(** The writer does not write after it has ended the stream; an advertised
    window is a [uint16_t]. *)
Definition allowed (s : t) (ev : event) : Prop :=
  match ev with
  | Write data =>
      ByteStream.input_ended (stream_in s) = false /\
      ByteStream.bytes_written (stream_in s) + len data + 2 < 2 ^ 64
  | Ack _ window_size => 0 <= window_size < 2 ^ 16
  | _ => True
  end.

(** The bytes the stream accepts. *)
Definition accepted (s : t) (ev : event) : list byte :=
  match ev with
  | Write data => ztake (ByteStream.remaining_capacity (stream_in s)) data
  | _ => []
  end.

Definition output_of (o : outcome (list TCPSegment.t)) : list TCPSegment.t :=
  match o with Ok segs => segs | Throw _ => [] end.

(** [reach s0 n W out s]: [n] events lead from [s0] to [s]; the writer has
    written [W] and the segments [out] have been taken off the queue. *)
Inductive reach (s0 : t) : Z -> list byte -> list TCPSegment.t -> t -> Prop :=
| reach_start : reach s0 0 [] [] s0
| reach_step n W out s ev o s' :
    reach s0 n W out s -> allowed s ev -> exec_event ev s = (o, s') ->
    reach s0 (n + 1) (W ++ accepted s ev) (out ++ output_of o) s'.

(** The state a list of events leads to, what was written on the way, and the
    segments taken off the queue. *)
Fixpoint run_events (evs : list event) (s : t) : t :=
  match evs with
  | [] => s
  | ev :: evs' => run_events evs' (exec_event ev s).2
  end.

Fixpoint written (evs : list event) (s : t) : list byte :=
  match evs with
  | [] => []
  | ev :: evs' => accepted s ev ++ written evs' (exec_event ev s).2
  end.

Fixpoint outputs (evs : list event) (s : t) : list TCPSegment.t :=
  match evs with
  | [] => []
  | ev :: evs' => output_of (exec_event ev s).1 ++ outputs evs' (exec_event ev s).2
  end.

Fixpoint all_allowed (evs : list event) (s : t) : Prop :=
  match evs with
  | [] => True
  | ev :: evs' => allowed s ev /\ all_allowed evs' (exec_event ev s).2
  end.

Lemma sender_reach_events s0 evs n W out s :
  reach s0 n W out s -> all_allowed evs s ->
  reach s0 (n + len evs) (W ++ written evs s) (out ++ outputs evs s) (run_events evs s).
Proof.
  revert n W out s. induction evs as [|ev evs IH]; intros n W out s Hr Ha; simpl.
  - change (len []) with 0. by rewrite Z.add_0_r, !app_nil_r.
  - destruct Ha as [Hev Ha]. rewrite len_cons, Z.add_assoc, !app_assoc. apply IH; [| done].
    eapply reach_step; [done | done |]. apply surjective_pairing.
Qed.

(** The invariant of the trace. *)
Record running (isn : WrappingInt32.t) (rto B : Z) (W : list byte) (out : list TCPSegment.t) (s : t) : Prop := {
  run_sending : exists una rd, sending W una rd s;
  run_reno : reno B s;
  run_isn : _isn s = isn;
  run_rto : _initial_retransmission_timeout s = rto;
  run_out : emitted W isn (_set_fin_flag s) out
}.

Lemma sender_bytes_written W una rd s :
  sending W una rd s -> ByteStream.bytes_written (_stream s) = len W.
Proof.
  intros []. unfold ByteStream.bytes_written. rewrite (ref_written _ _ sd_stream0). simpl.
  apply u64_small. pose proof (len_nonneg W). lia.
Qed.

Lemma emitted_fin W isn (fin fin' : bool) out :
  emitted W isn fin out -> (fin = true -> fin' = true) -> emitted W isn fin' out.
Proof.
  intros He Hf. apply (emitted_mono _ _ _ fin') in He. destruct fin; [by rewrite orb_true_r, <- (Hf eq_refl) in He |].
  by rewrite orb_false_r in He.
Qed.

Lemma sender_event_wp isn rto B W out s ev :
  running isn rto B W out s -> allowed s ev -> UINT16_MAX <= B -> B + UINT16_MAX < 2 ^ 64 ->
  wp (exec_event ev) (fun segs s' =>
    running isn rto (B + UINT16_MAX) (W ++ accepted s ev) (out ++ segs) s') s.
Proof.
  intros [(una & rd & Hs) Hr Hi Ht Ho] Hev HB1 HB.
  assert (HBle : B <= B + UINT16_MAX) by (unfold UINT16_MAX; lia).
  destruct ev as [data| | |ackno win|ms| |]; simpl in *; rewrite ?app_nil_r; wp_step.
  - destruct Hev as [He Hfit]. unfold stream_in in *. rewrite (sender_bytes_written _ _ _ _ Hs) in Hfit.
    eapply wp_mono; [by apply (sending_write W una rd) |].
    intros n s' (_ & Hs' & st & -> & _). wp_step. rewrite app_nil_r.
    split; [eauto | destruct Hr; eapply reno_le; [by split | done] | done | done |]. simpl.
    assert (Ef : _set_fin_flag s = false).
    { destruct (_set_fin_flag s) eqn:Ef; [| done]. destruct (sd_fin _ _ _ _ Hs Ef). congruence. }
    rewrite Ef in *. by apply emitted_app_stream.
  - wp_step. unfold ByteStream.end_input. wp_steps. rewrite app_nil_r.
    split; [exists una, rd; by apply sending_end_input | | done | done | done].
    destruct Hr. eapply reno_le; [by split | done].
  - eapply wp_mono; [by apply (fill_window_wp W una rd) |].
    intros [] s' (rd' & Hs' & Hc & (Hf & _) & _). wp_step. rewrite app_nil_r.
    destruct Hc as (G1 & G2 & G3 & G4 & G5 & G6 & G7 & G8 & G9 & G10 & G11 & _).
    split; [eauto | | congruence | congruence | by eapply emitted_fin].
    destruct Hr. eapply reno_le; [split; rewrite ?G7, ?G8, ?G11; done | done].
  - eapply wp_mono; [by apply (ack_received_wp W B una rd) |].
    intros [] s' Hres. wp_step. rewrite app_nil_r.
    destruct (_ <? _); [subst; split; eauto using reno_le |]. destruct Hres.
    destruct ar_split0 as (una' & rd' & gone & q' & new & _ & _ & Hs' & _).
    split; [eauto | done | congruence | congruence | by eapply emitted_fin].
  - eapply wp_mono; [by apply (sender_tick_wp W B una rd) |].
    intros [] s' (Hs' & Hr' & Hcase). wp_step. rewrite app_nil_r.
    assert (Hk : _isn s' = _isn s /\ _set_fin_flag s' = _set_fin_flag s /\
      _initial_retransmission_timeout s' = _initial_retransmission_timeout s).
    { destruct (Timer.check_time_out _); [| by subst].
      destruct Hcase as (a & front & q & s1 & _ & Hf & _ & _ & ->).
      destruct Hf as (E1 & E2 & _ & _ & _ & _ & _ & _ & _ & _ & E11 & _). unfold retransmitted.
      by destruct (0 <? _window_size s1). }
    destruct Hk as (Ei & Ef & Er). split; [eauto | eauto using reno_le | congruence | congruence | by rewrite Ef].
  - eapply (send_empty_wp W una rd); [done |]. intros seg _ _ Hs'. wp_step. rewrite app_nil_r.
    split; [eauto | destruct Hr; eapply reno_le; [by split | done] | done | done | done].
  - wp_step. unfold segments_out. destruct (_segments_out s) as [|seg q] eqn:Eq.
    + wp_step. rewrite app_nil_r. split; eauto using reno_le.
    + wp_steps. pose proof (sd_queue _ _ _ _ Hs) as Hq. rewrite Eq, Hi in Hq.
      split; [exists una, rd; by eapply sending_pop | destruct Hr; eapply reno_le; [by split | done] | done | done |].
      simpl. apply Forall_app; split; [done |]. inversion Hq. by constructor.
Qed.

Definition bound (n : Z) : Z := (n + 1) * UINT16_MAX.

Lemma reach_running capacity rto isn cc random n W out s :
  0 <= capacity < 2 ^ 64 -> 0 <= rto < 2 ^ 16 -> WrappingInt32.wf isn ->
  reach (new capacity rto (Some isn) cc random) n W out s ->
  0 <= n /\ (n < 2 ^ 47 -> running isn rto (bound n) W out s).
Proof.
  intros Hc Ht Hi. induction 1 as [|n W out s ev o s' _ [Hn IH] Hev Hexec].
  - split; [lia |]. intros _. destruct (sending_new capacity rto isn cc random) as [Hs Hr]; try done.
    split; [by exists 0, 0 | done | done | done | constructor].
  - split; [lia |]. intros Hlim. specialize (IH ltac:(lia)).
    assert (HB : UINT16_MAX <= bound n /\ bound n + UINT16_MAX < 2 ^ 64).
    { unfold bound, UINT16_MAX. lia. }
    pose proof (sender_event_wp isn rto (bound n) W out s ev IH Hev ltac:(lia) ltac:(lia)) as Hwp.
    unfold wpe in Hwp. rewrite Hexec in Hwp. destruct o as [segs|]; [| done]. simpl.
    replace (bound (n + 1)) with (bound n + UINT16_MAX) by (unfold bound; lia). done.
Qed.
End SenderTrace.

(** ** Properties *)

Import TCPSender SenderTrace.

Section properties.
Context (capacity rto random : Z) (isn : WrappingInt32.t) (cc : bool).
Hypothesis capacity_fits : 0 <= capacity < 2 ^ 64.
Hypothesis rto_fits : 0 <= rto < 2 ^ 16.
Hypothesis isn_wf : WrappingInt32.wf isn.

Let start : t := new capacity rto (Some isn) cc random.

(** [C11] Bookkeeping: after any sequence of calls the outstanding segments are
    contiguous and end at the next sequence number, [bytes_in_flight] is the
    sequence space they occupy, the retransmission timer runs exactly while
    something is in flight, the next sequence number counts the SYN, the bytes
    taken from the stream and the FIN; and the next call, whatever it is,
    returns. *)
Theorem sender_invariant n W out s :
  reach start n W out s -> n + 1 < 2 ^ 47 ->
  (exists una, chain W isn (_set_fin_flag s) una (_outstanding_seg s) (next_seqno_absolute s) /\
    bytes_in_flight s = next_seqno_absolute s - una) /\
  Timer.is_running (_timer s) = (0 <? bytes_in_flight s) /\
  next_seqno_absolute s =
    b2z (_set_syn_flag s) + ByteStream.bytes_read (stream_in s) + b2z (_set_fin_flag s) /\
  (forall ev, allowed s ev -> exists segs s', exec_event ev s = (Ok segs, s')).
Proof.
  intros Hreach Hn. destruct (reach_running _ _ _ _ _ _ _ _ _ capacity_fits rto_fits isn_wf Hreach) as [H0 Hrun].
  specialize (Hrun ltac:(lia)). pose proof Hrun as [(una & rd & Hs) Hr Hi Ht Ho].
  pose proof (sending_range _ _ _ _ Hs) as (? & _). split_and!.
  - exists una. destruct Hs. by rewrite <- Hi.
  - apply Hs.
  - unfold next_seqno_absolute, stream_in, ByteStream.bytes_read. destruct Hs.
    rewrite (ref_read _ _ sd_stream0), sd_next0. simpl. rewrite u64_small; lia.
  - intros ev Hev. eapply wp_returns, (sender_event_wp isn rto (bound n) W out); try done;
      unfold bound, UINT16_MAX; lia.
Qed.

(** [C12] Integrity: every segment the sender has handed out or still queues,
    retransmissions included, is a segment of the stream written so far: a SYN
    at sequence number 0, bytes of the stream at their place, a FIN at its end,
    or empty. *)
Theorem sender_emits_stream n W out s :
  reach start n W out s -> n < 2 ^ 47 ->
  Forall (fun seg => exists a, segment_of W isn a seg /\ a <= len W + 2) (out ++ segments_out s).
Proof.
  intros Hreach Hn. destruct (reach_running _ _ _ _ _ _ _ _ _ capacity_fits rto_fits isn_wf Hreach) as [_ Hrun].
  destruct (Hrun Hn) as [(una & rd & Hs) _ Hi _ Ho].
  pose proof (sd_queue _ _ _ _ Hs) as Hq. rewrite Hi in Hq.
  assert (Hall : emitted W isn (_set_fin_flag s) (out ++ segments_out s)) by (by apply Forall_app).
  eapply Forall_impl; [| exact Hall]. intros seg (a & Hg & ? & _). eauto.
Qed.

(** [C13] [fill_window] respects the window and wastes none of it: it returns, it
    never puts more in flight than the effective window, and it stops only when
    the window is full or nothing is left to send.  The segments it queues are
    the ones it keeps for retransmission. *)
Theorem fill_window_fills n W out s :
  reach start n W out s -> n < 2 ^ 47 ->
  exists s', fill_window s = (Ok tt, s') /\ queued s s' /\
    bytes_in_flight s' <= Z.max (bytes_in_flight s) (_effective_window_size s) /\
    (_effective_window_size s <= bytes_in_flight s' \/ exhausted s').
Proof.
  intros Hreach Hn. destruct (reach_running _ _ _ _ _ _ _ _ _ capacity_fits rto_fits isn_wf Hreach) as [_ Hrun].
  destruct (Hrun Hn) as [(una & rd & Hs) _ _ _ _].
  destruct (proj1 (wp_run _ _ _) (fill_window_wp W una rd s (fun _ _ => False) Hs))
    as ([] & s' & E & rd' & _ & _ & Hq & Hle & Hend).
  by exists s'.
Qed.

(** [C14] [ack_received]: an acknowledgment of something not yet sent changes
    nothing; any other drops from the retransmission queue exactly the leading
    segments it covers whole, resets the back-off when there are any, takes over
    the window, and fills it. *)
Theorem ack_received_correct n W out s ackno win :
  reach start n W out s -> n + 1 < 2 ^ 47 -> 0 <= win < 2 ^ 16 ->
  let abs_ackno := unwrap ackno isn (next_seqno_absolute s) in
  exists s', ack_received ackno win s = (Ok tt, s') /\
    if next_seqno_absolute s <? abs_ackno then s' = s
    else
      (exists gone q' new, _outstanding_seg s = gone ++ q' /\ _outstanding_seg s' = q' ++ new /\
        (gone <> [] -> consecutive_retransmissions s' = 0 /\ Timer.get_time_out (_timer s') = rto) /\
        Forall (fun p => p.1 + TCPSegment.length_in_sequence_space p.2 <= abs_ackno) gone /\
        match q' with
        | [] => True
        | (a, seg) :: _ => abs_ackno < a + TCPSegment.length_in_sequence_space seg
        end) /\
      _window_size s' = win /\
      (_effective_window_size s' <= bytes_in_flight s' \/ exhausted s').
Proof.
  intros Hreach Hn Hwin abs_ackno.
  destruct (reach_running _ _ _ _ _ _ _ _ _ capacity_fits rto_fits isn_wf Hreach) as [H0 Hrun].
  destruct (Hrun ltac:(lia)) as [(una & rd & Hs) Hr Hi Ht _].
  assert (HB : UINT16_MAX <= bound n /\ bound n + UINT16_MAX < 2 ^ 64) by (unfold bound, UINT16_MAX; lia).
  destruct (proj1 (wp_run _ _ _) (ack_received_wp W (bound n) una rd s ackno win (fun _ _ => False)
    Hs Hr Hwin ltac:(lia) ltac:(lia))) as ([] & s' & E & Hres).
  exists s'. split; [done |]. rewrite Hi in Hres. fold abs_ackno in Hres.
  destruct (next_seqno_absolute s <? abs_ackno); [done |]. destruct Hres.
  split_and!; [| done | done].
  destruct ar_split0 as (una' & rd' & gone & q' & new & E1 & E2 & Hs' & Hle & _ & Hgone & Hall & Hq & Hto & _).
  exists gone, q', new. split_and!; try done. intros Hne.
  assert (Hlt : una < una') by (destruct (Z.eq_dec una' una) as [Eu|]; [by apply Hgone in Eu | lia]).
  destruct (Hto Hlt) as [Hc Hrt]. split; [done |]. rewrite Hrt, ar_rto0, Ht. apply u32_small. lia.
Qed.

(** [C15] [tick]: when the timer, advanced by [ms], has not reached the
    time-out, only the timer changes.  When it has, there is an oldest outstanding
    segment and it is sent again, the timer restarts, and unless the window is zero the
    time-out is doubled and the retransmission counted; with congestion control on, the
    threshold becomes half the congestion window but at least two segments, the
    congestion window one segment, and fast recovery is left; every other field is as
    before.  The time-out is then [rto * 2^c] modulo [2^32] after [c] retransmissions in
    a row. *)
Theorem tick_correct n W out s ms :
  reach start n W out s -> n + 1 < 2 ^ 47 ->
  let tm := Timer.tick ms (_timer s) in
  exists s', tick ms s = (Ok tt, s') /\
    (exists c, 0 <= c /\ consecutive_retransmissions s' = u32 c /\
      Timer.get_time_out (_timer s') = u32 (rto * 2 ^ c)) /\
    if Timer.check_time_out tm then
      exists a front q, _outstanding_seg s = (a, front) :: q /\
        let backs_off := 0 <? _window_size s in
        let cc := _congestion_control_enabled s in
        s' = {|
          _isn := _isn s;
          _segments_out := _segments_out s ++ [front];
          _initial_retransmission_timeout := _initial_retransmission_timeout s;
          _stream := _stream s;
          _next_seqno := _next_seqno s;
          _timer := Timer.mk 0
            (if backs_off then u32 (Timer.get_time_out (_timer s) * 2)
             else Timer.get_time_out (_timer s)) true;
          _outstanding_seg := _outstanding_seg s;
          _consecutive_retransmissions_count :=
            (if backs_off then u32 (_consecutive_retransmissions_count s + 1)
             else _consecutive_retransmissions_count s);
          _bytes_in_flight := _bytes_in_flight s;
          _window_size := _window_size s;
          _set_syn_flag := _set_syn_flag s;
          _set_fin_flag := _set_fin_flag s;
          _congestion_control_enabled := cc;
          _congestion_window := (if cc then TCPConfig.MAX_PAYLOAD_SIZE else _congestion_window s);
          _slow_start_threshold :=
            (if cc then Z.max (_congestion_window s / 2) (2 * TCPConfig.MAX_PAYLOAD_SIZE)
             else _slow_start_threshold s);
          _dup_ack_count := (if cc then 0 else _dup_ack_count s);
          _last_ackno_absolute := _last_ackno_absolute s;
          _in_fast_recovery := (if cc then false else _in_fast_recovery s) |}
    else s' = setf _timer tm s.
Proof.
  intros Hreach Hn tm.
  destruct (reach_running _ _ _ _ _ _ _ _ _ capacity_fits rto_fits isn_wf Hreach) as [H0 Hrun].
  destruct (Hrun ltac:(lia)) as [(una & rd & Hs) Hr Hi Ht _].
  assert (HB : UINT16_MAX <= bound n) by (unfold bound, UINT16_MAX; lia).
  destruct (proj1 (wp_run _ _ _) (sender_tick_wp W (bound n) una rd s ms (fun _ _ => False) Hs Hr HB))
    as ([] & s' & E & Hs' & _ & Hcase).
  exists s'. split; [done |]. fold tm in Hcase.
  assert (Ht' : _initial_retransmission_timeout s' = rto).
  { destruct (Timer.check_time_out tm); [| by subst s'].
    destruct Hcase as (a & front & q & s1 & _ & Hf & _ & _ & ->).
    destruct Hf as (_ & Hf & _). unfold retransmitted. by destruct (0 <? _); simpl; rewrite Hf. }
  split; [pose proof (sd_backoff _ _ _ _ Hs') as Hb; by rewrite Ht' in Hb |].
  destruct (Timer.check_time_out tm) eqn:Et; [| done].
  destruct Hcase as (a & front & q & _ & Eq & _). exists a, front, q. split; [done |].
  rewrite (tick_expired ms s a front q Eq Et) in E. by injection E as <-.
Qed.

(** Congestion control: the congestion window never falls below one
    segment (so the division by it is defined), the slow-start threshold is
    unset or at least two segments, and the effective window is at least one
    byte and at most what the peer advertised, a zero window counting as one. *)
Theorem congestion_bounds n W out s :
  reach start n W out s -> n < 2 ^ 47 ->
  TCPConfig.MAX_PAYLOAD_SIZE <= congestion_window s <= (n + 1) * UINT16_MAX /\
  (slow_start_threshold s = UINT64_MAX /\ in_fast_recovery s = false \/
   2 * TCPConfig.MAX_PAYLOAD_SIZE <= slow_start_threshold s <= (n + 1) * UINT16_MAX) /\
  1 <= _effective_window_size s <= Z.max 1 (_window_size s).
Proof.
  intros Hreach Hn. destruct (reach_running _ _ _ _ _ _ _ _ _ capacity_fits rto_fits isn_wf Hreach) as [_ Hrun].
  destruct (Hrun Hn) as [(una & rd & Hs) [] _ _ _]. split; [done |]. split; [done |].
  pose proof (sd_window _ _ _ _ Hs). unfold _effective_window_size, TCPConfig.MAX_PAYLOAD_SIZE in *.
  destruct (_congestion_control_enabled s); simpl; lia.
Qed.
End properties.

Definition cc_start : t := new 4000 1000 (Some (WrappingInt32.of_Z 0)) true 0.

(** The handshake, 3000 bytes written, and the first 1000 of them acknowledged. *)
Definition cc_events : list event :=
  [Fill_window; Ack (WrappingInt32.of_Z 1) 5000; Write (replicate 3000 x61); Fill_window;
   Ack (WrappingInt32.of_Z 1001) 5000].

Definition old_ack : event := Ack (WrappingInt32.of_Z 1) 5000.

(** Acknowledgments older than the last one are not left out of congestion
    control: the first one becomes the reference, so that the next three with
    the same number count as duplicates, and the sender goes into fast recovery
    although nothing was lost. *)
Example old_acks_enter_fast_recovery :
  let s := run_events cc_events cc_start in
  _last_ackno_absolute s = 1001 /\ dup_ack_count s = 0 /\ in_fast_recovery s = false /\
  _last_ackno_absolute (run_events [old_ack] s) = 1 /\
  dup_ack_count (run_events [old_ack; old_ack] s) = 1 /\
  in_fast_recovery (run_events [old_ack; old_ack; old_ack; old_ack] s) = true.
Proof. vm_compute. auto 10. Qed.

(** ** Witnesses *)

Definition demo_isn : WrappingInt32.t := WrappingInt32.of_Z 4294967295.
Definition demo_start : t := new 8 1000 (Some demo_isn) true 0.

(** SYN, its acknowledgment, three bytes written, sent, and the queue popped. *)
Definition demo_events : list event :=
  [Fill_window; Pop_segment; Ack (WrappingInt32.of_Z 0) 10; Write [x61; x62; x63]; Fill_window].
Definition demo_state : t := run_events demo_events demo_start.

Definition demo_out : list TCPSegment.t := outputs demo_events demo_start.

Lemma demo_allowed : all_allowed demo_events demo_start.
Proof. vm_compute. intuition congruence. Qed.

Lemma sender_demo_reach : reach demo_start 5 [x61; x62; x63] demo_out demo_state.
Proof.
  pose proof (sender_reach_events demo_start demo_events 0 [] [] demo_start (reach_start _) demo_allowed) as H.
  rewrite !app_nil_l in H. change (0 + len demo_events) with 5 in H.
  replace (written demo_events demo_start) with [x61; x62; x63] in H by (vm_compute; reflexivity).
  exact H.
Qed.

Lemma sender_invariant_witness :
  Timer.is_running (_timer demo_state) = true /\ bytes_in_flight demo_state = 3.
Proof.
  destruct (sender_invariant 8 1000 0 demo_isn true) with (n := 5) (W := [x61; x62; x63])
    (out := demo_out) (s := demo_state) as (_ & Ht & _).
  - lia.
  - lia.
  - vm_compute. split; congruence.
  - exact sender_demo_reach.
  - lia.
  - rewrite Ht. vm_compute. auto.
Defined.

Lemma sender_emits_stream_witness :
  Forall (fun seg => exists a, segment_of [x61; x62; x63] demo_isn a seg /\ a <= 5) (demo_out ++ segments_out demo_state).
Proof.
  apply (sender_emits_stream 8 1000 0 demo_isn true) with (n := 5).
  - lia.
  - lia.
  - vm_compute. split; congruence.
  - exact sender_demo_reach.
  - lia.
Defined.

Lemma fill_window_fills_witness :
  exists s', fill_window demo_state = (Ok tt, s') /\
    bytes_in_flight s' <= Z.max (bytes_in_flight demo_state) (_effective_window_size demo_state).
Proof.
  destruct (fill_window_fills 8 1000 0 demo_isn true) with (n := 5) (W := [x61; x62; x63])
    (out := demo_out) (s := demo_state) as (s' & E & _ & Hle & _).
  - lia.
  - lia.
  - vm_compute. split; congruence.
  - exact sender_demo_reach.
  - lia.
  - exists s'. split; [exact E | exact Hle].
Defined.

Lemma ack_received_correct_witness :
  exists s', ack_received (WrappingInt32.of_Z 3) 7 demo_state = (Ok tt, s') /\ _window_size s' = 7.
Proof.
  destruct (ack_received_correct 8 1000 0 demo_isn true) with (n := 5) (W := [x61; x62; x63])
    (out := demo_out) (s := demo_state) (ackno := WrappingInt32.of_Z 3) (win := 7) as (s' & E & H).
  - lia.
  - lia.
  - vm_compute. split; congruence.
  - exact sender_demo_reach.
  - lia.
  - lia.
  - exists s'. split; [exact E |].
    replace (next_seqno_absolute demo_state <? unwrap (WrappingInt32.of_Z 3) demo_isn (next_seqno_absolute demo_state))
      with false in H by (vm_compute; reflexivity).
    destruct H as (_ & H & _). exact H.
Defined.

Lemma tick_correct_witness :
  exists s', tick 1000 demo_state = (Ok tt, s') /\ Timer.get_time_out (_timer s') = 2000.
Proof.
  destruct (tick_correct 8 1000 0 demo_isn true) with (n := 5) (W := [x61; x62; x63])
    (out := demo_out) (s := demo_state) (ms := 1000) as (s' & E & _ & H).
  - lia.
  - lia.
  - vm_compute. split; congruence.
  - exact sender_demo_reach.
  - lia.
  - exists s'. split; [exact E |].
    replace (Timer.check_time_out (Timer.tick 1000 (_timer demo_state))) with true in H by (vm_compute; reflexivity).
    destruct H as (a & front & q & _ & ->). vm_compute. reflexivity.
Defined.

Lemma congestion_bounds_witness :
  1 <= _effective_window_size demo_state <= 10.
Proof.
  destruct (congestion_bounds 8 1000 0 demo_isn true) with (n := 5) (W := [x61; x62; x63])
    (out := demo_out) (s := demo_state) as (_ & _ & H).
  - lia.
  - lia.
  - vm_compute. split; congruence.
  - exact sender_demo_reach.
  - lia.
  - replace (Z.max 1 (_window_size demo_state)) with 10 in H by (vm_compute; reflexivity). exact H.
Defined.
