(* ===== verification/tcp_stream_transfer.v ===== *)
(** * One direction of a connection: a sender, a network, a receiver

    The sender and the receiver run side by side.  The network keeps every
    segment the sender has handed out and may deliver any of them at any time,
    any number of times, or never; acknowledgments that reach the sender are
    arbitrary, so lost, stale and forged ones are included.  The theorem needs
    nothing of the two components but the contract [segment_of]. *)

From S2P Require Import prelude buffer wrapping_integers byte_stream stream_reassembler tcp_segment tcp_stream tcp_receiver tcp_sender.

Section transfer.
Context (s0 : TCPSender.t) (isn : WrappingInt32.t) (recv_capacity : Z).

(** [transfer n W out s inp r]: after [n] events at the sender, the writer has
    written [W], the network holds [out], and the reader has read [inp]. *)
Inductive transfer : Z -> list byte -> list TCPSegment.t -> TCPSender.t -> list byte -> TCPReceiver.t -> Prop :=
| transfer_start : transfer 0 [] [] s0 [] (TCPReceiver.new recv_capacity)
| transfer_sender n W out s inp r ev o s' :
    transfer n W out s inp r -> SenderTrace.allowed s ev -> SenderTrace.exec_event ev s = (o, s') ->
    transfer (n + 1) (W ++ SenderTrace.accepted s ev) (out ++ SenderTrace.output_of o) s' inp r
| transfer_deliver n W out s inp r seg o r' :
    transfer n W out s inp r -> seg ∈ out -> TCPReceiver.segment_received seg r = (o, r') ->
    transfer n W out s inp r'
| transfer_read n W out s inp r k o r' :
    transfer n W out s inp r -> 0 <= k -> TCPReceiver.read k r = (o, r') ->
    transfer n W out s (inp ++ ReceiverTrace.output_of o) r'.

(** The sender's side of a transfer. *)
Lemma transfer_sending n W out s inp r :
  transfer n W out s inp r -> SenderTrace.reach s0 n W out s.
Proof. induction 1; eauto using SenderTrace.reach. Qed.

(** The contract, for streams short enough that no two sequence numbers collide. *)
Definition on_wire (S : list byte) (seg : TCPSegment.t) : Prop :=
  exists a, segment_of S isn a seg /\ a <= len S + 2.

Lemma on_wire_near S rd seg r :
  WrappingInt32.wf isn -> len S + 2 <= 2 ^ 31 -> TCPReceiver.receiving S isn rd r -> on_wire S seg ->
  exists a, segment_of S isn a seg /\ TCPReceiver.near r a.
Proof.
  intros Hw Hl Hr (a & Ha & Hle). exists a. split; [done |].
  pose proof (TCPReceiver.assembled_range _ _ _ (TCPReceiver.rc_asm _ _ _ _ Hr)) as (? & ? & _).
  destruct Ha as (_ & ? & _). unfold TCPReceiver.near, TCPReceiver.assembled_bytes. lia.
Qed.

(** The receiver's side, when the network only holds segments of [S]. *)
Lemma transfer_receiving S n W out s inp r :
  WrappingInt32.wf isn -> 0 < recv_capacity -> len S + 2 <= 2 ^ 31 ->
  len S + 2 * recv_capacity < 2 ^ 64 ->
  transfer n W out s inp r -> Forall (on_wire S) out ->
  ReceiverTrace.reach S isn recv_capacity inp r.
Proof.
  intros Hw Hc Hl Hf. induction 1 as [|n W out s inp r ev o s' _ IH _ _
    |n W out s inp r seg o r' _ IH Hin Hrecv|n W out s inp r k o r' _ IH Hk Hread]; intros Hout.
  - constructor.
  - apply Forall_app in Hout as [Hout _]. auto.
  - specialize (IH Hout). apply list_elem_of_In in Hin. rewrite List.Forall_forall in Hout. specialize (Hout _ Hin).
    destruct (ReceiverTrace.reach_receiving _ _ _ _ _ Hw Hc Hf IH) as (rd & Hr & _).
    destruct (on_wire_near S rd seg r) as (a & Ha & Hn); try done.
    assert (E : ReceiverTrace.exec_event (ReceiverTrace.Deliver seg) r =
      (match o with Ok _ => Ok [] | Throw e => Throw e end, r')).
    { simpl. unfold bind. rewrite Hrecv. by destruct o. }
    replace inp with (inp ++ ReceiverTrace.output_of (match o with Ok _ => Ok [] | Throw e => Throw e end))
      by (destruct o; apply app_nil_r).
    eapply ReceiverTrace.reach_step; [done | | exact E]. left. eauto.
  - eapply ReceiverTrace.reach_step with (ev := ReceiverTrace.Read_output k); auto.
Qed.
End transfer.

(** ** Property *)

(** [C4] End-to-end integrity: whatever the network does to the segments and
    whatever acknowledgments reach the sender, the bytes read at the other end,
    followed by those ready to be read, are a prefix of the bytes written; and
    once the receiver's input has ended they are all of them.  The stream is
    shorter than 2^31 bytes, so that an old segment cannot be mistaken for a new
    one. *)
Theorem transfer_integrity capacity rto random isn cc recv_capacity n W out s inp r :
  0 <= capacity < 2 ^ 64 -> 0 <= rto < 2 ^ 16 -> WrappingInt32.wf isn -> 0 < recv_capacity < 2 ^ 62 ->
  transfer (TCPSender.new capacity rto (Some isn) cc random) recv_capacity n W out s inp r ->
  n < 2 ^ 47 -> len W + 2 <= 2 ^ 31 ->
  let got := inp ++ ByteStream.contents (TCPReceiver.stream_out r) in
  got = ztake (len got) W /\
  (ByteStream.input_ended (TCPReceiver.stream_out r) = true -> got = W).
Proof.
  intros Hc Ht Hw Hrc Htr Hn Hl got. pose proof (len_nonneg W).
  destruct (SenderTrace.reach_running _ _ _ _ _ _ _ _ _ Hc Ht Hw (transfer_sending _ _ _ _ _ _ _ _ Htr))
    as [_ Hrun]. destruct (Hrun Hn) as [_ _ _ _ Hout].
  assert (Hwire : Forall (on_wire isn W) out).
  { eapply Forall_impl; [| exact Hout]. intros seg (a & Ha & Hle & _). by exists a. }
  assert (Hr : ReceiverTrace.reach W isn recv_capacity inp r).
  { eapply transfer_receiving; [done | lia | done | lia | exact Htr | done]. }
  destruct (ReceiverTrace.reach_receiving W isn recv_capacity inp r) as (rd & Hrc' & Ec & Hinp); try done; try lia.
  pose proof (TCPReceiver.assembled_range _ _ _ (TCPReceiver.rc_asm _ _ _ _ Hrc')) as (? & ? & ? & ? & ?).
  assert (Eg : got = ztake (TCPReceiver.assembled_bytes r) W).
  { unfold got. rewrite Hinp. unfold TCPReceiver.stream_out, StreamReassembler.stream_out.
    rewrite (ReassemblerTrace.assembled_contents W rd) by apply Hrc'.
    by rewrite slice_app, slice_0 by lia. }
  assert (Elen : len got = TCPReceiver.assembled_bytes r).
  { rewrite Eg, len_ztake. unfold TCPReceiver.assembled_bytes. lia. }
  split; [by rewrite Elen |].
  unfold TCPReceiver.stream_out, StreamReassembler.stream_out. destruct Hrc', rc_asm.
  rewrite as_ended. intros He%Z.eqb_eq. rewrite Eg. apply ztake_ge. unfold TCPReceiver.assembled_bytes, UINT64_MAX in *.
  lia.
Qed.

(** ** Witness *)

Definition w_isn : WrappingInt32.t := WrappingInt32.of_Z 4294967295.
Definition w_start : TCPSender.t := TCPSender.new 8 1000 (Some w_isn) true 0.

(** The sender opens and sends three bytes and its FIN. *)
Definition w_events : list SenderTrace.event :=
  [SenderTrace.Fill_window; SenderTrace.Ack (WrappingInt32.of_Z 0) 10; SenderTrace.Write [x61; x62; x63];
   SenderTrace.End_input; SenderTrace.Fill_window; SenderTrace.Pop_segment; SenderTrace.Pop_segment].

Definition w_out : list TCPSegment.t := SenderTrace.outputs w_events w_start.

(** The network delivers both segments, the first one twice. *)
Definition w_receiver : TCPReceiver.t :=
  fold_left (fun r seg => (TCPReceiver.segment_received seg r).2) (w_out ++ ztake 1 w_out)
    (TCPReceiver.new 8).

Lemma transfer_events s0 rc evs n W out s inp r :
  transfer s0 rc n W out s inp r -> SenderTrace.all_allowed evs s ->
  transfer s0 rc (n + len evs) (W ++ SenderTrace.written evs s) (out ++ SenderTrace.outputs evs s)
    (SenderTrace.run_events evs s) inp r.
Proof.
  revert n W out s. induction evs as [|ev evs IH]; intros n W out s Hr Ha; simpl.
  - change (len []) with 0. by rewrite Z.add_0_r, !app_nil_r.
  - destruct Ha as [Hev Ha]. rewrite len_cons, Z.add_assoc, !app_assoc. apply IH; [| done].
    eapply transfer_sender; [done | done |]. apply surjective_pairing.
Qed.

Lemma transfer_deliveries s0 rc segs n W out s inp r :
  transfer s0 rc n W out s inp r -> segs ⊆ out ->
  transfer s0 rc n W out s inp (fold_left (fun r seg => (TCPReceiver.segment_received seg r).2) segs r).
Proof.
  revert r. induction segs as [|seg segs IH]; intros r Hr Hs; simpl; [done |].
  apply IH; [| set_solver]. eapply (transfer_deliver _ _ _ _ _ _ _ _ seg); [done | set_solver |].
  apply surjective_pairing.
Qed.

Lemma w_transfer :
  transfer w_start 8 7 [x61; x62; x63] w_out (SenderTrace.run_events w_events w_start) [] w_receiver.
Proof.
  apply transfer_deliveries.
  - pose proof (transfer_events w_start 8 w_events 0 [] [] w_start [] _ (transfer_start _ _)) as H.
    rewrite !app_nil_l in H. change (0 + len w_events) with 7 in H.
    replace (SenderTrace.written w_events w_start) with [x61; x62; x63] in H by (vm_compute; reflexivity).
    apply H. vm_compute. intuition congruence.
  - intros seg Hin. apply elem_of_app in Hin as [|Hin]; [done |].
    rewrite <- (ztake_zdrop 1 w_out). apply elem_of_app. by left.
Qed.

Lemma transfer_integrity_witness :
  ByteStream.contents (TCPReceiver.stream_out w_receiver) = [x61; x62; x63].
Proof.
  destruct (transfer_integrity 8 1000 0 w_isn true 8 7 [x61; x62; x63] w_out
    (SenderTrace.run_events w_events w_start) [] w_receiver) as [_ H].
  - lia.
  - lia.
  - vm_compute. split; congruence.
  - lia.
  - exact w_transfer.
  - lia.
  - vm_compute. congruence.
  - apply H. vm_compute. reflexivity.
Defined.
