(* ===== verification/tcp_progress.v ===== *)
(** * One direction of a connection makes progress

    The same sender and receiver as in a transfer, over a network that behaves: in
    every round it delivers, in order, the segments the sender has queued, the reader
    takes what has arrived, and the receiver's acknowledgment and window (as
    [TCPConnection] stamps them) go back.  Whatever the sizes of the buffers, and with
    or without congestion control, every round that has anything left to do moves the
    transfer forward, so that it completes. *)

From S2P Require Import prelude buffer wrapping_integers byte_stream stream_reassembler tcp_segment tcp_stream tcp_receiver tcp_sender.

Module Link.
Record t : Type := mk { sender : TCPSender.t; receiver : TCPReceiver.t; got : list byte }.
Definition eta (l : t) : t := mk (sender l) (receiver l) (got l).
#[global] Instance set_sender : Setter sender := ltac:(derive_setter eta sender).
#[global] Instance set_receiver : Setter receiver := ltac:(derive_setter eta receiver).
#[global] Instance set_got : Setter got := ltac:(derive_setter eta got).

Fixpoint deliver (segs : list TCPSegment.t) : M TCPReceiver.t unit :=
  match segs with
  | [] => pure tt
  | seg :: segs => TCPReceiver.segment_received seg ;; deliver segs
  end.

Definition round : M t unit :=
  let* segs := asks (fun l => TCPSender.segments_out (sender l)) in
  zoom sender (TCPSender._segments_out ::= []) ;;
  zoom receiver (deliver segs) ;;
  let* n := asks (fun l => ByteStream.buffer_size (TCPReceiver.stream_out (receiver l))) in
  let* data := zoom receiver (TCPReceiver.read n) in
  got %= (fun bs => bs ++ data) ;;
  let* ackno := asks (fun l => TCPReceiver.ackno (receiver l)) in
  let* win := asks (fun l => Z.min UINT16_MAX (TCPReceiver.window_size (receiver l))) in
  match ackno with
  | Some ackno => zoom sender (TCPSender.ack_received ackno win)
  | None => pure tt
  end.

Fixpoint rounds (n : nat) : M t unit :=
  match n with
  | O => pure tt
  | S n => round ;; rounds n
  end.

(** The writer writes its stream, ends it, and the sender opens the connection. *)
Definition open (W : list byte) : M TCPSender.t unit :=
  let* _ := zoom TCPSender._stream (ByteStream.write W) in
  zoom TCPSender._stream ByteStream.end_input ;;
  TCPSender.fill_window.
End Link.

Import TCPSender TCPReceiver.

Section progress.
Context (W : list byte) (isn : WrappingInt32.t).
Implicit Types (r : TCPReceiver.t) (s : TCPSender.t).

(** ** The receiver, fed in order *)

(** [r] has taken everything before the absolute sequence number [a], and nothing else. *)
Definition in_order (a : Z) (r : TCPReceiver.t) : Prop :=
  (forall k, StreamReassembler.known (_reassembler r) k <-> 0 <= k < assembled_bytes r) /\
  let ended := ByteStream.input_ended (stream_out r) in
  eof_index r = (if ended then len W else UINT64_MAX) /\
  match TCPReceiver._isn r with
  | None => a = 0 /\ assembled_bytes r = 0 /\ ended = false
  | Some _ => a = assembled_bytes r + 1 + b2z ended
  end.

(** Bytes that follow the assembled ones and fit in the window are assembled. *)
Lemma assembled_next rd r r' n :
  receiving W isn rd r -> receiving W isn rd r' -> 0 <= n -> assembled_bytes r + n <= rd + TCPReceiver._capacity r ->
  (forall k, StreamReassembler.known (_reassembler r) k <-> 0 <= k < assembled_bytes r) ->
  (forall k, StreamReassembler.known (_reassembler r') k <->
     StreamReassembler.known (_reassembler r) k \/
     assembled_bytes r <= k < Z.min (assembled_bytes r + n) (assembled_bytes r + window_size r)) ->
  assembled_bytes r' = assembled_bytes r + n /\
  (forall k, StreamReassembler.known (_reassembler r') k <-> 0 <= k < assembled_bytes r').
Proof.
  intros Hr Hr' Hn Hroom Hk Hk'. pose proof (window_size_eq _ _ _ _ Hr) as Ew.
  destruct (assembled_range _ _ _ (rc_asm _ _ _ _ Hr)) as (? & ? & ? & ? & ?).
  destruct (assembled_range _ _ _ (rc_asm _ _ _ _ Hr')) as (? & ? & ? & ? & ?).
  fold (assembled_bytes r) in *. fold (assembled_bytes r') in *.
  assert (Hk2 : forall k, StreamReassembler.known (_reassembler r') k <-> 0 <= k < assembled_bytes r + n).
  { intros k. rewrite Hk', Hk. lia. }
  assert (E : assembled_bytes r' = assembled_bytes r + n); [| by rewrite E].
  pose proof (StreamReassembler.as_head _ _ _ (rc_asm _ _ _ _ Hr')) as Hhead.
  destruct (Z.lt_trichotomy (assembled_bytes r') (assembled_bytes r + n)) as [Hlt|[Heq|Hgt]]; [| done |].
  - exfalso. assert (Hkn : StreamReassembler.known (_reassembler r') (assembled_bytes r')) by (apply Hk2; lia).
    destruct Hkn as [|[_ Hp]]; [unfold assembled_bytes in *; lia | by apply Hp].
  - exfalso. assert (Hkn : StreamReassembler.known (_reassembler r') (assembled_bytes r + n)).
    { left. unfold assembled_bytes in *. lia. }
    apply Hk2 in Hkn. lia.
Qed.

Lemma ended_eq rd r : receiving W isn rd r -> ByteStream.input_ended (stream_out r) = (assembled_bytes r =? eof_index r).
Proof. intros Hr. apply (StreamReassembler.as_ended _ _ _ (rc_asm _ _ _ _ Hr)). Qed.

Lemma eof_after rd r r' (fin : bool) :
  receiving W isn rd r' -> len W < UINT64_MAX -> ByteStream.input_ended (stream_out r) = false ->
  eof_index r = (if ByteStream.input_ended (stream_out r) then len W else UINT64_MAX) ->
  eof_index r' = (if fin then len W else eof_index r) -> (fin = true -> assembled_bytes r' = len W) ->
  ByteStream.input_ended (stream_out r') = fin /\
  eof_index r' = (if ByteStream.input_ended (stream_out r') then len W else UINT64_MAX).
Proof.
  intros Hr' Hlen He Eeof Eeof' Hfin. rewrite He in Eeof. rewrite (ended_eq _ _ Hr'), Eeof', Eeof.
  destruct (assembled_range _ _ _ (rc_asm _ _ _ _ Hr')) as (? & ? & ? & ? & ?). fold (assembled_bytes r') in *.
  destruct fin; [rewrite Hfin by done; by rewrite Z.eqb_refl |]. by rewrite (proj2 (Z.eqb_neq _ _)) by lia.
Qed.

(** The next segment: it is the SYN, or it starts where the assembled bytes end. *)
Lemma next_segment fin a seg rd r :
  receiving W isn rd r -> in_order a r -> good W isn fin a seg -> 0 < TCPSegment.length_in_sequence_space seg ->
  len W + 2 < 2 ^ 64 ->
  let h := TCPSegment.header seg in
  let data := Buffer.str (TCPSegment.payload seg) in
  (TCPReceiver._isn r <> None \/ TCPHeader.syn h = true) /\
  (if TCPHeader.syn h then 0 else u64 (a - 1)) = assembled_bytes r /\
  TCPHeader.syn h = bool_decide (a = 0) /\ ByteStream.input_ended (stream_out r) = false /\
  StreamReassembler.honest W data (assembled_bytes r) (TCPHeader.fin h).
Proof.
  intros Hr (_ & Eeof & Hpos) (Hseg & Hle & _) Hlen Hfit. cbv zeta. destruct Hseg as (_ & Ha & Hd).
  destruct (assembled_range _ _ _ (rc_asm _ _ _ _ Hr)) as (? & ? & ? & ? & ?). fold (assembled_bytes r) in *.
  pose proof (ended_eq _ _ Hr) as Hend. unfold TCPSegment.length_in_sequence_space in Hlen.
  destruct (TCPHeader.syn (TCPSegment.header seg)) eqn:Esyn.
  - destruct Hd as [-> Hh]. destruct (TCPReceiver._isn r); [unfold b2z in Hpos; destruct (ByteStream.input_ended _); lia |].
    destruct Hpos as (_ & E0 & He). rewrite E0, He. by rewrite bool_decide_true by done; auto.
  - destruct Hd as [[Ha1 Hh] | [Ed Ef]]; [| rewrite Ed, Ef in Hlen; change (len []) with 0 in Hlen; lia].
    pose proof (StreamReassembler.honest_end _ _ _ _ Hh) as Hhe. pose proof (len_nonneg (Buffer.str (TCPSegment.payload seg))).
    destruct (TCPReceiver._isn r) as [i|] eqn:Ei; [| lia].
    destruct (ByteStream.input_ended (stream_out r)) eqn:Ee; simpl b2z in Hpos.
    + symmetry in Hend. apply Z.eqb_eq in Hend. lia.
    + replace (assembled_bytes r) with (a - 1) by lia. rewrite u64_small by lia.
      rewrite bool_decide_false by lia. split; [by left | auto].
Qed.

(** One segment in order. *)
Lemma deliver_one_wp fin a seg rd r :
  receiving W isn rd r -> in_order a r -> good W isn fin a seg -> 0 < TCPSegment.length_in_sequence_space seg ->
  len W + 2 <= 2 ^ 31 ->
  a + TCPSegment.length_in_sequence_space seg - 1 - b2z (TCPHeader.fin (TCPSegment.header seg)) <= rd + TCPReceiver._capacity r ->
  wp (TCPReceiver.segment_received seg) (fun _ r' => receiving W isn rd r' /\
    TCPReceiver._capacity r' = TCPReceiver._capacity r /\ in_order (a + TCPSegment.length_in_sequence_space seg) r') r.
Proof.
  intros Hr Hio Hgood Hlen Hfit Hroom. pose proof Hgood as (Hseg & Hle & _).
  destruct (next_segment _ _ _ _ _ Hr Hio Hgood Hlen ltac:(lia)) as (Hopen & Eidx & Esyn & He & Hh).
  destruct (assembled_range _ _ _ (rc_asm _ _ _ _ Hr)) as (? & ? & ? & ? & ?). fold (assembled_bytes r) in *.
  assert (Hnear : near r a) by (destruct Hseg as (_ & ? & _); unfold near; lia).
  eapply wp_mono; [exact (receiver_segment_wp W isn rd r a seg Hr Hseg Hnear Hopen) |].
  intros [] r' (Hr' & Ei & Ec & Ee & Hk'). rewrite Eidx in Hk'. unfold Buffer.copy in Hk'.
  set (data := Buffer.str (TCPSegment.payload seg)) in *. pose proof (len_nonneg data) as Hd.
  destruct Hio as (Hk & Eeof & Hpos). pose proof (StreamReassembler.honest_eof _ _ _ _ Hh) as Heof.
  assert (Ha : a + TCPSegment.length_in_sequence_space seg = assembled_bytes r + len data + 1 + b2z (TCPHeader.fin (TCPSegment.header seg))).
  { unfold TCPSegment.length_in_sequence_space. fold data. rewrite Esyn, He in *. unfold b2z in *.
    destruct (TCPReceiver._isn r); destruct (TCPHeader.fin (TCPSegment.header seg)); case_bool_decide; lia. }
  destruct (assembled_next rd r r' (len data) Hr Hr' Hd ltac:(lia) Hk Hk') as [Ea' Hk2].
  destruct (eof_after rd r r' (TCPHeader.fin (TCPSegment.header seg)) Hr') as [He' Eeof']; try done.
  { unfold UINT64_MAX. lia. } { intros Hf. rewrite Ea'. by apply Heof. }
  do 2 (split; [done |]). split; [done |]. split; [exact Eeof' |]. rewrite Ei, He', Ha, Ea'. lia.
Qed.

(** The outstanding segments, in order. *)
Lemma deliver_chain_wp fin q next rd : forall a r,
  chain W isn fin a q next -> receiving W isn rd r -> in_order a r -> len W + 2 <= 2 ^ 31 ->
  (if fin then len W else next - 1) <= rd + TCPReceiver._capacity r ->
  wp (Link.deliver (map snd q)) (fun _ r' => receiving W isn rd r' /\
    TCPReceiver._capacity r' = TCPReceiver._capacity r /\ in_order next r') r.
Proof.
  induction q as [|[a' seg] q IH]; intros a r Hchain Hr Hio Hfit Hroom; cbn [map Link.deliver]; simpl in Hchain.
  { wp_step. by subst. }
  destruct Hchain as (-> & Hgood & Hlen & Hchain). pose proof (chain_le _ _ _ _ _ _ Hchain) as Hle.
  wp_step. eapply wp_mono; [apply (deliver_one_wp fin a seg rd r Hr Hio Hgood Hlen Hfit) |].
  - destruct (next_segment _ _ _ _ _ Hr Hio Hgood Hlen ltac:(lia)) as (_ & _ & Esyn & He & Hh).
    pose proof (StreamReassembler.honest_end _ _ _ _ Hh) as Hend. destruct Hgood as (_ & _ & Hf & _).
    pose proof (StreamReassembler.honest_index _ _ _ _ Hh) as Hidx.
    destruct Hio as (_ & _ & Hpos). rewrite He in Hpos. destruct fin.
    + unfold TCPSegment.length_in_sequence_space in *. rewrite Esyn in *. unfold b2z in *. destruct (TCPReceiver._isn r); destruct (TCPHeader.fin (TCPSegment.header seg)); case_bool_decide; lia.
    + destruct (TCPHeader.fin (TCPSegment.header seg)); [by discriminate (Hf eq_refl) |]. unfold b2z. lia.
  - intros [] r' (Hr' & Ec & Hio'). eapply wp_mono; [apply (IH _ r' Hchain Hr' Hio' Hfit); by rewrite Ec |].
    intros [] r2 (? & ? & ?). split; [done |]. split; [congruence | done].
Qed.

(** ** The two ends between rounds *)

Lemma effective_window_range B s : reno B s -> 1 <= _effective_window_size s <= Z.max 1 (_window_size s).
Proof.
  intros [? _]. unfold _effective_window_size, TCPConfig.MAX_PAYLOAD_SIZE in *.
  destruct (_congestion_control_enabled s); simpl; lia.
Qed.

(** Everything before [una] has arrived, was read and is acknowledged; everything the
    sender has sent after it waits in the queue and fits in the receiver's window; and
    the sender has sent all that its window lets it send. *)
Record inv (B una : Z) (l : Link.t) : Prop := {
  iv_sending : exists rd, sending W una rd (Link.sender l);
  iv_room : (if _set_fin_flag (Link.sender l) then len W else _next_seqno (Link.sender l) - 1)
    <= assembled_bytes (Link.receiver l) + TCPReceiver._capacity (Link.receiver l);
  iv_reno : reno B (Link.sender l);
  iv_isn : TCPSender._isn (Link.sender l) = isn;
  iv_ended : ByteStream.input_ended (_stream (Link.sender l)) = true;
  iv_queue : _segments_out (Link.sender l) = map snd (_outstanding_seg (Link.sender l));
  iv_receiving : receiving W isn (assembled_bytes (Link.receiver l)) (Link.receiver l);
  iv_order : in_order una (Link.receiver l);
  iv_got : Link.got l = ztake (assembled_bytes (Link.receiver l)) W;
  iv_full : _effective_window_size (Link.sender l) <= _bytes_in_flight (Link.sender l) \/ exhausted (Link.sender l)
}.

(** The SYN goes out first. *)
Lemma inv_syn B una l : inv B una l -> _set_syn_flag (Link.sender l) = true.
Proof.
  intros [[rd Hs] _ Hr _ _ _ _ _ _ Hfull]. destruct Hfull as [Hfull|[]]; [| done].
  destruct (_set_syn_flag (Link.sender l)) eqn:Esyn; [done |]. exfalso.
  pose proof (effective_window_range _ _ Hr). pose proof Hs as []. destruct (sd_syn0 Esyn) as [-> Ef].
  rewrite Esyn, Ef in sd_next0. simpl in sd_next0. lia.
Qed.

(** Something is in flight until everything has been acknowledged. *)
Lemma inv_progress B una l :
  inv B una l -> una <= _next_seqno (Link.sender l) <= len W + 2 /\
  (una = len W + 2 \/ una + 1 <= _next_seqno (Link.sender l)).
Proof.
  intros Hinv. pose proof (inv_syn _ _ _ Hinv) as Hsyn. destruct Hinv as [[rd Hs] _ Hr _ He _ _ _ _ Hfull].
  pose proof (sending_range _ _ _ _ Hs) as (Hrd & Hbif & Hnext & Hbuf). pose proof (effective_window_range _ _ Hr).
  pose proof Hs as []. split; [lia |]. destruct Hfull as [|(_ & Hempty & Hfin)]; [right; lia |].
  destruct Hfin as [Hfin|]; [| congruence]. destruct (sd_fin0 Hfin) as [_ ->]. rewrite Hsyn, Hfin in sd_next0.
  simpl in sd_next0. lia.
Qed.

(** At the end everything is there. *)
Lemma inv_done B l :
  inv B (len W + 2) l -> Link.got l = W /\ ByteStream.input_ended (stream_out (Link.receiver l)) = true /\
  _bytes_in_flight (Link.sender l) = 0.
Proof.
  intros Hinv. destruct (inv_progress _ _ _ Hinv) as [Hle _]. destruct Hinv as [[rd Hs] _ _ _ _ _ Hr (_ & _ & Hpos) Hgot _].
  pose proof (len_nonneg W). destruct (assembled_range _ _ _ (rc_asm _ _ _ _ Hr)) as (? & ? & ? & ? & ?).
  fold (assembled_bytes (Link.receiver l)) in *. pose proof Hs as [].
  destruct (TCPReceiver._isn (Link.receiver l)); [| lia].
  destruct (ByteStream.input_ended (stream_out (Link.receiver l))); simpl b2z in Hpos; [| lia].
  split; [rewrite Hgot; apply ztake_ge; lia |]. split; [done | lia].
Qed.

(** ** A round *)

(** Taking the segments off the queue. *)
Lemma sending_taken una rd s : sending W una rd s -> sending W una rd (setf _segments_out [] s).
Proof. intros []. by split; [.. | constructor |]. Qed.

(** The receiver's half: the queue arrives and is read. *)
Lemma receive_wp una rd s r :
  sending W una rd s -> TCPSender._isn s = isn -> receiving W isn (assembled_bytes r) r -> in_order una r ->
  len W + 2 <= 2 ^ 31 ->
  (if _set_fin_flag s then len W else _next_seqno s - 1) <= assembled_bytes r + TCPReceiver._capacity r ->
  wp (let* _ := Link.deliver (map snd (_outstanding_seg s)) in
      let* n := asks (fun r => ByteStream.buffer_size (stream_out r)) in
      TCPReceiver.read n)
    (fun data r' => data = slice (assembled_bytes r) (assembled_bytes r') W /\ assembled_bytes r <= assembled_bytes r' /\
      receiving W isn (assembled_bytes r') r' /\ in_order (_next_seqno s) r' /\
      TCPReceiver._capacity r' = TCPReceiver._capacity r) r.
Proof.
  intros Hs Ei Hr Hio Hfit Hroom. pose proof Hs as []. rewrite Ei in *.
  wp_step. eapply wp_mono; [by apply (deliver_chain_wp _ _ _ (assembled_bytes r) _ r sd_chain0) |].
  intros [] r1 (Hr1 & Ec1 & Hk1 & Ee1 & Hpos1). wp_step. wp_step.
  destruct (assembled_range _ _ _ (rc_asm _ _ _ _ Hr1)) as (? & ? & ? & ? & ?). fold (assembled_bytes r1) in *.
  assert (En : ByteStream.buffer_size (stream_out r1) = assembled_bytes r1 - assembled_bytes r).
  { unfold stream_out, StreamReassembler.stream_out.
    rewrite (StreamReassembler.buffer_size_eq _ _ _ (StreamReassembler.as_output _ _ _ (rc_asm _ _ _ _ Hr1))).
    by rewrite <- (StreamReassembler.core_cur _ _ _ _ (StreamReassembler.as_core _ _ _ (rc_asm _ _ _ _ Hr1))). }
  rewrite En. eapply wp_mono; [apply (receiver_read_wp W isn (assembled_bytes r) r1); [done | lia] |].
  intros bs r2 (Ebs & Hr2 & Ei2 & Ec2 & Ea2 & Ee2 & Hk2). rewrite Z.min_r in Ebs, Hr2 by lia. rewrite Ea2.
  split; [done |]. split; [lia |]. split; [done |]. split; [| congruence].
  assert (Hend : ByteStream.input_ended (stream_out r2) = ByteStream.input_ended (stream_out r1)).
  { by rewrite (ended_eq _ _ Hr2), (ended_eq _ _ Hr1), Ea2, Ee2. }
  split; [intros k; by rewrite Hk2, Ea2 |]. cbv zeta. by rewrite Hend, Ee2, Ei2, Ea2.
Qed.

Lemma chain_elem fin q una next : chain W isn fin una q next ->
  Forall (fun p => p.1 + TCPSegment.length_in_sequence_space p.2 <= next) q.
Proof.
  revert una. induction q as [|[a seg] q IH]; intros una; simpl; [constructor |].
  intros (-> & _ & _ & Hc). constructor; [by apply chain_le in Hc | by eapply IH].
Qed.

(** The sender's half: everything is acknowledged, and the window is filled again. *)
Lemma acknowledge_wp B una rd s win :
  sending W una rd s -> TCPSender._isn s = isn -> _segments_out s = [] -> reno B s ->
  UINT16_MAX <= B -> B + UINT16_MAX < 2 ^ 64 -> 0 <= win < 2 ^ 16 ->
  wp (ack_received (wrap (_next_seqno s) isn) win) (fun _ s' =>
    (exists rd', sending W (_next_seqno s) rd' s') /\ reno (B + UINT16_MAX) s' /\ TCPSender._isn s' = isn /\
    ByteStream.input_ended (_stream s') = ByteStream.input_ended (_stream s) /\
    _segments_out s' = map snd (_outstanding_seg s') /\ _bytes_in_flight s' <= Z.max 1 win /\
    (_effective_window_size s' <= _bytes_in_flight s' \/ exhausted s')) s.
Proof.
  intros Hs Ei Eq Hr HB1 HB Hwin. pose proof (sending_range _ _ _ _ Hs) as (_ & ? & ? & _).
  pose proof (sd_wf _ _ _ _ Hs) as Hwf. pose proof (sd_fit _ _ _ _ Hs). rewrite Ei in Hwf.
  eapply wp_mono; [by apply (ack_received_wp W B una rd s) |]. unfold next_seqno_absolute. rewrite Ei.
  rewrite unwrap_wrap_near by (done || lia). rewrite Z.ltb_irrefl. intros [] s' [Hsplit Hfin Hreno Hw Hi _ _ He _ Hfull].
  destruct Hsplit as (una' & rd' & gone & q' & new & Eo & Eo' & Hs' & _ & _ & _ & _ & Hq & _ & Hout & Hlim & Hc).
  assert (Hq' : q' = []).
  { destruct q' as [|[a seg] q']; [done |]. rewrite Ei in Hc. apply chain_elem in Hc.
    apply list.Forall_cons in Hc as [Hc _]. simpl in Hc. lia. }
  subst q'. simpl in Hc. subst una'. pose proof (effective_window_range _ _ Hreno) as Heff. rewrite Hw in Heff.
  split; [eauto |]. split; [done |]. split; [congruence |]. split; [done |].
  split; [by rewrite Hout, Eq, Eo' |]. split; [lia | done].
Qed.

(** What the sender may have in flight fits in the receiver's window. *)
Lemma room_after rd s r una win :
  sending W una rd s -> _set_syn_flag s = true -> in_order una r -> receiving W isn (assembled_bytes r) r ->
  _bytes_in_flight s <= Z.max 1 win -> win <= TCPReceiver._capacity r ->
  (if _set_fin_flag s then len W else _next_seqno s - 1) <= assembled_bytes r + TCPReceiver._capacity r.
Proof.
  intros Hs Hsyn (_ & Ee & Hpos) Hr Hlim Hwin. pose proof (sending_range _ _ _ _ Hs) as (? & ? & ? & _). pose proof Hs as [].
  destruct (assembled_range _ _ _ (rc_asm _ _ _ _ Hr)) as (? & ? & ? & ? & ?). fold (assembled_bytes r) in *.
  pose proof (rc_cap _ _ _ _ Hr). pose proof (ended_eq _ _ Hr) as Hend. rewrite Hsyn in sd_next0. cbv zeta in *.
  destruct (ByteStream.input_ended (stream_out r)).
  - symmetry in Hend. apply Z.eqb_eq in Hend. destruct (TCPReceiver._isn r); [| destruct Hpos as (_ & _ & [=])].
    simpl b2z in *. destruct (_set_fin_flag s); simpl b2z in *; lia.
  - simpl b2z in *. destruct (_set_fin_flag s) eqn:Ef; simpl b2z in *; [destruct (sd_fin0 eq_refl) as [_ ->] |];
      destruct (TCPReceiver._isn r); lia.
Qed.

Lemma syn_sent una rd s : sending W una rd s -> 0 < una -> _set_syn_flag s = true.
Proof.
  intros Hs Hpos. destruct (_set_syn_flag s) eqn:E; [done |]. pose proof Hs as []. destruct (sd_syn0 E) as [-> Ef].
  apply chain_le in sd_chain0. rewrite E, Ef in sd_next0. simpl in sd_next0. lia.
Qed.

Lemma round_wp B una l :
  inv B una l -> UINT16_MAX <= B -> B + UINT16_MAX < 2 ^ 64 -> len W + 2 <= 2 ^ 31 ->
  wp Link.round (fun _ l' => inv (B + UINT16_MAX) (_next_seqno (Link.sender l)) l') l.
Proof.
  intros Hinv HB1 HB Hfit. pose proof (inv_syn _ _ _ Hinv) as Hsyn.
  destruct Hinv as [[rd Hs] Hroom Hr Ei He Hq Hrcv Hio Hgot _]. pose proof Hs as [].
  destruct l as [s r got]. simpl in *.
  pose proof (receive_wp una rd s r Hs Ei Hrcv Hio Hfit Hroom) as Hrec. unfold wpe, bind, asks in Hrec.
  destruct (Link.deliver (map snd (_outstanding_seg s)) r) as [[[]|e] r1] eqn:Ed; [| done].
  destruct (TCPReceiver.read (ByteStream.buffer_size (stream_out r1)) r1) as [[data|e] r2] eqn:Erd; [| done].
  unfold Link.round. do 5 wp_step. unfold segments_out. simpl Link.sender. rewrite Hq.
  do 2 wp_step. eapply wp_eq; [exact Ed |]. do 4 wp_step. eapply wp_eq; [exact Erd |].
  destruct Hrec as (-> & Hle & Hrcv2 & Hio2 & Ec2). pose proof Hio2 as (_ & _ & Hpos).
  assert (Hnext : 1 <= _next_seqno s).
  { pose proof (ref_cursor _ _ sd_stream0) as Hc. simpl in Hc. rewrite Hsyn in sd_next0. unfold b2z in *.
    destruct (_set_fin_flag s); lia. }
  do 6 wp_step. simpl. rewrite (ackno_eq _ _ _ _ Hrcv2). cbv zeta in Hpos.
  destruct (TCPReceiver._isn r2); [| lia]. fold (b2z (ByteStream.input_ended (stream_out r2))). rewrite <- Hpos.
  pose proof (window_size_eq _ _ _ _ Hrcv2) as Ew.
  destruct (assembled_range _ _ _ (rc_asm _ _ _ _ Hrcv2)) as (? & ? & ? & ? & ?). fold (assembled_bytes r2) in *.
  pose proof (rc_cap _ _ _ _ Hrcv2) as Hcap. set (win := Z.min UINT16_MAX (window_size r2)).
  assert (Hwin : 0 <= win < 2 ^ 16) by (unfold win, UINT16_MAX; lia).
  wp_step. eapply wp_mono; [apply (acknowledge_wp B una rd _ win (sending_taken _ _ _ Hs) Ei eq_refl); try done; by destruct Hr |].
  intros [] s' ((rd' & Hs') & Hreno & Ei' & He' & Hq' & Hlim & Hfull). simpl in *.
  split; simpl; eauto; try congruence.
  - eapply (room_after rd' s' r2 (_next_seqno s) win); try done; [eapply syn_sent; [exact Hs' | lia] | unfold win; lia].
  - rewrite Hgot. rewrite <- (slice_0 (assembled_bytes r)), <- (slice_0 (assembled_bytes r2)).
    apply slice_app; [| done]. by destruct (assembled_range _ _ _ (rc_asm _ _ _ _ Hrcv)) as ([? _] & _).
Qed.

(** Every round moves on by at least one sequence number, until there are none left. *)
Lemma rounds_wp n : forall B una l,
  inv B una l -> UINT16_MAX <= B -> B + Z.of_nat n * UINT16_MAX < 2 ^ 64 -> len W + 2 <= 2 ^ 31 ->
  wp (Link.rounds n) (fun _ l' => exists B' una', inv B' una' l' /\ Z.min (len W + 2) (una + Z.of_nat n) <= una') l.
Proof.
  induction n as [|n IH]; intros B una l Hinv HB1 HB Hfit; cbn [Link.rounds].
  { wp_step. exists B, una. split; [done | lia]. }
  pose proof (inv_progress _ _ _ Hinv) as [? ?].
  wp_step. eapply wp_mono; [apply (round_wp B una l Hinv HB1); [unfold UINT16_MAX in *; lia | done] |].
  intros [] l' Hinv'. eapply wp_mono; [apply (IH _ _ _ Hinv'); [unfold UINT16_MAX in *; lia .. | done] |].
  intros [] l2 (B2 & una2 & Hinv2 & Hle). exists B2, una2. split; [done | lia].
Qed.

(** ** The start *)

Lemma known_new capacity k : StreamReassembler.known (StreamReassembler.new capacity) k <-> 0 <= k < 0.
Proof. split; [| lia]. intros [Hk | [_ Hk]]; [exact Hk |]. by rewrite StreamReassembler.pending_new in Hk. Qed.

Lemma open_wp capacity rto cc random :
  len W <= capacity < 2 ^ 64 -> 0 <= rto < 2 ^ 16 -> WrappingInt32.wf isn -> len W + 2 < 2 ^ 64 ->
  wp (Link.open W) (fun _ s => (exists rd, sending W 0 rd s) /\ reno UINT16_MAX s /\ TCPSender._isn s = isn /\
    ByteStream.input_ended (_stream s) = true /\ _segments_out s = map snd (_outstanding_seg s) /\
    _bytes_in_flight s <= 1 /\ (_effective_window_size s <= _bytes_in_flight s \/ exhausted s))
    (TCPSender.new capacity rto (Some isn) cc random).
Proof.
  intros Hcap Hrto Hisn Hfit. pose proof (len_nonneg W). set (s0 := TCPSender.new _ _ _ _ _).
  destruct (sending_new capacity rto isn cc random) as [Hs0 Hr0]; [lia | done | done |]. fold s0 in Hs0, Hr0.
  assert (Erem : ByteStream.remaining_capacity (_stream s0) = capacity).
  { unfold ByteStream.remaining_capacity, ByteStream.buffer_size. simpl. change (u64 (0 - 0)) with 0. rewrite u64_small; lia. }
  unfold Link.open. wp_step. eapply wp_mono; [apply (sending_write [] 0 0 s0 W); [done | done |] |].
  { change (len []) with 0. lia. }
  rewrite Erem, ztake_ge by lia. intros n s1 (_ & Hs1 & st & Es1 & _). do 2 wp_step. unfold ByteStream.end_input. wp_step.
  pose proof (sending_end_input _ _ _ _ Hs1) as Hs2. rewrite app_nil_l in Hs2.
  eapply wp_mono; [by apply (fill_window_wp W 0 0) |].
  intros [] s3 (rd & Hs3 & Hc3 & (_ & new & En & Eo) & Hlim & Hfull). subst s1.
  pose proof (effective_window_same _ _ Hc3) as Hw.
  destruct Hc3 as (G1 & _ & G3 & _ & _ & G6 & G7 & G8 & _ & _ & G11 & _ & G13 & _). simpl in *.
  split; [eauto |]. split; [destruct Hr0; split; rewrite ?G7, ?G8, ?G11; done |]. split; [done |]. split; [done |].
  split; [by rewrite En, Eo |]. split; [| by rewrite Hw].
  assert (Heff : forall st, _effective_window_size (setf _stream st s0) <= 1).
  { intros st'. pose proof (effective_window_range UINT16_MAX s0 Hr0) as He. exact (proj2 He). }
  etransitivity; [exact Hlim |]. apply Z.max_lub; [done | apply Heff].
Qed.

Lemma inv_open s recv_capacity :
  (exists rd, sending W 0 rd s) -> reno UINT16_MAX s -> TCPSender._isn s = isn -> WrappingInt32.wf isn ->
  ByteStream.input_ended (_stream s) = true -> _segments_out s = map snd (_outstanding_seg s) ->
  _bytes_in_flight s <= 1 -> (_effective_window_size s <= _bytes_in_flight s \/ exhausted s) ->
  0 < recv_capacity -> len W + 2 * recv_capacity < 2 ^ 64 -> 
  inv UINT16_MAX 0 (Link.mk s (TCPReceiver.new recv_capacity) []).
Proof.
  intros [rd Hs] Hr Ei Hisn He Hq Hlim Hfull Hcap Hfit.
  assert (Hrcv : receiving W isn (assembled_bytes (TCPReceiver.new recv_capacity)) (TCPReceiver.new recv_capacity))
    by (by apply receiving_new).
  split; simpl; eauto; try done.
  - pose proof (effective_window_range _ _ Hr). pose proof (sending_range _ _ _ _ Hs) as (? & ? & ? & ?). pose proof Hs as [].
    destruct (_set_fin_flag s) eqn:Ef; [destruct (sd_fin0 eq_refl) as [_ ->] |]; unfold b2z in *; simpl;
      unfold assembled_bytes; simpl; destruct (_set_syn_flag s); lia.
  - split; [exact (known_new recv_capacity) | done].
Qed.
End progress.

(** ** Properties *)

(** [C3] A transfer over a network that behaves completes: a stream of any length below
    2^31, written to a sender and ended, is delivered to a reader through a receiver of
    any capacity in as many rounds as the stream has sequence numbers (its bytes, the SYN
    and the FIN) or fewer; no call throws, the reader has the whole stream, the input has
    ended, and nothing is left in flight. *)
Theorem transfer_completes W isn capacity rto cc random recv_capacity n :
  len W <= capacity < 2 ^ 64 -> 0 <= rto < 2 ^ 16 -> WrappingInt32.wf isn -> len W + 2 <= 2 ^ 31 ->
  0 < recv_capacity < 2 ^ 62 -> len W + 2 <= Z.of_nat n < 2 ^ 40 ->
  exists s l, Link.open W (TCPSender.new capacity rto (Some isn) cc random) = (Ok tt, s) /\
    Link.rounds n (Link.mk s (TCPReceiver.new recv_capacity) []) = (Ok tt, l) /\
    Link.got l = W /\ ByteStream.input_ended (stream_out (Link.receiver l)) = true /\
    bytes_in_flight (Link.sender l) = 0.
Proof.
  intros Hcap Hrto Hisn Hfit Hrc Hn. pose proof (len_nonneg W).
  destruct (proj1 (wp_run _ _ _) (open_wp W isn capacity rto cc random Hcap Hrto Hisn ltac:(lia)))
    as ([] & s & Es & Hs & Hr & Ei & He & Hq & Hlim & Hfull).
  pose proof (inv_open W isn s recv_capacity Hs Hr Ei Hisn He Hq Hlim Hfull ltac:(lia) ltac:(lia)) as Hinv.
  destruct (proj1 (wp_run _ _ _) (rounds_wp W isn n _ _ _ Hinv ltac:(done) ltac:(unfold UINT16_MAX; lia) Hfit))
    as ([] & l & El & B & una & Hinv' & Hle).
  exists s, l. split; [done |]. split; [done |]. pose proof (inv_progress _ _ _ _ _ Hinv') as [? _].
  assert (una = len W + 2) as -> by lia. by apply (inv_done W isn B).
Qed.

(** ** Witness *)

(** Three bytes through a receiver that holds two. *)
Lemma transfer_completes_witness :
  exists s l, Link.open [x61; x62; x63] (TCPSender.new 8 1000 (Some (WrappingInt32.of_Z 4294967295)) true 0) = (Ok tt, s) /\
    Link.rounds 5 (Link.mk s (TCPReceiver.new 2) []) = (Ok tt, l) /\ Link.got l = [x61; x62; x63] /\
    ByteStream.input_ended (stream_out (Link.receiver l)) = true /\ bytes_in_flight (Link.sender l) = 0.
Proof.
  apply transfer_completes; first [lia | vm_compute; split; congruence | vm_compute; congruence].
Defined.
