(* ===== verification/tcp_connection.v ===== *)
(** * tcp_connection.hh, tcp_connection.cc: an endpoint of a TCP connection

    A connection owns a receiver and a sender, stamps the acknowledgment number
    and the window of the one on the segments of the other, and decides when to
    linger, to reset and to close. *)

From S2P Require Import prelude buffer wrapping_integers byte_stream stream_reassembler tcp_segment tcp_stream tcp_receiver tcp_sender tcp_state.

Module TCPConnection.

Record t : Type := mk {
  _cfg : TCPConfig.t;
  _receiver : TCPReceiver.t;
  _sender : TCPSender.t;
  _segments_out : list TCPSegment.t;
  _linger_after_streams_finish : bool;
  _time_since_last_segment_received : Z;
  _is_active : bool
}.

Definition eta (c : t) : t :=
  mk (_cfg c) (_receiver c) (_sender c) (_segments_out c) (_linger_after_streams_finish c)
     (_time_since_last_segment_received c) (_is_active c).
#[global] Instance set_receiver : Setter _receiver := ltac:(derive_setter eta _receiver).
#[global] Instance set_sender : Setter _sender := ltac:(derive_setter eta _sender).
#[global] Instance set_segments_out : Setter _segments_out := ltac:(derive_setter eta _segments_out).
#[global] Instance set_linger : Setter _linger_after_streams_finish :=
  ltac:(derive_setter eta _linger_after_streams_finish).
#[global] Instance set_time : Setter _time_since_last_segment_received :=
  ltac:(derive_setter eta _time_since_last_segment_received).
#[global] Instance set_is_active : Setter _is_active := ltac:(derive_setter eta _is_active).

(** [explicit TCPConnection(const TCPConfig &)], with the number a sender without
    [fixed_isn] draws. *)
Definition new (cfg : TCPConfig.t) (random_isn : Z) : t :=
  mk cfg (TCPReceiver.new (TCPConfig.recv_capacity cfg))
     (TCPSender.new (TCPConfig.send_capacity cfg) (TCPConfig.rt_timeout cfg) (TCPConfig.fixed_isn cfg)
        (TCPConfig.congestion_control cfg) random_isn)
     [] true 0 true.

Definition remaining_outbound_capacity (c : t) : Z :=
  ByteStream.remaining_capacity (TCPSender.stream_in (_sender c)).
Definition bytes_in_flight (c : t) : Z := TCPSender.bytes_in_flight (_sender c).
Definition unassembled_bytes (c : t) : Z := TCPReceiver.unassembled_bytes (_receiver c).
Definition time_since_last_segment_received (c : t) : Z := _time_since_last_segment_received c.
Definition active (c : t) : bool := _is_active c.
Definition inbound_stream (c : t) : ByteStream.t := TCPReceiver.stream_out (_receiver c).
Definition state (c : t) : TCPState.t :=
  TCPState.of_parts (_sender c) (_receiver c) (active c) (_linger_after_streams_finish c).

Definition set_stream_in_error : M t unit := zoom _sender (zoom TCPSender._stream ByteStream.set_error).
Definition set_stream_out_error : M t unit :=
  zoom _receiver (zoom TCPReceiver._reassembler (zoom StreamReassembler._output ByteStream.set_error)).

Definition rst_segment (seqno : WrappingInt32.t) : TCPSegment.t :=
  TCPSegment.mk (setf TCPHeader.rst true (setf TCPHeader.seqno seqno TCPHeader.default)) Buffer.empty.

Definition _set_rst_state (send_rst : bool) : M t unit :=
  let* seqno := asks (fun c => TCPSender.next_seqno (_sender c)) in
  when send_rst (_segments_out %= (fun q => q ++ [rst_segment seqno])) ;;
  set_stream_in_error ;;
  set_stream_out_error ;;
  _linger_after_streams_finish ::= false ;;
  _is_active ::= false.

(** The receiver's feedback on an outgoing segment. *)
Definition stamp (r : TCPReceiver.t) (seg : TCPSegment.t) : TCPSegment.t :=
  let seg := match TCPReceiver.ackno r with
    | Some ackno => upd TCPSegment._header (fun h => setf TCPHeader.ackno ackno (setf TCPHeader.ack true h)) seg
    | None => seg
    end in
  upd TCPSegment._header (setf TCPHeader.win (Z.min UINT16_MAX (TCPReceiver.window_size r))) seg.

(** The loop moves the sender's segments to the connection's queue in order. *)
Fixpoint send_loop (q : list TCPSegment.t) : M t unit :=
  match q with
  | [] => pure tt
  | seg :: q' =>
      zoom _sender (TCPSender._segments_out ::= q') ;;
      let* r := asks _receiver in
      _segments_out %= (fun out => out ++ [stamp r seg]) ;;
      send_loop q'
  end.

Definition _add_ackno_and_window_to_send : M t unit :=
  let* q := asks (fun c => TCPSender.segments_out (_sender c)) in
  send_loop q.

Definition connect : M t unit :=
  zoom _sender TCPSender.fill_window ;;
  _add_ackno_and_window_to_send.

Definition write (data : list byte) : M t Z :=
  let* ret := zoom _sender (zoom TCPSender._stream (ByteStream.write data)) in
  zoom _sender TCPSender.fill_window ;;
  _add_ackno_and_window_to_send ;;
  pure ret.

Definition end_input_stream : M t unit :=
  zoom _sender (zoom TCPSender._stream ByteStream.end_input) ;;
  zoom _sender TCPSender.fill_window ;;
  _add_ackno_and_window_to_send.

Definition receiver_is (summary : string) (c : t) : bool :=
  String.eqb (TCPState.receiver_summary (_receiver c)) summary.
Definition sender_is (summary : string) (c : t) : bool :=
  String.eqb (TCPState.sender_summary (_sender c)) summary.

(** [_receiver.ackno()], an empty segment, and its number one before it. *)
Definition is_keep_alive (seg : TCPSegment.t) (c : t) : bool :=
  match TCPReceiver.ackno (_receiver c) with
  | Some ackno =>
      (TCPSegment.length_in_sequence_space seg =? 0) &&
      WrappingInt32.eqb (TCPHeader.seqno (TCPSegment.header seg)) (WrappingInt32.sub ackno 1)
  | None => false
  end.

Definition segment_received (seg : TCPSegment.t) : M t unit :=
  let header := TCPSegment.header seg in
  _time_since_last_segment_received ::= 0 ;;
  if TCPHeader.rst header then _set_rst_state false
  else
    zoom _receiver (TCPReceiver.segment_received seg) ;;
    let need_empty_ack := 0 <? TCPSegment.length_in_sequence_space seg in
    let* need_empty_ack :=
      (if TCPHeader.ack header then
         zoom _sender (TCPSender.ack_received (TCPHeader.ackno header) (TCPHeader.win header)) ;;
         let* out := asks _segments_out in
         pure (if need_empty_ack && negb (match out with [] => true | _ => false end)
               then false else need_empty_ack)
       else pure need_empty_ack) in
    let* listening := asks (fun c => receiver_is TCPReceiverStateSummary.SYN_RECV c &&
      sender_is TCPSenderStateSummary.CLOSED c) in
    if listening then connect
    else
      let* passive := asks (fun c => receiver_is TCPReceiverStateSummary.FIN_RECV c &&
        sender_is TCPSenderStateSummary.SYN_ACKED c) in
      when passive (_linger_after_streams_finish ::= false) ;;
      let* closed := asks (fun c => negb (_linger_after_streams_finish c) &&
        receiver_is TCPReceiverStateSummary.FIN_RECV c && sender_is TCPSenderStateSummary.FIN_ACKED c) in
      if closed then _is_active ::= false
      else
        let* keep_alive := asks (is_keep_alive seg) in
        when (keep_alive || need_empty_ack) (zoom _sender TCPSender.send_empty_segment) ;;
        _add_ackno_and_window_to_send.

Definition tick (ms_since_last_tick : Z) : M t unit :=
  _time_since_last_segment_received %= (fun n => u64 (n + ms_since_last_tick)) ;;
  zoom _sender (TCPSender.tick ms_since_last_tick) ;;
  let* retx := asks (fun c => TCPSender.consecutive_retransmissions (_sender c)) in
  if TCPConfig.MAX_RETX_ATTEMPTS <? retx then
    zoom _sender (TCPSender._segments_out ::= []) ;;
    _set_rst_state true
  else
    _add_ackno_and_window_to_send ;;
    let* expired := asks (fun c => _linger_after_streams_finish c &&
      receiver_is TCPReceiverStateSummary.FIN_RECV c && sender_is TCPSenderStateSummary.FIN_ACKED c &&
      (10 * TCPConfig.rt_timeout (_cfg c) <=? _time_since_last_segment_received c)) in
    when expired (_is_active ::= false ;; _linger_after_streams_finish ::= false).

(** [~TCPConnection]: the segments left in the queue. *)
Definition destroy : M t unit :=
  let* open := asks active in
  when open (_set_rst_state true).

(** ** The queue of outgoing segments *)

(** Moving the sender's segments: all of them, in order, stamped. *)
Definition moved (c : t) : t :=
  upd _segments_out (fun out => out ++ map (stamp (_receiver c)) (TCPSender.segments_out (_sender c)))
    (upd _sender (setf TCPSender._segments_out []) c).

Lemma send_loop_eq q c :
  TCPSender._segments_out (_sender c) = q -> send_loop q c = (Ok tt, moved c).
Proof.
  revert c. induction q as [|seg q IH]; intros c Eq; simpl.
  - unfold moved, TCPSender.segments_out, pure. rewrite Eq. do 2 f_equal.
    destruct c as [? ? [] ? ? ? ?]. simpl in *. subst. unfold set_segments_out, set_sender. simpl. by rewrite app_nil_r.
  - unfold bind, zoom, assign, asks, modify. simpl. rewrite IH by done. f_equal.
    unfold moved, TCPSender.segments_out. rewrite Eq. unfold set_segments_out, set_sender. simpl.
    by rewrite <- app_assoc.
Qed.

Lemma add_wp c (Q : unit -> t -> Prop) E : Q tt (moved c) -> wpe _add_ackno_and_window_to_send Q E c.
Proof.
  intros HQ. unfold _add_ackno_and_window_to_send. wp_step. wp_step. unfold wpe.
  by rewrite send_loop_eq.
Qed.

(** ** The sender's invariant, with the connection's queue and what left it *)

Definition live (isn : WrappingInt32.t) (rto B : Z) (W : list byte) (out : list TCPSegment.t) (c : t) : Prop :=
  SenderTrace.running isn rto B W (out ++ _segments_out c) (_sender c).

Lemma sendable_stamp r seg : TCPSegment.sendable seg -> TCPSegment.sendable (stamp r seg).
Proof.
  intros [[] ?]. pose proof (u64_range (TCPReceiver._capacity r - ByteStream.buffer_size (TCPReceiver.stream_out r))).
  unfold stamp, TCPReceiver.window_size, UINT16_MAX. destruct (TCPReceiver.ackno r) as [a|] eqn:Ea.
  - split; [split; simpl; try done; [| lia] | done]. unfold TCPReceiver.ackno in Ea.
    destruct (TCPReceiver._isn r); [injection Ea as <-; apply wf_wrap | done].
  - split; [split; simpl; try done; lia | done].
Qed.

Lemma good_stamp W isn fin a r seg :
  TCPSender.good W isn fin a seg -> TCPSender.good W isn fin a (stamp r seg).
Proof.
  intros (Hs & Ha & Hf & Hsend). apply (sendable_stamp r) in Hsend. unfold TCPSender.good, segment_of, stamp in *.
  by destruct (TCPReceiver.ackno r).
Qed.

Lemma emitted_stamp W isn fin r segs :
  TCPSender.emitted W isn fin segs -> TCPSender.emitted W isn fin (map (stamp r) segs).
Proof.
  intros H. apply Forall_map. eapply Forall_impl; [| exact H]. intros seg (a & Ha). exists a.
  by apply good_stamp.
Qed.

Lemma live_moved isn rto B W out c : live isn rto B W out c -> live isn rto B W out (moved c).
Proof.
  unfold live. intros [(una & rd & Hs) Hr Hi Ht Ho]. split; simpl; try done.
  - exists una, rd. destruct Hs. split; try done. constructor.
  - by destruct Hr.
  - rewrite app_assoc. apply Forall_app; split; [done |]. apply emitted_stamp.
    destruct Hs. by rewrite <- Hi.
Qed.

Lemma live_fill isn rto B W out c (Q : unit -> t -> Prop) E :
  live isn rto B W out c ->
  (forall s', live isn rto B W out (setf _sender s' c) ->
    TCPSender.queued (_sender c) s' -> TCPSender.same_control (_sender c) s' ->
    (TCPSender._effective_window_size (_sender c) <= TCPSender.bytes_in_flight s' \/ TCPSender.exhausted s') ->
    Q tt (setf _sender s' c)) ->
  wpe (zoom _sender TCPSender.fill_window) Q E c.
Proof.
  intros [(una & rd & Hs) Hr Hi Ht Ho] HQ. wp_step.
  eapply wp_mono; [by apply (TCPSender.fill_window_wp W una rd) |].
  intros [] s' (rd' & Hs' & Hc & Hq & _ & Hend). apply HQ; try done.
  destruct Hq as [Hf _]. destruct Hc as (G1 & G2 & G3 & G4 & G5 & G6 & G7 & G8 & G9 & G10 & G11 & _).
  split; simpl; [eauto | | congruence | congruence | by eapply SenderTrace.emitted_fin].
  destruct Hr. split; by rewrite ?G7, ?G8, ?G11.
Qed.

Lemma live_ack isn rto B W out c ackno win (Q : unit -> t -> Prop) E :
  live isn rto B W out c -> 0 <= win < 2 ^ 16 -> UINT16_MAX <= B -> B + UINT16_MAX < 2 ^ 64 ->
  (forall s', live isn rto (B + UINT16_MAX) W out (setf _sender s' c) -> Q tt (setf _sender s' c)) ->
  wpe (zoom _sender (TCPSender.ack_received ackno win)) Q E c.
Proof.
  intros [(una & rd & Hs) Hr Hi Ht Ho] Hw HB1 HB HQ. wp_step.
  eapply wp_mono; [by apply (TCPSender.ack_received_wp W B una rd) |].
  intros [] s' Hres. apply HQ.
  assert (HBle : B <= B + UINT16_MAX) by (unfold UINT16_MAX; lia).
  destruct (_ <? _); [subst; split; eauto using TCPSender.reno_le |]. destruct Hres.
  destruct ar_split as (una' & rd' & gone & q' & new & _ & _ & Hs' & _).
  split; simpl; [eauto | done | congruence | congruence | by eapply SenderTrace.emitted_fin].
Qed.

Lemma live_le isn rto B B' W out c : live isn rto B W out c -> B <= B' -> live isn rto B' W out c.
Proof. intros [] ?. split; eauto using TCPSender.reno_le. Qed.
(** What a reset does to the two streams. *)
Definition fail_stream_in (s : TCPSender.t) : TCPSender.t :=
  upd TCPSender._stream (setf ByteStream._error true) s.
Definition fail_stream_out (r : TCPReceiver.t) : TCPReceiver.t :=
  upd TCPReceiver._reassembler (upd StreamReassembler._output (setf ByteStream._error true)) r.

Definition reset (send_rst : bool) (c : t) : t :=
  mk (_cfg c) (fail_stream_out (_receiver c)) (fail_stream_in (_sender c))
    (_segments_out c ++ (if send_rst then [rst_segment (TCPSender.next_seqno (_sender c))] else []))
    false (_time_since_last_segment_received c) false.

Lemma set_rst_state_eq send_rst c : _set_rst_state send_rst c = (Ok tt, reset send_rst c).
Proof.
  destruct send_rst; unfold reset; [done |].
  destruct c. unfold _set_rst_state. simpl. by rewrite app_nil_r.
Qed.

Lemma set_rst_state_wp send_rst c (Q : unit -> t -> Prop) E :
  Q tt (reset send_rst c) -> wpe (_set_rst_state send_rst) Q E c.
Proof. unfold wpe. by rewrite set_rst_state_eq. Qed.

Lemma live_reset isn rto B W out send_rst c :
  live isn rto B W out c -> live isn rto B W out (reset send_rst c).
Proof.
  unfold live. intros [(una & rd & Hs) Hr Hi Ht Ho]. split; simpl; try done.
  - exists una, rd. by apply TCPSender.sending_set_error.
  - by destruct Hr.
  - rewrite app_assoc. apply Forall_app; split; [done |]. destruct send_rst; [| constructor].
    pose proof (TCPSender.sending_range _ _ _ _ Hs) as (? & ? & ? & ?). pose proof (TCPSender.sd_fit _ _ _ _ Hs).
    constructor; [| constructor]. exists (TCPSender._next_seqno (_sender c)).
    split_and!; [| lia | done |
      exact (TCPSender.plain_sendable (TCPSender.next_seqno (_sender c)) false false true Buffer.empty (wf_wrap _ _) eq_refl)].
    apply segment_of_empty; simpl; try done; [lia |]. unfold TCPSender.next_seqno. by rewrite Hi.
Qed.

Lemma live_empty isn rto B W out c (Q : unit -> t -> Prop) E :
  live isn rto B W out c ->
  (forall s', live isn rto B W out (setf _sender s' c) -> Q tt (setf _sender s' c)) ->
  wpe (zoom _sender TCPSender.send_empty_segment) Q E c.
Proof.
  intros [(una & rd & Hs) Hr Hi Ht Ho] HQ. wp_step.
  eapply (TCPSender.send_empty_wp W una rd); [done |]. intros seg _ _ Hs'. apply HQ.
  split; simpl; try done; [eauto | by destruct Hr].
Qed.

Lemma connect_wp isn rto B W out c (Q : unit -> t -> Prop) E :
  live isn rto B W out c ->
  (forall c', live isn rto B W out c' -> _receiver c' = _receiver c -> Q tt c') -> wpe connect Q E c.
Proof.
  intros Hl HQ. unfold connect. wp_step. eapply live_fill; [done |]. intros s' Hl' _ _ _.
  apply add_wp. apply HQ; [by apply live_moved | done].
Qed.

(** [segment_received], for any behaviour of the receiver. *)
Lemma conn_segment_received_wp isn rto B W out c seg (Rq : TCPReceiver.t -> Prop) (Re : exn -> TCPReceiver.t -> Prop) :
  live isn rto B W out c -> 0 <= TCPHeader.win (TCPSegment.header seg) < 2 ^ 16 ->
  UINT16_MAX <= B -> B + UINT16_MAX < 2 ^ 64 ->
  (if TCPHeader.rst (TCPSegment.header seg) then Rq (fail_stream_out (_receiver c))
   else wpe (TCPReceiver.segment_received seg) (fun _ => Rq) Re (_receiver c)) ->
  wpe (segment_received seg)
    (fun _ c' => live isn rto (B + UINT16_MAX) W out c' /\ Rq (_receiver c'))
    (fun e c' => live isn rto (B + UINT16_MAX) W out c' /\ Re e (_receiver c')) c.
Proof.
  intros Hl Hwin HB1 HB HR. assert (HBle : B <= B + UINT16_MAX) by (unfold UINT16_MAX; lia).
  unfold segment_received. wp_step. wp_step. destruct (TCPHeader.rst (TCPSegment.header seg)).
  { apply set_rst_state_wp. split; [| done]. apply live_reset. by apply (live_le _ _ B). }
  wp_step. wp_step. eapply wp_mono_exn; [exact HR | |].
  2:{ intros e r He. split; [| done]. by apply (live_le _ _ B). }
  intros [] r Hr. wp_step.
  set (post := fun (c' : t) => live isn rto (B + UINT16_MAX) W out c' /\ _receiver c' = r).
  apply (wp_mono _ (fun _ c' => post c')).
  { destruct (TCPHeader.ack (TCPSegment.header seg)).
    - wp_step. eapply (live_ack _ _ B); [exact Hl | done | done | done |].
      intros s' Hl'. wp_steps. by split.
    - wp_step. split; [by apply (live_le _ _ B) | done]. }
  intros need c1 [Hl1 Er1]. wp_step. wp_step.
  assert (Hdone : forall c', live isn rto (B + UINT16_MAX) W out c' -> _receiver c' = r ->
    live isn rto (B + UINT16_MAX) W out c' /\ Rq (_receiver c')) by (intros c' ? ->; done).
  apply wp_if; intros _. { eapply connect_wp; [done |]. intros c' ? E. apply Hdone; congruence. }
  wp_step. wp_step. wp_step.
  apply (wp_mono _ (fun _ c' => post c')).
  { apply wp_when; intros _; [wp_step |]; by split. }
  intros [] c2 [Hl2 Er2]. wp_step. wp_step. apply wp_if; intros _. { wp_step. by apply Hdone. }
  wp_step. wp_step. wp_step.
  apply (wp_mono _ (fun _ c' => post c')).
  { apply wp_when; intros _; [| by split]. eapply live_empty; [done |]. intros s' Hl'. by split. }
  intros [] c3 [Hl3 Er3]. apply add_wp. apply Hdone; [by apply live_moved | done].
Qed.
Lemma conn_write_wp isn rto B W out c data (Q : Z -> t -> Prop) E :
  live isn rto B W out c ->
  ByteStream.input_ended (TCPSender.stream_in (_sender c)) = false ->
  ByteStream.bytes_written (TCPSender.stream_in (_sender c)) + len data + 2 < 2 ^ 64 ->
  (forall c', live isn rto B (W ++ ztake (remaining_outbound_capacity c) data) out c' ->
    _receiver c' = _receiver c -> Q (Z.min (len data) (remaining_outbound_capacity c)) c') ->
  wpe (write data) Q E c.
Proof.
  intros [(una & rd & Hs) Hr Hi Ht Ho] He Hfit HQ. unfold TCPSender.stream_in in *.
  rewrite (SenderTrace.sender_bytes_written _ _ _ _ Hs) in Hfit.
  assert (Ef : TCPSender._set_fin_flag (_sender c) = false).
  { destruct (TCPSender._set_fin_flag (_sender c)) eqn:Ef; [| done].
    destruct (TCPSender.sd_fin _ _ _ _ Hs Ef). congruence. }
  unfold write. wp_step. wp_step. eapply wp_mono; [by apply (TCPSender.sending_write W una rd) |].
  intros n s1 (-> & Hs1 & st & E1 & _). wp_step.
  assert (Hl1 : live isn rto B (W ++ ztake (remaining_outbound_capacity c) data) out (setf _sender s1 c)).
  { split; simpl; [eauto | subst; by destruct Hr | by subst | by subst |].
    rewrite E1. simpl. rewrite Ef in *. by apply TCPSender.emitted_app_stream. }
  eapply live_fill; [exact Hl1 |]. intros s2 Hl2 _ _ _. wp_step. apply add_wp. wp_step.
  apply (HQ (moved (setf _sender s2 (setf _sender s1 c)))); [by apply live_moved | done].
Qed.

(** The result of [write], in any state. *)
Lemma write_returns data c r c' : write data c = (Ok r, c') -> r = Z.min (len data) (remaining_outbound_capacity c).
Proof.
  intros Ew. assert (Hwp : wpe (write data) (fun r _ => r = Z.min (len data) (remaining_outbound_capacity c)) (fun _ _ => True) c).
  { unfold write. wp_step. wp_step. wp_step. eapply wp_eq; [reflexivity |]. wp_step. apply wp_zoom_any; [| done].
    intros _ s. wp_step. apply add_wp. by wp_step. }
  unfold wpe in Hwp. by rewrite Ew in Hwp.
Qed.

Lemma end_input_stream_wp isn rto B W out c (Q : unit -> t -> Prop) E :
  live isn rto B W out c ->
  (forall c', live isn rto B W out c' -> _receiver c' = _receiver c -> Q tt c') ->
  wpe end_input_stream Q E c.
Proof.
  intros [(una & rd & Hs) Hr Hi Ht Ho] HQ. unfold end_input_stream, ByteStream.end_input.
  do 3 wp_step. wp_step. wp_step.
  eapply live_fill with (isn := isn) (rto := rto) (B := B) (W := W) (out := out).
  { split; simpl; try done; [| by destruct Hr]. exists una, rd. by apply TCPSender.sending_end_input. }
  intros s2 Hl2 _ _ _. apply add_wp. apply HQ; [by apply live_moved | done].
Qed.

Lemma live_clear isn rto B W out c :
  live isn rto B W out c -> live isn rto B W out (upd _sender (setf TCPSender._segments_out []) c).
Proof.
  intros [(una & rd & []) Hr Hi Ht Ho]. split; simpl; try done; [| by destruct Hr].
  exists una, rd. split; try done. constructor.
Qed.

Lemma conn_tick_wp isn rto B W out c ms (Q : unit -> t -> Prop) E :
  live isn rto B W out c -> UINT16_MAX <= B ->
  (forall c', live isn rto B W out c' ->
    _receiver c' = _receiver c \/ _receiver c' = fail_stream_out (_receiver c) -> Q tt c') ->
  wpe (tick ms) Q E c.
Proof.
  intros [(una & rd & Hs) Hr Hi Ht Ho] HB HQ. unfold tick. wp_step. wp_step. wp_step. wp_step.
  eapply wp_mono; [by apply (TCPSender.sender_tick_wp W B una rd) |].
  intros [] s1 (Hs1 & Hr1 & Hcase).
  assert (Hk : TCPSender._isn s1 = TCPSender._isn (_sender c) /\
    TCPSender._set_fin_flag s1 = TCPSender._set_fin_flag (_sender c) /\
    TCPSender._initial_retransmission_timeout s1 = TCPSender._initial_retransmission_timeout (_sender c)).
  { simpl in Hcase. destruct (Timer.check_time_out _); [| by subst].
    destruct Hcase as (a & front & q & s2 & _ & Hf & _ & _ & ->).
    destruct Hf as (E1 & E2 & _ & _ & _ & _ & _ & _ & _ & _ & E11 & _). unfold TCPSender.retransmitted.
    by destruct (0 <? TCPSender._window_size s2). }
  destruct Hk as (Ei & Ef & Et).
  set (c1 := setf _sender s1 (upd _time_since_last_segment_received (fun n => u64 (n + ms)) c)).
  assert (Hl1 : live isn rto B W out c1).
  { split; simpl; [eauto | done | congruence | congruence |]. by rewrite Ef. }
  wp_step. wp_step. apply wp_if; intros _.
  - wp_step. wp_step. wp_step. apply set_rst_state_wp. apply HQ; [| by right].
    apply live_reset. by apply (live_clear _ _ _ _ _ c1).
  - wp_step. apply add_wp. wp_step. wp_step. apply live_moved in Hl1.
    apply wp_when; intros _; wp_steps; (apply HQ; [done | by left]).
Qed.
(** *** What the operations keep of the sender

    [f] shows a part of the sender that its own operations keep. *)

Section keeps_sender.
Context {T : Type} (f : TCPSender.t -> T).
Hypothesis f_queue : forall q s, f (setf TCPSender._segments_out q s) = f s.
Hypothesis f_error : forall s, f (upd TCPSender._stream (setf ByteStream._error true) s) = f s.
Hypothesis f_fill : keeps f TCPSender.fill_window.
Hypothesis f_ack : forall ackno win, keeps f (TCPSender.ack_received ackno win).
Hypothesis f_tick : forall ms, keeps f (TCPSender.tick ms).
Hypothesis f_empty : keeps f TCPSender.send_empty_segment.

Definition of_sender (c : t) : T := f (_sender c).

Lemma sender_keeps {A} (m : M TCPSender.t A) : keeps f m -> keeps of_sender (zoom _sender m).
Proof. intros Hm. by apply (keeps_zoom_in _ _ f). Qed.

Lemma add_keeps : keeps of_sender _add_ackno_and_window_to_send.
Proof.
  unfold _add_ackno_and_window_to_send. keeps_tac. induction a as [|seg q IH]; cbn [send_loop]; keeps_tac; [| exact IH].
  apply sender_keeps. intros ?. apply f_queue.
Qed.

Lemma connect_keeps : keeps of_sender connect.
Proof. unfold connect. keeps_tac; [by apply sender_keeps | apply add_keeps]. Qed.

Lemma write_keeps data : keeps f (zoom TCPSender._stream (ByteStream.write data)) -> keeps of_sender (write data).
Proof. intros Hw. unfold write. keeps_tac; [by apply sender_keeps.. | apply add_keeps]. Qed.

Lemma end_keeps : keeps f (zoom TCPSender._stream ByteStream.end_input) -> keeps of_sender end_input_stream.
Proof. intros Hw. unfold end_input_stream. keeps_tac; [by apply sender_keeps.. | apply add_keeps]. Qed.

Lemma rst_keeps send_rst : keeps of_sender (_set_rst_state send_rst).
Proof.
  unfold _set_rst_state, set_stream_in_error, set_stream_out_error. keeps_tac; [| by apply keeps_zoom].
  apply sender_keeps. exact f_error.
Qed.

Lemma segment_keeps seg : keeps of_sender (segment_received seg).
Proof.
  unfold segment_received. keeps_tac;
    first [apply rst_keeps | apply connect_keeps | apply add_keeps | by apply keeps_zoom | by apply sender_keeps].
Qed.

Lemma tick_keeps ms : keeps of_sender (tick ms).
Proof.
  unfold tick. keeps_tac; first [apply rst_keeps | apply add_keeps | apply sender_keeps]; [done |]. intros ?. apply f_queue.
Qed.
End keeps_sender.

(** *** Only the owner ends the outbound stream *)

Definition outbound_ended (c : t) : bool := ByteStream.input_ended (TCPSender.stream_in (_sender c)).

Lemma write_keeps_ended data : keeps outbound_ended (write data).
Proof.
  apply (write_keeps TCPSender.stream_ended); [done | apply TCPSender.fill_keeps_ended |].
  apply (keeps_zoom_in _ _ ByteStream.input_ended); [| done..]. intros s. unfold ByteStream.write.
  refine (keeps_bind ByteStream.input_ended _ _ _ _ s); keeps_tac.
Qed.

Lemma connect_keeps_ended : keeps outbound_ended connect.
Proof. apply (connect_keeps TCPSender.stream_ended); [done | apply TCPSender.fill_keeps_ended]. Qed.

Lemma segment_keeps_ended seg : keeps outbound_ended (segment_received seg).
Proof.
  apply (segment_keeps TCPSender.stream_ended); [done | done | apply TCPSender.fill_keeps_ended |
    apply TCPSender.ack_keeps_ended | apply TCPSender.empty_keeps_ended].
Qed.

Lemma tick_keeps_outbound ms : keeps outbound_ended (tick ms).
Proof. apply (tick_keeps TCPSender.stream_ended); [done | done | apply TCPSender.tick_keeps_ended]. Qed.
End TCPConnection.

(** ** Reachable states

    The owner may connect, write, close, read, pass on time and take segments
    off the queue in any order; the network may deliver any segment at all. *)

Module ConnectionTrace.
Import TCPConnection.

Inductive event : Type :=
| Connect
| Write (data : list byte)
| End_input_stream
| Segment (seg : TCPSegment.t)
| Tick (ms : Z)
| Read_inbound (n : Z)
| Pop_segment.

(** One event: the bytes read from the inbound stream, and the segment taken
    off [segments_out()]. *)
Definition exec_event (ev : event) : M t (list byte * list TCPSegment.t) :=
  match ev with
  | Connect => connect ;; pure ([], [])
  | Write data => write data ;; pure ([], [])
  | End_input_stream => end_input_stream ;; pure ([], [])
  | Segment seg => segment_received seg ;; pure ([], [])
  | Tick ms => tick ms ;; pure ([], [])
  | Read_inbound n => let* bs := zoom _receiver (TCPReceiver.read n) in pure (bs, [])
  | Pop_segment =>
      let* q := asks _segments_out in
      match q with
      | [] => pure ([], [])
      | seg :: q' => _segments_out ::= q' ;; pure ([], [seg])
      end
  end.

(** The writer does not write after it has ended its stream; the arguments are
    in the range of their C++ types. *)
Definition allowed (c : t) (ev : event) : Prop :=
  match ev with
  | Write data =>
      ByteStream.input_ended (TCPSender.stream_in (_sender c)) = false /\
      ByteStream.bytes_written (TCPSender.stream_in (_sender c)) + len data + 2 < 2 ^ 64
  | Segment seg =>
      0 <= TCPHeader.win (TCPSegment.header seg) < 2 ^ 16 /\
      len (Buffer.str (TCPSegment.payload seg)) < 2 ^ 64
  | Read_inbound n => 0 <= n
  | _ => True
  end.

Definition accepted (c : t) (ev : event) : list byte :=
  match ev with
  | Write data => ztake (remaining_outbound_capacity c) data
  | _ => []
  end.

Definition read_of (o : outcome (list byte * list TCPSegment.t)) : list byte :=
  match o with Ok (bs, _) => bs | Throw _ => [] end.
Definition popped_of (o : outcome (list byte * list TCPSegment.t)) : list TCPSegment.t :=
  match o with Ok (_, segs) => segs | Throw _ => [] end.

(** The events that are counted: all but taking a segment off the queue. *)
Definition cost (ev : event) : Z := match ev with Pop_segment => 0 | _ => 1 end.

(** [reach c0 n W out inp c]: [n] counted events lead from [c0] to [c], exceptions
    included; the application has written [W] and read [inp], and the segments
    [out] have left. *)
Inductive reach (c0 : t) : Z -> list byte -> list TCPSegment.t -> list byte -> t -> Prop :=
| reach_start : reach c0 0 [] [] [] c0
| reach_step n W out inp c ev o c' :
    reach c0 n W out inp c -> allowed c ev -> exec_event ev c = (o, c') ->
    reach c0 (n + cost ev) (W ++ accepted c ev) (out ++ popped_of o) (inp ++ read_of o) c'.

(** A list of events: the state it leads to, and what was written, sent and read
    on the way. *)
Fixpoint run_events (evs : list event) (c : t) : t :=
  match evs with
  | [] => c
  | ev :: evs' => run_events evs' (exec_event ev c).2
  end.

Fixpoint gather {A} (f : t -> event -> list A) (evs : list event) (c : t) : list A :=
  match evs with
  | [] => []
  | ev :: evs' => f c ev ++ gather f evs' (exec_event ev c).2
  end.

Definition written : list event -> t -> list byte := gather accepted.
Definition popped : list event -> t -> list TCPSegment.t := gather (fun c ev => popped_of (exec_event ev c).1).
Definition read_bytes : list event -> t -> list byte := gather (fun c ev => read_of (exec_event ev c).1).

Definition costs (evs : list event) : Z := foldr (fun ev k => cost ev + k) 0 evs.

Fixpoint all_allowed (evs : list event) (c : t) : Prop :=
  match evs with
  | [] => True
  | ev :: evs' => allowed c ev /\ all_allowed evs' (exec_event ev c).2
  end.

Lemma conn_reach_events c0 evs n W out inp c :
  reach c0 n W out inp c -> all_allowed evs c ->
  reach c0 (n + costs evs) (W ++ written evs c) (out ++ popped evs c) (inp ++ read_bytes evs c) (run_events evs c).
Proof.
  unfold written, popped, read_bytes.
  revert n W out inp c. induction evs as [|ev evs IH]; intros n W out inp c Hr Ha; simpl.
  - by rewrite Z.add_0_r, !app_nil_r.
  - destruct Ha as [Hev Ha]. rewrite Z.add_assoc, !app_assoc. apply IH; [| done].
    eapply reach_step; [done | done |]. apply surjective_pairing.
Qed.

(** Without congestion control its state never changes. *)
Lemma exec_keeps_cc ev : keeps (of_sender TCPSender.cc_state) (exec_event ev).
Proof.
  destruct ev as [|data| |seg|ms|n|]; simpl; keeps_tac.
  - apply connect_keeps; [done | apply TCPSender.fill_keeps_cc].
  - apply write_keeps; [done | apply TCPSender.fill_keeps_cc | by apply keeps_zoom].
  - apply end_keeps; [done | apply TCPSender.fill_keeps_cc | by apply keeps_zoom].
  - apply segment_keeps; [done | done | apply TCPSender.fill_keeps_cc | apply TCPSender.ack_keeps_cc | apply TCPSender.empty_keeps_cc].
  - apply tick_keeps; [done | done | apply TCPSender.tick_keeps_cc].
  - by apply keeps_zoom.
Qed.

(** What an event does to the receiver. *)
Definition receiver_step (ev : event) (Rq : list byte -> TCPReceiver.t -> Prop)
    (Re : exn -> TCPReceiver.t -> Prop) (r : TCPReceiver.t) : Prop :=
  match ev with
  | Segment seg =>
      if TCPHeader.rst (TCPSegment.header seg) then Rq [] (fail_stream_out r)
      else wpe (TCPReceiver.segment_received seg) (fun _ => Rq []) Re r
  | Read_inbound n => wpe (TCPReceiver.read n) Rq Re r
  | Tick _ => Rq [] r /\ Rq [] (fail_stream_out r)
  | _ => Rq [] r
  end.

Lemma conn_event_wp isn rto B W out c ev Rq Re :
  live isn rto B W out c -> allowed c ev -> UINT16_MAX <= B -> B + UINT16_MAX < 2 ^ 64 ->
  receiver_step ev Rq Re (_receiver c) ->
  wpe (exec_event ev)
    (fun o c' => live isn rto (B + UINT16_MAX) (W ++ accepted c ev) (out ++ o.2) c' /\ Rq o.1 (_receiver c'))
    (fun e c' => live isn rto (B + UINT16_MAX) (W ++ accepted c ev) out c' /\ Re e (_receiver c')) c.
Proof.
  intros Hl Hev HB1 HB HR. assert (HBle : B <= B + UINT16_MAX) by (unfold UINT16_MAX; lia).
  destruct ev as [|data| |seg|ms|n|]; simpl in *; rewrite ?app_nil_r; wp_step.
  - eapply connect_wp; [done |]. intros c' Hl' Er. wp_step. simpl. rewrite app_nil_r, Er.
    eauto using live_le.
  - destruct Hev. eapply conn_write_wp; [done | done | done |]. intros c' Hl' Er. wp_step. simpl.
    rewrite app_nil_r, Er. eauto using live_le.
  - eapply end_input_stream_wp; [done |]. intros c' Hl' Er. wp_step. simpl. rewrite app_nil_r, Er.
    eauto using live_le.
  - destruct Hev. eapply wp_mono; [by apply (conn_segment_received_wp _ _ B _ _ _ _ (Rq []) Re) |].
    intros [] c' [Hl' Hr]. wp_step. simpl. by rewrite app_nil_r.
  - eapply conn_tick_wp; [done | done |]. intros c' Hl' [Er|Er]; wp_step; simpl; rewrite app_nil_r, Er;
      destruct HR; eauto using live_le.
  - wp_step. eapply wp_mono_exn; [exact HR | |]; simpl.
    + intros bs r Hr. wp_step. simpl. rewrite app_nil_r. split; [by apply (live_le _ _ B) | done].
    + intros e r Hr. split; [by apply (live_le _ _ B) | done].
  - wp_step. destruct (_segments_out c) as [|seg q] eqn:Eq; wp_steps; simpl.
    + rewrite app_nil_r. eauto using live_le.
    + split; [| done]. apply (live_le _ _ B); [| done]. unfold live in *. rewrite Eq in Hl. simpl.
      by rewrite <- app_assoc.
Qed.
(** *** What every event respects, in any state *)

(** The receiver's feedback is on the segment. *)
Definition stamped (r : TCPReceiver.t) (seg : TCPSegment.t) : Prop :=
  TCPHeader.win (TCPSegment.header seg) = Z.min UINT16_MAX (TCPReceiver.window_size r) /\
  match TCPReceiver.ackno r with
  | Some ackno => TCPHeader.ack (TCPSegment.header seg) = true /\ TCPHeader.ackno (TCPSegment.header seg) = ackno
  | None => True
  end.

Lemma stamp_stamped r seg : stamped r (stamp r seg).
Proof. unfold stamped, stamp. by destruct (TCPReceiver.ackno r). Qed.

(** A connection that has become inactive stays so; new segments carry the
    receiver's feedback, or reset the connection. *)
Definition respects (c c' : t) : Prop :=
  (active c = false -> active c' = false) /\
  exists q, _segments_out c' = _segments_out c ++ q /\
    Forall (fun seg => stamped (_receiver c') seg \/
      (TCPHeader.rst (TCPSegment.header seg) = true /\ active c' = false)) q.

Lemma respects_same c c' :
  (active c = false -> active c' = false) -> _segments_out c' = _segments_out c -> respects c c'.
Proof. intros Ha Eq. split; [done |]. exists []. rewrite app_nil_r. split; [done | constructor]. Qed.

Lemma respects_moved c c' :
  (active c = false -> active c' = false) -> _segments_out c' = _segments_out c -> respects c (moved c').
Proof.
  intros Ha Eq. split; [done |].
  exists (map (stamp (_receiver c')) (TCPSender.segments_out (_sender c'))). simpl. rewrite Eq.
  split; [done |]. apply Forall_map, Forall_forall. intros seg _. left. apply stamp_stamped.
Qed.

Lemma respects_closed c c' :
  _segments_out c' = _segments_out c ->
  respects c (setf _linger_after_streams_finish false (setf _is_active false (moved c'))).
Proof.
  intros Eq. split; [done |].
  exists (map (stamp (_receiver c')) (TCPSender.segments_out (_sender c'))). simpl. rewrite Eq.
  split; [done |]. apply Forall_map, Forall_forall. intros seg _. left. apply stamp_stamped.
Qed.

Lemma respects_reset send_rst c c' :
  _segments_out c' = _segments_out c -> respects c (reset send_rst c').
Proof.
  intros Eq. split; [done |]. eexists. simpl. rewrite Eq. split; [done |].
  destruct send_rst; [| constructor]. constructor; [by right | constructor].
Qed.
(** While the connection works: the queue as it was, and no revival. *)
Definition quiet (c c' : t) : Prop :=
  _segments_out c' = _segments_out c /\ (active c = false -> active c' = false).

Ltac quiet_zoom := apply wp_zoom_any; [| intros; apply respects_same; by auto]; intros.
Ltac quiet_end := (apply add_wp || apply set_rst_state_wp); wp_steps;
  (apply respects_moved || apply respects_reset); by auto.

Lemma connect_respects c c1 E :
  quiet c c1 -> (forall e c', quiet c c' -> E e c') -> wpe connect (fun _ => respects c) E c1.
Proof.
  intros [Hq Ha] HE. unfold connect. wp_step. apply wp_zoom_any; [| intros; by apply HE]. intros.
  apply add_wp, respects_moved; auto.
Qed.

Lemma segment_received_respects seg c :
  wpe (segment_received seg) (fun _ => respects c) (fun _ => respects c) c.
Proof.
  assert (HE : forall (e : exn) c', quiet c c' -> respects c c') by (intros e c' []; by apply respects_same).
  unfold segment_received. wp_step. wp_step. apply wp_if; intros _; [quiet_end |].
  wp_step. apply wp_zoom_any; intros; [| by apply respects_same]. wp_step.
  apply (wp_mono _ (fun _ => quiet c)).
  { apply wp_if; intros _; [| wp_step; by split]. wp_step.
    apply wp_zoom_any; intros; [| by apply respects_same]. wp_steps. by split. }
  intros need c1 Hq1. wp_step. wp_step. apply wp_if; intros _. { by apply connect_respects. }
  wp_step. wp_step. wp_step. apply (wp_mono _ (fun _ => quiet c)).
  { destruct Hq1. apply wp_when; intros _; [wp_step |]; by split. }
  intros [] c2 Hq2. wp_step. wp_step. apply wp_if; intros _.
  { wp_step. destruct Hq2. by apply respects_same. }
  wp_step. wp_step. wp_step. apply (wp_mono _ (fun _ => quiet c)).
  { destruct Hq2. apply wp_when; intros _; [| by split]. apply wp_zoom_any; intros; [by split |].
    by apply respects_same. }
  intros [] c3 [Hq3 Ha3]. quiet_end.
Qed.

Lemma tick_respects ms c : wpe (tick ms) (fun _ => respects c) (fun _ => respects c) c.
Proof.
  unfold tick. wp_step. wp_step. wp_step. quiet_zoom. wp_step. wp_step. apply wp_if; intros _.
  - do 3 wp_step. quiet_end.
  - wp_step. apply add_wp. wp_step. wp_step. apply wp_when; intros _; wp_steps.
    + by apply respects_closed.
    + by apply respects_moved.
Qed.

Lemma exec_event_respects ev c :
  ev <> Pop_segment -> wpe (exec_event ev) (fun _ => respects c) (fun _ => respects c) c.
Proof.
  assert (HE : forall (e : exn) c', quiet c c' -> respects c c') by (intros e c' []; by apply respects_same).
  intros Hne. destruct ev as [|data| |seg|ms|n|]; simpl; [..| done]; wp_step.
  - eapply wp_mono; [by apply connect_respects |]. intros [] c' Hr. by wp_step.
  - unfold write. wp_step. quiet_zoom. wp_step. quiet_zoom. wp_step. apply add_wp. wp_steps.
    by apply respects_moved.
  - unfold end_input_stream. wp_step. quiet_zoom. wp_step. quiet_zoom. apply add_wp. wp_steps.
    by apply respects_moved.
  - eapply wp_mono; [apply segment_received_respects |]. intros [] c' Hr. by wp_step.
  - eapply wp_mono; [apply tick_respects |]. intros [] c' Hr. by wp_step.
  - quiet_zoom. wp_steps. by apply respects_same.
Qed.
(** *** The invariant of a connection that talks to an arbitrary peer *)

Record config_ok (cfg : TCPConfig.t) : Prop := {
  cfg_rto : 0 <= TCPConfig.rt_timeout cfg < 2 ^ 16;
  cfg_send : 0 <= TCPConfig.send_capacity cfg < 2 ^ 64;
  cfg_recv : 0 < TCPConfig.recv_capacity cfg;
  cfg_isn : forall isn, TCPConfig.fixed_isn cfg = Some isn -> WrappingInt32.wf isn
}.

(** The initial sequence number of a connection. *)
Definition isn_of (cfg : TCPConfig.t) (random : Z) : WrappingInt32.t :=
  default (WrappingInt32.of_Z random) (TCPConfig.fixed_isn cfg).

Lemma isn_of_wf cfg random : config_ok cfg -> WrappingInt32.wf (isn_of cfg random).
Proof.
  intros []. unfold isn_of. destruct (TCPConfig.fixed_isn cfg); simpl; [auto |].
  apply WrappingInt32.wf_of_Z.
Qed.

Lemma live_new cfg random :
  config_ok cfg ->
  live (isn_of cfg random) (TCPConfig.rt_timeout cfg) (SenderTrace.bound 0) [] [] (new cfg random).
Proof.
  intros Hok. pose proof (isn_of_wf cfg random Hok) as Hi. destruct Hok.
  unfold live, new. simpl. rewrite TCPSender.new_isn. fold (isn_of cfg random).
  destruct (TCPSender.sending_new (TCPConfig.send_capacity cfg) (TCPConfig.rt_timeout cfg)
    (isn_of cfg random) (TCPConfig.congestion_control cfg) random) as [Hs Hr]; try done.
  split; [by exists 0, 0 | done | done | done | constructor].
Qed.

(** The receiver's part of a step, whatever arrives. *)
Lemma receiver_step_safe n N r ev c :
  TCPReceiver.safe n r -> allowed c ev -> 0 <= n -> n + 1 <= N ->
  (N + 2) * TCPReceiver._capacity r < 2 ^ 64 ->
  receiver_step ev
    (fun _ r' => TCPReceiver.safe (n + 1) r' /\ TCPReceiver._capacity r' = TCPReceiver._capacity r)
    (fun e r' => TCPReceiver.benign e /\ TCPReceiver.safe (n + 1) r' /\
      TCPReceiver._capacity r' = TCPReceiver._capacity r) r.
Proof.
  intros Hs Hev Hn HN Hc. pose proof (TCPReceiver.safe_mono n (n + 1) r Hs ltac:(lia)) as Hs1.
  assert (Hfail : TCPReceiver.safe (n + 1) (fail_stream_out r)).
  { destruct Hs1 as [? ?]. split; [by apply ReassemblerTrace.safe_state_fail | done]. }
  destruct ev as [|data| |seg|ms|k|]; simpl in *; auto.
  - destruct Hev. destruct (TCPHeader.rst _); [done |]. by apply (TCPReceiver.segment_received_safe n N).
  - unfold TCPReceiver.read.
    apply (TCPReceiver.reassembler_event_wp n N r (ReassemblerTrace.Read_output k)); auto.
Qed.

(** Taking a segment off the queue. *)
Lemma pop_live isn rto B W out c o c' :
  live isn rto B W out c -> exec_event Pop_segment c = (o, c') ->
  live isn rto B W (out ++ popped_of o) c' /\ _receiver c' = _receiver c /\ read_of o = [].
Proof.
  unfold exec_event, bind, asks. intros Hl. destruct (_segments_out c) as [|seg q] eqn:Eq; intros [= <- <-]; simpl.
  - by rewrite app_nil_r.
  - split; [| done]. unfold live in *. rewrite Eq in Hl. simpl. by rewrite <- app_assoc.
Qed.

(** With congestion control the window grows with the acknowledgments, and 2^47 events
    are within the width of its counter; without it there is no limit. *)
Definition budget (cfg : TCPConfig.t) (n : Z) : Prop := TCPConfig.congestion_control cfg = false \/ n < 2 ^ 47.
Definition cwnd_bound (cfg : TCPConfig.t) (n : Z) : Z :=
  if TCPConfig.congestion_control cfg then SenderTrace.bound n else UINT16_MAX.

(** The sender's side of the invariant, after [n] events. *)
Record sends (cfg : TCPConfig.t) (random n : Z) (W : list byte) (out : list TCPSegment.t) (c : t) : Prop := {
  ss_live : live (isn_of cfg random) (TCPConfig.rt_timeout cfg) (cwnd_bound cfg n) W out c;
  ss_cc : of_sender TCPSender.cc_state c = of_sender TCPSender.cc_state (new cfg random)
}.

Lemma sends_new cfg random : config_ok cfg -> sends cfg random 0 [] [] (new cfg random).
Proof.
  intros Hok. split; [| done]. unfold cwnd_bound. pose proof (live_new cfg random Hok) as Hl.
  by destruct (TCPConfig.congestion_control cfg).
Qed.

(** One event, with whatever is known of the receiver's part of it. *)
Lemma sends_step cfg random n W out c ev o c' Rq Re :
  config_ok cfg -> sends cfg random n W out c -> 0 <= n -> budget cfg (n + cost ev) -> allowed c ev ->
  receiver_step ev Rq Re (_receiver c) -> exec_event ev c = (o, c') ->
  sends cfg random (n + cost ev) (W ++ accepted c ev) (out ++ popped_of o) c' /\
  match o with Ok (bs, _) => Rq bs (_receiver c') | Throw e => Re e (_receiver c') end.
Proof.
  intros Hok [Hl Hcc] Hn Hb Hev HR Hexec.
  assert (Hcc' : of_sender TCPSender.cc_state c' = of_sender TCPSender.cc_state (new cfg random)).
  { rewrite <- Hcc, <- (exec_keeps_cc ev c), Hexec. done. }
  assert (Hpop : ev = Pop_segment \/ cost ev = 1) by (destruct ev; auto). destruct Hpop as [-> | Eone].
  { simpl cost. rewrite Z.add_0_r, app_nil_r. destruct (pop_live _ _ _ _ _ _ _ _ Hl Hexec) as (? & Er & Ebs).
    split; [by split |]. rewrite Er. simpl in HR, Ebs. destruct o as [[bs segs]|e]; simpl in *; [by subst |].
    unfold exec_event, bind, asks in Hexec. by destruct (_segments_out c). }
  rewrite Eone in *.
  assert (HB : UINT16_MAX <= cwnd_bound cfg n /\ cwnd_bound cfg n + UINT16_MAX < 2 ^ 64).
  { unfold cwnd_bound, SenderTrace.bound, UINT16_MAX, budget in *. destruct (TCPConfig.congestion_control cfg); [| lia].
    destruct Hb; [done | lia]. }
  pose proof (conn_event_wp _ _ _ _ _ _ _ Rq Re Hl Hev ltac:(lia) ltac:(lia) HR) as Hwp.
  assert (Hlive : live (isn_of cfg random) (TCPConfig.rt_timeout cfg) (cwnd_bound cfg n + UINT16_MAX)
    (W ++ accepted c ev) (out ++ popped_of o) c').
  { unfold wpe in Hwp. rewrite Hexec in Hwp. destruct o as [[bs segs]|e]; simpl in *; rewrite ?app_nil_r; apply Hwp. }
  split; [| unfold wpe in Hwp; rewrite Hexec in Hwp; destruct o as [[bs segs]|e]; apply Hwp].
  split; [| done]. unfold cwnd_bound in *. destruct (TCPConfig.congestion_control cfg) eqn:Ecc.
  - by replace (SenderTrace.bound (n + 1)) with (SenderTrace.bound n + UINT16_MAX) by (unfold SenderTrace.bound; lia).
  - destruct Hlive. split; try done. eapply TCPSender.cc_state_reno; [exact Hcc' | done |]. apply (live_new cfg random Hok).
Qed.

Lemma cost_range ev : 0 <= cost ev <= 1.
Proof. by destruct ev. Qed.

Lemma budget_mono cfg n m : budget cfg m -> n <= m -> budget cfg n.
Proof. intros [|]; [by left | right; lia]. Qed.

(** A receiver about which nothing is asked. *)
Lemma receiver_step_any ev r : receiver_step ev (fun _ _ => True) (fun _ _ => True) r.
Proof. destruct ev; simpl; try done; [destruct (TCPHeader.rst _); [done |] |]; apply wp_true. Qed.

Lemma reach_sends cfg random n W out inp c :
  config_ok cfg -> reach (new cfg random) n W out inp c -> 0 <= n /\ (budget cfg n -> sends cfg random n W out c).
Proof.
  intros Hok. induction 1 as [|n W out inp c ev o c' _ [Hn IH] Hev Hexec].
  - split; [lia |]. intros _. by apply sends_new.
  - pose proof (cost_range ev). split; [lia |]. intros Hb.
    eapply (sends_step cfg random n W out c ev o c'); try done; [| apply receiver_step_any]. apply IH. eapply budget_mono; [done | lia].
Qed.

Lemma reach_live cfg random n W out inp c :
  config_ok cfg -> reach (new cfg random) n W out inp c ->
  0 <= n /\ (n < 2 ^ 47 -> (n + 2) * TCPConfig.recv_capacity cfg < 2 ^ 64 ->
    live (isn_of cfg random) (TCPConfig.rt_timeout cfg) (SenderTrace.bound n) W out c /\
    TCPReceiver.safe n (_receiver c) /\ TCPReceiver._capacity (_receiver c) = TCPConfig.recv_capacity cfg).
Proof.
  intros Hok Hr. destruct (reach_sends _ _ _ _ _ _ _ Hok Hr) as [Hn Hs]. split; [done |]. intros Hlim Hc. split.
  { eapply live_le; [apply ss_live, Hs; by right |]. unfold cwnd_bound, SenderTrace.bound, UINT16_MAX.
    destruct (TCPConfig.congestion_control cfg); lia. }
  clear Hs Hn. revert Hlim Hc. pose proof (cfg_recv _ Hok) as Hpos.
  induction Hr as [|n W out inp c ev o c' Hr IH Hev Hexec]; intros Hlim Hc.
  - split; [| done]. apply TCPReceiver.safe_new; [done | lia].
  - pose proof (cost_range ev). destruct (reach_sends _ _ _ _ _ _ _ Hok Hr) as [Hn Hs].
    destruct IH as (Hsafe & Ecap); [lia | nia |].
    assert (Hs' : sends cfg random n W out c) by (apply Hs; right; lia).
    destruct (Z.eq_dec (cost ev) 0) as [E0|E0].
    { destruct ev; try done. destruct (pop_live _ _ _ _ _ _ _ _ (ss_live _ _ _ _ _ _ Hs') Hexec) as (_ & -> & _).
      by rewrite Z.add_0_r. }
    assert (Eone : cost ev = 1) by lia. rewrite Eone in *.
    destruct (sends_step cfg random n W out c ev o c' _ _ Hok Hs' Hn ltac:(rewrite Eone; by right) Hev
      (receiver_step_safe n (n + 1) _ ev c Hsafe Hev Hn ltac:(lia) ltac:(rewrite Ecap; lia)) Hexec) as [_ Hrec].
    destruct o as [[bs segs]|e]; [destruct Hrec as [? ?] | destruct Hrec as (_ & ? & ?)]; split; congruence || done.
Qed.
(** *** Acknowledgments *)

Lemma sender_closed s : TCPState.sender_summary s = TCPSenderStateSummary.CLOSED -> TCPSender._next_seqno s = 0.
Proof.
  unfold TCPState.sender_summary, TCPSender.next_seqno_absolute.
  destruct (ByteStream.error _); [done |]. destruct (Z.eqb_spec (TCPSender._next_seqno s) 0); [done |].
  repeat case_match; done.
Qed.

(** A sender that has sent nothing sends its SYN when asked to fill the window. *)
Lemma first_fill_sends W una rd rd' B s s' :
  TCPSender.sending W una rd s -> TCPSender.reno B s -> TCPSender._next_seqno s = 0 ->
  TCPSender.sending W una rd' s' -> TCPSender.queued s s' ->
  TCPSender._effective_window_size s <= TCPSender.bytes_in_flight s' \/ TCPSender.exhausted s' ->
  TCPSender._segments_out s' <> [].
Proof.
  intros Hs Hr H0 Hs' (_ & new & Eo & Eq) Hend.
  pose proof (TCPSender.sending_range _ _ _ _ Hs) as (? & ? & ? & _). pose proof Hs as [].
  assert (Eout : TCPSender._outstanding_seg s = []).
  { eapply TCPSender.chain_nil; [exact sd_chain |]. lia. }
  rewrite Eq. destruct new as [|p new]; [| simpl; by intros [_ [=]]%app_nil].
  rewrite Eout in Eo. simpl in Eo. exfalso.
  pose proof (TCPSender.sd_chain _ _ _ _ Hs') as Hc. rewrite Eo in Hc. simpl in Hc.
  pose proof (TCPSender.sd_flight _ _ _ _ Hs') as Hf. destruct Hend as [Hw|Hx].
  - assert (1 <= TCPSender._effective_window_size s); [| unfold TCPSender.bytes_in_flight in Hw; lia].
    unfold TCPSender._effective_window_size. destruct Hr. unfold TCPConfig.MAX_PAYLOAD_SIZE in *.
    destruct (TCPSender._congestion_control_enabled s); simpl; lia.
  - destruct Hx as (Hsyn & _). pose proof (TCPSender.sd_next _ _ _ _ Hs') as Hn.
    pose proof (TCPSender.sending_range _ _ _ _ Hs') as (? & ? & ? & _).
    rewrite Hsyn in Hn. unfold TCPSender.b2z in Hn. destruct (TCPSender._set_fin_flag s'); lia.
Qed.

Lemma connect_nonempty isn rto B W out c E :
  live isn rto B W out c -> TCPSender._next_seqno (_sender c) = 0 ->
  wpe connect (fun _ c' => _segments_out c' <> []) E c.
Proof.
  intros [(una & rd & Hs) Hr _ _ _] H0. unfold connect. wp_step. wp_step.
  eapply wp_mono; [by apply (TCPSender.fill_window_wp W una rd) |].
  intros [] s' (rd' & Hs' & _ & Hq & _ & Hend). apply add_wp. simpl.
  pose proof (first_fill_sends _ _ _ _ _ _ _ Hs Hr H0 Hs' Hq Hend) as Hne.
  intros [_ Hm]%app_nil. by apply map_eq_nil in Hm.
Qed.

Lemma send_empty_nonempty c (Q : unit -> t -> Prop) E :
  (forall s', TCPSender._segments_out s' <> [] -> Q tt (setf _sender s' c)) ->
  wpe (zoom _sender TCPSender.send_empty_segment) Q E c.
Proof.
  intros HQ. wp_step. unfold TCPSender.send_empty_segment. wp_steps. apply HQ. simpl. by intros [_ [=]]%app_nil.
Qed.

(** When the queue is empty, a segment that occupies sequence space is answered,
    unless it closes the connection. *)
Lemma segment_received_answers isn rto B W out c seg :
  live isn rto B W out c -> 0 <= TCPHeader.win (TCPSegment.header seg) < 2 ^ 16 ->
  UINT16_MAX <= B -> B + UINT16_MAX < 2 ^ 64 ->
  TCPHeader.rst (TCPSegment.header seg) = false -> 0 < TCPSegment.length_in_sequence_space seg ->
  _segments_out c = [] ->
  wpe (segment_received seg) (fun _ c' => active c' = true -> _segments_out c' <> []) (fun _ _ => True) c.
Proof.
  intros Hl Hwin HB1 HB Hrst Hlen Hq. unfold segment_received. wp_step. wp_step. rewrite Hrst.
  wp_step. apply wp_zoom_any; [| done]. intros [] r. wp_step.
  rewrite (proj2 (Z.ltb_lt _ _)) by done.
  apply (wp_mono _ (fun need c' => need = true /\ live isn rto (B + UINT16_MAX) W out c')).
  { apply wp_if; intros _.
    - wp_step. eapply (live_ack _ _ B); [exact Hl | done | done | done |]. intros s' Hl'. wp_steps.
      simpl. by rewrite Hq.
    - wp_step. split; [done |]. apply (live_le _ _ B); [exact Hl | unfold UINT16_MAX; lia]. }
  intros need c1 [-> Hl1]. wp_step. wp_step. apply wp_if; intros Hlisten.
  { apply andb_true_iff in Hlisten as [_ Hc]. apply String.eqb_eq, sender_closed in Hc.
    eapply wp_mono; [by eapply connect_nonempty |]. by intros [] c' ? _. }
  do 3 wp_step. apply (wp_mono _ (fun _ _ => True)). { apply wp_when; intros _; by try wp_step. }
  intros [] c2 _. wp_step. wp_step. apply wp_if; intros _; [by wp_step |]. do 3 wp_step.
  rewrite orb_true_r. apply send_empty_nonempty. intros s' Hs'. apply add_wp. simpl. intros _ Hm.
  apply app_nil in Hm as [_ Hm]. by apply map_eq_nil in Hm.
Qed.
(** *** TIME_WAIT *)

Lemma sender_tick_idle ms s :
  Timer.is_running (TCPSender._timer s) = false -> TCPSender.tick ms s = (Ok tt, s).
Proof.
  intros Hr. destruct s as [? ? ? ? ? [? ? []] ? ? ? ? ? ? ? ? ? ? ? ?]; [done |].
  unfold TCPSender.tick, bind, modify, asks. simpl.
  by unfold Timer.tick, Timer.check_time_out, TCPSender.set_timer.
Qed.

Lemma sender_fin_acked s :
  TCPState.sender_summary s = TCPSenderStateSummary.FIN_ACKED -> TCPSender._bytes_in_flight s = 0.
Proof.
  unfold TCPState.sender_summary, TCPSender.bytes_in_flight.
  destruct (Z.eqb_spec (TCPSender._bytes_in_flight s) 0); [done |].
  simpl. repeat case_match; done.
Qed.

Lemma moved_state c :
  TCPState.sender_summary (_sender (moved c)) = TCPState.sender_summary (_sender c) /\
  TCPState.receiver_summary (_receiver (moved c)) = TCPState.receiver_summary (_receiver c).
Proof. done. Qed.
End ConnectionTrace.

(** ** Properties *)

Import TCPConnection ConnectionTrace.

Lemma event_safe cfg random n W out inp c ev :
  config_ok cfg -> reach (new cfg random) n W out inp c -> allowed c ev ->
  n + 1 < 2 ^ 47 -> (n + 3) * TCPConfig.recv_capacity cfg < 2 ^ 64 ->
  match exec_event ev c with
  | (Ok _, _) => True
  | (Throw e, _) => TCPReceiver.benign e
  end.
Proof.
  intros Hok Hreach Hev Hn Hc. destruct (reach_live _ _ _ _ _ _ _ Hok Hreach) as [H0 Hinv].
  pose proof (cfg_recv _ Hok). destruct Hinv as (Hl & Hs & Ecap); [lia | nia |].
  assert (HB : UINT16_MAX <= SenderTrace.bound n /\ SenderTrace.bound n + UINT16_MAX < 2 ^ 64).
  { unfold SenderTrace.bound, UINT16_MAX. lia. }
  pose proof (conn_event_wp _ _ _ _ _ _ _ _ _ Hl Hev ltac:(lia) ltac:(lia)
    (receiver_step_safe n (n + 1) _ ev c Hs Hev H0 ltac:(lia) ltac:(rewrite Ecap; lia))) as Hwp.
  unfold wpe in Hwp. destruct (exec_event ev c) as [[bs|e] c']; tauto.
Qed.

(** [C16] Safety against any peer: after any calls of the owner and any segments
    from the network, the next call returns, or throws one of the two
    [runtime_error]s a reassembler throws at a peer that contradicts itself; it
    never runs into undefined behaviour and always terminates. *)
Theorem connection_safe cfg random n W out inp c ev :
  config_ok cfg -> reach (new cfg random) n W out inp c -> allowed c ev ->
  n + 1 < 2 ^ 47 -> (n + 3) * TCPConfig.recv_capacity cfg < 2 ^ 64 ->
  match exec_event ev c with
  | (Ok _, _) => True
  | (Throw e, _) => TCPReceiver.benign e
  end.
Proof. apply event_safe. Qed.

Lemma reach_emits cfg random n W out inp c :
  config_ok cfg -> reach (new cfg random) n W out inp c -> budget cfg n ->
  Forall (fun seg => (exists a, segment_of W (isn_of cfg random) a seg /\ a <= len W + 2) /\ TCPSegment.sendable seg)
    (out ++ _segments_out c).
Proof.
  intros Hok Hreach Hb. destruct (reach_sends _ _ _ _ _ _ _ Hok Hreach) as [_ Hs].
  destruct (ss_live _ _ _ _ _ _ (Hs Hb)) as [_ _ _ _ Ho].
  eapply Forall_impl; [| exact Ho]. intros seg (a & ? & ? & _ & ?). eauto.
Qed.

(** Every segment that has left the connection or waits in its queue,
    acknowledgments, retransmissions and resets included, is a segment of the
    stream the application has written, numbered from the connection's initial
    sequence number, and its header and size are such that it can be put into a
    datagram and read back: after any number of events without congestion control,
    and after 2^47 of them with it. *)
Theorem connection_emits_stream cfg random n W out inp c :
  config_ok cfg -> reach (new cfg random) n W out inp c -> budget cfg n ->
  Forall (fun seg => (exists a, segment_of W (isn_of cfg random) a seg /\ a <= len W + 2) /\ TCPSegment.sendable seg)
    (out ++ _segments_out c).
Proof. apply reach_emits. Qed.

(** Inactivity is final: no call and no segment revives a connection that
    has closed or been reset. *)
Theorem inactive_forever ev c : active c = false -> active (exec_event ev c).2 = false.
Proof.
  intros Ha. assert (ev = Pop_segment \/ ev <> Pop_segment) as [->|Hne] by (destruct ev; by auto).
  - simpl. unfold bind, asks. simpl. by destruct (_segments_out c).
  - pose proof (exec_event_respects ev c Hne) as Hwp. unfold wpe in Hwp.
    destruct (exec_event ev c) as [[]]; by apply Hwp.
Qed.

(** Feedback: every segment that a call queues carries the receiver's
    acknowledgment number, if it has one, and its window, cut to 16 bits; the
    only exception is the RST of a connection that has just become inactive. *)
Theorem segments_stamped ev c :
  ev <> Pop_segment ->
  let c' := (exec_event ev c).2 in
  exists q, _segments_out c' = _segments_out c ++ q /\
    Forall (fun seg => stamped (_receiver c') seg \/
      (TCPHeader.rst (TCPSegment.header seg) = true /\ active c' = false)) q.
Proof.
  intros Hne. pose proof (exec_event_respects ev c Hne) as Hwp. unfold wpe in Hwp.
  destruct (exec_event ev c) as [[]]; by apply Hwp.
Qed.

(** A RST is acceptable when it lies in the receive window, or, before the peer's SYN has
    come, when it acknowledges the SYN that was sent. *)
Definition rst_acceptable (seg : TCPSegment.t) (c : t) : Prop :=
  let h := TCPSegment.header seg in
  TCPHeader.rst h = true /\
  match TCPReceiver.ackno (_receiver c) with
  | Some ackno => u32 (WrappingInt32.raw_value (TCPHeader.seqno h) - WrappingInt32.raw_value ackno) < Z.max 1 (TCPReceiver.window_size (_receiver c))
  | None => sender_is TCPSenderStateSummary.SYN_SENT c = true /\ TCPHeader.ack h = true /\
      TCPHeader.ackno h = TCPSender.next_seqno (_sender c)
  end.

(** The code does not look at the sequence number: any RST resets, in any state. *)
Lemma any_rst_resets seg c :
  TCPHeader.rst (TCPSegment.header seg) = true ->
  exists c', segment_received seg c = (Ok tt, c') /\ state c' = TCPState.of_state TCPState.RESET /\
    _segments_out c' = _segments_out c.
Proof.
  intros Hr. eexists. unfold segment_received, bind at 1. simpl. rewrite Hr, set_rst_state_eq.
  split_and!; [done | done |]. simpl. apply app_nil_r.
Qed.

(** [C38] Resets: an acceptable RST from the peer of an active connection (in the receive
    window, or acknowledging the SYN in SYN_SENT), too many retransmissions in a row, and
    the destruction of an active connection all lead to the official state RESET,
    with an error on both streams; the last two, and only they, queue exactly
    one RST.  (Nothing is said of a RST that should be ignored: the code does not ignore
    it, [any_rst_resets].) *)
Theorem connection_resets c :
  (forall seg, active c = true -> rst_acceptable seg c ->
    exists c', segment_received seg c = (Ok tt, c') /\ state c' = TCPState.of_state TCPState.RESET /\
      ByteStream.error (inbound_stream c') = true /\ ByteStream.error (TCPSender._stream (_sender c')) = true /\
      _segments_out c' = _segments_out c) /\
  (forall ms s', TCPSender.tick ms (_sender c) = (Ok tt, s') ->
    TCPConfig.MAX_RETX_ATTEMPTS < TCPSender.consecutive_retransmissions s' ->
    exists c', tick ms c = (Ok tt, c') /\ state c' = TCPState.of_state TCPState.RESET /\
      ByteStream.error (inbound_stream c') = true /\ ByteStream.error (TCPSender._stream (_sender c')) = true /\
      _segments_out c' = _segments_out c ++ [rst_segment (TCPSender.next_seqno s')]) /\
  (active c = true ->
    exists c', destroy c = (Ok tt, c') /\ state c' = TCPState.of_state TCPState.RESET /\
      ByteStream.error (inbound_stream c') = true /\ ByteStream.error (TCPSender._stream (_sender c')) = true /\
      _segments_out c' = _segments_out c ++ [rst_segment (TCPSender.next_seqno (_sender c))]).
Proof.
  split_and!.
  - intros seg _ [Hr _]. eexists. unfold segment_received, bind at 1. simpl. rewrite Hr, set_rst_state_eq.
    split_and!; [done | done | done | done |]. simpl. apply app_nil_r.
  - intros ms s' Et Hc. eexists. unfold tick, bind, zoom. simpl. rewrite Et. simpl.
    rewrite (proj2 (Z.ltb_lt _ _)) by done. rewrite set_rst_state_eq. by split_and!.
  - intros Ha. eexists. unfold destroy, bind, asks. simpl. rewrite Ha. simpl. rewrite set_rst_state_eq.
    by split_and!.
Qed.

(** [C37] Acknowledgments: when the owner has emptied the queue, every segment
    that occupies sequence space and leaves the receiver with the peer's SYN (it had it, or
    the segment carries it) is answered with at least one segment, and all
    the answers carry the receiver's new acknowledgment number and window,
    unless the segment makes the connection inactive.  (Without the SYN such a segment
    should be ignored, and is not: [answered_without_syn].) *)
Theorem segment_acked cfg random n W out inp c seg c' :
  config_ok cfg -> reach (new cfg random) n W out inp c -> allowed c (Segment seg) ->
  n + 1 < 2 ^ 47 -> (n + 2) * TCPConfig.recv_capacity cfg < 2 ^ 64 ->
  TCPHeader.rst (TCPSegment.header seg) = false -> 0 < TCPSegment.length_in_sequence_space seg ->
  _segments_out c = [] -> segment_received seg c = (Ok tt, c') -> active c' = true ->
  is_Some (TCPReceiver.ackno (_receiver c')) ->
  _segments_out c' <> [] /\
  Forall (fun s => TCPHeader.ack (TCPSegment.header s) = true /\
    TCPReceiver.ackno (_receiver c') = Some (TCPHeader.ackno (TCPSegment.header s)) /\
    TCPHeader.win (TCPSegment.header s) = Z.min (TCPReceiver.window_size (_receiver c')) UINT16_MAX) (_segments_out c').
Proof.
  intros Hok Hreach [Hwin _] Hn Hc Hrst Hlen Hq E Ha [a Hsyn].
  destruct (reach_live _ _ _ _ _ _ _ Hok Hreach) as [Hz Hinv]. destruct Hinv as (Hl & _); [lia | done |].
  split.
  - pose proof (segment_received_answers _ _ _ _ _ c seg Hl Hwin) as Hwp. unfold wpe in Hwp. rewrite E in Hwp.
    apply Hwp; try done; unfold SenderTrace.bound, UINT16_MAX; lia.
  - pose proof (segment_received_respects seg c) as Hwp. unfold wpe in Hwp. rewrite E in Hwp.
    destruct Hwp as [_ (q & Eq & Hall)]. rewrite Hq in Eq. simpl in Eq. rewrite Eq.
    eapply Forall_impl; [| exact Hall]. intros sg [Hst|[_ Hb]]; [| congruence].
    destruct Hst as [Hw Hm]. rewrite Hsyn in Hm |- *. destruct Hm as [Hack ->]. split; [done |]. split; [done |].
    by rewrite Hw, Z.min_comm.
Qed.

(** Time-out of TIME_WAIT: in that state a tick that brings the time since
    the last segment to ten times the initial time-out moves the connection to
    CLOSED, and a shorter one leaves it in TIME_WAIT. *)
Theorem time_wait_expires cfg random n W out inp c ms :
  config_ok cfg -> reach (new cfg random) n W out inp c ->
  n < 2 ^ 47 -> (n + 2) * TCPConfig.recv_capacity cfg < 2 ^ 64 ->
  state c = TCPState.of_state TCPState.TIME_WAIT ->
  TCPSender.consecutive_retransmissions (_sender c) <= TCPConfig.MAX_RETX_ATTEMPTS ->
  let time := u64 (time_since_last_segment_received c + ms) in
  exists c', tick ms c = (Ok tt, c') /\
    state c' = TCPState.of_state
      (if 10 * TCPConfig.rt_timeout (_cfg c) <=? time then TCPState.CLOSED else TCPState.TIME_WAIT).
Proof.
  intros Hok Hreach Hn Hc Hst Hretx time. destruct (reach_live _ _ _ _ _ _ _ Hok Hreach) as [_ Hinv].
  destruct (Hinv Hn Hc) as ([(una & rd & Hs) _ _ _ _] & _).
  unfold state, TCPState.of_parts in Hst. simpl in Hst.
  injection Hst as Hsend Hrecv Hact Hlinger. rewrite Hact in Hlinger.
  assert (Hidle : Timer.is_running (TCPSender._timer (_sender c)) = false).
  { rewrite (TCPSender.sd_timer _ _ _ _ Hs). by rewrite (sender_fin_acked _ Hsend). }
  assert (Hrecv' : forall d, _receiver d = _receiver c -> receiver_is TCPReceiverStateSummary.FIN_RECV d = true).
  { intros d Ed. unfold receiver_is. by rewrite Ed, Hrecv. }
  set (c1 := setf _sender (_sender c) (upd _time_since_last_segment_received (fun k => u64 (k + ms)) c)).
  assert (Hsend' : sender_is TCPSenderStateSummary.FIN_ACKED (moved c1) = true).
  { unfold sender_is. rewrite (proj1 (moved_state c1)). simpl. by rewrite Hsend. }
  assert (Hwp : wp (tick ms) (fun _ c' => state c' = TCPState.of_state
      (if 10 * TCPConfig.rt_timeout (_cfg c) <=? time then TCPState.CLOSED else TCPState.TIME_WAIT)) c).
  { unfold tick. wp_step. wp_step. wp_step. wp_step. unfold wpe at 1. simpl.
    rewrite (sender_tick_idle ms _ Hidle).
    change (set_sender (fun _ => _sender c) (set_time (fun k => u64 (k + ms)) c)) with c1. wp_step. wp_step.
    apply wp_if; [rewrite Z.ltb_lt; simpl; lia |]. intros _. wp_step. apply add_wp. wp_step. wp_step.
    rewrite Hsend', Hrecv' by done. unfold state, TCPState.of_parts. apply wp_when; simpl; rewrite Hlinger; simpl;
      change (time_since_last_segment_received c) with (_time_since_last_segment_received c) in time; fold time;
      intros Et; wp_steps; simpl; rewrite Et, ?Hact, ?Hlinger;
      unfold TCPState.of_state; f_equal; (exact Hsend || exact Hrecv || done || (unfold active in Hact; by rewrite Hact)). }
  apply wp_run in Hwp as ([] & c' & E & Hst'). eauto.
Qed.

(** ** Executions *)

Definition demo_cfg : TCPConfig.t := TCPConfig.mk 1000 16 16 (Some (WrappingInt32.of_Z 0)) false.
Definition demo_start : t := new demo_cfg 0.

Definition peer_seg (syn ack fin : bool) (seqno ackno : Z) (data : list byte) : TCPSegment.t :=
  TCPSegment.mk
    (TCPHeader.mk 0 0 (WrappingInt32.of_Z seqno) (WrappingInt32.of_Z ackno) 5 false ack false false syn fin 10 0 0)
    (Buffer.of_string data).

(** A passive open. *)
Definition demo_open : list event :=
  [Segment (peer_seg true false false 100 0 []); Pop_segment;
   Segment (peer_seg false true false 101 1 [])].

(** The peer sends three bytes. *)
Definition demo_data : TCPSegment.t := peer_seg false true false 101 1 [x61; x62; x63].

(** The handshake leads a listening connection to ESTABLISHED, and a connection
    that closes after its peer from there through CLOSE_WAIT and LAST_ACK to CLOSED. *)
Lemma passive_open_and_close :
  let c := run_events demo_open demo_start in
  let c1 := run_events [Segment (peer_seg false true true 101 1 [])] c in
  let c2 := run_events [End_input_stream] c1 in
  let c3 := run_events [Segment (peer_seg false true false 102 2 [])] c2 in
  state demo_start = TCPState.of_state TCPState.LISTEN /\
  state c = TCPState.of_state TCPState.ESTABLISHED /\
  state c1 = TCPState.of_state TCPState.CLOSE_WAIT /\
  state c2 = TCPState.of_state TCPState.LAST_ACK /\
  state c3 = TCPState.of_state TCPState.CLOSED.
Proof. vm_compute. auto 10. Qed.

(** The test that spares an empty acknowledgment looks at the connection's
    own queue instead of the sender's: when a segment is still waiting there, new
    data is accepted and not acknowledged, neither by that segment, which was
    stamped before, nor by another. *)
Example acknowledgment_suppressed :
  let c := run_events (demo_open ++ [Write [x7a]]) demo_start in
  let c' := run_events [Segment demo_data] c in
  len (_segments_out c) = 1 /\ _segments_out c' = _segments_out c /\
  TCPReceiver.ackno (_receiver c) = Some (WrappingInt32.of_Z 101) /\
  TCPReceiver.ackno (_receiver c') = Some (WrappingInt32.of_Z 104) /\
  Forall (fun seg => TCPHeader.ackno (TCPSegment.header seg) = WrappingInt32.of_Z 101) (_segments_out c').
Proof. vm_compute. split_and!; auto. Qed.

(** Segments that occupy sequence space should be ignored before the peer's SYN has come.
    They are answered: data in LISTEN with an empty segment that acknowledges nothing, and
    data in SYN_SENT too. *)
Example answered_without_syn :
  let data := peer_seg false false false 0 0 [x61] in
  let c := run_events [Segment data] demo_start in
  let d := run_events [Connect; Pop_segment] demo_start in
  let d' := run_events [Segment (peer_seg false true false 0 1 [x61])] d in
  state c = TCPState.of_state TCPState.LISTEN /\ len (_segments_out c) = 1 /\
  Forall (fun seg => TCPHeader.ack (TCPSegment.header seg) = false) (_segments_out c) /\
  state d = TCPState.of_state TCPState.SYN_SENT /\ len (_segments_out d) = 0 /\ len (_segments_out d') = 1.
Proof. vm_compute. split_and!; auto. Qed.

(** ** Witnesses *)

Lemma demo_config : config_ok demo_cfg.
Proof. split; simpl; try lia. intros isn [= <-]. apply WrappingInt32.wf_of_Z. Qed.

Definition demo_state : t := run_events demo_open demo_start.
Definition demo_out : list TCPSegment.t := popped demo_open demo_start.

Lemma conn_demo_reach : reach demo_start 2 [] demo_out [] demo_state.
Proof.
  assert (Ha : all_allowed demo_open demo_start) by (vm_compute; intuition congruence).
  pose proof (conn_reach_events demo_start demo_open 0 [] [] [] demo_start (reach_start _) Ha) as H.
  rewrite !app_nil_l in H. change (0 + costs demo_open) with 2 in H.
  replace (written demo_open demo_start) with (@nil byte) in H by (vm_compute; reflexivity).
  replace (read_bytes demo_open demo_start) with (@nil byte) in H by (vm_compute; reflexivity).
  exact H.
Qed.

Lemma connection_safe_witness :
  match exec_event (Segment demo_data) demo_state with
  | (Ok _, _) => True
  | (Throw e, _) => TCPReceiver.benign e
  end.
Proof.
  apply (connection_safe demo_cfg 0 2 [] demo_out [] demo_state).
  - exact demo_config.
  - exact conn_demo_reach.
  - vm_compute. intuition congruence.
  - lia.
  - vm_compute. reflexivity.
Defined.

Lemma connection_emits_stream_witness :
  Forall (fun seg => (exists a, segment_of [] (isn_of demo_cfg 0) a seg /\ a <= 2) /\ TCPSegment.sendable seg)
    (demo_out ++ _segments_out demo_state).
Proof.
  apply (connection_emits_stream demo_cfg 0 2 [] demo_out []).
  - exact demo_config.
  - exact conn_demo_reach.
  - right. lia.
Defined.

Lemma inactive_forever_witness :
  active (exec_event (Write [x61]) (reset true demo_start)).2 = false.
Proof. apply (inactive_forever (Write [x61]) (reset true demo_start)). reflexivity. Defined.

Lemma segments_stamped_witness :
  exists q, _segments_out (exec_event (Write [x7a]) demo_state).2 = _segments_out demo_state ++ q.
Proof.
  destruct (segments_stamped (Write [x7a]) demo_state) as (q & E & _).
  - discriminate.
  - exists q. exact E.
Defined.

Lemma segment_acked_witness :
  _segments_out (segment_received demo_data demo_state).2 <> [].
Proof.
  refine (proj1 (segment_acked demo_cfg 0 2 [] demo_out [] demo_state demo_data
    (segment_received demo_data demo_state).2 _ _ _ _ _ _ _ _ _ _ _)).
  - exact demo_config.
  - exact conn_demo_reach.
  - vm_compute. intuition congruence.
  - lia.
  - vm_compute. reflexivity.
  - reflexivity.
  - vm_compute. reflexivity.
  - vm_compute. reflexivity.
  - vm_compute. reflexivity.
  - vm_compute. reflexivity.
  - vm_compute. eexists. reflexivity.
Defined.

(** The peer resets the connection, with the sequence number that is expected. *)
Definition demo_rst : TCPSegment.t :=
  TCPSegment.mk (TCPHeader.mk 0 0 (WrappingInt32.of_Z 101) (WrappingInt32.of_Z 0) 5 false false false true false false 10 0 0)
    (Buffer.of_string []).

Lemma connection_resets_witness :
  exists c', segment_received demo_rst demo_state = (Ok tt, c') /\ state c' = TCPState.of_state TCPState.RESET.
Proof.
  destruct (connection_resets demo_state) as (Hrst & _ & _).
  destruct (Hrst demo_rst) as (c' & E & Hst & _).
  - vm_compute. reflexivity.
  - split; vm_compute; reflexivity.
  - exists c'. split; [exact E | exact Hst].
Defined.

(** An active close: FIN sent and acknowledged, then the peer's FIN. *)
Definition demo_close : list event :=
  demo_open ++ [End_input_stream; Segment (peer_seg false true false 101 2 []);
    Segment (peer_seg false true true 101 2 [])].
Definition demo_time_wait : t := run_events demo_close demo_start.

Lemma demo_reach_close : reach demo_start 5 [] (popped demo_close demo_start) [] demo_time_wait.
Proof.
  assert (Ha : all_allowed demo_close demo_start) by (vm_compute; intuition congruence).
  pose proof (conn_reach_events demo_start demo_close 0 [] [] [] demo_start (reach_start _) Ha) as H.
  rewrite !app_nil_l in H. change (0 + costs demo_close) with 5 in H.
  replace (written demo_close demo_start) with (@nil byte) in H by (vm_compute; reflexivity).
  replace (read_bytes demo_close demo_start) with (@nil byte) in H by (vm_compute; reflexivity).
  exact H.
Qed.

Lemma time_wait_expires_witness :
  exists c', tick 10000 demo_time_wait = (Ok tt, c') /\ state c' = TCPState.of_state TCPState.CLOSED.
Proof.
  destruct (time_wait_expires demo_cfg 0 5 [] (popped demo_close demo_start) [] demo_time_wait 10000)
    as (c' & E & H).
  - exact demo_config.
  - exact demo_reach_close.
  - lia.
  - vm_compute. reflexivity.
  - vm_compute. reflexivity.
  - vm_compute. congruence.
  - exists c'. split; [exact E |]. rewrite H. vm_compute. reflexivity.
Defined.
