(* ===== verification/tcp_duplex.v ===== *)
(** * Two connections and the network between them

    Each endpoint is a [TCPConnection]; the network keeps all the segments that
    have left either of them and may deliver any of them to the other side at
    any time, any number of times, or never. *)

From S2P Require Import prelude buffer wrapping_integers byte_stream stream_reassembler tcp_segment tcp_stream tcp_receiver tcp_sender tcp_stream_transfer tcp_connection.

Import TCPConnection ConnectionTrace.

(** Segments come from [net]; the rest is up to the owner. *)
Definition from_net (net : list TCPSegment.t) (ev : event) : Prop :=
  match ev with Segment seg => seg ∈ net | _ => True end.

(** [fed net c0 n W out inp c]: like [reach], with all the segments from [net]. *)
Inductive fed (net : list TCPSegment.t) (c0 : t) : Z -> list byte -> list TCPSegment.t -> list byte -> t -> Prop :=
| fed_start : fed net c0 0 [] [] [] c0
| fed_step n W out inp c ev o c' :
    fed net c0 n W out inp c -> allowed c ev -> from_net net ev -> exec_event ev c = (o, c') ->
    fed net c0 (n + cost ev) (W ++ accepted c ev) (out ++ popped_of o) (inp ++ read_of o) c'.

Lemma fed_reach net c0 n W out inp c : fed net c0 n W out inp c -> reach c0 n W out inp c.
Proof. induction 1; eauto using reach. Qed.

Lemma fed_mono net net' c0 n W out inp c :
  net ⊆ net' -> fed net c0 n W out inp c -> fed net' c0 n W out inp c.
Proof.
  intros Hnet. induction 1 as [|n W out inp c ev o c' _ IH Hev Hin Hexec]; [constructor |].
  eapply fed_step; [done | done | | done]. destruct ev; simpl in *; auto.
Qed.

(** The receiver of a connection that is fed segments of [S]. *)
Lemma receiver_step_honest S isn rd r ev c net :
  WrappingInt32.wf isn -> len S + 2 <= 2 ^ 31 -> TCPReceiver.receiving S isn rd r ->
  Forall (on_wire isn S) net -> allowed c ev -> from_net net ev ->
  receiver_step ev
    (fun bs r' => exists rd', TCPReceiver.receiving S isn rd' r' /\ rd <= rd' /\ bs = slice rd rd' S)
    (fun _ _ => False) r.
Proof.
  intros Hw Hl Hr Hnet Hev Hin.
  assert (Hsame : forall r', TCPReceiver.receiving S isn rd r' ->
    exists rd', TCPReceiver.receiving S isn rd' r' /\ rd <= rd' /\ [] = slice rd rd' S).
  { intros r' Hr'. exists rd. rewrite slice_nil by lia. split_and!; [done | lia | done]. }
  assert (Hfail : TCPReceiver.receiving S isn rd (fail_stream_out r)).
  { destruct Hr. split; try done. by apply ReassemblerTrace.assembled_fail. }
  destruct ev as [|data| |seg|ms|k|]; simpl in *; auto.
  - destruct (TCPHeader.rst _); [auto |]. apply list_elem_of_In in Hin. rewrite List.Forall_forall in Hnet.
    destruct (on_wire_near isn S rd seg r Hw Hl Hr (Hnet _ Hin)) as (a & Ha & Hn).
    pose proof (ReceiverTrace.receiver_event_wp S isn rd r (ReceiverTrace.Deliver seg) Hr) as Hwp.
    unfold wpe in *. simpl in Hwp. unfold bind in Hwp.
    destruct (TCPReceiver.segment_received seg r) as [[[]|e] r'].
    + destruct Hwp as (rd' & ? & ? & ? & _); [left |]; eauto.
    + apply Hwp. left. eauto.
  - eapply wp_mono; [by apply (TCPReceiver.receiver_read_wp S isn rd) |]. intros bs r' (-> & Hr' & _).
    eexists. split_and!; [done | | done].
    pose proof (TCPReceiver.assembled_range _ _ _ (TCPReceiver.rc_asm _ _ _ _ Hr)) as (? & _).
    unfold TCPReceiver.assembled_bytes. lia.
Qed.

(** The receiver of such a connection, and whether its next event returns. *)
Definition receives (S : list byte) (isn : WrappingInt32.t) (inp : list byte) (c : t) : Prop :=
  exists rd, TCPReceiver.receiving S isn rd (_receiver c) /\ inp = slice 0 rd S.

Lemma receives_step S isn net cfg random n W out inp c ev o c' :
  config_ok cfg -> WrappingInt32.wf isn -> len S + 2 <= 2 ^ 31 -> Forall (on_wire isn S) net ->
  sends cfg random n W out c -> receives S isn inp c -> 0 <= n -> budget cfg (n + cost ev) ->
  allowed c ev -> from_net net ev -> exec_event ev c = (o, c') ->
  receives S isn (inp ++ read_of o) c' /\ exists v, o = Ok v.
Proof.
  intros Hok Hw Hl Hnet Hs (rd & Hr & ->) Hn Hb Hev Hin Hexec.
  destruct (sends_step _ _ _ _ _ _ _ _ _ _ _ Hok Hs Hn Hb Hev (receiver_step_honest S isn rd _ ev c net Hw Hl Hr Hnet Hev Hin) Hexec)
    as [_ Hrec].
  destruct o as [[bs segs]|e]; [| done]. destruct Hrec as (rd' & Hr' & Hle & ->). split; [| by eexists].
  exists rd'. split; [done |]. pose proof (TCPReceiver.assembled_range _ _ _ (TCPReceiver.rc_asm _ _ _ _ Hr)) as (? & _).
  simpl. by rewrite slice_app by lia.
Qed.

Lemma fed_receives S isn net cfg random n W out inp c :
  config_ok cfg -> TCPConfig.recv_capacity cfg < 2 ^ 62 -> WrappingInt32.wf isn -> len S + 2 <= 2 ^ 31 ->
  Forall (on_wire isn S) net -> fed net (new cfg random) n W out inp c -> budget cfg n -> receives S isn inp c.
Proof.
  intros Hok Hcap Hw Hl Hnet Hf. pose proof (cfg_recv _ Hok). pose proof (len_nonneg S).
  induction Hf as [|n W out inp c ev o c' Hf IH Hev Hin Hexec]; intros Hb.
  - exists 0. split; [apply TCPReceiver.receiving_new; [done | done | lia] | by rewrite slice_nil].
  - destruct (reach_sends _ _ _ _ _ _ _ Hok (fed_reach _ _ _ _ _ _ _ Hf)) as [Hn Hs]. pose proof (cost_range ev).
    assert (Hb' : budget cfg n) by (eapply budget_mono; [done | lia]).
    by eapply (receives_step S isn net cfg random n W out inp c ev o c'); eauto.
Qed.

(** ** The two endpoints *)

(** An endpoint: number of events, bytes written, segments sent, bytes read, state. *)
Definition endpoint : Type := Z * list byte * list TCPSegment.t * list byte * t.

Definition sent (e : endpoint) : list TCPSegment.t := let '(_, _, out, _, _) := e in out.

(** One event at an endpoint, fed from what the peer has sent. *)
Inductive endpoint_step (peer : list TCPSegment.t) : endpoint -> endpoint -> Prop :=
| endpoint_event n W out inp c ev o c' :
    allowed c ev -> from_net peer ev -> exec_event ev c = (o, c') ->
    endpoint_step peer (n, W, out, inp, c)
      (n + cost ev, W ++ accepted c ev, out ++ popped_of o, inp ++ read_of o, c').

Inductive duplex (a0 b0 : t) : endpoint -> endpoint -> Prop :=
| duplex_start : duplex a0 b0 (0, [], [], [], a0) (0, [], [], [], b0)
| duplex_left a b a' : duplex a0 b0 a b -> endpoint_step (sent b) a a' -> duplex a0 b0 a' b
| duplex_right a b b' : duplex a0 b0 a b -> endpoint_step (sent a) b b' -> duplex a0 b0 a b'.

Definition fed_endpoint (net : list TCPSegment.t) (c0 : t) (e : endpoint) : Prop :=
  let '(n, W, out, inp, c) := e in fed net c0 n W out inp c.

Lemma fed_endpoint_step net peer c0 e e' :
  peer ⊆ net -> endpoint_step peer e e' -> fed_endpoint net c0 e ->
  fed_endpoint net c0 e' /\ sent e ⊆ sent e'.
Proof.
  intros Hsub [n W out inp c ev o c' Hev Hin Hexec] Hf. simpl in *. split.
  - eapply fed_step; [done | done | | done]. destruct ev; simpl in *; auto.
  - intros seg Hseg. apply elem_of_app. by left.
Qed.

Lemma fed_endpoint_mono net net' c0 e : net ⊆ net' -> fed_endpoint net c0 e -> fed_endpoint net' c0 e.
Proof. destruct e as [[[[n W] out] inp] c]. apply fed_mono. Qed.

Lemma duplex_fed a0 b0 a b :
  duplex a0 b0 a b -> fed_endpoint (sent b) a0 a /\ fed_endpoint (sent a) b0 b.
Proof.
  induction 1 as [|a b a' _ [Ha Hb] Hstep|a b b' _ [Ha Hb] Hstep]; [split; constructor | |].
  - destruct (fed_endpoint_step (sent b) (sent b) a0 a a') as [? ?]; eauto using fed_endpoint_mono.
  - destruct (fed_endpoint_step (sent a) (sent a) b0 b b') as [? ?]; eauto using fed_endpoint_mono.
Qed.

Lemma sent_on_wire cfg random n W out inp c :
  config_ok cfg -> budget cfg n -> reach (new cfg random) n W out inp c -> Forall (on_wire (isn_of cfg random) W) out.
Proof.
  intros Hok Hb Hr. pose proof (reach_emits _ _ _ _ _ _ _ Hok Hr Hb) as Ho.
  apply Forall_app in Ho as [Ho _]. eapply Forall_impl; [| exact Ho]. intros seg ((a & ? & ?) & _). by exists a.
Qed.

(** What an endpoint has read, followed by what it can read, is a prefix of [S]. *)
Definition delivers (S : list byte) (inp : list byte) (c : t) : Prop :=
  let got := inp ++ ByteStream.contents (inbound_stream c) in
  got = ztake (len got) S /\ (ByteStream.input_ended (inbound_stream c) = true -> got = S).

Lemma receives_delivers S isn inp c : receives S isn inp c -> delivers S inp c.
Proof.
  intros (rd & Hr & ->). pose proof (TCPReceiver.assembled_range _ _ _ (TCPReceiver.rc_asm _ _ _ _ Hr)) as (? & ? & ? & ? & ?).
  unfold delivers, inbound_stream, TCPReceiver.stream_out, StreamReassembler.stream_out.
  rewrite (ReassemblerTrace.assembled_contents S rd) by apply Hr. rewrite slice_app, slice_0 by lia.
  rewrite len_ztake, Z.min_l, Z.max_r by lia. split; [done |].
  destruct Hr, rc_asm. rewrite as_ended. intros He%Z.eqb_eq. apply ztake_ge. unfold UINT64_MAX in *. lia.
Qed.

Lemma duplex_sym a0 b0 a b : duplex a0 b0 a b -> duplex b0 a0 b a.
Proof. induction 1; eauto using duplex. Qed.

(** ** Property *)

(** [C1] Both directions at once: two connections that exchange segments over a
    network that loses, duplicates, delays and reorders them deliver to each
    application a prefix of what the other one wrote, and all of it once the
    inbound stream has ended.  Neither stream is longer than 2^31 bytes; without
    congestion control there is no bound on the number of events, with it 2^47. *)
Theorem duplex_integrity cfgA cfgB randA randB nA WA outA inpA cA nB WB outB inpB cB :
  config_ok cfgA -> config_ok cfgB ->
  TCPConfig.recv_capacity cfgA < 2 ^ 62 -> TCPConfig.recv_capacity cfgB < 2 ^ 62 ->
  duplex (new cfgA randA) (new cfgB randB) (nA, WA, outA, inpA, cA) (nB, WB, outB, inpB, cB) ->
  budget cfgA nA -> budget cfgB nB -> len WA + 2 <= 2 ^ 31 -> len WB + 2 <= 2 ^ 31 ->
  delivers WA inpB cB /\ delivers WB inpA cA.
Proof.
  intros HokA HokB HcA HcB Hd HnA HnB HlA HlB. destruct (duplex_fed _ _ _ _ Hd) as [HfA HfB]. simpl in *.
  pose proof (sent_on_wire _ _ _ _ _ _ _ HokA HnA (fed_reach _ _ _ _ _ _ _ HfA)) as HwA.
  pose proof (sent_on_wire _ _ _ _ _ _ _ HokB HnB (fed_reach _ _ _ _ _ _ _ HfB)) as HwB.
  pose proof (isn_of_wf cfgA randA HokA) as HiA. pose proof (isn_of_wf cfgB randB HokB) as HiB.
  split; eapply receives_delivers.
  - by eapply (fed_receives WA (isn_of cfgA randA) outA cfgB randB nB WB outB).
  - by eapply (fed_receives WB (isn_of cfgB randB) outB cfgA randA nA WA outA).
Qed.

(** ** Witness: an execution *)

(** A script: what the owner of an endpoint does, and the delivery of the
    [i]-th segment its peer has sent. *)
Inductive action : Type :=
| Do (ev : event)
| Deliver (i : nat).

Definition resolve (peer : list TCPSegment.t) (a : action) : event :=
  match a with
  | Do (Segment _) => Pop_segment
  | Do ev => ev
  | Deliver i => match peer !! i with Some seg => Segment seg | None => Pop_segment end
  end.

Lemma resolve_from_net peer a : from_net peer (resolve peer a).
Proof.
  destruct a as [[]|i]; simpl; try done. destruct (peer !! i) eqn:E; simpl; [| done].
  by eapply list_elem_of_lookup_2.
Qed.

Definition act (peer : list TCPSegment.t) (a : action) (e : endpoint) : endpoint :=
  let '(n, W, out, inp, c) := e in
  let ev := resolve peer a in
  let '(o, c') := exec_event ev c in
  (n + cost ev, W ++ accepted c ev, out ++ popped_of o, inp ++ read_of o, c').

Definition act_ok (peer : list TCPSegment.t) (a : action) (e : endpoint) : Prop :=
  let '(n, W, out, inp, c) := e in allowed c (resolve peer a).

Lemma act_step peer a e : act_ok peer a e -> endpoint_step peer e (act peer a e).
Proof.
  destruct e as [[[[n W] out] inp] c]. simpl. intros Ha.
  destruct (exec_event (resolve peer a) c) as [o c'] eqn:E.
  by apply endpoint_event; [| apply resolve_from_net |].
Qed.

(** [true] for the left endpoint. *)
Fixpoint play (script : list (bool * action)) (a b : endpoint) : endpoint * endpoint :=
  match script with
  | [] => (a, b)
  | (true, x) :: script' => play script' (act (sent b) x a) b
  | (false, x) :: script' => play script' a (act (sent a) x b)
  end.

Fixpoint play_ok (script : list (bool * action)) (a b : endpoint) : Prop :=
  match script with
  | [] => True
  | (true, x) :: script' => act_ok (sent b) x a /\ play_ok script' (act (sent b) x a) b
  | (false, x) :: script' => act_ok (sent a) x b /\ play_ok script' a (act (sent a) x b)
  end.

Lemma play_duplex a0 b0 script a b :
  duplex a0 b0 a b -> play_ok script a b ->
  duplex a0 b0 (play script a b).1 (play script a b).2.
Proof.
  revert a b. induction script as [|[[] x] script IH]; intros a b Hd Hok; simpl in *; [done | |];
    destruct Hok; apply IH; eauto using duplex, act_step.
Qed.

Definition cfg_left : TCPConfig.t := TCPConfig.mk 1000 16 16 (Some (WrappingInt32.of_Z 4294967295)) false.
Definition cfg_right : TCPConfig.t := TCPConfig.mk 1000 16 16 (Some (WrappingInt32.of_Z 7)) true.

(** Handshake; the left side writes three bytes in two segments, the first of
    which is lost, retransmitted and arrives last. *)
Definition script : list (bool * action) :=
  [(true, Do Connect); (true, Do Pop_segment); (false, Deliver 0); (false, Do Pop_segment);
   (true, Deliver 0); (true, Do (Write [x61])); (true, Do (Write [x62; x63]));
   (true, Do Pop_segment); (true, Do Pop_segment); (true, Do Pop_segment);
   (false, Deliver 3); (false, Deliver 1); (true, Do (Tick 1000)); (true, Do Pop_segment);
   (false, Deliver 4); (false, Do (Read_inbound 2))].

Definition start_left : endpoint := (0, [], [], [], new cfg_left 0).
Definition start_right : endpoint := (0, [], [], [], new cfg_right 0).
Definition final : endpoint * endpoint := play script start_left start_right.

Definition state_of (e : endpoint) : t := let '(_, _, _, _, c) := e in c.
Definition read_by (e : endpoint) : list byte := let '(_, _, _, inp, _) := e in inp.

Lemma script_ok : play_ok script start_left start_right.
Proof. vm_compute. intuition congruence. Qed.

Lemma config_left : config_ok cfg_left.
Proof. split; simpl; try lia. intros isn [= <-]. apply WrappingInt32.wf_of_Z. Qed.
Lemma config_right : config_ok cfg_right.
Proof. split; simpl; try lia. intros isn [= <-]. apply WrappingInt32.wf_of_Z. Qed.

Lemma duplex_integrity_witness :
  delivers [x61; x62; x63] [x61; x62] (state_of final.2).
Proof.
  destruct (duplex_integrity cfg_left cfg_right 0 0 5 [x61; x62; x63] (sent final.1) [] (state_of final.1)
    5 [] (sent final.2) [x61; x62] (state_of final.2)) as [H _].
  - exact config_left.
  - exact config_right.
  - vm_compute. reflexivity.
  - vm_compute. reflexivity.
  - pose proof (play_duplex (new cfg_left 0) (new cfg_right 0) script start_left start_right
      (duplex_start _ _) script_ok) as Hd.
    replace (5, [x61; x62; x63], sent final.1, [], state_of final.1) with final.1 by (vm_compute; reflexivity).
    replace (5, [], sent final.2, [x61; x62], state_of final.2) with final.2 by (vm_compute; reflexivity).
    exact Hd.
  - right. lia.
  - right. lia.
  - vm_compute. congruence.
  - vm_compute. congruence.
  - exact H.
Defined.
