(* ===== verification/tcp_benchmark.v ===== *)
(** * apps/tcp_benchmark: two connections in one process

    The program moves a string from one connection to another, in order or with the
    segments of every turn reversed, and compares what arrives with what was sent.
    The state holds the local variables of [main_loop]; the random initial sequence numbers are
    parameters, and so is the string, which [main] draws. *)

From S2P Require Import prelude buffer wrapping_integers byte_stream stream_reassembler tcp_segment tcp_stream tcp_receiver tcp_sender tcp_stream_transfer tcp_connection tcp_duplex.

Module Benchmark.

Record t : Type := mk {
  x : TCPConnection.t;
  y : TCPConnection.t;
  bytes_to_send : Buffer.t;
  x_closed : bool;
  string_received : list byte
}.
Definition eta (s : t) : t := mk (x s) (y s) (bytes_to_send s) (x_closed s) (string_received s).
#[global] Instance set_x : Setter x := ltac:(derive_setter eta x).
#[global] Instance set_y : Setter y := ltac:(derive_setter eta y).
#[global] Instance set_bytes_to_send : Setter bytes_to_send := ltac:(derive_setter eta bytes_to_send).
#[global] Instance set_x_closed : Setter x_closed := ltac:(derive_setter eta x_closed).
#[global] Instance set_string_received : Setter string_received := ltac:(derive_setter eta string_received).

(** *** [move_segments]: the first loop pops the queue, the second delivers *)

Fixpoint take_segments (q segments : list TCPSegment.t) : M TCPConnection.t (list TCPSegment.t) :=
  match q with
  | [] => pure segments
  | seg :: q => TCPConnection._segments_out ::= q ;; take_segments q (segments ++ [seg])
  end.

Fixpoint deliver_segments (segments : list TCPSegment.t) : M TCPConnection.t unit :=
  match segments with
  | [] => pure tt
  | seg :: segments => TCPConnection.segment_received seg ;; deliver_segments segments
  end.

Definition move_segments (from to : t -> TCPConnection.t) `{!Setter from} `{!Setter to} (segments : list TCPSegment.t)
    (reorder : bool) : M t (list TCPSegment.t) :=
  let* q := asks (fun s => TCPConnection._segments_out (from s)) in
  let* segments := zoom from (take_segments q segments) in
  zoom to (deliver_segments (if reorder then reverse segments else segments)) ;;
  pure [].

(** *** The lambda [loop] *)

(** [while (bytes_to_send.size() and x.remaining_outbound_capacity())]: every turn sends at
    least one byte. *)
Fixpoint write_loop (fuel : nat) : M t unit :=
  let* size := asks (fun s => Buffer.size (bytes_to_send s)) in
  let* room := asks (fun s => TCPConnection.remaining_outbound_capacity (x s)) in
  if to_bool size && to_bool room then
    match fuel with
    | O => throw OutOfFuel
    | S fuel =>
        let want := Z.min room size in
        let* data := asks (fun s => ztake want (Buffer.str (bytes_to_send s))) in
        let* written := zoom x (TCPConnection.write data) in
        if negb (want =? written) then
          throw (Runtime_error ("want = " +:+ std_to_string want +:+ ", written = " +:+ std_to_string written))
        else
          let* b := asks bytes_to_send in
          let* b := of_outcome (Buffer.remove_prefix written b) in
          bytes_to_send ::= b ;;
          write_loop fuel
    end
  else pure tt.

Definition write_input : M t unit :=
  let* fuel := asks (fun s => Z.to_nat (Buffer.size (bytes_to_send s))) in
  write_loop fuel.

Definition close_input : M t unit :=
  let* size := asks (fun s => Buffer.size (bytes_to_send s)) in
  let* closed := asks x_closed in
  when ((size =? 0) && negb closed) (
    zoom x TCPConnection.end_input_stream ;;
    x_closed ::= true).

Definition exchange_segments (reorder : bool) : M t unit :=
  let* segments := move_segments x y [] reorder in
  let* _ := move_segments y x segments false in
  pure tt.

Definition read_output : M t unit :=
  let* available_output := asks (fun s => ByteStream.buffer_size (TCPConnection.inbound_stream (y s))) in
  when (0 <? available_output) (
    let* data := zoom y (zoom TCPConnection._receiver (TCPReceiver.read available_output)) in
    string_received %= (fun r => r ++ data)).

Definition loop (reorder : bool) : M t unit :=
  write_input ;;
  close_input ;;
  exchange_segments reorder ;;
  read_output ;;
  zoom x (TCPConnection.tick 1000) ;;
  zoom y (TCPConnection.tick 1000).

(** [while (condition) body], at most [n] times: whether the condition came to fail. *)
Fixpoint while (n : nat) (condition : t -> bool) (body : M t unit) : M t bool :=
  let* go := asks condition in
  if go then
    match n with
    | O => pure false
    | S n => body ;; while n condition body
    end
  else pure true.

(** [main_loop], where each of its two loops may make [n] turns: whether it came to its
    end. *)
Definition start (string_to_send : list byte) (random_x random_y : Z) : t :=
  mk (TCPConnection.new TCPConfig.default random_x) (TCPConnection.new TCPConfig.default random_y)
    (Buffer.of_string string_to_send) false [].

Definition main_loop (n : nat) (reorder : bool) (string_to_send : list byte) : M t bool :=
  zoom x TCPConnection.connect ;;
  zoom y TCPConnection.end_input_stream ;;
  let* finished := while n (fun s => negb (ByteStream.eof (TCPConnection.inbound_stream (y s)))) (loop reorder) in
  if negb finished then pure false
  else
    let* received := asks string_received in
    if bool_decide (received <> string_to_send) then
      throw (Runtime_error "strings sent vs. received don't match")
    else while n (fun s => TCPConnection.active (x s) || TCPConnection.active (y s)) (loop reorder).

(** ** The two connections as endpoints of a network *)

Import TCPConnection ConnectionTrace.

Notation cfg := TCPConfig.default.

Lemma default_ok : config_ok cfg.
Proof. by split. Qed.
Lemma default_budget n : budget cfg n.
Proof. by left. Qed.

(** What one side has written, sent and read, and its connection. *)
Record side : Type := mk_side { wrote : list byte; sent : list TCPSegment.t; got : list byte; conn : TCPConnection.t }.

Definition joined (ra rb : Z) (a b : side) : Prop := exists na nb,
  duplex (new cfg ra) (new cfg rb) (na, wrote a, sent a, got a, conn a) (nb, wrote b, sent b, got b, conn b).

Lemma joined_sym ra rb a b : joined ra rb a b -> joined rb ra b a.
Proof. intros (na & nb & Hd). exists nb, na. by apply duplex_sym. Qed.

Lemma joined_new ra rb : joined ra rb (mk_side [] [] [] (new cfg ra)) (mk_side [] [] [] (new cfg rb)).
Proof. exists 0, 0. constructor. Qed.

(** The sender's side of [a]. *)
Lemma joined_sends ra rb a b : joined ra rb a b -> exists n, 0 <= n /\ sends cfg ra n (wrote a) (sent a) (conn a).
Proof.
  intros (na & nb & Hd). destruct (duplex_fed _ _ _ _ Hd) as [Hf _]. apply fed_reach in Hf.
  destruct (reach_sends _ _ _ _ _ _ _ default_ok Hf) as [? Hs]. exists na. split; [done |]. apply Hs, default_budget.
Qed.

Lemma joined_emits ra rb a b : joined ra rb a b ->
  Forall (fun seg => on_wire (isn_of cfg ra) (wrote a) seg /\ TCPSegment.sendable seg) (sent a).
Proof.
  intros (na & nb & Hd). destruct (duplex_fed _ _ _ _ Hd) as [Hf _]. apply fed_reach in Hf.
  pose proof (reach_emits _ _ _ _ _ _ _ default_ok Hf (default_budget na)) as Ho. apply Forall_app in Ho as [Ho _].
  eapply Forall_impl; [| exact Ho]. intros seg ((? & ? & ?) & ?). split; [by eexists | done].
Qed.

(** What [a] reads is part of any stream that [b]'s segments may belong to. *)
Lemma joined_receives ra rb a b S : joined ra rb a b -> len S + 2 <= 2 ^ 31 ->
  Forall (on_wire (isn_of cfg rb) S) (sent b) -> receives S (isn_of cfg rb) (got a) (conn a).
Proof.
  intros (na & nb & Hd) Hl Hw. destruct (duplex_fed _ _ _ _ Hd) as [Hf _].
  eapply (fed_receives S _ (sent b) cfg); [apply default_ok | done | apply isn_of_wf, default_ok | done | done | exact Hf | apply default_budget].
Qed.

(** An event of [a], fed from what [b] has sent, returns. *)
Lemma joined_event ra rb a b ev : joined ra rb a b -> len (wrote b) + 2 <= 2 ^ 31 -> allowed (conn a) ev -> from_net (sent b) ev ->
  exists v c', exec_event ev (conn a) = (Ok v, c') /\
    joined ra rb (mk_side (wrote a ++ accepted (conn a) ev) (sent a ++ v.2) (got a ++ v.1) c') b.
Proof.
  intros Hj Hl Hev Hin. destruct (joined_sends _ _ _ _ Hj) as (n & Hn & Hs).
  assert (Hw : Forall (on_wire (isn_of cfg rb) (wrote b)) (sent b)).
  { eapply Forall_impl; [| apply (joined_emits rb ra b a), joined_sym, Hj]. by intros seg []. }
  pose proof (joined_receives _ _ _ _ _ Hj Hl Hw) as Hr.
  destruct (exec_event ev (conn a)) as [o c'] eqn:Eexec.
  destruct (receives_step (wrote b) (isn_of cfg rb) (sent b) cfg ra n (wrote a) (sent a) (got a) (conn a) ev o c'
    default_ok (isn_of_wf _ _ default_ok) Hl Hw Hs Hr Hn (default_budget _) Hev Hin Eexec) as [_ [[bs segs] ->]].
  exists (bs, segs), c'. split; [done |]. destruct Hj as (na & nb & Hd). exists (na + cost ev), nb.
  eapply duplex_left; [exact Hd |]. by apply (endpoint_event (sent b) na _ _ _ _ ev (Ok (bs, segs)) c').
Qed.

(** A call that is an event. *)
Lemma joined_call {B} ra rb a b ev (m : M TCPConnection.t B) (Q : B -> TCPConnection.t -> Prop) E :
  joined ra rb a b -> len (wrote b) + 2 <= 2 ^ 31 -> allowed (conn a) ev -> from_net (sent b) ev ->
  exec_event ev (conn a) = bind m (fun _ => pure ([], [])) (conn a) ->
  (forall v c', m (conn a) = (Ok v, c') ->
     joined ra rb (mk_side (wrote a ++ accepted (conn a) ev) (sent a) (got a) c') b -> Q v c') -> wpe m Q E (conn a).
Proof.
  intros Hj Hl Hev Hin Em HQ. destruct (joined_event _ _ _ _ _ Hj Hl Hev Hin) as (v & c' & Eexec & Hj').
  rewrite Em in Eexec. unfold wpe, bind in *. destruct (m (conn a)) as [[r|e] c1] eqn:Er; [| done].
  injection Eexec as <- <-. apply HQ; [done |]. by rewrite !app_nil_r in Hj'.
Qed.

(** ** The parts of a turn *)

Lemma take_segments_wp ra rb b q : forall a segments E,
  joined ra rb a b -> len (wrote b) + 2 <= 2 ^ 31 -> _segments_out (conn a) = q ->
  wpe (take_segments q segments)
    (fun r c' => r = segments ++ q /\ joined ra rb (mk_side (wrote a) (sent a ++ q) (got a) c') b /\ _sender c' = _sender (conn a))
    E (conn a).
Proof.
  induction q as [|seg q IH]; intros a segments E Hj Hl Eq; cbn [take_segments].
  - wp_step. rewrite !app_nil_r. split_and!; [done | | done]. by destruct a.
  - wp_step. wp_step. destruct (joined_event _ _ _ _ Pop_segment Hj Hl ltac:(done) ltac:(done)) as (v & c' & Eexec & Hj').
    unfold exec_event, bind, asks in Eexec. rewrite Eq in Eexec. injection Eexec as <- <-. simpl in Hj'. rewrite !app_nil_r in Hj'.
    eapply wp_mono; [exact (IH _ _ E Hj' Hl eq_refl) |]. simpl. intros r c' (-> & Hj2 & Es). by rewrite <- !app_assoc in *.
Qed.

Lemma joined_allowed ra rb a b seg : joined ra rb a b -> seg ∈ sent b -> allowed (conn a) (Segment seg).
Proof.
  intros Hj%joined_sym Hin. apply joined_emits in Hj. rewrite list.Forall_forall in Hj. destruct (Hj seg Hin) as [_ [[] ?]].
  unfold allowed, TCPSegment.header, TCPSegment.payload. lia.
Qed.

Lemma deliver_segments_wp ra rb b segs : forall a E,
  joined ra rb a b -> len (wrote b) + 2 <= 2 ^ 31 -> segs ⊆ sent b ->
  wpe (deliver_segments segs)
    (fun _ c' => joined ra rb (mk_side (wrote a) (sent a) (got a) c') b /\ outbound_ended c' = outbound_ended (conn a)) E (conn a).
Proof.
  induction segs as [|seg segs IH]; intros a E Hj Hl Hsub; cbn [deliver_segments].
  - wp_step. split; [by destruct a | done].
  - assert (Hin : seg ∈ sent b /\ segs ⊆ sent b) by set_solver. destruct Hin as [Hin Hsub']. wp_step.
    eapply (joined_call _ _ _ _ (Segment seg)); [exact Hj | done | by eapply joined_allowed | done | done |].
    intros [] c' Eseg Hj'. simpl in Hj'. rewrite app_nil_r in Hj'.
    eapply wp_mono; [exact (IH _ E Hj' Hl Hsub') |]. simpl. intros [] c2 [? E2]. split; [done |]. rewrite E2.
    pose proof (segment_keeps_ended seg (conn a)) as Hk. by rewrite Eseg in Hk.
Qed.

Lemma move_segments_wp (from to : Benchmark.t -> TCPConnection.t) `{!Setter from} `{!Setter to} ra rb a b reorder s E :
  (forall c s, to (setf from c s) = to s) ->
  joined ra rb a b -> conn a = from s -> conn b = to s -> len (wrote a) + 2 <= 2 ^ 31 -> len (wrote b) + 2 <= 2 ^ 31 ->
  wpe (move_segments from to [] reorder)
    (fun r s' => r = [] /\ exists q c1 c2, s' = setf to c2 (setf from c1 s) /\
       joined ra rb (mk_side (wrote a) (sent a ++ q) (got a) c1) (mk_side (wrote b) (sent b) (got b) c2) /\
       outbound_ended c1 = outbound_ended (from s) /\ outbound_ended c2 = outbound_ended (to s)) E s.
Proof.
  intros Hto Hj Ea Eb Hla Hlb. unfold move_segments. wp_step. wp_step. wp_step. wp_step. rewrite <- Ea.
  eapply wp_mono; [by apply (take_segments_wp ra rb b) |]. intros segs c1 (-> & Hj1 & Es). simpl app. set (q := _segments_out (conn a)) in *.
  wp_step. wp_step. rewrite Hto, <- Eb. apply joined_sym in Hj1.
  eapply wp_mono; [eapply (deliver_segments_wp rb ra _ _ b); [exact Hj1 | done |] |].
  { simpl. destruct reorder; [rewrite (reverse_Permutation q) |]; set_solver. }
  intros [] c2 [Hj2%joined_sym Eo]. wp_step. split; [done |]. exists q, c1, c2. rewrite Ea in *.
  split_and!; [done | done | unfold outbound_ended; by rewrite Es | done].
Qed.

(** Ending the stream. *)
Lemma end_input_ends c : wpe end_input_stream (fun _ c' => outbound_ended c' = true) (fun _ _ => True) c.
Proof.
  unfold end_input_stream, ByteStream.end_input. do 4 wp_step.
  eapply keeps_value; [exact connect_keeps_ended | done].
Qed.

Section turns.
Context (string_to_send base : list byte) (ra rb : Z).
Hypothesis short : len string_to_send + 2 <= 2 ^ 31.

(** Between any two statements: [x] has written what is no longer waiting, [y] has read
    what was received, beginning with [base], and [x] has ended its stream when everything
    is written. *)
Definition inv (s : Benchmark.t) : Prop := exists a b,
  joined ra rb a b /\ conn a = x s /\ conn b = y s /\
  wrote a ++ Buffer.str (bytes_to_send s) = string_to_send /\ wrote b = [] /\ got b = string_received s /\
  Buffer.wf (bytes_to_send s) /\ outbound_ended (x s) = x_closed s /\ (x_closed s = true -> Buffer.str (bytes_to_send s) = []) /\
  base `prefix_of` got b.

Lemma inv_len a (s : Benchmark.t) : wrote a ++ Buffer.str (bytes_to_send s) = string_to_send -> len (wrote a) + 2 <= 2 ^ 31.
Proof. intros E. rewrite <- E, len_app in short. pose proof (len_nonneg (Buffer.str (bytes_to_send s))). lia. Qed.

Lemma ra_written a b : joined ra rb a b -> ByteStream.bytes_written (TCPSender.stream_in (_sender (conn a))) = len (wrote a).
Proof.
  intros Hj. destruct (joined_sends _ _ _ _ Hj) as (n & _ & [[(una & rd & Hs) _ _ _ _] _]).
  by eapply SenderTrace.sender_bytes_written.
Qed.

(** Only a stream that was not ended is written to. *)
Lemma write_input_wp fuel : forall s E,
  inv s -> Buffer.size (bytes_to_send s) <= Z.of_nat fuel -> wpe (write_loop fuel) (fun _ => inv) E s.
Proof.
  induction fuel as [|fuel IH]; intros s E Hinv Hfuel; cbn [write_loop]; do 4 wp_step; (apply wp_if; intros C; [| by wp_step]);
    apply andb_true_iff in C as [C1%to_bool_true C2%to_bool_true];
    destruct Hinv as (a & b & Hj & Ex & Ey & Ew & Eb & Eg & Hwf & Ecl & Hcl & Hbase);
    pose proof (len_nonneg (Buffer.str (bytes_to_send s))); unfold Buffer.size in *.
  { lia. }
  set (size := len (Buffer.str (bytes_to_send s))) in *. set (room := remaining_outbound_capacity (x s)) in *.
  assert (Hroom : 0 <= room) by apply u64_range. cbv zeta. wp_step. wp_step. set (data := ztake _ _).
  assert (Hdata : len data = Z.min room size) by (unfold data; rewrite len_ztake; fold size; lia).
  wp_step. wp_step. rewrite <- Ex.
  assert (Hopen : outbound_ended (x s) = false).
  { rewrite Ecl. destruct (x_closed s); [| done]. specialize (Hcl eq_refl). unfold size in C1. by rewrite Hcl in C1. }
  eapply (joined_call ra rb a b (Write data)); [exact Hj | rewrite Eb; done | | done | done |].
  { split; [by rewrite Ex |]. rewrite (ra_written _ _ Hj).
    assert (len (wrote a) + size = len string_to_send) by (by rewrite <- Ew, len_app). lia. }
  intros written c' Ewr Hj'. pose proof (write_returns _ _ _ _ Ewr) as Eret. rewrite Ex in Eret. fold room in Eret.
  assert (Ewritten : written = Z.min room size) by lia.
  rewrite <- Ewritten, Z.eqb_refl. simpl negb. cbv iota. wp_step. wp_step. wp_step.
  destruct (Buffer.remove_prefix_str (bytes_to_send s) written Hwf) as (b' & Erem & Estr & Hwf'); [unfold Buffer.size; fold size; lia |].
  simpl bytes_to_send. eapply wp_of_outcome; [exact Erem |]. wp_step. wp_step. apply IH.
  - exists (mk_side (wrote a ++ data) (sent a) (got a) c'), b.
    assert (Eacc : accepted (conn a) (Write data) = data) by (simpl; rewrite Ex; fold room; apply ztake_ge; lia).
    rewrite Eacc in Hj'. split_and!; simpl; try done.
    + rewrite <- app_assoc, Estr. unfold data. rewrite <- Ewritten, ztake_zdrop. done.
    + pose proof (write_keeps_ended data (conn a)) as Hk. rewrite Ewr in Hk. simpl in Hk. by rewrite Hk, Ex.
    + intros Hc. rewrite Estr, Hcl by done. apply drop_nil.
  - simpl. unfold Buffer.size. rewrite Estr, len_zdrop. fold size. lia.
Qed.

Lemma close_input_wp s E : inv s -> wpe close_input (fun _ => inv) E s.
Proof.
  intros Hinv. unfold close_input. do 4 wp_step. apply wp_when; intros C; [| done]. apply andb_true_iff in C as [C1%Z.eqb_eq C2].
  destruct Hinv as (a & b & Hj & Ex & Ey & Ew & Eb & Eg & Hwf & Ecl & Hcl & Hbase). wp_step. wp_step. rewrite <- Ex.
  eapply (joined_call ra rb a b End_input_stream); [exact Hj | by rewrite Eb | done | done | done |].
  intros [] c' Eend Hj'. simpl in Hj'. rewrite app_nil_r in Hj'. wp_step.
  pose proof (end_input_ends (conn a)) as Hend. unfold wpe in Hend. rewrite Eend in Hend.
  eexists _, b. split_and!; [exact Hj' | done.. | intros _; by apply len_nil_inv | done].
Qed.

Lemma exchange_segments_wp reorder s E : inv s -> wpe (exchange_segments reorder) (fun _ => inv) E s.
Proof.
  unfold exchange_segments.
  intros (a & b & Hj & Ex & Ey & Ew & Eb & Eg & Hwf & Ecl & Hcl & Hbase). pose proof (inv_len _ _ Ew) as Hla.
  assert (Hlb : len (wrote b) + 2 <= 2 ^ 31) by (by rewrite Eb).
  wp_step. eapply wp_mono; [by apply (move_segments_wp x y ra rb a b) |].
  intros r s1 (-> & q & c1 & c2 & -> & Hj1%joined_sym & Eo1 & Eo2).
  wp_step. eapply wp_mono; [by eapply (move_segments_wp y x rb ra); [done | exact Hj1 | done..] |].
  simpl. intros r s2 (-> & q2 & c3 & c4 & -> & Hj2%joined_sym & Eo3 & Eo4).
  wp_step. eexists _, _. split_and!; [exact Hj2 | done..| | |]; simpl in *; [congruence | done | done].
Qed.

Lemma read_y_wp s E : inv s -> wpe read_output (fun _ => inv) E s.
Proof.
  unfold read_output.
  intros (a & b & Hj & Ex & Ey & Ew & Eb & Eg & Hwf & Ecl & Hcl & Hbase). pose proof (inv_len _ _ Ew) as Hla.
  wp_step. wp_step. apply wp_when; intros C; [apply Z.ltb_lt in C | by exists a, b]. wp_step. wp_step. rewrite <- Ey in *.
  destruct (joined_event _ _ _ _ (Read_inbound (ByteStream.buffer_size (inbound_stream (conn b)))) (joined_sym _ _ _ _ Hj))
    as (v & c' & Eexec & Hj'); [done | simpl; lia | done |].
  simpl in Eexec, Hj'. rewrite !app_nil_r in Hj'. unfold bind in Eexec. unfold wpe. destruct (zoom _receiver _ (conn b)) as [[bs|e] c1]; [| done].
  injection Eexec as <- <-. simpl in *. rewrite app_nil_r in Hj'. apply joined_sym in Hj'.
  exists a, (mk_side (wrote b) (sent b) (got b ++ bs) c1). split_and!; try done; simpl; [by rewrite Eg | by apply prefix_app_r].
Qed.

Lemma tick_x_wp ms s E : inv s -> wpe (zoom x (TCPConnection.tick ms)) (fun _ => inv) E s.
Proof.
  intros (a & b & Hj & Ex & Ey & Ew & Eb & Eg & Hwf & Ecl & Hcl & Hbase). wp_step. rewrite <- Ex.
  eapply (joined_call ra rb a b (Tick ms)); [exact Hj | by rewrite Eb | done | done | done |].
  intros [] c' Et Hj'. simpl in Hj'. rewrite app_nil_r in Hj'. eexists _, b. split_and!; [exact Hj' | done.. | | done | done]; simpl.
  pose proof (tick_keeps_outbound ms (conn a)) as Hk. rewrite Et in Hk. simpl in Hk. by rewrite Hk, Ex.
Qed.

Lemma tick_y_wp ms s E : inv s -> wpe (zoom y (TCPConnection.tick ms)) (fun _ => inv) E s.
Proof.
  intros (a & b & Hj & Ex & Ey & Ew & Eb & Eg & Hwf & Ecl & Hcl & Hbase). pose proof (inv_len _ _ Ew) as Hla. wp_step. rewrite <- Ey.
  eapply (joined_call rb ra b a (Tick ms)); [by apply joined_sym | done.. |].
  intros [] c' Et Hj'%joined_sym. simpl in Hj'. rewrite app_nil_r in Hj'. eexists a, _. split_and!; [exact Hj' | done..].
Qed.

Lemma turn_wp reorder s E : inv s -> wpe (loop reorder) (fun _ => inv) E s.
Proof.
  intros Hinv. unfold loop, write_input. wp_step. wp_step. wp_step.
  eapply wp_mono; [apply write_input_wp; [done |]; pose proof (len_nonneg (Buffer.str (bytes_to_send s))); unfold Buffer.size; lia |].
  intros [] s1 H1. wp_step. eapply wp_mono; [by apply close_input_wp |].
  intros [] s2 H2. wp_step. eapply wp_mono; [by apply exchange_segments_wp |].
  intros [] s3 H3. wp_step. eapply wp_mono; [by apply read_y_wp |].
  intros [] s4 H4. wp_step. eapply wp_mono; [by apply tick_x_wp |].
  intros [] s5 H5. by apply tick_y_wp.
Qed.

Lemma while_wp n condition reorder : forall s E, inv s ->
  wpe (while n condition (loop reorder)) (fun finished s' => inv s' /\ (finished = true -> condition s' = false)) E s.
Proof.
  induction n as [|n IH]; intros s E Hinv; cbn [while]; wp_step; wp_step; apply wp_if; intros C; try (by wp_step).
  wp_step. eapply wp_mono; [by apply turn_wp |]. intros [] s' Hinv'. by apply IH.
Qed.

(** When [y] has come to the end of its input, everything that was to be sent has
    arrived: as long as [x] has not ended its stream, its segments belong to a longer
    stream as well, which [y] would then have to have read. *)
Lemma eof_reads S a b : joined ra rb a b -> len S + 2 <= 2 ^ 31 -> Forall (on_wire (isn_of cfg ra) S) (sent a) ->
  ByteStream.eof (inbound_stream (conn b)) = true -> got b = S.
Proof.
  intros Hj%joined_sym HS Hw Heof. pose proof (joined_receives rb ra b a S Hj HS Hw) as Hr. pose proof Hr as (rd & Hrec & _).
  apply receives_delivers in Hr as [_ Hall]. apply andb_true_iff in Heof as [Hended Hempty%Z.eqb_eq]. rewrite <- Hall by done.
  destruct Hrec as [_ _ _ [_ _ _ Hout _ _ _]]. apply ref_wf, ByteStream.wf_size in Hout.
  unfold inbound_stream, TCPReceiver.stream_out, StreamReassembler.stream_out in *. rewrite Hempty in Hout.
  symmetry in Hout. apply len_nil_inv in Hout. by rewrite Hout, app_nil_r.
Qed.

Lemma sent_belong s a b : joined ra rb a b -> conn a = x s ->
  wrote a ++ Buffer.str (bytes_to_send s) = string_to_send -> outbound_ended (x s) = x_closed s ->
  (x_closed s = true -> Buffer.str (bytes_to_send s) = []) -> Forall (on_wire (isn_of cfg ra) string_to_send) (sent a).
Proof.
  intros Hj Ex Ew Ecl Hcl. destruct (x_closed s) eqn:Ec.
  { rewrite Hcl, app_nil_r in Ew by done. rewrite <- Ew. eapply Forall_impl; [| by eapply joined_emits]. by intros seg []. }
  destruct (joined_sends _ _ _ _ Hj) as (n & _ & [[(una & rd & Hs) _ _ _ Hout] _]).
  destruct (TCPSender._set_fin_flag (_sender (conn a))) eqn:Ef.
  { destruct (TCPSender.sd_fin _ _ _ _ Hs Ef) as [He _]. unfold outbound_ended, TCPSender.stream_in in Ecl. rewrite <- Ex in Ecl. congruence. }
  apply (TCPSender.emitted_app_stream _ (Buffer.str (bytes_to_send s))), Forall_app in Hout as [Hout _]. rewrite Ew in Hout.
  eapply Forall_impl; [| exact Hout]. intros seg (k & Hk & ? & _). by exists k.
Qed.

Lemma eof_complete s : inv s -> ByteStream.eof (inbound_stream (y s)) = true -> string_received s = string_to_send.
Proof.
  intros (a & b & Hj & Ex & Ey & Ew & Eb & Eg & Hwf & Ecl & Hcl & _) Heof. rewrite <- Ey in Heof. rewrite <- Eg.
  apply (eof_reads string_to_send a b); [done | done | | done]. by eapply (sent_belong s).
Qed.

Lemma received_prefix s : inv s -> base `prefix_of` string_received s /\ string_received s `prefix_of` string_to_send.
Proof.
  intros (a & b & Hj & Ex & Ey & Ew & Eb & Eg & Hwf & Ecl & Hcl & Hbase). rewrite <- Eg. split; [done |].
  pose proof (joined_receives rb ra b a string_to_send (joined_sym _ _ _ _ Hj) short (sent_belong s a b Hj Ex Ew Ecl Hcl)) as Hr.
  apply receives_delivers in Hr as [Hpre _]. rewrite <- (ztake_zdrop (len (got b ++ ByteStream.contents (inbound_stream (conn b)))) string_to_send).
  rewrite <- Hpre, <- app_assoc. by eexists.
Qed.

End turns.

Section begin.
Context (string_to_send : list byte) (ra rb : Z).
Hypothesis short : len string_to_send + 2 <= 2 ^ 31.
Notation inv0 := (inv string_to_send [] ra rb).

Lemma start_inv : inv0 (start string_to_send ra rb).
Proof.
  pose proof (len_nonneg string_to_send).
  exists (mk_side [] [] [] (new cfg ra)), (mk_side [] [] [] (new cfg rb)). split_and!; try done; [apply joined_new | unfold Buffer.wf; simpl; lia].
Qed.

Lemma connect_x_wp s E : inv0 s -> wpe (zoom x connect) (fun _ => inv0) E s.
Proof.
  intros (a & b & Hj & Ex & Ey & Ew & Eb & Eg & Hwf & Ecl & Hcl & Hbase). wp_step. rewrite <- Ex.
  eapply (joined_call ra rb a b Connect); [exact Hj | by rewrite Eb | done | done | done |].
  intros [] c' Et Hj'. simpl in Hj'. rewrite app_nil_r in Hj'. eexists _, b. split_and!; [exact Hj' | done.. | | done | done]; simpl.
  pose proof (connect_keeps_ended (conn a)) as Hk. rewrite Et in Hk. simpl in Hk. by rewrite Hk, Ex.
Qed.

Lemma end_y_wp s E : inv0 s -> wpe (zoom y end_input_stream) (fun _ => inv0) E s.
Proof.
  intros (a & b & Hj & Ex & Ey & Ew & Eb & Eg & Hwf & Ecl & Hcl & Hbase). pose proof (inv_len _ short _ _ Ew) as Hla. wp_step. rewrite <- Ey.
  eapply (joined_call rb ra b a End_input_stream); [by apply joined_sym | done.. |].
  intros [] c' Et Hj'%joined_sym. simpl in Hj'. rewrite app_nil_r in Hj'. eexists a, _. split_and!; [exact Hj' | done..].
Qed.
End begin.
End Benchmark.

(** A short string arrives, in order and reversed, and both connections then close. *)
Definition short_string : list byte := [x61; x62; x63; x64; x65].
Lemma benchmark_ends (reorder : bool) :
  (Benchmark.main_loop 20 reorder short_string (Benchmark.start short_string 7 4294967290)).1 = Ok true.
Proof. destruct reorder; vm_compute; reflexivity. Qed.

Lemma main_loop_correct n reorder string_to_send random_x random_y :
  len string_to_send + 2 <= 2 ^ 31 ->
  wp (Benchmark.main_loop n reorder string_to_send) (fun finished s => finished = true ->
      Benchmark.string_received s = string_to_send /\
      TCPConnection.active (Benchmark.x s) = false /\ TCPConnection.active (Benchmark.y s) = false)
    (Benchmark.start string_to_send random_x random_y).
Proof.
  intros Hl. unfold Benchmark.main_loop. set (s0 := Benchmark.start _ _ _).
  pose proof (Benchmark.start_inv string_to_send random_x random_y Hl) as Hinv.
  wp_step. eapply wp_mono; [by apply Benchmark.connect_x_wp |]. intros [] s1 H1.
  wp_step. eapply wp_mono; [by apply Benchmark.end_y_wp |]. intros [] s2 H2.
  wp_step. eapply wp_mono; [by apply Benchmark.while_wp |]. intros finished s3 [H3 Hfin].
  destruct finished; simpl; [| by wp_step]. wp_step. wp_step.
  assert (Eall : Benchmark.string_received s3 = string_to_send).
  { eapply Benchmark.eof_complete; [done | exact H3 |]. by apply negb_false_iff, Hfin. }
  rewrite bool_decide_false by (intros Hne; by apply Hne).
  assert (H3' : Benchmark.inv string_to_send string_to_send random_x random_y s3).
  { destruct H3 as (a & b & ? & ? & ? & ? & ? & Eg & ? & ? & ? & _). exists a, b. split_and!; try done. by rewrite Eg, Eall. }
  eapply wp_mono; [by apply Benchmark.while_wp |]. intros finished s4 [H4 Hend] ->.
  destruct (Benchmark.received_prefix _ _ _ _ Hl _ H4) as [P1 P2]. specialize (Hend eq_refl). apply orb_false_iff in Hend.
  split; [by apply (anti_symm prefix) | done].
Qed.

(** ** [main] *)

(** [rand()]: the number it returns, and the generator it leaves. *)
Class Rand (G : Type) : Type := rand : G -> Z * G.

Module BenchmarkMain.
Section main.
Context {G : Type} `{Rand G}.

(** [constexpr size_t len] *)
Definition string_len : Z := 100 * 1024 * 1024.

(** [for (auto &ch : string_to_send) { ch = rand(); }] *)
Fixpoint random_string (n : nat) : M G (list byte) := fun g =>
  match n with
  | O => (Ok [], g)
  | S n =>
      let '(x, g) := rand g in
      (let* s := random_string n in pure (byte_of_Z x :: s)) g
  end.

(** [main_loop(reorder)] with its string and its connections; without the end of the loops
    after [n] turns the program is still running. *)
Definition main_loop_on (size n : nat) (reorder : bool) (random_x random_y : Z) : M G unit :=
  let* string_to_send := random_string size in
  let* finished := of_outcome (Benchmark.main_loop n reorder string_to_send (Benchmark.start string_to_send random_x random_y)).1 in
  if finished then pure tt else throw OutOfFuel.
Definition main_loop : nat -> bool -> Z -> Z -> M G unit := main_loop_on (Z.to_nat string_len).

(** The exit status *)
Definition main (n : nat) (x1 y1 x2 y2 : Z) : M G Z :=
  try_catch
    (main_loop n false x1 y1 ;;
     main_loop n true x2 y2 ;;
     pure 0)
    (fun _ => pure 1).

Lemma random_string_wp n (g : G) : wp (random_string n) (fun s _ => length s = n) g.
Proof.
  revert g. induction n as [|n IH]; intros g; [done |]. unfold wpe. simpl. destruct (rand g) as [x g']. unfold bind.
  specialize (IH g'). unfold wpe in IH. destruct (random_string n g') as [[s|e] g2]; [| done]. simpl. by rewrite IH.
Qed.

Lemma main_loop_on_wp size n reorder x y (g : G) : Z.of_nat size + 2 <= 2 ^ 31 ->
  wpe (main_loop_on size n reorder x y) (fun _ _ => True) (fun e _ => e = OutOfFuel) g.
Proof.
  intros Hsize. unfold main_loop_on. wp_step. eapply wp_mono_exn; [apply random_string_wp | | done]. intros s g' Hs. wp_step.
  assert (Hl : len s + 2 <= 2 ^ 31) by (cbv beta in Hs; unfold len; lia).
  pose proof (main_loop_correct n reorder s x y Hl) as Hw. apply wp_returns in Hw as (finished & s' & E). rewrite E.
  apply wp_of_outcome with finished; [done |]. destruct finished; by wp_step.
Qed.

Lemma main_loop_wp n reorder x y (g : G) : wpe (main_loop n reorder x y) (fun _ _ => True) (fun e _ => e = OutOfFuel) g.
Proof. apply main_loop_on_wp. rewrite Z2Nat.id; vm_compute; discriminate. Qed.

Lemma caught_status (m : M G Z) g : wpe m (fun z _ => z = 0) (fun e _ => e = OutOfFuel) g ->
  (try_catch m (fun _ => pure 1) g).1 = Ok 0 \/ (try_catch m (fun _ => pure 1) g).1 = Throw OutOfFuel.
Proof. unfold wpe, try_catch. intros Hw. destruct (m g) as [[z|e] g']; subst; [by left | by right]. Qed.

(** The program reports no failure: it exits with status 0, or is still running. *)
Lemma main_status n x1 y1 x2 y2 (g : G) : (main n x1 y1 x2 y2 g).1 = Ok 0 \/ (main n x1 y1 x2 y2 g).1 = Throw OutOfFuel.
Proof.
  apply caught_status. wp_step. eapply wp_mono; [apply main_loop_wp |]. intros [] g1 _.
  wp_step. eapply wp_mono; [apply main_loop_wp |]. intros [] g2 _. by wp_step.
Qed.
End main.
End BenchmarkMain.

(** ** Property *)

(** [C17] The benchmark never fails: for every string (shorter than 2^31 bytes, and the
    program's has 100 MiB), both initial sequence numbers, in order or reordered, and
    however many turns its loops make, no call throws and both of [main_loop]'s own checks
    hold: every write accepts what it has room for, and when the receiving side has come to
    the end of its input, the string received is the string sent. *)
Theorem benchmark_correct n reorder string_to_send random_x random_y :
  len string_to_send + 2 <= 2 ^ 31 ->
  exists finished s, Benchmark.main_loop n reorder string_to_send (Benchmark.start string_to_send random_x random_y) = (Ok finished, s) /\
    (finished = true -> Benchmark.string_received s = string_to_send /\
      TCPConnection.active (Benchmark.x s) = false /\ TCPConnection.active (Benchmark.y s) = false).
Proof.
  intros Hl. by apply wp_run, main_loop_correct.
Qed.

(** ** Witness *)

Lemma benchmark_correct_witness : exists s, Benchmark.main_loop 20 true [x61; x62; x63; x64; x65]
    (Benchmark.start [x61; x62; x63; x64; x65] 7 4294967290) = (Ok true, s) /\
  Benchmark.string_received s = [x61; x62; x63; x64; x65].
Proof.
  destruct (benchmark_correct 20 true [x61; x62; x63; x64; x65] 7 4294967290) as (finished & s & Erun & Hok).
  { vm_compute. discriminate. }
  exists s. pose proof (benchmark_ends true) as Hends. unfold short_string in Hends. rewrite Erun in Hends. injection Hends as ->.
  split; [exact Erun | by apply Hok].
Defined.

