(* ===== verification/ethernet.v ===== *)
(** * tcp_helpers/ethernet_header, tcp_helpers/ethernet_frame: Ethernet *)

From S2P Require Import prelude buffer parser wire_format.

(** [std::array<uint8_t, 6>] *)
Definition EthernetAddress : Type := list Z.
Definition ETHERNET_BROADCAST : EthernetAddress := replicate 6 0xff.
Definition zero_address : EthernetAddress := replicate 6 0.

Definition address_wf (a : EthernetAddress) : Prop := length a = 6%nat /\ Forall is_u8 a.

Module EthernetHeader.
Definition LENGTH : Z := 14.
Definition TYPE_IPv4 : Z := 0x800.
Definition TYPE_ARP : Z := 0x806.

Record t : Type := mk {
  dst : EthernetAddress;
  src : EthernetAddress;
  type : Z
}.

(** [EthernetHeader{}] *)
Definition default : t := mk zero_address zero_address 0.

(** [parse]: the object is left alone when the buffer is too short. *)
Definition parse (h : t) : M NetParser.t (ParseResult * t) :=
  let* size := asks (fun p => Buffer.size (NetParser.buffer p)) in
  if size <? LENGTH then pure (PacketTooShort, h)
  else
    let* dst := parse_bytes 6 in
    let* src := parse_bytes 6 in
    let* type := NetParser.u16 in
    let* e := asks NetParser.get_error in
    pure (e, mk dst src type).

Definition serialize (h : t) : list byte :=
  let ret := unparse_bytes [] (dst h) in
  let ret := unparse_bytes ret (src h) in
  NetUnparser.u16 ret (type h).

Record wf (h : t) : Prop := {
  wf_dst : address_wf (dst h);
  wf_src : address_wf (src h);
  wf_type : 0 <= type h < 2 ^ 16
}.

Lemma eth_serialize_eq h : serialize h = raw_bytes (dst h) ++ raw_bytes (src h) ++ be_bytes 2 (type h).
Proof. unfold serialize. autorewrite with unparse. by rewrite app_nil_l, app_assoc. Qed.

Lemma len_serialize h : wf h -> len (serialize h) = LENGTH.
Proof.
  intros [[? _] [? _] _]. rewrite eth_serialize_eq, !len_app, !len_raw_bytes, len_be_bytes.
  unfold len, LENGTH. lia.
Qed.

Lemma eth_parse_wp h prev p rest (Q : ParseResult * t -> NetParser.t -> Prop) E :
  wf h -> NetParser.ok p (serialize h ++ rest) ->
  (forall p', NetParser.ok p' rest -> Q (NoError, h) p') -> wpe (parse prev) Q E p.
Proof.
  intros Hwf Hp HQ. unfold parse. wp_step. wp_step.
  assert (Hs : LENGTH <= Buffer.size (NetParser.buffer p)).
  { unfold Buffer.size. change (Buffer.str (NetParser.buffer p)) with (NetParser.str p).
    rewrite (NetParser.ok_str _ _ Hp), len_app, len_serialize by done.
    pose proof (len_nonneg rest). lia. }
  rewrite (proj2 (Z.ltb_ge _ _)) by done. clear Hs. rewrite eth_serialize_eq, <- !app_assoc in Hp.
  destruct Hwf as [[] [] ?].
  wp_step. eapply (parse_bytes_wp (dst h)); [done | done | exact Hp |]. clear Hp. intros p1 Hp.
  wp_step. eapply (parse_bytes_wp (src h)); [done | done | exact Hp |]. clear Hp. intros p2 Hp.
  wp_step. eapply parse_be_bytes_wp; [exact Hp |]. clear Hp. intros p3 Hp. wp_steps.
  unfold NetParser.get_error. rewrite (NetParser.ok_error _ _ Hp). rewrite Z.mod_small by done.
  replace (mk (dst h) (src h) (type h)) with h by (by destruct h). auto.
Qed.
End EthernetHeader.

Module EthernetFrame.

Record t : Type := mk { _header : EthernetHeader.t; _payload : BufferList.t }.

Definition default : t := mk EthernetHeader.default [].
Definition header (f : t) : EthernetHeader.t := _header f.
Definition payload (f : t) : BufferList.t := _payload f.

(** [parse]: the header's result is not looked at. *)
Definition parse (buffer : Buffer.t) (f : t) : outcome (ParseResult * t) :=
  match EthernetHeader.parse (_header f) (NetParser.new buffer) with
  | (Ok (_, h), p) => Ok (NetParser.get_error p, mk h (BufferList.of_buffer (NetParser.buffer p)))
  | (Throw e, _) => Throw e
  end.

Definition serialize (f : t) : BufferList.t :=
  BufferList.append (BufferList.append [] (BufferList.of_string (EthernetHeader.serialize (_header f)))) (_payload f).

Definition wf (f : t) : Prop :=
  EthernetHeader.wf (_header f) /\ len (BufferList.bytes (_payload f)) < 2 ^ 63.

(** The same header, and payloads with the same bytes. *)
Definition same (f f' : t) : Prop :=
  _header f' = _header f /\ BufferList.bytes (_payload f') = BufferList.bytes (_payload f).

Lemma bytes_serialize f :
  BufferList.bytes (serialize f) = EthernetHeader.serialize (_header f) ++ BufferList.bytes (_payload f).
Proof.
  unfold serialize, BufferList.append, BufferList.of_string. simpl.
  by rewrite BufferList.bytes_cons, Buffer.str_of_string.
Qed.

(** The payload of a parsed frame is one buffer. *)
Lemma frame_parse_serialized f prev :
  wf f ->
  exists b, parse (Buffer.of_string (BufferList.bytes (serialize f))) prev = Ok (NoError, mk (_header f) [b]) /\
    Buffer.wf b /\ Buffer.str b = BufferList.bytes (_payload f).
Proof.
  intros [Hh Hp]. rewrite bytes_serialize. unfold parse.
  set (s := EthernetHeader.serialize (_header f) ++ BufferList.bytes (_payload f)).
  assert (Hs : len s < 2 ^ 64).
  { unfold s. rewrite len_app, EthernetHeader.len_serialize by done. unfold EthernetHeader.LENGTH. lia. }
  assert (Hwp : wp (EthernetHeader.parse (_header prev))
    (fun r p => r.2 = _header f /\ NetParser.ok p (BufferList.bytes (_payload f))) (NetParser.new (Buffer.of_string s))).
  { eapply EthernetHeader.eth_parse_wp; [done | by apply NetParser.ok_new | by intros]. }
  apply wp_run in Hwp as ([r h] & p & E & Eh & Hok). simpl in Eh. subst h. rewrite E.
  exists (NetParser.buffer p). unfold NetParser.get_error. rewrite (NetParser.ok_error _ _ Hok).
  split; [done |]. split; apply Hok.
Qed.

(** Any bytes are taken for a frame, whose payload is one buffer. *)
Lemma frame_parse_total buffer prev :
  Buffer.wf buffer -> exists h b, parse buffer prev = Ok (NoError, mk h [b]) /\ Buffer.wf b.
Proof.
  intros Hb. assert (Hwp : wp (EthernetHeader.parse (_header prev))
    (fun _ p => Buffer.wf (NetParser.buffer p) /\ NetParser.get_error p = NoError) (NetParser.new buffer)).
  { unfold EthernetHeader.parse. wp_step. wp_step. apply wp_if; intros Hs; [by wp_step |].
    pose proof (parser_ok buffer Hb) as Hp. apply Z.ltb_ge in Hs.
    change (EthernetHeader.LENGTH <= len (Buffer.str buffer)) in Hs. unfold EthernetHeader.LENGTH in Hs.
    revert Hs Hp. generalize (Buffer.str buffer). intros str Hs Hp.
    parse_any Hp dst. parse_any Hp src. parse_any Hp type. wp_steps. split; apply Hp. }
  apply wp_run in Hwp as ([r h] & p & E & Hwf & He). unfold parse. rewrite E, He. by eexists _, _.
Qed.
End EthernetFrame.

#[export, refine] Instance ethernet_frame_format : WireFormat EthernetFrame.t := {
  wire_parse := EthernetFrame.parse;
  wire_serialize f := Ok (BufferList.bytes (EthernetFrame.serialize f));
  wire_wf := EthernetFrame.wf;
  wire_same := EthernetFrame.same
}.
Proof.
  intros f prev Hf. destruct (EthernetFrame.frame_parse_serialized f prev Hf) as (b & E & _ & Eb).
  eexists _, _. split; [done |]. split; [exact E |]. split; [done |]. simpl.
  by rewrite BufferList.bytes_cons, Eb, app_nil_r.
Defined.

(** A buffer shorter than a header is accepted: nothing is consumed, the error is
    not recorded, and the frame keeps the header it had. *)
Lemma ethernet_parse_short buffer f :
  Buffer.size buffer < EthernetHeader.LENGTH ->
  EthernetFrame.parse buffer f
    = Ok (NoError, EthernetFrame.mk (EthernetFrame._header f) (BufferList.of_buffer buffer)).
Proof.
  intros Hs. unfold EthernetFrame.parse, EthernetHeader.parse, bind, asks. simpl.
  by rewrite (proj2 (Z.ltb_lt _ _)).
Qed.
