(* ===== verification/arp_message.v ===== *)
(** * tcp_helpers/arp_message: ARP messages *)

From S2P Require Import prelude buffer parser wire_format ethernet.

Module ARPMessage.
Definition LENGTH : Z := 28.
Definition TYPE_ETHERNET : Z := 1.
Definition OPCODE_REQUEST : Z := 1.
Definition OPCODE_REPLY : Z := 2.

Record t : Type := mk {
  hardware_type : Z;
  protocol_type : Z;
  hardware_address_size : Z;
  protocol_address_size : Z;
  opcode : Z;
  sender_ethernet_address : EthernetAddress;
  sender_ip_address : Z;
  target_ethernet_address : EthernetAddress;
  target_ip_address : Z
}.

Definition eta (m : t) : t :=
  mk (hardware_type m) (protocol_type m) (hardware_address_size m) (protocol_address_size m) (opcode m)
     (sender_ethernet_address m) (sender_ip_address m) (target_ethernet_address m) (target_ip_address m).
#[global] Instance set_hardware_type : Setter hardware_type := ltac:(derive_setter eta hardware_type).
#[global] Instance set_protocol_type : Setter protocol_type := ltac:(derive_setter eta protocol_type).
#[global] Instance set_hardware_address_size : Setter hardware_address_size :=
  ltac:(derive_setter eta hardware_address_size).
#[global] Instance set_protocol_address_size : Setter protocol_address_size :=
  ltac:(derive_setter eta protocol_address_size).
#[global] Instance set_opcode : Setter opcode := ltac:(derive_setter eta opcode).
#[global] Instance set_sender_ethernet_address : Setter sender_ethernet_address :=
  ltac:(derive_setter eta sender_ethernet_address).
#[global] Instance set_sender_ip_address : Setter sender_ip_address := ltac:(derive_setter eta sender_ip_address).
#[global] Instance set_target_ethernet_address : Setter target_ethernet_address :=
  ltac:(derive_setter eta target_ethernet_address).
#[global] Instance set_target_ip_address : Setter target_ip_address := ltac:(derive_setter eta target_ip_address).

(** [ARPMessage{}]: the default member initialisers ([sizeof] of an Ethernet and
    of an IPv4 address). *)
Definition default : t := mk TYPE_ETHERNET EthernetHeader.TYPE_IPv4 6 4 0 zero_address 0 zero_address 0.

Definition supported (m : t) : bool :=
  (hardware_type m =? TYPE_ETHERNET) && (protocol_type m =? EthernetHeader.TYPE_IPv4) &&
  (hardware_address_size m =? 6) && (protocol_address_size m =? 4) &&
  ((opcode m =? OPCODE_REQUEST) || (opcode m =? OPCODE_REPLY)).

(** The body of [parse], on its local parser; the fields after [opcode] keep
    their values when the message is not supported. *)
Definition parse_fields (m : t) : M NetParser.t (ParseResult * t) :=
  let* size := asks (fun p => Buffer.size (NetParser.buffer p)) in
  if size <? LENGTH then pure (PacketTooShort, m)
  else
    let* hardware_type := NetParser.u16 in
    let* protocol_type := NetParser.u16 in
    let* hardware_address_size := NetParser.u8 in
    let* protocol_address_size := NetParser.u8 in
    let* opcode := NetParser.u16 in
    let m := mk hardware_type protocol_type hardware_address_size protocol_address_size opcode
      (sender_ethernet_address m) (sender_ip_address m) (target_ethernet_address m) (target_ip_address m) in
    if negb (supported m) then pure (Unsupported, m)
    else
      let* sender_ethernet_address := parse_bytes 6 in
      let* sender_ip_address := NetParser.u32 in
      let* target_ethernet_address := parse_bytes 6 in
      let* target_ip_address := NetParser.u32 in
      let* e := asks NetParser.get_error in
      pure (e, mk hardware_type protocol_type hardware_address_size protocol_address_size opcode
        sender_ethernet_address sender_ip_address target_ethernet_address target_ip_address).

Definition parse (buffer : Buffer.t) (m : t) : outcome (ParseResult * t) :=
  fst (parse_fields m (NetParser.new buffer)).

Definition serialize (m : t) : outcome (list byte) :=
  if negb (supported m) then
    Throw (Runtime_error "ARPMessage::serialize(): unsupported field combination (must be Ethernet/IP, and request or reply)")
  else
    let ret := NetUnparser.u16 [] (hardware_type m) in
    let ret := NetUnparser.u16 ret (protocol_type m) in
    let ret := NetUnparser.u8 ret (hardware_address_size m) in
    let ret := NetUnparser.u8 ret (protocol_address_size m) in
    let ret := NetUnparser.u16 ret (opcode m) in
    let ret := unparse_bytes ret (sender_ethernet_address m) in
    let ret := NetUnparser.u32 ret (sender_ip_address m) in
    let ret := unparse_bytes ret (target_ethernet_address m) in
    Ok (NetUnparser.u32 ret (target_ip_address m)).

Record wf (m : t) : Prop := {
  wf_supported : supported m = true;
  wf_sender : address_wf (sender_ethernet_address m);
  wf_sender_ip : 0 <= sender_ip_address m < 2 ^ 32;
  wf_target : address_wf (target_ethernet_address m);
  wf_target_ip : 0 <= target_ip_address m < 2 ^ 32
}.

(** A supported message has its five leading fields fixed, up to the opcode. *)
Lemma supported_fields m :
  supported m = true ->
  hardware_type m = TYPE_ETHERNET /\ protocol_type m = EthernetHeader.TYPE_IPv4 /\
  hardware_address_size m = 6 /\ protocol_address_size m = 4 /\
  (opcode m = OPCODE_REQUEST \/ opcode m = OPCODE_REPLY).
Proof. unfold supported. rewrite !andb_true_iff, orb_true_iff, !Z.eqb_eq. tauto. Qed.

Definition image (m : t) : list byte :=
  be_bytes 2 (hardware_type m) ++ be_bytes 2 (protocol_type m) ++ be_bytes 1 (hardware_address_size m) ++
  be_bytes 1 (protocol_address_size m) ++ be_bytes 2 (opcode m) ++ raw_bytes (sender_ethernet_address m) ++
  be_bytes 4 (sender_ip_address m) ++ raw_bytes (target_ethernet_address m) ++ be_bytes 4 (target_ip_address m).

Lemma arp_serialize_eq m : supported m = true -> serialize m = Ok (image m).
Proof.
  intros Hs. unfold serialize. rewrite Hs. simpl negb. cbv iota. autorewrite with unparse.
  by rewrite app_nil_l, <- !app_assoc.
Qed.

Lemma len_arp_image m : wf m -> len (image m) = LENGTH.
Proof.
  intros [_ [? _] _ [? _] _]. unfold image. rewrite !len_app, !len_raw_bytes, !len_be_bytes.
  unfold len, LENGTH. lia.
Qed.

(** Whatever follows the message (the padding of a short frame) is not read. *)
Lemma arp_parse_image m prev b rest :
  wf m -> Buffer.wf b -> Buffer.str b = image m ++ rest -> parse b prev = Ok (NoError, m).
Proof.
  intros Hwf Hb Eb. unfold parse.
  enough (Hwp : wp (parse_fields prev) (fun r _ => r = (NoError, m)) (NetParser.new b)).
  { apply wp_run in Hwp as (r & p' & -> & ->). done. }
  pose proof (parser_ok b Hb) as Hp. rewrite Eb in Hp.
  set (p := NetParser.new _) in *. clearbody p.
  unfold parse_fields. wp_step. wp_step.
  assert (Hs : LENGTH <= Buffer.size (NetParser.buffer p)).
  { unfold Buffer.size. change (Buffer.str (NetParser.buffer p)) with (NetParser.str p).
    rewrite (NetParser.ok_str _ _ Hp), len_app, len_arp_image by done. pose proof (len_nonneg rest). lia. }
  rewrite (proj2 (Z.ltb_ge _ _)) by done. clear Hs.
  unfold image in Hp. rewrite <- !app_assoc in Hp. destruct Hwf as [Hs [] ? [] ?].
  destruct (supported_fields m Hs) as (E1 & E2 & E3 & E4 & E5).
  do 5 (wp_step; eapply parse_be_bytes_wp; [exact Hp |]; clear Hp p; intros p Hp).
  replace (hardware_type m mod _) with (hardware_type m) by (by rewrite E1).
  replace (protocol_type m mod _) with (protocol_type m) by (by rewrite E2).
  replace (hardware_address_size m mod _) with (hardware_address_size m) by (by rewrite E3).
  replace (protocol_address_size m mod _) with (protocol_address_size m) by (by rewrite E4).
  replace (opcode m mod _) with (opcode m) by (by destruct E5 as [-> | ->]).
  cbv zeta. match goal with |- context [negb (supported ?m')] => change (supported m') with (supported m) end.
  rewrite Hs. simpl negb. cbv iota.
  wp_step. eapply (parse_bytes_wp (sender_ethernet_address m)); [done | done | exact Hp |].
  clear Hp p. intros p Hp. wp_step. eapply parse_be_bytes_wp; [exact Hp |]. clear Hp p. intros p Hp.
  wp_step. eapply (parse_bytes_wp (target_ethernet_address m)); [done | done | exact Hp |].
  clear Hp p. intros p Hp. wp_step. eapply parse_be_bytes_wp; [exact Hp |]. clear Hp p. intros p Hp.
  wp_steps. unfold NetParser.get_error. rewrite (NetParser.ok_error _ _ Hp).
  rewrite !Z.mod_small by done. by destruct m.
Qed.

(** Any buffer: the three ways [parse] ends. *)
Lemma parse_fields_any buffer m :
  Buffer.wf buffer ->
  wp (parse_fields m) (fun r _ =>
    match r.1 with
    | NoError => wf r.2 /\ exists rest, Buffer.str buffer = image r.2 ++ rest
    | PacketTooShort => Buffer.size buffer < LENGTH /\ r.2 = m
    | Unsupported => LENGTH <= Buffer.size buffer /\ supported r.2 = false
    | _ => False
    end) (NetParser.new buffer).
Proof.
  intros Hb. pose proof (parser_ok _ Hb) as Hp. unfold parse_fields. wp_step. wp_step.
  change (NetParser.buffer (NetParser.new buffer)) with buffer.
  assert (Hsize : Buffer.size buffer = len (Buffer.str buffer)) by done.
  apply wp_if; intros Hs; [apply Z.ltb_lt in Hs; by wp_step | apply Z.ltb_ge in Hs].
  rewrite Hsize in *. unfold LENGTH in *. clear Hsize Hb.
  generalize dependent (Buffer.str buffer). intros s Hp Hs.
  parse_any Hp hw. parse_any Hp pr. parse_any Hp hs. parse_any Hp ps. parse_any Hp op.
  cbv zeta. apply wp_if; intros Hsup.
  { wp_step. apply negb_true_iff in Hsup. done. }
  apply negb_false_iff in Hsup.
  parse_any Hp sea. parse_any Hp sip. parse_any Hp tea. parse_any Hp tip. wp_steps.
  unfold NetParser.get_error. rewrite (NetParser.ok_error _ _ Hp). cbn [fst snd].
  split; [split; simpl; first [exact Hsup | by split | lia] |]. eexists. unfold image. rewrite <- !app_assoc. reflexivity.
Qed.

Lemma parse_total buffer m : Buffer.wf buffer -> exists r m', parse buffer m = Ok (r, m').
Proof.
  intros Hb. apply (parse_fields_any buffer m) in Hb as ([r m'] & p & E & _)%wp_run.
  exists r, m'. unfold parse. by rewrite E.
Qed.

Lemma parse_accepts buffer m m' : Buffer.wf buffer -> parse buffer m = Ok (NoError, m') -> wf m'.
Proof.
  intros Hb. apply (parse_fields_any buffer m) in Hb as ([r m0] & p & E & Hr)%wp_run.
  unfold parse. rewrite E. intros [= -> ->]. apply Hr.
Qed.
End ARPMessage.

#[export, refine] Instance arp_message_format : WireFormat ARPMessage.t := {
  wire_parse := ARPMessage.parse;
  wire_serialize := ARPMessage.serialize;
  wire_wf := ARPMessage.wf;
  wire_same := eq
}.
Proof.
  intros m prev Hm. exists (ARPMessage.image m), m.
  rewrite ARPMessage.arp_serialize_eq by apply Hm. split; [done |]. split; [| done].
  apply ARPMessage.arp_parse_image with (rest := []); [done | | by rewrite app_nil_r, Buffer.str_of_string].
  apply Buffer.wf_of_string. by rewrite ARPMessage.len_arp_image.
Defined.

(** ** Properties *)

(** ARP messages: [parse] never throws and its answer is exact.  It
    succeeds with a well-formed message (Ethernet and IPv4, a request or a reply)
    only when the buffer starts with that message's serialisation, it refuses a
    buffer of fewer than 28 bytes and leaves the object alone, and it refuses the
    others as unsupported. *)
Theorem arp_parse_exact buffer m :
  Buffer.wf buffer ->
  exists r m', ARPMessage.parse buffer m = Ok (r, m') /\
    match r with
    | NoError => ARPMessage.wf m' /\
        exists bs rest, ARPMessage.serialize m' = Ok bs /\ Buffer.str buffer = bs ++ rest
    | PacketTooShort => Buffer.size buffer < ARPMessage.LENGTH /\ m' = m
    | Unsupported => ARPMessage.LENGTH <= Buffer.size buffer /\ ARPMessage.supported m' = false
    | _ => False
    end.
Proof.
  intros Hb. pose proof (ARPMessage.parse_fields_any buffer m Hb) as Hwp.
  apply wp_run in Hwp as ([r m'] & p & E & Hr). exists r, m'.
  unfold ARPMessage.parse. rewrite E. split; [done |].
  destruct r; simpl in Hr; try done. destruct Hr as (Hwf & rest & Es). split; [done |].
  exists (ARPMessage.image m'), rest. split; [| done]. apply ARPMessage.arp_serialize_eq, Hwf.
Qed.

(** ** Witness *)

Definition sample_request : ARPMessage.t :=
  ARPMessage.mk ARPMessage.TYPE_ETHERNET EthernetHeader.TYPE_IPv4 6 4 ARPMessage.OPCODE_REQUEST
    [2; 0; 0; 0; 0; 1] 0x0a000001 zero_address 0x0a000002.

Lemma arp_parse_exact_witness :
  exists r m', ARPMessage.parse (Buffer.of_string (ARPMessage.image sample_request)) ARPMessage.default = Ok (r, m') /\
    match r with
    | NoError => ARPMessage.wf m' /\
        exists bs rest, ARPMessage.serialize m' = Ok bs /\
          Buffer.str (Buffer.of_string (ARPMessage.image sample_request)) = bs ++ rest
    | PacketTooShort => Buffer.size (Buffer.of_string (ARPMessage.image sample_request)) < ARPMessage.LENGTH /\
        m' = ARPMessage.default
    | Unsupported => ARPMessage.LENGTH <= Buffer.size (Buffer.of_string (ARPMessage.image sample_request)) /\
        ARPMessage.supported m' = false
    | _ => False
    end.
Proof. apply arp_parse_exact. apply Buffer.wf_of_string. vm_compute. reflexivity. Defined.
