(* ===== verification/ipv4.v ===== *)
(** * tcp_helpers/ipv4_header, tcp_helpers/ipv4_datagram: IPv4 datagrams *)

From S2P Require Import prelude buffer parser wire_format checksum.

Module IPv4Header.
Definition LENGTH : Z := 20.
Definition DEFAULT_TTL : Z := 128.
Definition PROTO_TCP : Z := 6.
Definition PROTO_ICMP : Z := 1.

Record t : Type := mk {
  ver : Z;
  hlen : Z;
  tos : Z;
  len : Z;
  id : Z;
  df : bool;
  mf : bool;
  offset : Z;
  ttl : Z;
  proto : Z;
  cksum : Z;
  src : Z;
  dst : Z
}.

Definition eta (h : t) : t :=
  mk (ver h) (hlen h) (tos h) (len h) (id h) (df h) (mf h) (offset h) (ttl h) (proto h) (cksum h) (src h) (dst h).
#[global] Instance set_len : Setter len := ltac:(derive_setter eta len).
#[global] Instance set_ttl : Setter ttl := ltac:(derive_setter eta ttl).
#[global] Instance set_proto : Setter proto := ltac:(derive_setter eta proto).
#[global] Instance set_cksum : Setter cksum := ltac:(derive_setter eta cksum).
#[global] Instance set_src : Setter src := ltac:(derive_setter eta src).
#[global] Instance set_dst : Setter dst := ltac:(derive_setter eta dst).

(** [IPv4Header{}]: the default member initialisers. *)
Definition default : t := mk 4 (LENGTH / 4) 0 0 0 true false 0 DEFAULT_TTL PROTO_TCP 0 0 0.

(** [parse]: the header as it was before is only kept when there are fewer than
    twenty bytes; every later error is returned with all the fields read. *)
Definition parse (h : t) : M NetParser.t (ParseResult * t) :=
  let* original_serialized_version := asks NetParser.buffer in
  let data_size := Buffer.size original_serialized_version in
  if data_size <? LENGTH then pure (PacketTooShort, h)
  else
    let* first_byte := NetParser.u8 in
    let ver := Z.shiftr first_byte 4 in
    let hlen := Z.land first_byte 0x0f in
    let* tos := NetParser.u8 in
    let* len := NetParser.u16 in
    let* id := NetParser.u16 in
    let* fo_val := NetParser.u16 in
    let df := to_bool (Z.land fo_val 0x4000) in
    let mf := to_bool (Z.land fo_val 0x2000) in
    let offset := Z.land fo_val 0x1fff in
    let* ttl := NetParser.u8 in
    let* proto := NetParser.u8 in
    let* cksum := NetParser.u16 in
    let* src := NetParser.u32 in
    let* dst := NetParser.u32 in
    let h := mk ver hlen tos len id df mf offset ttl proto cksum src dst in
    if data_size <? 4 * hlen then pure (PacketTooShort, h)
    else if negb (ver =? 4) then pure (WrongIPVersion, h)
    else if hlen <? 5 then pure (HeaderTooShort, h)
    else if negb (data_size =? len) then pure (TruncatedPacket, h)
    else
      NetParser.remove_prefix (hlen * 4 - LENGTH) ;;
      let* err := asks NetParser.error in
      if err then let* e := asks NetParser.get_error in pure (e, h)
      else
        let check := InternetChecksum.add
          (ztake (4 * hlen) (Buffer.str original_serialized_version)) (InternetChecksum.new 0) in
        let* v := of_outcome (InternetChecksum.value check) in
        if to_bool v then pure (BadChecksum, h)
        else pure (NoError, h).

(** The first byte, and the flags with the fragment offset. *)
Definition first_byte (h : t) : Z := u8 (Z.lor (Z.shiftl (ver h) 4) (Z.land (hlen h) 0xf)).
Definition fo_val (h : t) : Z :=
  Z.lor (Z.lor (if df h then 0x4000 else 0) (if mf h then 0x2000 else 0)) (Z.land (offset h) 0x1fff).

(** [serialize]: the checksum field is written as it stands. *)
Definition serialize (h : t) : outcome (list byte) :=
  if negb (ver h =? 4) then Throw (Runtime_error "wrong IP version")
  else if 4 * hlen h <? LENGTH then Throw (Runtime_error "IP header too short")
  else
    let ret := NetUnparser.u8 [] (first_byte h) in
    let ret := NetUnparser.u8 ret (tos h) in
    let ret := NetUnparser.u16 ret (len h) in
    let ret := NetUnparser.u16 ret (id h) in
    let ret := NetUnparser.u16 ret (fo_val h) in
    let ret := NetUnparser.u8 ret (ttl h) in
    let ret := NetUnparser.u8 ret (proto h) in
    let ret := NetUnparser.u16 ret (cksum h) in
    let ret := NetUnparser.u32 ret (src h) in
    let ret := NetUnparser.u32 ret (dst h) in
    Ok (resize (4 * hlen h) ret).

Definition payload_length (h : t) : Z := u16 (len h - 4 * hlen h).

(** The pseudo-header's contribution to the TCP checksum. *)
Definition pseudo_cksum (h : t) : Z :=
  let pcksum := u32 (Z.shiftr (src h) 16 + Z.land (src h) 0xffff) in
  let pcksum := u32 (pcksum + u32 (Z.shiftr (dst h) 16 + Z.land (dst h) 0xffff)) in
  let pcksum := u32 (pcksum + proto h) in
  u32 (pcksum + payload_length h).

(** What the types of the fields, and their widths on the wire, allow. *)
Record ranges (h : t) : Prop := {
  range_ver : 0 <= ver h < 2 ^ 4;
  range_hlen : 0 <= hlen h < 2 ^ 4;
  range_tos : 0 <= tos h < 2 ^ 8;
  range_len : 0 <= len h < 2 ^ 16;
  range_id : 0 <= id h < 2 ^ 16;
  range_offset : 0 <= offset h < 2 ^ 13;
  range_ttl : 0 <= ttl h < 2 ^ 8;
  range_proto : 0 <= proto h < 2 ^ 8;
  range_cksum : 0 <= cksum h < 2 ^ 16;
  range_src : 0 <= src h < 2 ^ 32;
  range_dst : 0 <= dst h < 2 ^ 32
}.

(** The headers that can be written. *)
Record wf (h : t) : Prop := {
  wf_ranges : ranges h;
  wf_ver : ver h = 4;
  wf_hlen : 5 <= hlen h
}.

(** ** The wire image *)

Definition before_cksum (h : t) : list byte :=
  be_bytes 1 (first_byte h) ++ be_bytes 1 (tos h) ++ be_bytes 2 (len h) ++ be_bytes 2 (id h) ++
  be_bytes 2 (fo_val h) ++ be_bytes 1 (ttl h) ++ be_bytes 1 (proto h).
Definition after_cksum (h : t) : list byte :=
  be_bytes 4 (src h) ++ be_bytes 4 (dst h) ++ replicate (Z.to_nat (4 * hlen h - 20)) x00.
Definition image (h : t) : list byte := before_cksum h ++ be_bytes 2 (cksum h) ++ after_cksum h.

Lemma len_before_cksum h : prelude.len (before_cksum h) = 10.
Proof. unfold before_cksum. rewrite !len_app, !len_be_bytes. done. Qed.

Lemma len_after_cksum h : 5 <= hlen h -> prelude.len (after_cksum h) = 4 * hlen h - 12.
Proof.
  intros. unfold after_cksum. rewrite !len_app, !len_be_bytes. unfold prelude.len. rewrite length_replicate. lia.
Qed.

Lemma len_ip_image h : 5 <= hlen h -> prelude.len (image h) = 4 * hlen h.
Proof. intros. unfold image. rewrite !len_app, len_be_bytes, len_before_cksum, len_after_cksum by done. lia. Qed.

Lemma ip_serialize_eq h : ver h = 4 -> 5 <= hlen h -> serialize h = Ok (image h).
Proof.
  intros Hv Hh. unfold serialize. rewrite Hv. simpl negb. cbv iota.
  rewrite (proj2 (Z.ltb_ge _ _)) by (unfold LENGTH; lia). autorewrite with unparse.
  rewrite app_nil_l. unfold image, before_cksum, after_cksum, resize. rewrite <- !app_assoc.
  match goal with |- Ok (ztake _ ?l ++ _) = _ => assert (El : prelude.len l = 20) end.
  { rewrite !len_app, !len_be_bytes. done. }
  rewrite El, ztake_ge by lia. by rewrite <- !app_assoc.
Qed.

Lemma first_byte_eq h : ranges h -> first_byte h = ver h * 2 ^ 4 + hlen h.
Proof.
  intros []. unfold first_byte. change 0xf with (Z.ones 4). rewrite Z.land_ones by lia.
  rewrite (Z.mod_small (hlen h)), lor_shiftl_low by lia. apply u8_small. lia.
Qed.

(** The three bits of the flags, above the offset. *)
Definition flag_bits (h : t) : Z := (if df h then 2 else 0) + (if mf h then 1 else 0).

Lemma fo_val_lor h : ranges h -> fo_val h = Z.lor (Z.shiftl (flag_bits h) 13) (offset h).
Proof.
  intros []. unfold fo_val, flag_bits. change 0x1fff with (Z.ones 13). rewrite Z.land_ones by lia.
  rewrite (Z.mod_small (offset h)) by lia. by destruct (df h), (mf h).
Qed.

Lemma fo_val_fields h :
  ranges h ->
  0 <= fo_val h < 2 ^ 16 /\ to_bool (Z.land (fo_val h) 0x4000) = df h /\
  to_bool (Z.land (fo_val h) 0x2000) = mf h /\ Z.land (fo_val h) 0x1fff = offset h.
Proof.
  intros Hr. rewrite fo_val_lor by done. destruct Hr.
  assert (Hk : 0 <= flag_bits h < 4) by (unfold flag_bits; destruct (df h), (mf h); lia).
  split_and!.
  1, 2: rewrite lor_shiftl_low; lia.
  - change 0x4000 with (Z.shiftl 2 13). rewrite Z.land_lor_distr_l, (Z.land_comm (offset h)).
    rewrite (land_shiftl_low _ (offset h)), Z.lor_0_r by lia. unfold flag_bits. by destruct (df h), (mf h).
  - change 0x2000 with (Z.shiftl 1 13). rewrite Z.land_lor_distr_l, (Z.land_comm (offset h)).
    rewrite (land_shiftl_low _ (offset h)), Z.lor_0_r by lia. unfold flag_bits. by destruct (df h), (mf h).
  - change 0x1fff with (Z.ones 13). rewrite Z.land_ones, lor_shiftl_low by lia. zarith.
Qed.

(** Reading back a header that checks to zero, whatever follows it. *)
Lemma ip_parse_wp h prev p rest (Q : ParseResult * t -> NetParser.t -> Prop) E :
  wf h -> NetParser.ok p (image h ++ rest) -> len h = 4 * hlen h + prelude.len rest ->
  InternetChecksum.value (InternetChecksum.add (image h) (InternetChecksum.new 0)) = Ok 0 ->
  (forall p', NetParser.ok p' rest -> Q (NoError, h) p') -> wpe (parse prev) Q E p.
Proof.
  intros [Hr Hv Hh] Hp Hlen Hck HQ. unfold parse. wp_step. wp_step.
  assert (Hs : Buffer.str (NetParser.buffer p) = image h ++ rest) by apply Hp.
  pose proof (len_nonneg rest).
  assert (Hsize : Buffer.size (NetParser.buffer p) = len h).
  { unfold Buffer.size. rewrite Hs, len_app, len_ip_image by done. lia. }
  cbv zeta. rewrite Hs, Hsize. rewrite (proj2 (Z.ltb_ge _ _)) by (unfold LENGTH; lia).
  unfold image, before_cksum, after_cksum in Hp. rewrite <- !app_assoc in Hp.
  destruct (fo_val_fields h Hr) as (Hfo & Hdf & Hmf & Hoff).
  pose proof (first_byte_eq h Hr) as Hfb.
  do 10 (wp_step; eapply parse_be_bytes_wp; [exact Hp |]; clear Hp; intros ? Hp).
  change (8 * Z.of_nat 4) with 32. change (8 * Z.of_nat 2) with 16. change (8 * Z.of_nat 1) with 8.
  destruct Hr. rewrite (Z.mod_small (first_byte h)) by (rewrite Hfb; lia).
  rewrite !(Z.mod_small _ (2 ^ 16)), !(Z.mod_small _ (2 ^ 8)), !(Z.mod_small _ (2 ^ 32)) by done.
  rewrite Hdf, Hmf, Hoff, Hfb. change 0x0f with (Z.ones 4). rewrite Z.land_ones, Z.shiftr_div_pow2 by lia.
  replace ((ver h * 2 ^ 4 + hlen h) / 2 ^ 4) with (ver h) by zarith.
  replace ((ver h * 2 ^ 4 + hlen h) mod 2 ^ 4) with (hlen h) by zarith.
  rewrite !(proj2 (Z.ltb_ge _ _)) by lia. rewrite Hv at 1. rewrite !Z.eqb_refl. simpl negb. cbv iota.
  assert (Hopt : prelude.len (replicate (Z.to_nat (4 * hlen h - 20)) x00) = hlen h * 4 - LENGTH).
  { unfold prelude.len. rewrite length_replicate. unfold LENGTH. lia. }
  wp_step. eapply NetParser.remove_prefix_wp; [exact Hp | rewrite len_app; unfold LENGTH in *; lia |].
  clear Hp. intros pr Hp. rewrite zdrop_app_ge, Hopt, Z.sub_diag, zdrop_nonpos in Hp by lia.
  wp_steps. unfold NetParser.error, NetParser.get_error. rewrite (NetParser.ok_error _ _ Hp). simpl bool_decide. cbv iota.
  rewrite ztake_app_le, ztake_ge by (rewrite len_ip_image; lia). wp_step.
  unfold of_outcome, wpe. rewrite Hck. simpl. destruct h. by apply HQ.
Qed.

(** Any bytes: [parse] ends without an exception; only a header that was complete
    replaces the old one, and only then is anything consumed. *)
Lemma parse_any_bytes h p s (Q : ParseResult * t -> NetParser.t -> Prop) E :
  NetParser.ok p s ->
  (prelude.len s < LENGTH -> Q (PacketTooShort, h) p) ->
  (forall r h' p' rest, LENGTH <= prelude.len s -> ranges h' -> NetParser.ok p' rest ->
     (r = NoError -> ver h' = 4 /\ 5 <= hlen h' /\ len h' = prelude.len s /\ prelude.len rest = len h' - 4 * hlen h' /\
        InternetChecksum.value (InternetChecksum.add (ztake (4 * hlen h') s) (InternetChecksum.new 0)) = Ok 0) ->
     (r <> NoError -> prelude.len rest <= prelude.len s - 20) -> Q (r, h') p') ->
  wpe (parse h) Q E p.
Proof.
  intros Hp Hshort HQ. unfold parse. wp_step. wp_step. cbv zeta.
  assert (Hstr : Buffer.str (NetParser.buffer p) = s) by apply Hp.
  unfold Buffer.size. rewrite Hstr. apply wp_if; intros Hs.
  { apply Z.ltb_lt in Hs. wp_step. by apply Hshort. }
  apply Z.ltb_ge in Hs. clear Hshort Hstr. unfold LENGTH in *.
  parse_any Hp fb. parse_any Hp tos0. parse_any Hp len0. parse_any Hp id0. parse_any Hp fo.
  parse_any Hp ttl0. parse_any Hp proto0. parse_any Hp ck. parse_any Hp src0. parse_any Hp dst0.
  match goal with |- context [ztake _ ?l] => set (s := l) in * end.
  match type of Hp with NetParser.ok _ ?r => rename r into rest end.
  assert (Hlen : prelude.len s = 20 + prelude.len rest).
  { unfold s. rewrite !len_app, !len_be_bytes. lia. }
  clearbody s. change 0x0f with (Z.ones 4). change 0x1fff with (Z.ones 13).
  rewrite !Z.land_ones, Z.shiftr_div_pow2 by lia.
  set (h' := mk (fb / 2 ^ 4) (fb mod 2 ^ 4) _ _ _ _ _ _ _ _ _ _ _).
  assert (Hr : ranges h') by (split; unfold h'; simpl; zarith).
  apply wp_if; intros C1; [wp_step; eapply HQ; [done | done | exact Hp | done | lia] |].
  apply wp_if; intros C2; [wp_step; eapply HQ; [done | done | exact Hp | done | lia] |].
  apply wp_if; intros C3; [wp_step; eapply HQ; [done | done | exact Hp | done | lia] |].
  apply wp_if; intros C4; [wp_step; eapply HQ; [done | done | exact Hp | done | lia] |].
  apply Z.ltb_ge in C1, C3. apply negb_false_iff, Z.eqb_eq in C2, C4.
  wp_step. eapply NetParser.remove_prefix_wp; [exact Hp | lia |].
  clear Hp. intros pr Hp. wp_step. wp_step.
  unfold NetParser.error, NetParser.get_error. rewrite (NetParser.ok_error _ _ Hp). simpl bool_decide. cbv iota.
  wp_step. destruct (InternetChecksum.value_total 0 (ztake (4 * (fb mod 2 ^ 4)) s)) as (v & Hv & _); [lia |].
  unfold of_outcome, wpe. rewrite Hv. unfold to_bool.
  destruct (Z.eqb_spec v 0) as [-> |]; eapply HQ; try done; try exact Hp; rewrite ?len_zdrop; intros; simpl; try lia.
  split_and!; simpl; try lia. exact Hv.
Qed.
End IPv4Header.

Module IPv4Datagram.

Record t : Type := mk { _header : IPv4Header.t; _payload : BufferList.t }.

Definition eta (d : t) : t := mk (_header d) (_payload d).
#[global] Instance set_header : Setter _header := ltac:(derive_setter eta _header).
#[global] Instance set_payload : Setter _payload := ltac:(derive_setter eta _payload).

Definition default : t := mk IPv4Header.default [].
Definition header (d : t) : IPv4Header.t := _header d.
Definition payload (d : t) : BufferList.t := _payload d.

(** [parse]: the result of [_header.parse] is not looked at. *)
Definition parse (buffer : Buffer.t) (d : t) : outcome (ParseResult * t) :=
  match IPv4Header.parse (_header d) (NetParser.new buffer) with
  | (Ok (_, h), p) =>
      let payload := BufferList.of_buffer (NetParser.buffer p) in
      let d := mk h payload in
      if negb (BufferList.size payload =? IPv4Header.payload_length h) then Ok (PacketTooShort, d)
      else Ok (NetParser.get_error p, d)
  | (Throw e, _) => Throw e
  end.

Definition serialize (d : t) : outcome BufferList.t :=
  if negb (BufferList.size (_payload d) =? IPv4Header.payload_length (_header d)) then
    Throw (Runtime_error "IPv4Datagram::serialize: payload is wrong size")
  else
    let header_out := setf IPv4Header.cksum 0 (_header d) in
    header_zero_checksum ← IPv4Header.serialize header_out;
    let check := InternetChecksum.add header_zero_checksum (InternetChecksum.new 0) in
    v ← InternetChecksum.value check;
    hdr ← IPv4Header.serialize (setf IPv4Header.cksum v header_out);
    Ok (BufferList.append (BufferList.append [] (BufferList.of_string hdr)) (_payload d)).

(** The datagrams that can be written: the length field is the truth. *)
Record wf (d : t) : Prop := {
  wf_header : IPv4Header.wf (_header d);
  wf_len : IPv4Header.len (_header d) = 4 * IPv4Header.hlen (_header d) + len (BufferList.bytes (_payload d))
}.

(** The same datagram, up to the header checksum and the storage of the payload. *)
Definition same (d d' : t) : Prop :=
  setf IPv4Header.cksum 0 (_header d') = setf IPv4Header.cksum 0 (_header d) /\
  BufferList.bytes (_payload d') = BufferList.bytes (_payload d).

Lemma payload_size d :
  wf d -> BufferList.size (_payload d) = len (BufferList.bytes (_payload d)) /\
    IPv4Header.payload_length (_header d) = len (BufferList.bytes (_payload d)).
Proof.
  intros [[[] ? ?] Hl]. pose proof (len_nonneg (BufferList.bytes (_payload d))). split.
  - apply BufferList.size_bytes. lia.
  - unfold IPv4Header.payload_length. rewrite u16_small; lia.
Qed.

(** A datagram on the wire: a header that checks to zero, and the payload. *)
Lemma datagram_serialize_eq d :
  wf d ->
  exists ck bl, serialize d = Ok bl /\ 0 <= ck < 2 ^ 16 /\
    let h := setf IPv4Header.cksum ck (_header d) in
    BufferList.bytes bl = IPv4Header.image h ++ BufferList.bytes (_payload d) /\
    InternetChecksum.value (InternetChecksum.add (IPv4Header.image h) (InternetChecksum.new 0)) = Ok 0.
Proof.
  intros Hd. destruct (payload_size d Hd) as [Es El]. destruct Hd as [[Hr Hv Hh] Hl].
  set (h := _header d) in *. unfold serialize. fold h. rewrite Es, El, Z.eqb_refl. simpl negb. cbv iota.
  destruct (InternetChecksum.checksum_field 0 (IPv4Header.before_cksum h) (IPv4Header.after_cksum h))
    as (ck & Hck & Hckr & Hz).
  { lia. } { done. }
  { rewrite IPv4Header.len_before_cksum, IPv4Header.len_after_cksum by done. destruct Hr. lia. }
  exists ck. eexists. rewrite IPv4Header.ip_serialize_eq by done. cbn [mbind outcome_bind].
  change (IPv4Header.image (setf IPv4Header.cksum 0 h))
    with (IPv4Header.before_cksum h ++ be_bytes 2 0 ++ IPv4Header.after_cksum h).
  rewrite Hck. cbn [mbind outcome_bind]. rewrite IPv4Header.ip_serialize_eq by done. cbn [mbind outcome_bind].
  split; [done |]. split; [done |].
  change (setf IPv4Header.cksum ck (setf IPv4Header.cksum 0 h)) with (setf IPv4Header.cksum ck h). split.
  - unfold BufferList.append, BufferList.of_string. rewrite app_nil_l, BufferList.bytes_app, BufferList.bytes_cons.
    rewrite Buffer.str_of_string. change (BufferList.bytes []) with (@nil byte). by rewrite app_nil_r.
  - exact Hz.
Qed.

Lemma datagram_parse_image h pl b prev :
  wf (mk h (BufferList.of_string pl)) ->
  InternetChecksum.value (InternetChecksum.add (IPv4Header.image h) (InternetChecksum.new 0)) = Ok 0 ->
  Buffer.wf b -> Buffer.str b = IPv4Header.image h ++ pl ->
  exists d', parse b prev = Ok (NoError, d') /\ _header d' = h /\ BufferList.bytes (_payload d') = pl.
Proof.
  intros Hwf Hck Hb Eb. destruct (payload_size _ Hwf) as [_ El]. destruct Hwf as [Hh Hl]. simpl in Hh, Hl, El.
  assert (Epl : BufferList.bytes (BufferList.of_string pl) = pl).
  { unfold BufferList.of_string. rewrite BufferList.bytes_cons, Buffer.str_of_string. apply app_nil_r. }
  rewrite Epl in Hl, El. pose proof (len_nonneg pl).
  pose proof (parser_ok b Hb) as Hok. rewrite Eb in Hok.
  assert (Hwp : wp (IPv4Header.parse (_header prev)) (fun r p => r.2 = h /\ NetParser.ok p pl) (NetParser.new b)).
  { eapply IPv4Header.ip_parse_wp; [done | exact Hok | done | done | by intros]. }
  apply wp_run in Hwp as ([r h'] & p & E & Eh & Hp). simpl in Eh. subst h'.
  unfold parse. rewrite E. cbv zeta.
  assert (Ebs : BufferList.bytes (BufferList.of_buffer (NetParser.buffer p)) = pl).
  { unfold BufferList.of_buffer. rewrite BufferList.bytes_cons. change (BufferList.bytes []) with (@nil byte).
    rewrite app_nil_r. apply Hp. }
  rewrite BufferList.size_bytes, Ebs, El, Z.eqb_refl by (rewrite Ebs; destruct Hh as [[] ? ?]; lia).
  simpl negb. cbv iota. unfold NetParser.get_error. rewrite (NetParser.ok_error _ _ Hp). eauto.
Qed.

(** What a datagram read into a fresh object looks like when it is accepted:
    its payload has the length its header gives; the version and the header
    length can be anything. *)
Record accepted (d : t) : Prop := {
  accepted_ranges : IPv4Header.ranges (_header d);
  accepted_size : BufferList.size (_payload d) = IPv4Header.payload_length (_header d)
}.

Lemma wf_accepted d : wf d -> accepted d.
Proof. intros Hd. destruct (payload_size d Hd) as [Es El]. split; [apply Hd | by rewrite Es, El]. Qed.

Lemma parse_fresh_buffer buffer :
  Buffer.wf buffer ->
  exists r d b, parse buffer default = Ok (r, d) /\ _payload d = [b] /\ Buffer.wf b /\ (r = NoError -> accepted d).
Proof.
  intros Hb. assert (Hwp : wp (IPv4Header.parse IPv4Header.default) (fun r p =>
    NetParser.get_error p = NoError /\ Buffer.wf (NetParser.buffer p) /\
    ((len (Buffer.str buffer) < 20 /\ NetParser.buffer p = buffer /\ r.2 = IPv4Header.default) \/
     IPv4Header.ranges r.2)) (NetParser.new buffer)).
  { eapply IPv4Header.parse_any_bytes; [by apply parser_ok | intros Hs; split; [done | split; [done | by left]] |].
    intros r h' p' rest _ Hr Hp' _ _. split; [apply Hp' | split; [apply Hp' | by right]]. }
  apply wp_run in Hwp as ([r h] & p & E & He & Hwf & Hc). unfold parse. change (_header default) with IPv4Header.default.
  rewrite E, He. cbv zeta. destruct (Z.eqb_spec (BufferList.size (BufferList.of_buffer (NetParser.buffer p)))
    (IPv4Header.payload_length h)) as [Es|]; simpl negb; cbv iota; [| by eexists _, _, _].
  eexists _, _, _. split; [done |]. split; [done |]. split; [done |]. intros _. split; [| done]. simpl in Hc |- *.
  destruct Hc as [(Hs & Ep & ->) |]; [exfalso | done].
  unfold BufferList.of_buffer in Es. rewrite Ep in Es.
  change (IPv4Header.payload_length IPv4Header.default) with 65516 in Es.
  unfold BufferList.size in Es. simpl in Es. unfold Buffer.size in Es.
  pose proof (len_nonneg (Buffer.str buffer)). rewrite u64_small in Es by lia. lia.
Qed.

Lemma parse_fresh buffer :
  Buffer.wf buffer ->
  exists r d, parse buffer default = Ok (r, d) /\ (r = NoError -> accepted d).
Proof. intros Hb. destruct (parse_fresh_buffer buffer Hb) as (r & d & b & E & _ & _ & Ha). eauto. Qed.

(** [serialize] of a datagram with the right size throws on a bad version and on
    a header length below five. *)
(** What [IPv4Header::serialize] throws. *)
Definition unwritable (e : exn) : Prop :=
  e = Runtime_error "wrong IP version" \/ e = Runtime_error "IP header too short".

Lemma serialize_throws d :
  BufferList.size (_payload d) = IPv4Header.payload_length (_header d) ->
  IPv4Header.ver (_header d) <> 4 \/ IPv4Header.hlen (_header d) < 5 ->
  exists e, serialize d = Throw e /\ unwritable e.
Proof.
  intros Es Hbad. unfold serialize, IPv4Header.serialize. rewrite Es, Z.eqb_refl.
  cbn [negb setf upd IPv4Header.set_cksum IPv4Header.ver IPv4Header.hlen].
  destruct (Z.eqb_spec (IPv4Header.ver (_header d)) 4); simpl; [| by eexists; split; [| left]].
  rewrite (proj2 (Z.ltb_lt _ _)) by (unfold IPv4Header.LENGTH; lia). simpl. by eexists; split; [| right].
Qed.

Lemma serialize_returns d :
  accepted d -> IPv4Header.ver (_header d) = 4 -> 5 <= IPv4Header.hlen (_header d) ->
  exists bl ck, serialize d = Ok bl /\ 0 <= ck < 2 ^ 16 /\
    BufferList.bytes bl =
      IPv4Header.image (setf IPv4Header.cksum ck (_header d)) ++ BufferList.bytes (_payload d).
Proof.
  intros [Hr Es] Hv Hh. set (h := _header d) in *. unfold serialize. fold h.
  rewrite Es, Z.eqb_refl. simpl negb. cbv iota. rewrite IPv4Header.ip_serialize_eq by done. cbn [mbind outcome_bind].
  destruct (InternetChecksum.value_total 0 (IPv4Header.image (setf IPv4Header.cksum 0 h))) as (ck & Eck & Hck); [lia |].
  rewrite Eck. cbn [mbind outcome_bind]. rewrite IPv4Header.ip_serialize_eq by done. cbn [mbind outcome_bind].
  eexists _, ck. split; [done |]. split; [done |].
  unfold BufferList.append, BufferList.of_string. rewrite app_nil_l, BufferList.bytes_app, BufferList.bytes_cons.
  rewrite Buffer.str_of_string. change (BufferList.bytes []) with (@nil byte). by rewrite app_nil_r.
Qed.

(** Exactly what [serialize] needs in order to return. *)
Lemma serialize_ok_iff d :
  (exists bl, serialize d = Ok bl) <->
  BufferList.size (_payload d) = IPv4Header.payload_length (_header d) /\
  IPv4Header.ver (_header d) = 4 /\ 5 <= IPv4Header.hlen (_header d).
Proof.
  split.
  - intros [bl E].
    assert (Es : BufferList.size (_payload d) = IPv4Header.payload_length (_header d)).
    { unfold serialize in E. by destruct (Z.eqb_spec (BufferList.size (_payload d)) (IPv4Header.payload_length (_header d))). }
    split; [done |]. destruct (decide (IPv4Header.ver (_header d) = 4 /\ 5 <= IPv4Header.hlen (_header d))) as [|Hbad]; [done |].
    destruct (serialize_throws d Es) as (e & E' & _); [lia | congruence].
  - intros (Es & Hv & Hh). unfold serialize. rewrite Es, Z.eqb_refl. simpl negb. cbv iota.
    rewrite IPv4Header.ip_serialize_eq by done. cbn [mbind outcome_bind].
    destruct (InternetChecksum.value_total 0 (IPv4Header.image (setf IPv4Header.cksum 0 (_header d)))) as (ck & Eck & _); [lia |].
    rewrite Eck. cbn [mbind outcome_bind]. rewrite IPv4Header.ip_serialize_eq by done. cbn [mbind outcome_bind]. eauto.
Qed.

(** What [serialize] writes, [parse] reads, wherever the bytes are stored. *)
Lemma datagram_parse_serialized d :
  wf d ->
  exists bl ck, serialize d = Ok bl /\
    InternetChecksum.value (InternetChecksum.add
      (ztake (4 * IPv4Header.hlen (_header d)) (BufferList.bytes bl)) (InternetChecksum.new 0)) = Ok 0 /\
    len (BufferList.bytes bl) < 2 ^ 16 /\
    forall b prev, Buffer.wf b -> Buffer.str b = BufferList.bytes bl ->
      exists d', parse b prev = Ok (NoError, d') /\ _header d' = setf IPv4Header.cksum ck (_header d) /\
        BufferList.bytes (_payload d') = BufferList.bytes (_payload d).
Proof.
  intros Hd. destruct (datagram_serialize_eq d Hd) as (ck & bl & E & Hck & Ebl & Hz).
  set (h := setf IPv4Header.cksum ck (_header d)) in *.
  assert (Hlen : len (IPv4Header.image h) = 4 * IPv4Header.hlen (_header d)) by (apply (IPv4Header.len_ip_image h); apply Hd).
  exists bl, ck. rewrite Ebl. split; [done |]. split; [by rewrite ztake_app_le, ztake_ge by lia |].
  destruct Hd as [[[] ? ?] Hl]. split; [rewrite len_app; lia |].
  intros b prev Hb Eb. apply datagram_parse_image; [| done | done | done].
  split; [split; [split; simpl; lia | done | done] | simpl].
  unfold BufferList.of_string. by rewrite BufferList.bytes_cons, Buffer.str_of_string, app_nil_r.
Qed.

Lemma roundtrip d prev :
  wf d ->
  exists bl ck d', serialize d = Ok bl /\ parse (Buffer.of_string (BufferList.concatenate bl)) prev = Ok (NoError, d') /\
    _header d' = setf IPv4Header.cksum ck (_header d) /\
    BufferList.bytes (_payload d') = BufferList.bytes (_payload d) /\
    InternetChecksum.value (InternetChecksum.add
      (ztake (4 * IPv4Header.hlen (_header d)) (BufferList.concatenate bl)) (InternetChecksum.new 0)) = Ok 0.
Proof.
  intros Hd. destruct (datagram_parse_serialized d Hd) as (bl & ck & E & Hz & Hl & Hp).
  rewrite <- (BufferList.concatenate_bytes bl) in *.
  destruct (Hp (Buffer.of_string (BufferList.concatenate bl)) prev) as (d' & Ed & Eh & Epl).
  { apply Buffer.wf_of_string. lia. } { apply Buffer.str_of_string. }
  by exists bl, ck, d'.
Qed.
End IPv4Datagram.

#[export, refine] Instance ipv4_datagram_format : WireFormat IPv4Datagram.t := {
  wire_parse := IPv4Datagram.parse;
  wire_serialize d := bl ← IPv4Datagram.serialize d; Ok (BufferList.concatenate bl);
  wire_wf := IPv4Datagram.wf;
  wire_same := IPv4Datagram.same
}.
Proof.
  intros d prev Hd. destruct (IPv4Datagram.roundtrip d prev Hd) as (bl & ck & d' & E & Ed & Eh & Epl & _).
  eexists _, d'. rewrite E. split; [done |]. split; [done |]. split; [by rewrite Eh | done].
Defined.

(** ** Properties *)

(** [C31] Round trip of IPv4 datagrams: for every datagram whose length field is
    the truth, with any header length, [serialize] returns, and its bytes parse
    into the same datagram up to the header checksum; that checksum verifies,
    so a checking receiver accepts the header too. *)
Theorem datagram_roundtrip d prev :
  IPv4Datagram.wf d ->
  exists bl ck d',
    IPv4Datagram.serialize d = Ok bl /\
    IPv4Datagram.parse (Buffer.of_string (BufferList.concatenate bl)) prev = Ok (NoError, d') /\
    IPv4Datagram.header d' = setf IPv4Header.cksum ck (IPv4Datagram.header d) /\
    BufferList.bytes (IPv4Datagram.payload d') = BufferList.bytes (IPv4Datagram.payload d) /\
    InternetChecksum.value (InternetChecksum.add
      (ztake (4 * IPv4Header.hlen (IPv4Datagram.header d)) (BufferList.concatenate bl)) (InternetChecksum.new 0)) = Ok 0.
Proof. apply IPv4Datagram.roundtrip. Qed.

(** ** Witness *)

Definition sample_datagram : IPv4Datagram.t :=
  IPv4Datagram.mk (IPv4Header.mk 4 6 0 27 7 true false 0 64 IPv4Header.PROTO_TCP 0 0x0a000001 0x0a000002)
    [Buffer.of_string [x61]; Buffer.of_string [x62; x63]].

Lemma sample_datagram_wf : IPv4Datagram.wf sample_datagram.
Proof. split; [| done]. split; [| done | done]. split; by vm_compute. Qed.

Lemma datagram_roundtrip_witness :
  exists bl ck d',
    IPv4Datagram.serialize sample_datagram = Ok bl /\
    IPv4Datagram.parse (Buffer.of_string (BufferList.concatenate bl)) IPv4Datagram.default = Ok (NoError, d') /\
    IPv4Datagram.header d' = setf IPv4Header.cksum ck (IPv4Datagram.header sample_datagram) /\
    BufferList.bytes (IPv4Datagram.payload d') = BufferList.bytes (IPv4Datagram.payload sample_datagram) /\
    InternetChecksum.value (InternetChecksum.add
      (ztake (4 * IPv4Header.hlen (IPv4Datagram.header sample_datagram)) (BufferList.concatenate bl))
      (InternetChecksum.new 0)) = Ok 0.
Proof. apply datagram_roundtrip. exact sample_datagram_wf. Defined.

(** ** A header that is not checked *)

(** A datagram of IP version 6 whose length field fits: the header's parser
    reports the wrong version, [IPv4Datagram::parse] accepts it all the same, and
    the datagram cannot be written again. *)
Definition version_6_bytes : list byte :=
  [x65; x00; x00; x15; x00; x00; x00; x00; x40; x06; x00; x00; x0a; x00; x00; x01; x0a; x00; x00; x02; x61].

Definition version_6_datagram : IPv4Datagram.t :=
  IPv4Datagram.mk (IPv4Header.mk 6 5 0 21 0 false false 0 64 6 0 0x0a000001 0x0a000002)
    [Buffer.mk (Some version_6_bytes) 20].

Lemma wrong_version_accepted :
  fst (IPv4Header.parse IPv4Header.default (NetParser.new (Buffer.of_string version_6_bytes)))
      = Ok (WrongIPVersion, IPv4Datagram.header version_6_datagram) /\
  IPv4Datagram.parse (Buffer.of_string version_6_bytes) IPv4Datagram.default = Ok (NoError, version_6_datagram) /\
  IPv4Datagram.serialize version_6_datagram = Throw (Runtime_error "wrong IP version").
Proof. split_and!; vm_compute; reflexivity. Qed.
