(* ===== verification/icmp_message.v ===== *)
(** * tcp_helpers/icmp_message: ICMP messages *)

From S2P Require Import prelude buffer parser wire_format checksum.

Module ICMPMessage.
Definition MIN_LENGTH : Z := 4.
Definition ECHO_LENGTH : Z := 8.

(** [enum Type : uint8_t] *)
Definition TYPE_ECHO_REPLY : Z := 0.
Definition TYPE_DESTINATION_UNREACHABLE : Z := 3.
Definition TYPE_ECHO_REQUEST : Z := 8.
Definition TYPE_TIME_EXCEEDED : Z := 11.

Record t : Type := mk {
  type : Z;
  code : Z;
  cksum : Z;
  identifier : Z;
  sequence_number : Z;
  payload : list byte
}.

Definition eta (m : t) : t := mk (type m) (code m) (cksum m) (identifier m) (sequence_number m) (payload m).
#[global] Instance set_cksum : Setter cksum := ltac:(derive_setter eta cksum).

Definition default : t := mk 0 0 0 0 0 [].

(** [type == TYPE_ECHO_REQUEST || type == TYPE_ECHO_REPLY] *)
Definition is_echo (type : Z) : bool := (type =? TYPE_ECHO_REQUEST) || (type =? TYPE_ECHO_REPLY).

(** The body of [parse], on its local parser.  A short echo is refused with the
    first three fields already assigned. *)
Definition parse_fields (m : t) : M NetParser.t (ParseResult * t) :=
  let* size := asks (fun p => Buffer.size (NetParser.buffer p)) in
  if size <? MIN_LENGTH then pure (PacketTooShort, m)
  else
    let* type := NetParser.u8 in
    let* code := NetParser.u8 in
    let* cksum := NetParser.u16 in
    let* size := asks (fun p => Buffer.size (NetParser.buffer p)) in
    if is_echo type then
      if size <? ECHO_LENGTH - MIN_LENGTH then
        pure (PacketTooShort, mk type code cksum (identifier m) (sequence_number m) (payload m))
      else
        let* identifier := NetParser.u16 in
        let* sequence_number := NetParser.u16 in
        let* payload := asks NetParser.str in
        let* e := asks NetParser.get_error in
        pure (e, mk type code cksum identifier sequence_number payload)
    else
      (if 4 <=? size then NetParser.remove_prefix 4 else pure tt) ;;
      let* payload := asks NetParser.str in
      let* e := asks NetParser.get_error in
      pure (e, mk type code cksum 0 0 payload).

Definition parse (buffer : Buffer.t) (m : t) : outcome (ParseResult * t) :=
  fst (parse_fields m (NetParser.new buffer)).

(** The statements [compute_checksum] and [serialize] share: the message with
    [ck] in its checksum field. *)
Definition write (m : t) (ck : Z) : list byte :=
  let s := NetUnparser.u8 [] (type m) in
  let s := NetUnparser.u8 s (code m) in
  let s := NetUnparser.u16 s ck in
  let s :=
    if is_echo (type m) then NetUnparser.u16 (NetUnparser.u16 s (identifier m)) (sequence_number m)
    else NetUnparser.u32 s 0 in
  s ++ payload m.

Definition compute_checksum (m : t) : outcome Z :=
  InternetChecksum.value (InternetChecksum.add (write m 0) (InternetChecksum.new 0)).

Definition serialize (m : t) : outcome (list byte) :=
  computed ← compute_checksum m;
  Ok (write m computed).

Record wf (m : t) : Prop := {
  wf_type : is_u8 (type m);
  wf_code : is_u8 (code m);
  wf_identifier : 0 <= identifier m < 2 ^ 16;
  wf_sequence_number : 0 <= sequence_number m < 2 ^ 16;
  (** the two fields of an echo are zero in the other messages *)
  wf_echo : is_echo (type m) = false -> identifier m = 0 /\ sequence_number m = 0;
  wf_payload : len (payload m) < 2 ^ 15
}.

(** The four bytes after the checksum. *)
Definition rest_of_header (m : t) : list byte :=
  if is_echo (type m) then be_bytes 2 (identifier m) ++ be_bytes 2 (sequence_number m) else be_bytes 4 0.

Lemma write_eq m ck :
  write m ck = (be_bytes 1 (type m) ++ be_bytes 1 (code m)) ++ be_bytes 2 ck ++ rest_of_header m ++ payload m.
Proof.
  unfold write, rest_of_header. destruct (is_echo (type m)); autorewrite with unparse;
    by rewrite app_nil_l, <- !app_assoc.
Qed.

Lemma len_rest_of_header m : len (rest_of_header m) = 4.
Proof. unfold rest_of_header. destruct (is_echo (type m)); rewrite ?len_app, ?len_be_bytes; done. Qed.

Lemma len_write m ck : len (write m ck) = 8 + len (payload m).
Proof. rewrite write_eq, !len_app, !len_be_bytes, len_rest_of_header. lia. Qed.

Lemma serialize_total m : exists ck, serialize m = Ok (write m ck) /\ 0 <= ck < 2 ^ 16.
Proof.
  unfold serialize, compute_checksum.
  destruct (InternetChecksum.value_total 0 (write m 0)) as (v & -> & Hv); [lia |].
  exists v. by split.
Qed.

Lemma icmp_serialize_eq m :
  wf m -> exists ck, serialize m = Ok (write m ck) /\ 0 <= ck < 2 ^ 16 /\
    InternetChecksum.value (InternetChecksum.add (write m ck) (InternetChecksum.new 0)) = Ok 0.
Proof.
  intros []. unfold serialize, compute_checksum. rewrite write_eq.
  destruct (InternetChecksum.checksum_field 0 (be_bytes 1 (type m) ++ be_bytes 1 (code m))
    (rest_of_header m ++ payload m)) as (ck & Hck & Hr & Hz); [lia | done | |].
  { rewrite !len_app, !len_be_bytes, len_rest_of_header. lia. }
  rewrite Hck. exists ck. split; [done |]. split; [done |]. by rewrite write_eq.
Qed.

Lemma parse_write m ck prev :
  wf m -> 0 <= ck < 2 ^ 16 ->
  parse (Buffer.of_string (write m ck)) prev = Ok (NoError, setf cksum ck m).
Proof.
  intros [Ht Hc Hi Hs He Hl] Hck. unfold parse.
  enough (Hwp : wp (parse_fields prev) (fun r _ => r = (NoError, setf cksum ck m))
    (NetParser.new (Buffer.of_string (write m ck)))).
  { apply wp_run in Hwp as (r & p' & -> & ->). done. }
  pose proof (NetParser.ok_new (write m ck) ltac:(rewrite len_write; lia)) as Hp.
  pose proof (len_write m ck) as Hlen.
  generalize dependent (NetParser.new (Buffer.of_string (write m ck))). intros p Hp.
  pose proof (len_nonneg (payload m)). unfold parse_fields. wp_step. wp_step.
  unfold Buffer.size. change (Buffer.str (NetParser.buffer p)) with (NetParser.str p).
  rewrite (NetParser.ok_str _ _ Hp), Hlen. rewrite (proj2 (Z.ltb_ge _ _)) by (unfold MIN_LENGTH; lia).
  rewrite write_eq, <- !app_assoc in Hp. clear Hlen.
  do 3 (wp_step; eapply parse_be_bytes_wp; [exact Hp |]; clear Hp; intros ? Hp).
  change (8 * Z.of_nat 2) with 16. change (8 * Z.of_nat 1) with 8. unfold is_u8 in *.
  rewrite !Z.mod_small by done. wp_step. wp_step.
  match goal with |- context [NetParser.buffer ?p] =>
    change (Buffer.str (NetParser.buffer p)) with (NetParser.str p) end.
  rewrite (NetParser.ok_str _ _ Hp), len_app, len_rest_of_header. unfold ECHO_LENGTH, MIN_LENGTH.
  unfold rest_of_header in Hp. destruct (is_echo (type m)) eqn:Ee.
  - rewrite (proj2 (Z.ltb_ge _ _)) by lia. rewrite <- app_assoc in Hp.
    do 2 (wp_step; eapply parse_be_bytes_wp; [exact Hp |]; clear Hp; intros ? Hp). wp_steps.
    unfold NetParser.get_error. rewrite (NetParser.ok_error _ _ Hp), (NetParser.ok_str _ _ Hp).
    change (8 * Z.of_nat 2) with 16. rewrite !Z.mod_small by done. by destruct m.
  - rewrite (proj2 (Z.leb_le _ _)) by lia. wp_step.
    eapply NetParser.remove_prefix_wp; [exact Hp | rewrite len_app, len_be_bytes; lia |].
    clear Hp. intros pr Hp. rewrite zdrop_app_ge, len_be_bytes, zdrop_nonpos in Hp by (rewrite ?len_be_bytes; lia).
    wp_steps. unfold NetParser.get_error. rewrite (NetParser.ok_error _ _ Hp), (NetParser.ok_str _ _ Hp).
    destruct (He eq_refl) as [E1 E2]. destruct m. simpl in *. by subst.
Qed.

(** Any buffer: [parse] ends without an exception, and what it accepts has fields
    in range and a payload no longer than the buffer. *)
Lemma parse_any_buffer buffer m :
  Buffer.wf buffer ->
  exists r m', parse buffer m = Ok (r, m') /\
    (r = NoError -> is_u8 (type m') /\ is_u8 (code m') /\ 0 <= identifier m' < 2 ^ 16 /\
       0 <= sequence_number m' < 2 ^ 16 /\ len (payload m') <= len (Buffer.str buffer) - 4 /\
       (is_echo (type m') = true -> len (payload m') = len (Buffer.str buffer) - 8)).
Proof.
  intros Hb. unfold parse.
  enough (Hwp : wp (parse_fields m) (fun r _ => r.1 = NoError ->
    is_u8 (type r.2) /\ is_u8 (code r.2) /\ 0 <= identifier r.2 < 2 ^ 16 /\
    0 <= sequence_number r.2 < 2 ^ 16 /\ len (payload r.2) <= len (Buffer.str buffer) - 4 /\
    (is_echo (type r.2) = true -> len (payload r.2) = len (Buffer.str buffer) - 8)) (NetParser.new buffer)).
  { apply wp_run in Hwp as ([r m'] & p & -> & Hr). eauto. }
  pose proof (parser_ok _ Hb) as Hp. unfold parse_fields. wp_step. wp_step.
  unfold Buffer.size. change (NetParser.buffer (NetParser.new buffer)) with buffer.
  apply wp_if; intros Hs; [by wp_step | apply Z.ltb_ge in Hs]. unfold MIN_LENGTH, ECHO_LENGTH in *.
  generalize dependent (Buffer.str buffer). intros s Hp Hs.
  parse_any Hp ty. parse_any Hp co. parse_any Hp ck. rewrite !len_app, !len_be_bytes in *. wp_step. wp_step.
  match goal with |- context [NetParser.buffer ?p] =>
    change (Buffer.str (NetParser.buffer p)) with (NetParser.str p) end.
  rewrite (NetParser.ok_str _ _ Hp). apply wp_if; intros He.
  - apply wp_if; intros Hs'; [by wp_step | apply Z.ltb_ge in Hs'].
    parse_any Hp ident. parse_any Hp sq. wp_steps. intros _.
    rewrite (NetParser.ok_str _ _ Hp). rewrite !len_app, !len_be_bytes. simpl.
    split_and!; try done; intros; lia.
  - wp_step. apply wp_if; intros Hs'.
    + apply Z.leb_le in Hs'. eapply NetParser.remove_prefix_wp; [exact Hp | lia |].
      clear Hp. intros pr Hp. wp_steps. intros _. cbn [fst snd payload type]. rewrite (NetParser.ok_str _ _ Hp), len_zdrop. simpl.
      split_and!; try done; try lia.
    + wp_steps. intros _. rewrite (NetParser.ok_str _ _ Hp). simpl.
      split_and!; try done; try lia; by rewrite He.
Qed.
End ICMPMessage.

#[export, refine] Instance icmp_message_format : WireFormat ICMPMessage.t := {
  wire_parse := ICMPMessage.parse;
  wire_serialize := ICMPMessage.serialize;
  wire_wf := ICMPMessage.wf;
  wire_same m m' := setf ICMPMessage.cksum 0 m' = setf ICMPMessage.cksum 0 m
}.
Proof.
  intros m prev Hm. destruct (ICMPMessage.icmp_serialize_eq m Hm) as (ck & E & Hck & _).
  eexists _, _. split; [exact E |]. split; [by apply ICMPMessage.parse_write | done].
Defined.

(** ** Properties *)

(** Round trip of ICMP messages, echoes and errors: [serialize] returns a
    message whose checksum verifies, and [parse] of it gives the message back
    with that checksum in its field. *)
Theorem icmp_roundtrip m prev :
  ICMPMessage.wf m ->
  exists bs ck,
    ICMPMessage.serialize m = Ok bs /\
    ICMPMessage.parse (Buffer.of_string bs) prev = Ok (NoError, setf ICMPMessage.cksum ck m) /\
    InternetChecksum.value (InternetChecksum.add bs (InternetChecksum.new 0)) = Ok 0.
Proof.
  intros Hm. destruct (ICMPMessage.icmp_serialize_eq m Hm) as (ck & E & Hck & Hz).
  exists (ICMPMessage.write m ck), ck. split; [done |]. split; [by apply ICMPMessage.parse_write | done].
Qed.

(** ** Witness *)

Definition sample_echo : ICMPMessage.t := ICMPMessage.mk ICMPMessage.TYPE_ECHO_REQUEST 0 0 77 3 [x70; x69; x6e; x67; x21].

Lemma icmp_roundtrip_witness :
  exists bs ck,
    ICMPMessage.serialize sample_echo = Ok bs /\
    ICMPMessage.parse (Buffer.of_string bs) ICMPMessage.default = Ok (NoError, setf ICMPMessage.cksum ck sample_echo) /\
    InternetChecksum.value (InternetChecksum.add bs (InternetChecksum.new 0)) = Ok 0.
Proof. apply icmp_roundtrip. split; by vm_compute. Defined.
