(* ===== verification/address.v ===== *)
(** * util/address: socket addresses

    An [Address] is a raw [sockaddr_storage] and the length of the address in it,
    with the layout of Linux on a little-endian machine: the family in host order,
    the port and the IPv4 address in network order.  Resolving and printing names
    is the C library's ([getaddrinfo], [getnameinfo], [inet_ntoa]): the class
    [Netdb], whose documented behaviour on numbers is [NetdbNumeric]. *)

From S2P Require Import prelude parser.

Module Address.

(** [sizeof(sockaddr_storage)], [sizeof(sockaddr_in)], [AF_INET] *)
Definition sizeof_storage : Z := 128.
Definition sizeof_sockaddr_in : Z := 16.
Definition AF_INET : Z := 2.

(** [_size] and the bytes of [_address.storage] *)
Record t : Type := mk { _size : Z; storage : list byte }.

#[global] Instance eq_dec : EqDecision t.
Proof. solve_decision. Defined.

(** [Address(const sockaddr *addr, size_t size)]; [addr] points to at least [size]
    bytes, the rest of the storage is zero. *)
Definition of_sockaddr (addr : list byte) (size : Z) : outcome t :=
  if sizeof_storage <? size then Throw (Runtime_error "invalid sockaddr size")
  else Ok (mk size (resize sizeof_storage (ztake size addr))).

(** [storage.ss_family] *)
Definition ss_family (a : t) : Z :=
  match storage a with
  | b0 :: b1 :: _ => Z_of_byte b0 + Z_of_byte b1 * 2 ^ 8
  | _ => 0
  end.

(** [ipv4_numeric]: [be32toh] of the four address bytes. *)
Definition ipv4_numeric (a : t) : outcome Z :=
  if negb (ss_family a =? AF_INET) || negb (_size a =? sizeof_sockaddr_in) then
    Throw (Runtime_error "ipv4_numeric called on non-IPV4 address")
  else Ok (be_value (slice 4 8 (storage a))).

(** A [sockaddr_in] with port zero. *)
Definition sockaddr_in (ip_address : Z) : list byte :=
  [byte_of_Z AF_INET; x00; x00; x00] ++ be_bytes 4 ip_address ++ replicate 8 x00.

Definition from_ipv4_numeric (ip_address : Z) : outcome t :=
  of_sockaddr (sockaddr_in ip_address) sizeof_sockaddr_in.

(** [operator==]: [memcmp] of the first [_size] bytes. *)
Definition eqb (a other : t) : bool :=
  (_size a =? _size other) && bool_decide (ztake (_size a) (storage a) = ztake (_size a) (storage other)).

(** ** Names and numbers

    [getaddrinfo], [getnameinfo] and [inet_ntoa] are the C library's: parameters of
    the functions that call them. *)

Definition AI_NUMERICHOST : Z := 0x4.
Definition AI_ALL : Z := 0x10.
Definition AI_NUMERICSERV : Z := 0x400.
Definition NI_NUMERICHOST : Z := 1.
Definition NI_NUMERICSERV : Z := 2.

(** The two fields of [struct addrinfo] that hints set. *)
Record addrinfo : Type := mk_hints { ai_flags : Z; ai_family : Z }.
Definition make_hints (flags family : Z) : addrinfo := mk_hints flags family.
Definition numeric_hints : addrinfo := make_hints (Z.lor AI_NUMERICHOST AI_NUMERICSERV) AF_INET.

(** [getaddrinfo] returns an error code and the resolved addresses (the bytes of
    [ai_addr], and [ai_addrlen]); [getnameinfo] an error code, a host and a
    service; [inet_ntoa] prints the four bytes of an [in_addr]. *)
Class Netdb : Type := {
  getaddrinfo : string -> string -> addrinfo -> Z * list (list byte * Z);
  getnameinfo : list byte -> Z -> Z -> Z * (string * string);
  inet_ntoa : list byte -> string
}.

Section names.
Context `{Netdb}.

Definition of_node (node service : string) (hints : addrinfo) : outcome t :=
  let '(gai_ret, resolved_address) := getaddrinfo node service hints in
  if negb (gai_ret =? 0) then
    Throw (Tagged_error ("getaddrinfo(" +:+ node +:+ ", " +:+ service +:+ ")") gai_ret)
  else
    match resolved_address with
    | [] => Throw (Runtime_error "getaddrinfo returned successfully but with no results")
    | (ai_addr, ai_addrlen) :: _ => of_sockaddr ai_addr ai_addrlen
    end.

Definition of_hostname (hostname service : string) : outcome t :=
  of_node hostname service (make_hints AI_ALL AF_INET).
Definition of_ip_port (ip : string) (port : Z) : outcome t := of_node ip (std_to_string port) numeric_hints.

Definition ip_port (a : t) : outcome (string * Z) :=
  let '(gni_ret, (ip, port)) := getnameinfo (storage a) (_size a) (Z.lor NI_NUMERICHOST NI_NUMERICSERV) in
  if negb (gni_ret =? 0) then Throw (Tagged_error "getnameinfo" gni_ret)
  else p ← std_stoi port; Ok (ip, u16 p).

Definition ip (a : t) : outcome string := p ← ip_port a; Ok (fst p).
Definition port (a : t) : outcome Z := p ← ip_port a; Ok (snd p).
Definition to_string (a : t) : outcome string := p ← ip_port a; Ok (fst p +:+ ":" +:+ std_to_string (snd p)).
End names.

(** The address that holds an IPv4 number. *)
Definition of_ip (ip : Z) : t := mk sizeof_sockaddr_in (resize sizeof_storage (sockaddr_in ip)).

Lemma len_sockaddr_in ip : len (sockaddr_in ip) = sizeof_sockaddr_in.
Proof. unfold sockaddr_in. rewrite !len_app, len_be_bytes. done. Qed.

Lemma from_ipv4_numeric_eq ip : from_ipv4_numeric ip = Ok (of_ip ip).
Proof.
  unfold from_ipv4_numeric, of_sockaddr, of_ip. simpl.
  rewrite ztake_ge; [done |]. by rewrite len_sockaddr_in.
Qed.

Lemma storage_of_ip ip :
  storage (of_ip ip) = [byte_of_Z AF_INET; x00; x00; x00] ++ be_bytes 4 ip ++ replicate 120 x00.
Proof.
  unfold of_ip, resize. cbn [storage]. rewrite len_sockaddr_in, ztake_ge by (by rewrite len_sockaddr_in).
  unfold sockaddr_in. by rewrite <- !app_assoc.
Qed.

Lemma ipv4_numeric_of_ip ip : 0 <= ip < 2 ^ 32 -> ipv4_numeric (of_ip ip) = Ok ip.
Proof.
  intros Hip. unfold ipv4_numeric, ss_family. rewrite storage_of_ip. f_equal. cbv iota.
  change (_ || _) with false. cbv iota. f_equal. unfold slice.
  rewrite zdrop_app_ge, zdrop_nonpos by done.
  rewrite ztake_app_le, ztake_ge by (rewrite ?len_be_bytes; done).
  rewrite be_value_be_bytes. by apply Z.mod_small.
Qed.

Lemma ipv4_numeric_range a ip : ipv4_numeric a = Ok ip -> 0 <= ip < 2 ^ 32.
Proof.
  unfold ipv4_numeric. destruct (_ || _); [done |]. intros [= <-].
  pose proof (be_value_range (slice 4 8 (storage a))).
  assert (Hl : len (slice 4 8 (storage a)) <= 4) by (unfold slice; rewrite len_ztake; lia).
  pose proof (Z.pow_le_mono_r 2 (8 * len (slice 4 8 (storage a))) 32). lia.
Qed.

(** ** IPv4 addresses with a port *)

(** The first eight bytes of a [sockaddr_in]; eight bytes of padding follow. *)
Definition inet_bytes (ip port : Z) : list byte :=
  [byte_of_Z AF_INET; x00] ++ be_bytes 2 port ++ be_bytes 4 ip.

Record inet (a : t) (ip port : Z) : Prop := {
  inet_ip : 0 <= ip < 2 ^ 32;
  inet_port : 0 <= port < 2 ^ 16;
  inet_size : _size a = sizeof_sockaddr_in;
  inet_storage : exists pad, storage a = inet_bytes ip port ++ pad
}.

(** What the C library documents of numeric hosts and services: printing an
    address and reading it back gives the same numbers. *)
Class NetdbNumeric `{Netdb} : Prop := {
  gai_numeric ip port :
    0 <= ip < 2 ^ 32 -> 0 <= port < 2 ^ 16 ->
    exists pad rest, len pad = 8 /\
      getaddrinfo (inet_ntoa (be_bytes 4 ip)) (std_to_string port) numeric_hints =
        (0, (inet_bytes ip port ++ pad, sizeof_sockaddr_in) :: rest);
  gni_numeric ip port pad :
    0 <= ip < 2 ^ 32 -> 0 <= port < 2 ^ 16 ->
    getnameinfo (inet_bytes ip port ++ pad) sizeof_sockaddr_in (Z.lor NI_NUMERICHOST NI_NUMERICSERV) =
      (0, (inet_ntoa (be_bytes 4 ip), std_to_string port))
}.

Lemma len_inet_bytes ip port : len (inet_bytes ip port) = 8.
Proof. unfold inet_bytes. by rewrite !len_app, !len_be_bytes. Qed.

Lemma inet_bytes_fields ip port pad :
  ztake 2 (inet_bytes ip port ++ pad) = [byte_of_Z AF_INET; x00] /\
  slice 2 4 (inet_bytes ip port ++ pad) = be_bytes 2 port /\
  slice 4 8 (inet_bytes ip port ++ pad) = be_bytes 4 ip.
Proof. done. Qed.

Lemma inet_numeric a ip port : inet a ip port -> ipv4_numeric a = Ok ip.
Proof.
  intros [Hip _ Hs [pad Est]]. destruct (inet_bytes_fields ip port pad) as (_ & _ & E).
  unfold ipv4_numeric. rewrite Est, E, Hs, be_value_be_bytes.
  change (ss_family a =? AF_INET) with (ss_family a =? 2). unfold ss_family. rewrite Est. unfold inet_bytes. cbn [app].
  change (_ || _) with false. cbv iota. f_equal. by apply Z.mod_small.
Qed.

Lemma inet_of_ip ip : 0 <= ip < 2 ^ 32 -> inet (of_ip ip) ip 0.
Proof.
  intros Hip. split; [done | done | done |]. exists (replicate 120 x00).
  rewrite storage_of_ip. unfold inet_bytes. by rewrite <- app_assoc.
Qed.

Lemma inet_unique a ip port ip' port' : inet a ip port -> inet a ip' port' -> ip = ip' /\ port = port'.
Proof.
  intros Ha Ha'. split.
  - pose proof (inet_numeric _ _ _ Ha) as E. rewrite (inet_numeric _ _ _ Ha') in E. by injection E.
  - destruct Ha as [_ Hp _ [pad E]], Ha' as [_ Hp' _ [pad' E']]. rewrite E in E'. unfold inet_bytes in E'.
    apply (f_equal (slice 2 4)) in E'. destruct (inet_bytes_fields ip port pad) as (_ & E1 & _).
    destruct (inet_bytes_fields ip' port' pad') as (_ & E2 & _). unfold inet_bytes in E1, E2. rewrite E1, E2 in E'.
    apply (f_equal be_value) in E'. rewrite !be_value_be_bytes in E'. by rewrite !Z.mod_small in E' by done.
Qed.

Section numeric.
Context `{NetdbNumeric}.

Lemma inet_ip_port a ip port : inet a ip port -> ip_port a = Ok (inet_ntoa (be_bytes 4 ip), port).
Proof.
  intros [Hip Hp Hs [pad Est]]. unfold ip_port. rewrite Est, Hs, gni_numeric by done. cbn [negb Z.eqb].
  rewrite std_stoi_to_string by lia. cbn [mbind outcome_bind]. by rewrite u16_small.
Qed.

Lemma inet_port_eq a ip p : inet a ip p -> port a = Ok p.
Proof. intros Ha. unfold port. by rewrite (inet_ip_port _ _ _ Ha). Qed.

(** [Address(inet_ntoa(ip), port)] *)
Lemma of_ip_port_numeric ip p :
  0 <= ip < 2 ^ 32 -> 0 <= p < 2 ^ 16 ->
  exists a, of_ip_port (inet_ntoa (be_bytes 4 ip)) p = Ok a /\ inet a ip p.
Proof.
  intros Hip Hp. destruct (gai_numeric ip p Hip Hp) as (pad & rest & Hpad & E).
  unfold of_ip_port, of_node. rewrite E. cbn [negb Z.eqb]. unfold of_sockaddr.
  rewrite (proj2 (Z.ltb_ge _ _)) by done. eexists. split; [done |].
  split; [done | done | done |]. cbn [storage].
  assert (Hl : len (inet_bytes ip p ++ pad) = sizeof_sockaddr_in) by (rewrite len_app, len_inet_bytes, Hpad; done).
  rewrite (ztake_ge sizeof_sockaddr_in) by (rewrite Hl; done). unfold resize.
  rewrite ztake_ge by (rewrite Hl; done). eexists. rewrite <- app_assoc. done.
Qed.

(** Printing and resolving an address gives back its numbers. *)
Lemma address_reprint a n p :
  inet a n p ->
  exists s a', ip a = Ok s /\ port a = Ok p /\ of_ip_port s p = Ok a' /\ inet a' n p.
Proof.
  intros Ha. destruct (of_ip_port_numeric n p) as (a' & E & Ha'); [apply Ha | apply Ha |].
  exists (inet_ntoa (be_bytes 4 n)), a'. unfold ip. rewrite (inet_ip_port _ _ _ Ha).
  split; [done |]. split; [by apply inet_port_eq with n | done].
Qed.
End numeric.

(** *** A resolver of numbers only *)

Fixpoint split_dots (s : string) : list string :=
  match s with
  | EmptyString => [EmptyString]
  | String c s' =>
      if (Ascii.nat_of_ascii c =? 46)%nat then EmptyString :: split_dots s'
      else match split_dots s' with [] => [] | p :: ps => String c p :: ps end
  end.

(** Dotted quads, and an address written as one number. *)
Definition quad_value (s : string) : option Z :=
  match mapM dec_value (split_dots s) with
  | Some [a; b; c; d] =>
      if (a <? 256) && (b <? 256) && (c <? 256) && (d <? 256) then Some (((a * 256 + b) * 256 + c) * 256 + d)
      else None
  | Some [a] => if a <? 2 ^ 32 then Some a else None
  | _ => None
  end.

Definition quad (bs : list byte) : string := String.concat "." (map (fun b => std_to_string (Z_of_byte b)) bs).

Definition EAI_NONAME : Z := -2.
Definition EAI_FAMILY : Z := -6.
Definition EAI_SERVICE : Z := -8.

Definition numeric_getaddrinfo (node service : string) (_ : addrinfo) : Z * list (list byte * Z) :=
  match quad_value node, dec_value service with
  | Some ip, Some port =>
      if port <? 2 ^ 16 then (0, [(inet_bytes ip port ++ replicate 8 x00, sizeof_sockaddr_in)]) else (EAI_SERVICE, [])
  | None, _ => (EAI_NONAME, [])
  | _, None => (EAI_SERVICE, [])
  end.

Definition numeric_getnameinfo (addr : list byte) (size _ : Z) : Z * (string * string) :=
  if (size =? sizeof_sockaddr_in) && bool_decide (ztake 2 addr = [byte_of_Z AF_INET; x00]) then
    (0, (quad (slice 4 8 addr), std_to_string (be_value (slice 2 4 addr))))
  else (EAI_FAMILY, (EmptyString, EmptyString)).

#[export] Instance numeric_netdb : Netdb := {|
  getaddrinfo := numeric_getaddrinfo; getnameinfo := numeric_getnameinfo; inet_ntoa := quad
|}.

Lemma split_dots_app s k :
  (forall c, c ∈ String.list_ascii_of_string s -> is_digit c = true) ->
  split_dots (s +:+ "." +:+ k) = s :: split_dots k.
Proof.
  induction s as [|c s IH]; intros Hs; [done |].
  change (String c s +:+ "." +:+ k) with (String c (s +:+ "." +:+ k)). cbn [split_dots].
  rewrite IH by (intros; apply Hs; by right).
  destruct (Nat.eqb_spec (Ascii.nat_of_ascii c) 46) as [E|]; [| done].
  specialize (Hs c ltac:(by left)). unfold is_digit in Hs. rewrite E in Hs. done.
Qed.

Lemma split_dots_last s :
  (forall c, c ∈ String.list_ascii_of_string s -> is_digit c = true) -> split_dots s = [s].
Proof.
  induction s as [|c s IH]; intros Hs; [done |]. cbn [split_dots].
  rewrite IH by (intros; apply Hs; by right).
  destruct (Nat.eqb_spec (Ascii.nat_of_ascii c) 46) as [E|]; [| done].
  specialize (Hs c ltac:(by left)). unfold is_digit in Hs. rewrite E in Hs. done.
Qed.

Lemma quad_value_quad ip : 0 <= ip < 2 ^ 32 -> quad_value (quad (be_bytes 4 ip)) = Some ip.
Proof.
  intros Hip. rewrite <- (Z.mod_small ip (2 ^ 32)) at 2 by done.
  change (2 ^ 32) with (2 ^ (8 * Z.of_nat 4)). rewrite <- be_value_be_bytes.
  pose proof (length_be_bytes 4 ip) as Hl. destruct (be_bytes 4 ip) as [|a [|b [|c [|d [|]]]]]; try done.
  unfold quad_value. cbn [quad map String.concat].
  rewrite !split_dots_app, split_dots_last by (intros ?; apply to_string_digits).
  pose proof (Z_of_byte_range a). pose proof (Z_of_byte_range b). pose proof (Z_of_byte_range c). pose proof (Z_of_byte_range d).
  cbn [mapM]. rewrite !dec_value_to_string by lia. cbn [mbind option_bind mret option_ret].
  rewrite !(proj2 (Z.ltb_lt _ _)) by lia. done.
Qed.

#[export] Instance numeric_netdb_numeric : NetdbNumeric.
Proof.
  split.
  - intros ip port Hip Hp. exists (replicate 8 x00), []. split; [done |]. cbn [getaddrinfo inet_ntoa numeric_netdb]. unfold numeric_getaddrinfo.
    rewrite quad_value_quad, dec_value_to_string by lia. by rewrite (proj2 (Z.ltb_lt _ _)) by lia.
  - intros ip port pad Hip Hp. cbn [getnameinfo inet_ntoa numeric_netdb]. unfold numeric_getnameinfo. rewrite Z.eqb_refl. cbn [andb].
    destruct (inet_bytes_fields ip port pad) as (-> & -> & ->). rewrite bool_decide_true by done.
    rewrite be_value_be_bytes. by rewrite Z.mod_small by done.
Qed.
End Address.
