(* ===== verification/header_text.v ===== *)
(** * Headers as text: [to_string] and [summary]

    The functions that print headers and messages (tcp_helpers: tcp_header, ipv4_header,
    ethernet_header, arp_message, icmp_message) and the two [summary] functions for frames
    (apps/lab7.cc, apps/network_simulator.cc).  [inet_ntoa] is the C library's. *)

From S2P Require Import prelude printing buffer parser wire_format checksum wrapping_integers tcp_segment ethernet arp_message ipv4 icmp_message address.

(** [os << seqno], in the base of the stream *)
Definition show_seqno (base : Z -> string) (n : WrappingInt32.t) : string := base (WrappingInt32.raw_value n).

Definition line (label value : string) : string := label +:+ value +:+ newline.

Module TCPHeaderText.
Import TCPHeader.

Definition to_string (h : t) : string :=
  line "TCP source port: " (hex_string (sport h)) +:+
  line "TCP dest port: " (hex_string (dport h)) +:+
  line "TCP seqno: " (show_seqno hex_string (seqno h)) +:+
  line "TCP ackno: " (show_seqno hex_string (ackno h)) +:+
  line "TCP doff: " (hex_string (doff h)) +:+
  "Flags: urg: " +:+ boolalpha (urg h) +:+ " ack: " +:+ boolalpha (ack h) +:+ " psh: " +:+ boolalpha (psh h) +:+
  " rst: " +:+ boolalpha (rst h) +:+ " syn: " +:+ boolalpha (syn h) +:+ " fin: " +:+ boolalpha (fin h) +:+ newline +:+
  line "TCP winsize: " (hex_string (win h)) +:+
  line "TCP cksum: " (hex_string (cksum h)) +:+
  line "TCP uptr: " (hex_string (uptr h)).

Definition summary (h : t) : string :=
  "Header(flags=" +:+ (if syn h then "S" else "") +:+ (if ack h then "A" else "") +:+
  (if rst h then "R" else "") +:+ (if fin h then "F" else "") +:+
  ",seqno=" +:+ show_seqno std_to_string (seqno h) +:+ ",ack=" +:+ show_seqno std_to_string (ackno h) +:+
  ",win=" +:+ std_to_string (win h) +:+ ")".
End TCPHeaderText.

Module IPv4HeaderText.
Import IPv4Header.

Definition to_string (h : t) : string :=
  line "IP version: " (hex_string (ver h)) +:+
  line "IP hdr len: " (hex_string (hlen h)) +:+
  line "IP tos: " (hex_string (tos h)) +:+
  line "IP dgram len: " (hex_string (len h)) +:+
  line "IP id: " (hex_string (id h)) +:+
  "Flags: df: " +:+ boolalpha (df h) +:+ " mf: " +:+ boolalpha (mf h) +:+ newline +:+
  line "Offset: " (hex_string (offset h)) +:+
  line "TTL: " (hex_string (ttl h)) +:+
  line "Protocol: " (hex_string (proto h)) +:+
  line "Checksum: " (hex_string (cksum h)) +:+
  line "Src addr: " (hex_string (src h)) +:+
  line "Dst addr: " (hex_string (dst h)).

(** The time to live is shown when it is low, and in base ten. *)
Definition summary `{Address.Netdb} (h : t) : string :=
  "IPv" +:+ hex_string (ver h) +:+ ", len=" +:+ hex_string (len h) +:+ ", protocol=" +:+ hex_string (proto h) +:+ ", " +:+
  (if 10 <=? ttl h then "" else "ttl=" +:+ std_to_string (ttl h) +:+ ", ") +:+
  "src=" +:+ Address.inet_ntoa (be_bytes 4 (src h)) +:+ ", dst=" +:+ Address.inet_ntoa (be_bytes 4 (dst h)).
End IPv4HeaderText.

Module EthernetText.

(** [to_string(EthernetAddress)]: the bytes in two digits each, with colons between them. *)
Fixpoint address_to_string (address : EthernetAddress) : string :=
  match address with
  | [] => EmptyString
  | [b] => setw 2 zero_char (hex_string b)
  | b :: address' => setw 2 zero_char (hex_string b) +:+ ":" +:+ address_to_string address'
  end.

Definition to_string (h : EthernetHeader.t) : string :=
  "dst=" +:+ address_to_string (EthernetHeader.dst h) +:+ ", src=" +:+ address_to_string (EthernetHeader.src h) +:+ ", type=" +:+
  (if EthernetHeader.type h =? EthernetHeader.TYPE_IPv4 then "IPv4"
   else if EthernetHeader.type h =? EthernetHeader.TYPE_ARP then "ARP"
   else "[unknown type " +:+ hex_string (EthernetHeader.type h) +:+ "!]").
End EthernetText.

Module ARPMessageText.
Import ARPMessage.

Definition to_string `{Address.Netdb} (m : t) : string :=
  "opcode=" +:+
  (if opcode m =? OPCODE_REPLY then "REPLY" else if opcode m =? OPCODE_REQUEST then "REQUEST" else "(unknown type)") +:+
  ", sender=" +:+ EthernetText.address_to_string (sender_ethernet_address m) +:+ "/" +:+
  Address.inet_ntoa (be_bytes 4 (sender_ip_address m)) +:+
  ", target=" +:+ EthernetText.address_to_string (target_ethernet_address m) +:+ "/" +:+
  Address.inet_ntoa (be_bytes 4 (target_ip_address m)).
End ARPMessageText.

Module ICMPMessageText.
Import ICMPMessage.

Definition to_string (m : t) : string :=
  "ICMP type=" +:+ std_to_string (type m) +:+ " code=" +:+ std_to_string (code m) +:+ " cksum=" +:+ std_to_string (cksum m) +:+
  (if is_echo (type m) then
     " id=" +:+ std_to_string (identifier m) +:+ " seq=" +:+ std_to_string (sequence_number m)
   else "") +:+
  " payload_len=" +:+ std_to_string (len (payload m)).
End ICMPMessageText.

(** ** Frames *)

Module FrameText.
Section text.
Context `{Address.Netdb}.

(** The case [TYPE_ARP] of both functions: the payload must be one buffer. *)
Definition summary_arp (ret : string) (payload : BufferList.t) : outcome string :=
  buf ← BufferList.to_Buffer payload;
  r ← ARPMessage.parse buf ARPMessage.default;
  Ok (ret +:+ (if bool_decide (r.1 = NoError) then " " +:+ ARPMessageText.to_string r.2 else " (bad ARP)")).

(** The TCP segment in a datagram, if there is one. *)
Definition summary_tcp (dgram : IPv4Datagram.t) : outcome string :=
  let h := IPv4Datagram.header dgram in
  if IPv4Header.proto h =? IPv4Header.PROTO_TCP then
    t ← TCPSegment.parse (Buffer.of_string (BufferList.concatenate (IPv4Datagram.payload dgram)))
          (IPv4Header.pseudo_cksum h) TCPSegment.default;
    Ok (if bool_decide (t.1 = NoError) then " " +:+ TCPHeaderText.summary (TCPSegment.header t.2) else EmptyString)
  else Ok EmptyString.

(** [summary] of apps/lab7.cc *)
Definition summary_lab7 (frame : EthernetFrame.t) : outcome string :=
  let ret := EthernetText.to_string (EthernetFrame.header frame) in
  let type := EthernetHeader.type (EthernetFrame.header frame) in
  if type =? EthernetHeader.TYPE_IPv4 then
    d ← IPv4Datagram.parse (Buffer.of_string (BufferList.concatenate (EthernetFrame.payload frame))) IPv4Datagram.default;
    if bool_decide (d.1 = NoError) then
      tcp ← summary_tcp d.2;
      Ok (ret +:+ " " +:+ IPv4HeaderText.summary (IPv4Datagram.header d.2) +:+ tcp)
    else Ok (ret +:+ " (bad IPv4)")
  else if type =? EthernetHeader.TYPE_ARP then summary_arp ret (EthernetFrame.payload frame)
  else Ok ret.

Definition bytes_to_string (bs : list byte) : string := String.string_of_list_ascii (map Ascii.ascii_of_byte bs).

(** [summary] of apps/network_simulator.cc: the payload must be one buffer. *)
Definition summary_simulator (frame : EthernetFrame.t) : outcome string :=
  let ret := EthernetText.to_string (EthernetFrame.header frame) in
  let type := EthernetHeader.type (EthernetFrame.header frame) in
  if type =? EthernetHeader.TYPE_IPv4 then
    buf ← BufferList.to_Buffer (EthernetFrame.payload frame);
    d ← IPv4Datagram.parse buf IPv4Datagram.default;
    Ok (if bool_decide (d.1 = NoError) then
          ret +:+ " " +:+ IPv4HeaderText.summary (IPv4Datagram.header d.2) +:+
          " payload=" +:+ quote +:+ bytes_to_string (BufferList.concatenate (IPv4Datagram.payload d.2)) +:+ quote
        else ret +:+ " (bad IPv4)")
  else if type =? EthernetHeader.TYPE_ARP then summary_arp ret (EthernetFrame.payload frame)
  else Ok ret.
End text.
End FrameText.
