(* ===== verification/network_interface.v ===== *)
(** * libsponge/network_interface: IP over Ethernet with ARP

    The interface between the Internet layer and an Ethernet: the ARP table, the
    requests that wait for an answer, and the datagrams that wait for an address.
    A [std::unordered_map] is a [gmap]; its iteration order is unspecified, and
    the lemmas on [tick] show that it does not matter. *)

From S2P Require Import prelude buffer parser wire_format ethernet arp_message ipv4 address.

Module NetworkInterface.

Definition ARP_ENTRY_TTL_MS : Z := 30 * 1000.
Definition ARP_RESPONSE_TTL_MS : Z := 5 * 1000.

Record ARPEntry : Type := mk_entry { eth_addr : EthernetAddress; ttl : Z }.

Record t : Type := mk {
  _ethernet_address : EthernetAddress;
  _ip_address : Address.t;
  _frames_out : list EthernetFrame.t;
  _arp_table : gmap Z ARPEntry;
  _waiting_arp_response_ip_addr : gmap Z Z;
  _waiting_internet_datagrams : gmap Z (list (Address.t * IPv4Datagram.t))
}.

Definition eta (n : t) : t :=
  mk (_ethernet_address n) (_ip_address n) (_frames_out n) (_arp_table n)
     (_waiting_arp_response_ip_addr n) (_waiting_internet_datagrams n).
#[global] Instance set_frames_out : Setter _frames_out := ltac:(derive_setter eta _frames_out).
#[global] Instance set_arp_table : Setter _arp_table := ltac:(derive_setter eta _arp_table).
#[global] Instance set_waiting_arp : Setter _waiting_arp_response_ip_addr :=
  ltac:(derive_setter eta _waiting_arp_response_ip_addr).
#[global] Instance set_waiting_datagrams : Setter _waiting_internet_datagrams :=
  ltac:(derive_setter eta _waiting_internet_datagrams).

Definition new (ethernet_address : EthernetAddress) (ip_address : Address.t) : t :=
  mk ethernet_address ip_address [] ∅ ∅ ∅.

Definition frames_out (n : t) : list EthernetFrame.t := _frames_out n.
Definition ip_address (n : t) : Address.t := _ip_address n.

Definition _send (dst : EthernetAddress) (type : Z) (payload : BufferList.t) : M t unit :=
  let* src := asks _ethernet_address in
  let eth_frame := EthernetFrame.mk (EthernetHeader.mk dst src type) payload in
  _frames_out %= (fun q => q ++ [eth_frame]).

(** The ARP request of [send_datagram], and the reply of [recv_frame]. *)
Definition arp_request (ethernet_address : EthernetAddress) (my_ip target_ip : Z) : ARPMessage.t :=
  setf ARPMessage.target_ip_address target_ip
    (setf ARPMessage.sender_ip_address my_ip
      (setf ARPMessage.target_ethernet_address zero_address
        (setf ARPMessage.sender_ethernet_address ethernet_address
          (setf ARPMessage.opcode ARPMessage.OPCODE_REQUEST ARPMessage.default)))).

Definition arp_reply (ethernet_address target_ethernet_address : EthernetAddress) (my_ip target_ip : Z) : ARPMessage.t :=
  setf ARPMessage.target_ip_address target_ip
    (setf ARPMessage.sender_ip_address my_ip
      (setf ARPMessage.target_ethernet_address target_ethernet_address
        (setf ARPMessage.sender_ethernet_address ethernet_address
          (setf ARPMessage.opcode ARPMessage.OPCODE_REPLY ARPMessage.default)))).

Definition send_datagram (dgram : IPv4Datagram.t) (next_hop : Address.t) : M t unit :=
  let* next_hop_ip := of_outcome (Address.ipv4_numeric next_hop) in
  let* entry := asks (fun n => _arp_table n !! next_hop_ip) in
  match entry with
  | Some e =>
      let* payload := of_outcome (IPv4Datagram.serialize dgram) in
      _send (eth_addr e) EthernetHeader.TYPE_IPv4 payload
  | None =>
      let* waiting := asks (fun n => _waiting_arp_response_ip_addr n !! next_hop_ip) in
      (match waiting with
       | Some _ => pure tt
       | None =>
           let* mac := asks _ethernet_address in
           let* my_ip := asks _ip_address in
           let* my_ip := of_outcome (Address.ipv4_numeric my_ip) in
           let* msg := of_outcome (ARPMessage.serialize (arp_request mac my_ip next_hop_ip)) in
           _send ETHERNET_BROADCAST EthernetHeader.TYPE_ARP (BufferList.of_string msg) ;;
           _waiting_arp_response_ip_addr %= insert next_hop_ip ARP_RESPONSE_TTL_MS
       end) ;;
      _waiting_internet_datagrams %= (fun m =>
        <[next_hop_ip := default [] (m !! next_hop_ip) ++ [(next_hop, dgram)]]> m)
  end.

(** The loop of [recv_frame] over the datagrams that waited for an address. *)
Fixpoint send_waiting (dst : EthernetAddress) (l : list (Address.t * IPv4Datagram.t)) : M t unit :=
  match l with
  | [] => pure tt
  | (_, dgram) :: l =>
      let* payload := of_outcome (IPv4Datagram.serialize dgram) in
      _send dst EthernetHeader.TYPE_IPv4 payload ;;
      send_waiting dst l
  end.

Definition recv_frame (frame : EthernetFrame.t) : M t (option IPv4Datagram.t) :=
  let* mac := asks _ethernet_address in
  let h := EthernetFrame.header frame in
  if negb (bool_decide (EthernetHeader.dst h = ETHERNET_BROADCAST)) &&
     negb (bool_decide (EthernetHeader.dst h = mac)) then pure None
  else if EthernetHeader.type h =? EthernetHeader.TYPE_IPv4 then
    let* buffer := of_outcome (BufferList.to_Buffer (EthernetFrame.payload frame)) in
    let* (r, ret) := of_outcome (IPv4Datagram.parse buffer IPv4Datagram.default) in
    if bool_decide (r = NoError) then pure (Some ret) else pure None
  else if EthernetHeader.type h =? EthernetHeader.TYPE_ARP then
    let* buffer := of_outcome (BufferList.to_Buffer (EthernetFrame.payload frame)) in
    let* (r, arp_msg) := of_outcome (ARPMessage.parse buffer ARPMessage.default) in
    if bool_decide (r <> NoError) then pure None
    else
      let* my_ip := asks _ip_address in
      let* my_ip := of_outcome (Address.ipv4_numeric my_ip) in
      let src_ip := ARPMessage.sender_ip_address arp_msg in
      let src_mac := ARPMessage.sender_ethernet_address arp_msg in
      (if (ARPMessage.opcode arp_msg =? ARPMessage.OPCODE_REQUEST) &&
          (ARPMessage.target_ip_address arp_msg =? my_ip) then
         let* msg := of_outcome (ARPMessage.serialize (arp_reply mac src_mac my_ip src_ip)) in
         _send src_mac EthernetHeader.TYPE_ARP (BufferList.of_string msg)
       else pure tt) ;;
      _arp_table %= insert src_ip (mk_entry src_mac ARP_ENTRY_TTL_MS) ;;
      let* waiting := asks (fun n => _waiting_internet_datagrams n !! src_ip) in
      (match waiting with
       | Some l => send_waiting src_mac l ;; _waiting_internet_datagrams %= delete src_ip
       | None => pure tt
       end) ;;
      pure None
  else pure None.

(** The first loop of [tick], over the entries of the ARP table in some order. *)
Fixpoint tick_table_loop (ms : Z) (entries : list (Z * ARPEntry)) (table : gmap Z ARPEntry) : gmap Z ARPEntry :=
  match entries with
  | [] => table
  | (ip, e) :: entries =>
      tick_table_loop ms entries
        (if ttl e <=? ms then delete ip table else <[ip := mk_entry (eth_addr e) (u64 (ttl e - ms))]> table)
  end.

(** The second loop, over the requests that wait for an answer: it also drops the
    datagrams that waited for one that never came. *)
Fixpoint tick_waiting_loop (ms : Z) (entries : list (Z * Z))
    (waiting : gmap Z Z) (datagrams : gmap Z (list (Address.t * IPv4Datagram.t)))
    : gmap Z Z * gmap Z (list (Address.t * IPv4Datagram.t)) :=
  match entries with
  | [] => (waiting, datagrams)
  | (ip, remaining) :: entries =>
      if remaining <=? ms then tick_waiting_loop ms entries (delete ip waiting) (delete ip datagrams)
      else tick_waiting_loop ms entries (<[ip := u64 (remaining - ms)]> waiting) datagrams
  end.

Definition tick (ms_since_last_tick : Z) : M t unit :=
  _arp_table %= (fun table => tick_table_loop ms_since_last_tick (map_to_list table) table) ;;
  let* waiting := asks _waiting_arp_response_ip_addr in
  let* datagrams := asks _waiting_internet_datagrams in
  let '(waiting', datagrams') := tick_waiting_loop ms_since_last_tick (map_to_list waiting) waiting datagrams in
  _waiting_arp_response_ip_addr ::= waiting' ;;
  _waiting_internet_datagrams ::= datagrams'.

(** ** The loops of [tick]

    Both walk over a map and replace or erase the current entry.  In whatever
    order that happens, every entry is aged once. *)

Section ageing.
Context {V : Type} (age : V -> option V).

Fixpoint age_loop (entries : list (Z * V)) (m : gmap Z V) : gmap Z V :=
  match entries with
  | [] => m
  | (k, v) :: entries => age_loop entries (match age v with Some v' => <[k := v']> m | None => delete k m end)
  end.

Lemma age_loop_notin entries m k : k ∉ entries.*1 -> age_loop entries m !! k = m !! k.
Proof.
  revert m. induction entries as [|[k' v] entries IH]; intros m Hk; simpl; [done |].
  rewrite fmap_cons, not_elem_of_cons in Hk. destruct Hk as [Hne Hk]. rewrite IH by done.
  destruct (age v); [by rewrite lookup_insert_ne | by rewrite lookup_delete_ne].
Qed.

Lemma age_loop_in entries m k v :
  NoDup entries.*1 -> (k, v) ∈ entries -> age_loop entries m !! k = age v.
Proof.
  revert m. induction entries as [|[k' v'] entries IH]; intros m Hd Hin; simpl; [by apply not_elem_of_nil in Hin |].
  rewrite fmap_cons in Hd. apply list.NoDup_cons in Hd as [Hk Hd].
  apply elem_of_cons in Hin as [[= -> ->] | Hin]; [| by apply IH].
  rewrite age_loop_notin by done. destruct (age v'); [apply lookup_insert_eq | apply lookup_delete_eq].
Qed.

Lemma age_loop_omap l m : l ≡ₚ map_to_list m -> age_loop l m = omap age m.
Proof.
  intros Hl. apply map_eq. intros k. rewrite lookup_omap. destruct (m !! k) as [v|] eqn:Ek; simpl.
  - apply age_loop_in; [rewrite Hl; apply NoDup_fst_map_to_list | by rewrite Hl, elem_of_map_to_list].
  - rewrite age_loop_notin; [done |]. rewrite Hl, list_elem_of_fmap.
    intros ([k' v] & -> & Hin%elem_of_map_to_list). simpl in Ek. congruence.
Qed.
End ageing.

(** A table entry, and a waiting time, [ms] later. *)
Definition age_entry (ms : Z) (e : ARPEntry) : option ARPEntry :=
  if ttl e <=? ms then None else Some (mk_entry (eth_addr e) (u64 (ttl e - ms))).
Definition age_waiting (ms : Z) (w : Z) : option Z := if w <=? ms then None else Some (u64 (w - ms)).

Lemma tick_table_loop_eq ms l table : tick_table_loop ms l table = age_loop (age_entry ms) l table.
Proof.
  revert table. induction l as [|[ip e] l IH]; intros table; simpl; [done |].
  rewrite IH. unfold age_entry. by destruct (ttl e <=? ms).
Qed.

Lemma tick_waiting_loop_fst ms l w d : (tick_waiting_loop ms l w d).1 = age_loop (age_waiting ms) l w.
Proof.
  revert w d. induction l as [|[ip r] l IH]; intros w d; simpl; [done |].
  unfold age_waiting at 2. destruct (r <=? ms); apply IH.
Qed.

(** The datagrams of a request survive exactly when the request does. *)
Lemma tick_waiting_loop_snd ms l w d ip :
  (tick_waiting_loop ms l w d).2 !! ip =
    (if bool_decide (Exists (fun p => p.1 = ip /\ p.2 <= ms) l) then None else d !! ip).
Proof.
  revert w d. induction l as [|[k r] l IH]; intros w d; simpl; [done |].
  destruct (Z.leb_spec r ms) as [Hr|Hr]; rewrite IH.
  - destruct (decide (k = ip)) as [-> |].
    + rewrite lookup_delete_eq. rewrite (bool_decide_true (Exists _ (_ :: _))) by (by left).
      by destruct (bool_decide _).
    + rewrite lookup_delete_ne by done. erewrite bool_decide_ext; [done |].
      rewrite Exists_cons. simpl. tauto.
  - erewrite bool_decide_ext; [done |]. rewrite Exists_cons. simpl.
    split; [auto | intros [[_ ?] | ?]; [lia | done]].
Qed.

(** [tick], whatever the order of the iterations. *)
Lemma tick_eq ms n :
  tick ms n = (Ok tt,
    mk (_ethernet_address n) (_ip_address n) (_frames_out n) (omap (age_entry ms) (_arp_table n))
      (omap (age_waiting ms) (_waiting_arp_response_ip_addr n))
      (tick_waiting_loop ms (map_to_list (_waiting_arp_response_ip_addr n))
        (_waiting_arp_response_ip_addr n) (_waiting_internet_datagrams n)).2).
Proof.
  unfold tick, bind, modify, assign, asks. simpl.
  pose proof (tick_waiting_loop_fst ms (map_to_list (_waiting_arp_response_ip_addr n))
    (_waiting_arp_response_ip_addr n) (_waiting_internet_datagrams n)) as E.
  destruct (tick_waiting_loop ms _ _ _) as [w d]. simpl in *. subst w.
  unfold set_waiting_datagrams, set_waiting_arp, set_arp_table. simpl.
  by rewrite tick_table_loop_eq, !age_loop_omap.
Qed.

Lemma tick_datagrams ms n ip :
  (tick_waiting_loop ms (map_to_list (_waiting_arp_response_ip_addr n))
     (_waiting_arp_response_ip_addr n) (_waiting_internet_datagrams n)).2 !! ip =
  match _waiting_arp_response_ip_addr n !! ip with
  | Some w => if w <=? ms then None else _waiting_internet_datagrams n !! ip
  | None => _waiting_internet_datagrams n !! ip
  end.
Proof.
  rewrite tick_waiting_loop_snd. set (W := _waiting_arp_response_ip_addr n).
  assert (Hex : Exists (fun p => p.1 = ip /\ p.2 <= ms) (map_to_list W) <-> exists w, W !! ip = Some w /\ w <= ms).
  { rewrite list.Exists_exists. split.
    - intros ([k w] & Hin%elem_of_map_to_list & E & ?). simpl in *. subst. eauto.
    - intros (w & Ew & ?). exists (ip, w). by rewrite elem_of_map_to_list. }
  destruct (W !! ip) as [w|] eqn:Ew.
  - destruct (Z.leb_spec w ms).
    + by rewrite bool_decide_true by (apply Hex; eauto).
    + rewrite bool_decide_false; [done |]. rewrite Hex. intros (? & [= <-] & ?). lia.
  - rewrite bool_decide_false; [done |]. rewrite Hex. by intros (? & ? & ?).
Qed.

(** ** The invariant *)

(** A datagram that [serialize] accepts. *)
Definition writable (d : IPv4Datagram.t) : Prop := exists bl, IPv4Datagram.serialize d = Ok bl.

Definition is_ip (ip : Z) : Prop := 0 <= ip < 2 ^ 32.

Record wf (n : t) : Prop := {
  wf_mac : address_wf (_ethernet_address n);
  wf_ip : exists ip, Address.ipv4_numeric (_ip_address n) = Ok ip;
  (** learned addresses live for at most thirty seconds *)
  wf_table : map_Forall (fun ip e => is_ip ip /\ address_wf (eth_addr e) /\ 0 < ttl e <= ARP_ENTRY_TTL_MS) (_arp_table n);
  (** requests are waited for at most five seconds *)
  wf_waiting : map_Forall (fun ip w => is_ip ip /\ 0 < w <= ARP_RESPONSE_TTL_MS) (_waiting_arp_response_ip_addr n);
  (** a datagram waits only for an address that is not known and has been asked
      for, under its own next hop, and can be written when the answer comes *)
  wf_datagrams : map_Forall (fun ip l =>
    l <> [] /\ _arp_table n !! ip = None /\ is_Some (_waiting_arp_response_ip_addr n !! ip) /\
    Forall (fun p => Address.ipv4_numeric p.1 = Ok ip /\ writable p.2) l) (_waiting_internet_datagrams n);
  (** an address is known for longer than its request is remembered *)
  wf_outlives : forall ip w e,
    _waiting_arp_response_ip_addr n !! ip = Some w -> _arp_table n !! ip = Some e -> w <= ttl e;
  (** every frame carries the interface's own address and can be written *)
  wf_frames : Forall (fun f => EthernetHeader.src (EthernetFrame.header f) = _ethernet_address n /\
    EthernetHeader.wf (EthernetFrame.header f)) (_frames_out n)
}.

(** The frame [_send] builds. *)
Definition frame_to (n : t) (dst : EthernetAddress) (type : Z) (payload : BufferList.t) : EthernetFrame.t :=
  EthernetFrame.mk (EthernetHeader.mk dst (_ethernet_address n) type) payload.

Lemma send_eq n dst type payload :
  _send dst type payload n = (Ok tt, setf _frames_out (_frames_out n ++ [frame_to n dst type payload]) n).
Proof. done. Qed.

Lemma address_wf_broadcast : address_wf ETHERNET_BROADCAST.
Proof. split; [done |]. unfold ETHERNET_BROADCAST, is_u8. apply Forall_replicate. lia. Qed.

Lemma address_wf_zero : address_wf zero_address.
Proof. split; [done |]. unfold zero_address, is_u8. apply Forall_replicate. lia. Qed.

(** A frame out, with everything else as it was. *)
Lemma wf_send n dst type payload :
  wf n -> address_wf dst -> 0 <= type < 2 ^ 16 ->
  wf (setf _frames_out (_frames_out n ++ [frame_to n dst type payload]) n).
Proof.
  intros [] Hd Ht. split; simpl; try done. apply Forall_app_2; [done |].
  constructor; [split; [done | by split] | constructor].
Qed.

Lemma new_wf mac ip a : address_wf mac -> Address.ipv4_numeric a = Ok ip -> wf (new mac a).
Proof. intros Hm Ha. split; simpl; eauto; try apply map_Forall_empty; try done. Qed.

(** The request and the reply are supported messages, so they can be written. *)
Lemma arp_request_wf n ip my_ip :
  wf n -> is_ip ip -> Address.ipv4_numeric (_ip_address n) = Ok my_ip ->
  ARPMessage.wf (arp_request (_ethernet_address n) my_ip ip).
Proof.
  intros Hn Hip Hmy%Address.ipv4_numeric_range. split; simpl; try done; [apply Hn | apply address_wf_zero].
Qed.

Lemma arp_reply_wf n ip my_ip mac :
  wf n -> is_ip ip -> Address.ipv4_numeric (_ip_address n) = Ok my_ip -> address_wf mac ->
  ARPMessage.wf (arp_reply (_ethernet_address n) mac my_ip ip).
Proof. intros Hn Hip Hmy%Address.ipv4_numeric_range Hm. split; simpl; try done. apply Hn. Qed.

(** ** What the operations do *)

(** The state after [send_datagram], for a next hop [ip] and a datagram whose
    serialisation is [payload]: on a hit, a frame to the learned address; on a
    miss, the datagram waits, after a broadcast request unless one is pending. *)
Definition sends (n : t) (dgram : IPv4Datagram.t) (next_hop : Address.t) (ip : Z) (payload : BufferList.t) (n' : t) : Prop :=
  match _arp_table n !! ip with
  | Some e => n' = setf _frames_out (_frames_out n ++ [frame_to n (eth_addr e) EthernetHeader.TYPE_IPv4 payload]) n
  | None =>
      exists request waiting',
        n' = mk (_ethernet_address n) (_ip_address n) (_frames_out n ++ request) (_arp_table n) waiting'
          (<[ip := default [] (_waiting_internet_datagrams n !! ip) ++ [(next_hop, dgram)]]> (_waiting_internet_datagrams n)) /\
        match _waiting_arp_response_ip_addr n !! ip with
        | Some _ => request = [] /\ waiting' = _waiting_arp_response_ip_addr n
        | None =>
            exists my_ip msg,
              Address.ipv4_numeric (_ip_address n) = Ok my_ip /\
              ARPMessage.serialize (arp_request (_ethernet_address n) my_ip ip) = Ok msg /\
              request = [frame_to n ETHERNET_BROADCAST EthernetHeader.TYPE_ARP (BufferList.of_string msg)] /\
              waiting' = <[ip := ARP_RESPONSE_TTL_MS]> (_waiting_arp_response_ip_addr n)
        end
  end.

Lemma send_datagram_sends n dgram next_hop ip payload :
  wf n -> Address.ipv4_numeric next_hop = Ok ip -> IPv4Datagram.serialize dgram = Ok payload ->
  exists n', send_datagram dgram next_hop n = (Ok tt, n') /\ sends n dgram next_hop ip payload n'.
Proof.
  intros Hn Hip Hd. pose proof (Address.ipv4_numeric_range _ _ Hip) as Hr.
  unfold send_datagram, sends, bind, asks, of_outcome. rewrite Hip.
  destruct (_arp_table n !! ip) as [e|] eqn:Et.
  { rewrite Hd. eexists. by rewrite send_eq. }
  destruct (_waiting_arp_response_ip_addr n !! ip) as [w|] eqn:Ew.
  { eexists. split; [done |]. exists [], (_waiting_arp_response_ip_addr n). by rewrite app_nil_r. }
  destruct (wf_ip n Hn) as [my_ip Hmy]. rewrite Hmy.
  pose proof (arp_request_wf n ip my_ip Hn Hr Hmy) as Hreq.
  rewrite ARPMessage.arp_serialize_eq by apply Hreq. rewrite send_eq.
  eexists. split; [done |]. eexists _, _. split; [reflexivity |]. eexists my_ip, _.
  split; [done |]. split; [by apply ARPMessage.arp_serialize_eq, Hreq | done].
Qed.

Lemma sends_wf n dgram next_hop ip payload n' :
  wf n -> Address.ipv4_numeric next_hop = Ok ip -> IPv4Datagram.serialize dgram = Ok payload ->
  sends n dgram next_hop ip payload n' -> wf n'.
Proof.
  intros Hn Hip Hd Hs. pose proof (Address.ipv4_numeric_range _ _ Hip) as Hr. unfold sends in Hs.
  destruct (_arp_table n !! ip) as [e|] eqn:Et.
  { subst n'. apply wf_send; [done | | done]. by apply (wf_table n Hn ip e). }
  destruct Hs as (request & waiting' & -> & Hw).
  assert (Hwait : map_Forall (fun ip w => is_ip ip /\ 0 < w <= ARP_RESPONSE_TTL_MS) waiting' /\
    is_Some (waiting' !! ip) /\
    (forall ip' w, waiting' !! ip' = Some w -> ip' <> ip -> _waiting_arp_response_ip_addr n !! ip' = Some w) /\
    (forall ip', is_Some (_waiting_arp_response_ip_addr n !! ip') -> is_Some (waiting' !! ip')) /\
    Forall (fun f => EthernetHeader.src (EthernetFrame.header f) = _ethernet_address n /\
      EthernetHeader.wf (EthernetFrame.header f)) request).
  { destruct (_waiting_arp_response_ip_addr n !! ip) as [w|] eqn:Ew.
    - destruct Hw as [-> ->]. split_and!; [apply Hn | by rewrite Ew | done | done | constructor].
    - destruct Hw as (my_ip & msg & _ & _ & -> & ->). split_and!.
      + apply map_Forall_insert_2; [by split | apply Hn].
      + rewrite lookup_insert_eq. eauto.
      + intros ip' w. intros Hl Hne. by rewrite lookup_insert_ne in Hl.
      + intros ip' [w Hl]. destruct (decide (ip = ip')) as [-> |];
          [rewrite lookup_insert_eq | rewrite lookup_insert_ne by done]; eauto.
      + constructor; [| constructor]. split; [done |]. split; [apply address_wf_broadcast | apply Hn | done]. }
  destruct Hwait as (H1 & H2 & H3 & H4 & H5). destruct Hn as [? ? ? ? Hdg Hout Hfr]. split; simpl; try done.
  - intros ip' l Hl. destruct (decide (ip = ip')) as [<- |].
    + rewrite lookup_insert_eq in Hl. injection Hl as <-. split_and!; [by destruct (default _ _) | done | done |].
      apply Forall_app_2; [| by repeat (constructor || eexists)].
      destruct (_waiting_internet_datagrams n !! ip) as [l|] eqn:El; [apply (Hdg ip l El) | constructor].
    + rewrite lookup_insert_ne in Hl by done. destruct (Hdg ip' l Hl) as (? & ? & ? & ?).
      split_and!; try done. by apply H4.
  - intros ip' w e Hw' He. apply (Hout ip' w e); [| done]. apply H3; [done |]. intros ->. congruence.
  - by apply Forall_app_2.
Qed.

(** The waiting datagrams go out in order, each in one frame. *)
Lemma send_waiting_eq n dst l :
  Forall (fun p => writable p.2) l ->
  exists payloads, Forall2 (fun p bl => IPv4Datagram.serialize p.2 = Ok bl) l payloads /\
    send_waiting dst l n =
      (Ok tt, setf _frames_out (_frames_out n ++ map (frame_to n dst EthernetHeader.TYPE_IPv4) payloads) n).
Proof.
  intros Hl. revert n. induction Hl as [|[a d] l [bl Hbl] _ IH]; intros n.
  { exists []. split; [constructor |]. simpl. rewrite app_nil_r. by destruct n. }
  simpl in Hbl. destruct (IH (setf _frames_out (_frames_out n ++ [frame_to n dst EthernetHeader.TYPE_IPv4 bl]) n))
    as (bls & Hbls & E).
  exists (bl :: bls). split; [by constructor |].
  cbn [send_waiting]. unfold bind, of_outcome. rewrite Hbl, send_eq, E. simpl.
  rewrite <- app_assoc. done.
Qed.

(** Addressed to this interface, or to everybody. *)
Definition for_us (n : t) (f : EthernetFrame.t) : bool :=
  bool_decide (EthernetHeader.dst (EthernetFrame.header f) = ETHERNET_BROADCAST) ||
  bool_decide (EthernetHeader.dst (EthernetFrame.header f) = _ethernet_address n).

(** A frame as [EthernetFrame::parse] makes it: its payload is one buffer. *)
Definition received (f : EthernetFrame.t) (b : Buffer.t) : Prop :=
  BufferList.to_Buffer (EthernetFrame.payload f) = Ok b /\ Buffer.wf b.

(** The reply [recv_frame] owes to a message, if any. *)
Definition reply_frames (n : t) (my_ip : Z) (m : ARPMessage.t) : list EthernetFrame.t :=
  if (ARPMessage.opcode m =? ARPMessage.OPCODE_REQUEST) && (ARPMessage.target_ip_address m =? my_ip) then
    [frame_to n (ARPMessage.sender_ethernet_address m) EthernetHeader.TYPE_ARP
       (BufferList.of_string (ARPMessage.image (arp_reply (_ethernet_address n)
          (ARPMessage.sender_ethernet_address m) my_ip (ARPMessage.sender_ip_address m))))]
  else [].

(** The state after an ARP message [m]: its sender is learned, the reply it asked
    for goes out, and then all the datagrams that waited for it, in order. *)
Definition learns (n : t) (m : ARPMessage.t) (n' : t) : Prop :=
  let ip := ARPMessage.sender_ip_address m in
  let mac := ARPMessage.sender_ethernet_address m in
  exists my_ip payloads,
    Address.ipv4_numeric (_ip_address n) = Ok my_ip /\
    Forall2 (fun p bl => IPv4Datagram.serialize p.2 = Ok bl) (default [] (_waiting_internet_datagrams n !! ip)) payloads /\
    n' = mk (_ethernet_address n) (_ip_address n)
      (_frames_out n ++ reply_frames n my_ip m ++ map (frame_to n mac EthernetHeader.TYPE_IPv4) payloads)
      (<[ip := mk_entry mac ARP_ENTRY_TTL_MS]> (_arp_table n))
      (_waiting_arp_response_ip_addr n) (delete ip (_waiting_internet_datagrams n)).

Lemma recv_frame_not_for_us n f : for_us n f = false -> recv_frame f n = (Ok None, n).
Proof.
  unfold for_us. intros [H1 H2]%orb_false_iff. unfold recv_frame, bind, asks. rewrite H1, H2. done.
Qed.

(** The frames that are not ARP leave the interface as it is. *)
Lemma recv_frame_ipv4 n f b :
  for_us n f = true -> EthernetHeader.type (EthernetFrame.header f) = EthernetHeader.TYPE_IPv4 -> received f b ->
  exists r d, IPv4Datagram.parse b IPv4Datagram.default = Ok (r, d) /\
    recv_frame f n = (Ok (if bool_decide (r = NoError) then Some d else None), n).
Proof.
  intros Hu Ht [Eb Hb]. destruct (IPv4Datagram.parse_fresh b Hb) as (r & d & E & _). exists r, d. split; [done |].
  unfold recv_frame, bind, asks, of_outcome. unfold for_us in Hu.
  rewrite <- negb_orb, Hu, Ht, Z.eqb_refl, Eb, E. simpl. by destruct (bool_decide (r = NoError)).
Qed.

Lemma recv_frame_other n f :
  for_us n f = true -> EthernetHeader.type (EthernetFrame.header f) <> EthernetHeader.TYPE_IPv4 ->
  EthernetHeader.type (EthernetFrame.header f) <> EthernetHeader.TYPE_ARP -> recv_frame f n = (Ok None, n).
Proof.
  intros Hu H1 H2. unfold recv_frame, bind, asks. unfold for_us in Hu. rewrite <- negb_orb, Hu.
  simpl. by rewrite (proj2 (Z.eqb_neq _ _) H1), (proj2 (Z.eqb_neq _ _) H2).
Qed.

(** The message is learned from once it is parsed. *)
Lemma recv_frame_learns n f b m :
  wf n -> for_us n f = true -> EthernetHeader.type (EthernetFrame.header f) = EthernetHeader.TYPE_ARP -> received f b ->
  ARPMessage.parse b ARPMessage.default = Ok (NoError, m) -> ARPMessage.wf m ->
  wp (recv_frame f) (fun o n' => o = None /\ learns n m n') n.
Proof.
  intros Hn Hu Ht [Eb _] E Hm. destruct (wf_ip n Hn) as [my_ip Hmy].
  unfold recv_frame, for_us in *. wp_step. wp_step. rewrite <- negb_orb, Hu, Ht. cbn [negb].
  change (EthernetHeader.TYPE_ARP =? EthernetHeader.TYPE_IPv4) with false. rewrite Z.eqb_refl.
  wp_step. eapply wp_of_outcome; [exact Eb |]. wp_step. eapply wp_of_outcome; [exact E |].
  cbv beta iota. rewrite bool_decide_false by (by intros []). wp_step. wp_step.
  wp_step. eapply wp_of_outcome; [exact Hmy |]. wp_step.
  assert (Hreply : forall Q : unit -> t -> Prop,
    Q tt (setf _frames_out (_frames_out n ++ reply_frames n my_ip m) n) ->
    wp (if (ARPMessage.opcode m =? ARPMessage.OPCODE_REQUEST) && (ARPMessage.target_ip_address m =? my_ip) then
          let* msg := of_outcome (ARPMessage.serialize (arp_reply (_ethernet_address n)
            (ARPMessage.sender_ethernet_address m) my_ip (ARPMessage.sender_ip_address m))) in
          _send (ARPMessage.sender_ethernet_address m) EthernetHeader.TYPE_ARP (BufferList.of_string msg)
        else pure tt) Q n).
  { intros Q HQ. unfold reply_frames in HQ. destruct (_ && _).
    - wp_step. eapply wp_of_outcome; [| eapply wp_eq; [apply send_eq | exact HQ]].
      apply ARPMessage.arp_serialize_eq, arp_reply_wf; [done | apply Hm | done | apply Hm].
    - wp_step. rewrite app_nil_r in HQ. by destruct n. }
  apply Hreply. clear Hreply. wp_step. wp_step. wp_step. wp_step.
  change (_waiting_internet_datagrams (upd _ _ _)) with (_waiting_internet_datagrams n).
  destruct (_waiting_internet_datagrams n !! ARPMessage.sender_ip_address m) as [l|] eqn:El; wp_step.
  - destruct (send_waiting_eq (upd _arp_table (insert (ARPMessage.sender_ip_address m)
      (mk_entry (ARPMessage.sender_ethernet_address m) ARP_ENTRY_TTL_MS))
      (setf _frames_out (_frames_out n ++ reply_frames n my_ip m) n))
      (ARPMessage.sender_ethernet_address m) l) as (bls & Hbls & Es).
    { destruct (wf_datagrams n Hn _ _ El) as (_ & _ & _ & Hl). eapply list.Forall_impl; [exact Hl | by intros p []]. }
    wp_step. eapply wp_eq; [exact Es |]. wp_step. wp_step. split; [done |].
    exists my_ip, bls. rewrite El. split; [done |]. split; [done |]. simpl. unfold setf. simpl.
    by rewrite app_assoc.
  - wp_step. wp_step. split; [done |]. exists my_ip, []. rewrite El. split; [done |]. split; [constructor |].
    simpl. rewrite app_nil_r. by rewrite delete_id.
Qed.

(** An ARP frame: a message that does not parse is ignored, the others are learned from. *)
Lemma recv_frame_arp n f b :
  wf n -> for_us n f = true -> EthernetHeader.type (EthernetFrame.header f) = EthernetHeader.TYPE_ARP -> received f b ->
  exists r m n', ARPMessage.parse b ARPMessage.default = Ok (r, m) /\ recv_frame f n = (Ok None, n') /\
    if bool_decide (r = NoError) then learns n m n' /\ ARPMessage.wf m else n' = n.
Proof.
  intros Hn Hu Ht Hb. destruct (ARPMessage.parse_total b ARPMessage.default (proj2 Hb)) as (r & m & E).
  exists r, m. destruct (decide (r = NoError)) as [-> | Hr].
  - pose proof (ARPMessage.parse_accepts b _ m (proj2 Hb) E) as Hm.
    pose proof (recv_frame_learns n f b m Hn Hu Ht Hb E Hm) as Hwp.
    apply wp_run in Hwp as (o & n' & En & -> & Hl). by exists n'.
  - exists n. rewrite bool_decide_false by done. split; [done |]. split; [| done].
    unfold recv_frame, bind, asks, of_outcome, for_us in *. destruct Hb as [Eb _].
    rewrite <- negb_orb, Hu, Ht. change (EthernetHeader.TYPE_ARP =? EthernetHeader.TYPE_IPv4) with false.
    rewrite Z.eqb_refl, Eb, E. cbn [negb]. cbv iota. by rewrite bool_decide_true.
Qed.

(** Every received frame is dealt with: either nothing changes, or a message is learned from. *)
Lemma recv_frame_cases n f b :
  wf n -> received f b ->
  exists o n', recv_frame f n = (Ok o, n') /\ (n' = n \/ exists m, ARPMessage.wf m /\ learns n m n').
Proof.
  intros Hn Hb. destruct (for_us n f) eqn:Hu; [| rewrite recv_frame_not_for_us by done; eauto].
  destruct (decide (EthernetHeader.type (EthernetFrame.header f) = EthernetHeader.TYPE_IPv4)) as [Ht|Ht].
  { destruct (recv_frame_ipv4 n f b Hu Ht Hb) as (r & d & _ & ->). eauto. }
  destruct (decide (EthernetHeader.type (EthernetFrame.header f) = EthernetHeader.TYPE_ARP)) as [Ha|Ha].
  - destruct (recv_frame_arp n f b Hn Hu Ha Hb) as (r & m & n' & _ & -> & Hr).
    destruct (bool_decide (r = NoError)); [destruct Hr; eauto 10 | eauto].
  - rewrite recv_frame_other by done. eauto.
Qed.

Lemma learns_wf n m n' : wf n -> ARPMessage.wf m -> learns n m n' -> wf n'.
Proof.
  intros Hn Hm (my_ip & bls & Hmy & Hbls & ->). destruct Hm as [_ Hmac Hip _ _].
  destruct Hn as [? ? ? ? Hdg Hout Hfr]. split; simpl; try done.
  - apply map_Forall_insert_2; [| done]. split; [done |]. split; [done |]. simpl. unfold ARP_ENTRY_TTL_MS. lia.
  - intros ip l [Hne Hl]%lookup_delete_Some. destruct (Hdg ip l Hl) as (? & ? & ? & ?).
    split_and!; try done. by rewrite lookup_insert_ne.
  - intros ip w e Hw. destruct (decide (ARPMessage.sender_ip_address m = ip)) as [<- | Hne].
    + rewrite lookup_insert_eq. intros [= <-]. simpl.
      match goal with H : map_Forall _ (_waiting_arp_response_ip_addr n) |- _ => destruct (H _ _ Hw) end.
      unfold ARP_RESPONSE_TTL_MS, ARP_ENTRY_TTL_MS in *. lia.
    + rewrite lookup_insert_ne by done. by apply Hout.
  - apply Forall_app_2; [done |]. apply Forall_app_2.
    + unfold reply_frames. destruct (_ && _); [| constructor]. constructor; [| constructor].
      split; [done |]. by split.
    + apply Forall_map, Forall_true. intros bl. split; [done |]. by split.
Qed.

Lemma tick_wf ms n n' : wf n -> 0 <= ms -> tick ms n = (Ok tt, n') -> wf n'.
Proof.
  intros Hn Hms. rewrite tick_eq. intros [= <-]. destruct Hn as [? ? Ht Hw Hdg Hout Hfr]. split; simpl; try done.
  - intros ip e He. apply lookup_omap_Some in He as (e0 & Ha & He0). unfold age_entry in Ha.
    destruct (Z.leb_spec (ttl e0) ms); [done |]. injection Ha as <-. destruct (Ht ip e0 He0) as (? & ? & ? & ?).
    simpl. unfold ARP_ENTRY_TTL_MS in *. rewrite u64_small by lia. split_and!; try done; lia.
  - intros ip w Hl. apply lookup_omap_Some in Hl as (w0 & Ha & Hw0). unfold age_waiting in Ha.
    destruct (Z.leb_spec w0 ms); [done |]. injection Ha as <-. destruct (Hw ip w0 Hw0) as (? & ? & ?).
    unfold ARP_RESPONSE_TTL_MS in *. rewrite u64_small by lia. split_and!; try done; lia.
  - intros ip l. rewrite tick_datagrams. intros Hl.
    assert (Hl0 : _waiting_internet_datagrams n !! ip = Some l).
    { destruct (_waiting_arp_response_ip_addr n !! ip) as [w|]; [by destruct (w <=? ms) | done]. }
    destruct (Hdg ip l Hl0) as (? & Et & [w Ew] & ?). rewrite Ew in Hl. split_and!; try done.
    + by rewrite lookup_omap, Et.
    + rewrite lookup_omap, Ew. simpl. unfold age_waiting. destruct (w <=? ms); [done | eauto].
  - intros ip w e. rewrite !lookup_omap_Some. intros (w0 & Ha & Ew) (e0 & Hb & Ee).
    specialize (Hout ip w0 e0 Ew Ee). destruct (Ht ip e0 Ee) as (_ & _ & ? & ?). destruct (Hw ip w0 Ew) as (_ & ? & ?).
    unfold age_waiting, age_entry, ARP_ENTRY_TTL_MS in *.
    destruct (w0 <=? ms) eqn:E1; [done |]. destruct (ttl e0 <=? ms) eqn:E2; [done |].
    apply Z.leb_gt in E1, E2. injection Ha as <-. injection Hb as <-. simpl. rewrite !u64_small by lia. lia.
Qed.
End NetworkInterface.

(** ** Histories of an interface

    The owner sends datagrams, hands over received frames, takes frames away and
    lets time pass.  A history keeps a clock and a log of the requests that were
    broadcast: when, and for which address. *)

Module InterfaceTrace.
Import NetworkInterface.

Inductive event : Type :=
| Send (dgram : IPv4Datagram.t) (next_hop : Address.t)
| Recv (frame : EthernetFrame.t)
| Tick (ms : Z)
| Take.

Definition exec_event (ev : event) : M t unit :=
  match ev with
  | Send dgram next_hop => send_datagram dgram next_hop
  | Recv frame => recv_frame frame ;; pure tt
  | Tick ms => tick ms
  | Take => _frames_out %= tail
  end.

(** The histories considered: the datagrams to be sent can be written and go to IPv4
    next hops, what is received is a frame off the wire, and time does not run backwards. *)
Definition allowed (ev : event) : Prop :=
  match ev with
  | Send dgram next_hop => writable dgram /\ exists ip, Address.ipv4_numeric next_hop = Ok ip
  | Recv frame => exists b, received frame b
  | Tick ms => 0 <= ms
  | Take => True
  end.

Definition elapsed (ev : event) : Z := match ev with Tick ms => ms | _ => 0 end.

(** The address a frame asks for, if it carries an ARP request. *)
Definition request_target (f : EthernetFrame.t) : option Z :=
  if EthernetHeader.type (EthernetFrame.header f) =? EthernetHeader.TYPE_ARP then
    match BufferList.to_Buffer (EthernetFrame.payload f) with
    | Ok b =>
        match ARPMessage.parse b ARPMessage.default with
        | Ok (NoError, m) =>
            if ARPMessage.opcode m =? ARPMessage.OPCODE_REQUEST then Some (ARPMessage.target_ip_address m) else None
        | _ => None
        end
    | Throw _ => None
    end
  else None.

(** The requests among the frames that an event added. *)
Definition requests (n n' : t) : list Z := omap request_target (zdrop (len (_frames_out n)) (_frames_out n')).

Record world : Type := mk_world { iface : t; now : Z; log : list (Z * Z) }.

Definition after (w : world) (ev : event) (n' : t) : world :=
  mk_world n' (now w + elapsed ev) (log w ++ map (pair (now w)) (requests (iface w) n')).

(** Run a list of events. *)
Definition run (w : world) (evs : list event) : world :=
  foldl (fun w ev => after w ev (snd (exec_event ev (iface w)))) w evs.

(** Two requests for one address are at least five seconds apart. *)
Definition spaced (l : list (Z * Z)) : Prop :=
  forall i j ti tj ip, (i < j)%nat -> l !! i = Some (ti, ip) -> l !! j = Some (tj, ip) ->
    ti + ARP_RESPONSE_TTL_MS <= tj.

Record inv (w : world) : Prop := {
  inv_wf : wf (iface w);
  inv_log : forall t ip, (t, ip) ∈ log w ->
    t + ARP_RESPONSE_TTL_MS <= now w \/
    exists r, _waiting_arp_response_ip_addr (iface w) !! ip = Some r /\ t + ARP_RESPONSE_TTL_MS <= now w + r;
  inv_spaced : spaced (log w)
}.

Section history.
Context (mac : EthernetAddress) (addr : Address.t) (my_ip : Z).
Hypothesis Hmac : address_wf mac.
Hypothesis Haddr : Address.ipv4_numeric addr = Ok my_ip.

Inductive reach : world -> Prop :=
| reach_new : reach (mk_world (new mac addr) 0 [])
| reach_step w ev n' :
    reach w -> allowed ev -> exec_event ev (iface w) = (Ok tt, n') -> reach (after w ev n').

(** Allowed events return and keep the invariant of the interface. *)
Lemma exec_event_returns n ev :
  wf n -> allowed ev -> exists n', exec_event ev n = (Ok tt, n') /\ wf n'.
Proof.
  intros Hn. destruct ev as [d a|f|ms|]; cbn [exec_event allowed].
  - intros [[bl Hd] [ip Ha]]. destruct (send_datagram_sends n d a ip bl Hn Ha Hd) as (n' & E & Hs).
    eauto using sends_wf.
  - intros [b Hb]. destruct (recv_frame_cases n f b Hn Hb) as (o & n' & E & Hc).
    exists n'. unfold bind. rewrite E. split; [done |].
    destruct Hc as [-> | (m & Hm & Hl)]; [done | by eapply learns_wf].
  - intros Hms. eexists. split; [apply tick_eq |]. eapply tick_wf; [exact Hn | exact Hms | apply tick_eq].
  - intros _. eexists. split; [done |]. destruct Hn as [? ? ? ? ? ? Hf]. split; simpl; try done.
    destruct (_frames_out n); [done |]. by inversion Hf.
Qed.

Lemma requests_app n n' l : _frames_out n' = _frames_out n ++ l -> requests n n' = omap request_target l.
Proof. intros E. unfold requests. by rewrite E, zdrop_app_ge, Z.sub_diag, zdrop_nonpos by lia. Qed.

(** What the interface's own frames ask for. *)
Lemma request_target_arp n dst m :
  ARPMessage.wf m ->
  request_target (frame_to n dst EthernetHeader.TYPE_ARP (BufferList.of_string (ARPMessage.image m))) =
    if ARPMessage.opcode m =? ARPMessage.OPCODE_REQUEST then Some (ARPMessage.target_ip_address m) else None.
Proof.
  intros Hm. unfold request_target, frame_to. simpl. rewrite (ARPMessage.arp_parse_image m _ _ []); [done | done | |].
  - apply Buffer.wf_of_string. by rewrite ARPMessage.len_arp_image.
  - by rewrite Buffer.str_of_string, app_nil_r.
Qed.

Lemma request_target_ipv4 n dst payloads :
  omap request_target (map (frame_to n dst EthernetHeader.TYPE_IPv4) payloads) = [].
Proof. induction payloads as [|bl l IH]; [done |]. simpl. exact IH. Qed.

Lemma sends_requests n d a ip bl n' :
  wf n -> is_ip ip -> sends n d a ip bl n' ->
  requests n n' = (if bool_decide (_arp_table n !! ip = None /\ _waiting_arp_response_ip_addr n !! ip = None)
                   then [ip] else []).
Proof.
  intros Hn Hip Hs. unfold sends in Hs. destruct (_arp_table n !! ip) as [e|] eqn:Et.
  { rewrite bool_decide_false by (by intros []). subst n'.
    by rewrite (requests_app n _ [frame_to n (eth_addr e) EthernetHeader.TYPE_IPv4 bl]). }
  destruct Hs as (request & w' & -> & Hw). rewrite (requests_app _ _ request) by done.
  destruct (_waiting_arp_response_ip_addr n !! ip) as [w|] eqn:Ew.
  { destruct Hw as [-> _]. by rewrite bool_decide_false by (by intros []). }
  destruct Hw as (my & msg & Hmy & Hmsg & -> & _). rewrite bool_decide_true by done.
  pose proof (arp_request_wf n ip my Hn Hip Hmy) as Hr.
  rewrite ARPMessage.arp_serialize_eq in Hmsg by apply Hr. injection Hmsg as <-.
  simpl omap. rewrite request_target_arp by done. done.
Qed.

Lemma learns_requests n m n' : wf n -> ARPMessage.wf m -> learns n m n' -> requests n n' = [].
Proof.
  intros Hn Hm (my & bls & Hmy & _ & ->). erewrite requests_app by reflexivity.
  rewrite omap_app, request_target_ipv4, app_nil_r. unfold reply_frames. destruct (_ && _); [| done].
  simpl omap. rewrite request_target_arp; [done |]. apply arp_reply_wf; [done | apply Hm | done | apply Hm].
Qed.

Lemma spaced_snoc l t ip :
  spaced l -> (forall t0, (t0, ip) ∈ l -> t0 + ARP_RESPONSE_TTL_MS <= t) -> spaced (l ++ [(t, ip)]).
Proof.
  intros Hl Hlast i j ti tj ip' Hij Hi Hj.
  apply lookup_snoc_Some in Hj as [[? Hj] | [-> [= <- <-]]].
  - rewrite lookup_app_l in Hi by lia. exact (Hl i j ti tj ip' Hij Hi Hj).
  - rewrite lookup_app_l in Hi by lia. apply Hlast. by eapply list_elem_of_lookup_2.
Qed.

(** An event that asks for nothing and keeps what is waited for. *)
Lemma inv_quiet n c l ev n' :
  inv (mk_world n c l) -> wf n' -> requests n n' = [] -> elapsed ev = 0 ->
  _waiting_arp_response_ip_addr n' = _waiting_arp_response_ip_addr n -> inv (after (mk_world n c l) ev n').
Proof.
  intros [_ Hlog Hsp] Hn' Hr He Hw. unfold after. simpl. rewrite Hr, He. simpl. rewrite app_nil_r, Z.add_0_r.
  split; simpl; [done | by rewrite Hw | done].
Qed.

Lemma inv_send n c l d a ip bl n' :
  inv (mk_world n c l) -> wf n' -> is_ip ip -> sends n d a ip bl n' -> inv (after (mk_world n c l) (Send d a) n').
Proof.
  intros Hinv Hn' Hip Hs. pose proof Hinv as [Hn Hlog Hsp]. simpl in *.
  pose proof (sends_requests n d a ip bl n' Hn Hip Hs) as Hr.
  unfold sends in Hs. destruct (_arp_table n !! ip) as [e|] eqn:Et.
  { rewrite bool_decide_false in Hr by (by intros []). apply inv_quiet; [done | done | done | done | by subst]. }
  destruct Hs as (request & w' & En & Hw). destruct (_waiting_arp_response_ip_addr n !! ip) as [w|] eqn:Ew.
  { rewrite bool_decide_false in Hr by (by intros []). destruct Hw as [_ ->].
    apply inv_quiet; [done | done | done | done | by subst]. }
  rewrite bool_decide_true in Hr by done. destruct Hw as (_ & _ & _ & _ & _ & Hw).
  unfold after. simpl. rewrite Hr, Z.add_0_r. simpl. split; simpl; [done | |].
  - intros t ip' [Hin|[= -> ->]%list_elem_of_singleton]%elem_of_app; subst n'; simpl; subst w'.
    + destruct (Hlog t ip' Hin) as [? | (r & Hl & ?)]; [by left | right; exists r].
      rewrite lookup_insert_ne by congruence. done.
    + right. exists ARP_RESPONSE_TTL_MS. by rewrite lookup_insert_eq.
  - apply spaced_snoc; [done |]. intros t0 Hin. destruct (Hlog t0 ip Hin) as [? | (r & Hl & _)]; [done | congruence].
Qed.

Lemma inv_tick n c l ms n' :
  inv (mk_world n c l) -> 0 <= ms -> wf n' -> tick ms n = (Ok tt, n') -> inv (after (mk_world n c l) (Tick ms) n').
Proof.
  intros [Hn Hlog Hsp] Hms Hn'. rewrite tick_eq. intros [= <-]. unfold after. simpl in *.
  rewrite (requests_app n _ []) by (by rewrite app_nil_r). simpl. rewrite app_nil_r. split; simpl; [done | | done].
  intros t ip Hin. destruct (Hlog t ip Hin) as [? | (r & Hl & ?)]; [left; lia |].
  destruct (wf_waiting n Hn ip r Hl) as (_ & Hr1 & Hr2). unfold ARP_RESPONSE_TTL_MS in *.
  destruct (Z.leb_spec r ms); [left; lia | right]. exists (r - ms). rewrite lookup_omap, Hl. simpl.
  unfold age_waiting. rewrite (proj2 (Z.leb_gt _ _)), u64_small by lia. split; [done | lia].
Qed.

Lemma inv_step w ev n' :
  inv w -> allowed ev -> exec_event ev (iface w) = (Ok tt, n') -> inv (after w ev n').
Proof.
  destruct w as [n c l]. intros Hinv Hev E. pose proof (inv_wf _ Hinv) as Hn.
  assert (Hn' : wf n') by (destruct (exec_event_returns _ _ Hn Hev) as (? & E' & ?); congruence).
  destruct ev as [d a|f|ms|]; cbn [exec_event allowed elapsed iface] in *.
  - destruct Hev as [[bl Hd] [ip Ha]]. destruct (send_datagram_sends n d a ip bl Hn Ha Hd) as (n1 & E1 & Hs).
    rewrite E in E1. injection E1 as <-. eapply inv_send; eauto using Address.ipv4_numeric_range.
    by eapply Address.ipv4_numeric_range.
  - destruct Hev as [b Hb]. destruct (recv_frame_cases n f b Hn Hb) as (o & n1 & E1 & Hc).
    unfold bind in E. rewrite E1 in E. injection E as <-. destruct Hc as [-> | (m & Hm & Hl)].
    + apply inv_quiet; try done. rewrite (requests_app n n []); [done | by rewrite app_nil_r].
    + apply inv_quiet; try done; [by eapply learns_requests |]. by destruct Hl as (? & ? & _ & _ & ->).
  - by apply inv_tick.
  - injection E as <-. apply inv_quiet; try done. unfold requests. simpl.
    rewrite zdrop_ge; [done |]. destruct (_frames_out n); simpl; [done |]. rewrite len_cons. lia.
Qed.

Lemma reach_inv w : reach w -> inv w.
Proof.
  induction 1 as [|w ev n' _ IH Hev E]; [| by eapply inv_step].
  split; simpl; [by eapply new_wf | by intros t ip []%not_elem_of_nil | by intros i j ? ? ? ? Hi].
Qed.

Lemma reach_run w evs : reach w -> Forall allowed evs -> reach (run w evs).
Proof.
  intros Hw Hevs. revert w Hw. induction Hevs as [|ev evs Hev _ IH]; intros w Hw; [done |]. apply IH.
  destruct (exec_event_returns _ ev (inv_wf _ (reach_inv w Hw)) Hev) as (n' & E & _). rewrite E.
  by apply reach_step.
Qed.
End history.
End InterfaceTrace.

(** ** Across a wire

    A frame is written to the device by its sender and parsed by its receiver. *)
Definition transmit (f : EthernetFrame.t) : outcome EthernetFrame.t :=
  '(_, f') ← EthernetFrame.parse (Buffer.of_string (BufferList.concatenate (EthernetFrame.serialize f))) EthernetFrame.default;
  Ok f'.

Lemma transmit_frame n dst type payload :
  NetworkInterface.wf n -> address_wf dst -> 0 <= type < 2 ^ 16 -> len (BufferList.bytes payload) < 2 ^ 63 ->
  exists b, transmit (NetworkInterface.frame_to n dst type payload) =
      Ok (EthernetFrame.mk (EthernetHeader.mk dst (NetworkInterface._ethernet_address n) type) [b]) /\
    Buffer.wf b /\ Buffer.str b = BufferList.bytes payload.
Proof.
  intros Hn Hd Ht Hl. unfold transmit. rewrite BufferList.concatenate_bytes.
  destruct (EthernetFrame.frame_parse_serialized (NetworkInterface.frame_to n dst type payload) EthernetFrame.default)
    as (b & -> & Hb & Eb); [| by exists b].
  split; [| done]. split; [done | apply Hn | done].
Qed.

Import NetworkInterface.

(** A message from one interface is learned from by another it is addressed to. *)
Lemma transmit_arp s dst m n :
  wf s -> wf n -> ARPMessage.wf m -> dst = ETHERNET_BROADCAST \/ dst = _ethernet_address n ->
  exists f n', transmit (frame_to s dst EthernetHeader.TYPE_ARP (BufferList.of_string (ARPMessage.image m))) = Ok f /\
    recv_frame f n = (Ok None, n') /\ learns n m n' /\ wf n'.
Proof.
  intros Hs Hn Hm Hdst.
  assert (Ebs : BufferList.bytes (BufferList.of_string (ARPMessage.image m)) = ARPMessage.image m).
  { unfold BufferList.of_string. by rewrite BufferList.bytes_cons, Buffer.str_of_string, app_nil_r. }
  destruct (transmit_frame s dst EthernetHeader.TYPE_ARP (BufferList.of_string (ARPMessage.image m)))
    as (b & E & Hb & Eb); [done | | done | by rewrite Ebs, ARPMessage.len_arp_image |].
  { destruct Hdst as [-> | ->]; [apply address_wf_broadcast | apply Hn]. }
  rewrite Ebs in Eb. set (f := EthernetFrame.mk _ _) in E.
  assert (Hwp : wp (recv_frame f) (fun o n' => o = None /\ learns n m n') n).
  { apply (recv_frame_learns n f b m); [done | | done | by split | | done].
    - apply orb_true_iff. destruct Hdst as [-> | ->]; [left | right]; by apply bool_decide_eq_true_2.
    - apply (ARPMessage.arp_parse_image m _ b []); [done | done | by rewrite app_nil_r]. }
  apply wp_run in Hwp as (o & n' & En & -> & Hl). exists f, n'. eauto using learns_wf.
Qed.

(** A datagram in a frame to another interface is what that interface returns. *)
Lemma transmit_ipv4 s n d :
  wf s -> wf n -> IPv4Datagram.wf d ->
  exists bl f d', IPv4Datagram.serialize d = Ok bl /\
    transmit (frame_to s (_ethernet_address n) EthernetHeader.TYPE_IPv4 bl) = Ok f /\
    recv_frame f n = (Ok (Some d'), n) /\ IPv4Datagram.same d d'.
Proof.
  intros Hs Hn Hd. destruct (IPv4Datagram.datagram_parse_serialized d Hd) as (bl & ck & E & _ & Hl & Hp).
  destruct (transmit_frame s (_ethernet_address n) EthernetHeader.TYPE_IPv4 bl) as (b & Et & Hb & Eb);
    [done | apply Hn | done | lia |].
  set (f := EthernetFrame.mk _ _) in Et. destruct (Hp b IPv4Datagram.default Hb Eb) as (d' & Ed & Eh & Epl).
  exists bl, f, d'. destruct (recv_frame_ipv4 n f b) as (r & d0 & Ed0 & ->).
  { apply orb_true_iff. right. by apply bool_decide_eq_true_2. } { done. } { by split. }
  rewrite Ed in Ed0. injection Ed0 as <- <-. rewrite bool_decide_true by done.
  split; [done |]. split; [done |]. split; [done |]. split; [by rewrite Eh | done].
Qed.

(** The owner may take the frames off the queue between two steps, or leave them. *)
Definition settle (taken : bool) (n : t) : t := if taken then setf _frames_out [] n else n.

Lemma wf_settle taken n : wf n -> wf (settle taken n).
Proof. destruct taken; [by intros [] | done]. Qed.

Lemma settle_mac taken n : _ethernet_address (settle taken n) = _ethernet_address n.
Proof. by destruct taken. Qed.

Lemma settle_waiting taken n : _waiting_internet_datagrams (settle taken n) = _waiting_internet_datagrams n.
Proof. by destruct taken. Qed.

(** The exchange that resolves the address of a neighbour [b], step by step. *)
Record exchange (taken : bool) (a b : t) (hop : Address.t) (ip_b : Z) (d : IPv4Datagram.t) (bl : BufferList.t)
    (a1 b1 a2 : t) (request answer frame f1 f2 f3 : EthernetFrame.t) (rest : list EthernetFrame.t) (d' : IPv4Datagram.t)
    : Prop := {
  ex_send : send_datagram d hop a = (Ok tt, a1);
  ex_sends : sends a d hop ip_b bl a1;
  ex_request : _frames_out a1 = _frames_out a ++ [request] /\ transmit request = Ok f1;
  ex_recv_b : recv_frame f1 b = (Ok None, b1);
  ex_learn_b : exists m my_ip, ARPMessage.wf m /\ learns b m b1 /\ Address.ipv4_numeric (_ip_address a) = Ok my_ip /\
    ARPMessage.sender_ip_address m = my_ip;
  ex_answer : _frames_out b1 = _frames_out b ++ answer :: rest /\ transmit answer = Ok f2;
  ex_rest : forall my_ip, Address.ipv4_numeric (_ip_address a) = Ok my_ip ->
    _waiting_internet_datagrams b !! my_ip = None -> rest = [];
  ex_recv_a : recv_frame f2 (settle taken a1) = (Ok None, a2);
  ex_learn_a : exists m, ARPMessage.wf m /\ learns (settle taken a1) m a2;
  ex_frame : _frames_out a2 = _frames_out (settle taken a1) ++ [frame] /\ transmit frame = Ok f3 /\
    frame = frame_to a1 (_ethernet_address b) EthernetHeader.TYPE_IPv4 bl;
  ex_deliver : recv_frame f3 (settle taken b1) = (Ok (Some d'), settle taken b1);
  ex_same : IPv4Datagram.same d d'
}.

Lemma arp_exchange taken a b hop ip_b d :
  wf a -> wf b -> Address.ipv4_numeric (_ip_address b) = Ok ip_b -> Address.ipv4_numeric hop = Ok ip_b -> IPv4Datagram.wf d ->
  _arp_table a !! ip_b = None -> _waiting_arp_response_ip_addr a !! ip_b = None ->
  exists bl a1 b1 a2 request answer frame f1 f2 f3 rest d', IPv4Datagram.serialize d = Ok bl /\
    exchange taken a b hop ip_b d bl a1 b1 a2 request answer frame f1 f2 f3 rest d'.
Proof.
  intros Ha Hb Hip Hhop Hd Ht Hw. pose proof (Address.ipv4_numeric_range _ _ Hip) as Hr.
  destruct (transmit_ipv4 a b d Ha Hb Hd) as (bl & _ & _ & Ebl & _).
  destruct (send_datagram_sends a d hop ip_b bl Ha Hhop Ebl) as (a1 & Ea1 & Hs). pose proof Hs as Hsends.
  assert (Ha1 : wf a1) by exact (sends_wf a d hop ip_b bl a1 Ha Hhop Ebl Hs).
  assert (Hq : _waiting_internet_datagrams a !! ip_b = None).
  { destruct (_waiting_internet_datagrams a !! ip_b) as [l|] eqn:El; [| done].
    destruct (wf_datagrams a Ha _ _ El) as (_ & _ & [w Ew] & _). congruence. }
  unfold sends in Hs. rewrite Ht, Hw, Hq in Hs. simpl in Hs.
  destruct Hs as (req & w' & Ea & ip_a & msg & Hip_a & Hmsg & -> & ->).
  pose proof (arp_request_wf a ip_b ip_a Ha Hr Hip_a) as Hreq.
  rewrite ARPMessage.arp_serialize_eq in Hmsg by apply Hreq. injection Hmsg as <-.
  destruct (transmit_arp a ETHERNET_BROADCAST _ b Ha Hb Hreq (or_introl eq_refl)) as (f1 & b1 & Ef1 & Eb1 & Hl1 & Hb1).
  pose proof (Address.ipv4_numeric_range _ _ Hip_a) as Hr_a.
  pose proof (arp_reply_wf b ip_a ip_b (_ethernet_address a) Hb Hr_a Hip (wf_mac a Ha)) as Hrep.
  assert (Emac : _ethernet_address (settle taken a1) = _ethernet_address a) by (by rewrite settle_mac, Ea).
  destruct (transmit_arp b (_ethernet_address a) _ (settle taken a1) Hb (wf_settle taken a1 Ha1) Hrep (or_intror (eq_sym Emac)))
    as (f2 & a2 & Ef2 & Ea2 & Hl2 & Ha2).
  destruct (transmit_ipv4 a1 (settle taken b1) d Ha1 (wf_settle taken b1 Hb1) Hd) as (bl' & f3 & d' & Ebl' & Ef3 & Eb3 & Hsame).
  rewrite Ebl in Ebl'. injection Ebl' as <-. pose proof Hl1 as Hl1'. pose proof Hl2 as Hl2'.
  destruct Hl1' as (ip_b' & bls1 & Hip' & Hbls1 & Eb1'). rewrite Hip in Hip'. injection Hip' as <-.
  destruct Hl2' as (ip_a' & bls2 & _ & Hbls2 & Ea2').
  assert (Ebls : bls2 = [bl]).
  { rewrite settle_waiting, Ea in Hbls2. simpl in Hbls2. rewrite lookup_insert_eq in Hbls2. simpl in Hbls2.
    inversion Hbls2 as [|? bl0 ? l0 Hbl0 Hl0]; subst. inversion Hl0; subst. simpl in Hbl0. congruence. }
  subst bls2. assert (Emac' : _ethernet_address (settle taken b1) = _ethernet_address b) by (by rewrite settle_mac, Eb1'). rewrite Emac' in Ef3.
  eexists bl, a1, b1, a2, _, _, _, f1, f2, f3, (map (frame_to b (_ethernet_address a) EthernetHeader.TYPE_IPv4) bls1), d'.
  split; [done |]. split; try done.
  - split; [by rewrite Ea | exact Ef1].
  - eexists _, ip_a. split; [exact Hreq |]. by split.
  - split; [| exact Ef2]. rewrite Eb1'. simpl. unfold reply_frames. simpl. rewrite Z.eqb_refl. reflexivity.
  - intros my_ip Emy Hnone. rewrite Hip_a in Emy. injection Emy as <-. simpl in Hbls1. rewrite Hnone in Hbls1.
    by inversion Hbls1.
  - eexists. split; [exact Hrep | exact Hl2].
  - split; [| by split; [exact Ef3 |]]. rewrite Ea2'. simpl. unfold frame_to. by rewrite settle_mac.
Qed.

(** ** Properties *)

(** Address resolution, end to end: interface [a] sends a datagram to the
    address of interface [b], which it does not know and has not asked for.  It
    broadcasts one frame; [b], receiving it from the wire, first of all answers;
    [a], receiving the answer, sends the datagram in one frame; and [b] returns
    that same datagram to its owner.  Every step returns. *)
Theorem arp_delivers a b ip_b d :
  wf a -> wf b -> Address.ipv4_numeric (_ip_address b) = Ok ip_b -> IPv4Datagram.wf d ->
  _arp_table a !! ip_b = None -> _waiting_arp_response_ip_addr a !! ip_b = None ->
  exists a1 b1 a2 d' request answer frame rest,
    send_datagram d (Address.of_ip ip_b) a = (Ok tt, a1) /\ _frames_out a1 = _frames_out a ++ [request] /\
    (exists f, transmit request = Ok f /\ recv_frame f b = (Ok None, b1)) /\
    _frames_out b1 = _frames_out b ++ answer :: rest /\
    (exists f, transmit answer = Ok f /\ recv_frame f a1 = (Ok None, a2)) /\
    _frames_out a2 = _frames_out a1 ++ [frame] /\
    (exists f, transmit frame = Ok f /\ recv_frame f b1 = (Ok (Some d'), b1)) /\
    IPv4Datagram.same d d'.
Proof.
  intros Ha Hb Hip Hd Ht Hw. pose proof (Address.ipv4_numeric_of_ip ip_b (Address.ipv4_numeric_range _ _ Hip)) as Hhop.
  destruct (arp_exchange false a b _ ip_b d Ha Hb Hip Hhop Hd Ht Hw)
    as (bl & a1 & b1 & a2 & request & answer & frame & f1 & f2 & f3 & rest & d' & _ & [? _ [] ? _ [] _ ? _ (? & ? & _) ? ?]).
  exists a1, b1, a2, d', request, answer, frame, rest. split_and!; eauto.
Qed.

(** [C34] [send_datagram] on every branch: it returns; with the next hop in the
    table one frame goes to the learned address and nothing else changes; without
    it the datagram is queued under its next hop, and a request is broadcast,
    and remembered for five seconds, exactly when none is pending. *)
Theorem send_datagram_correct n dgram next_hop ip payload :
  wf n -> Address.ipv4_numeric next_hop = Ok ip -> IPv4Datagram.serialize dgram = Ok payload ->
  exists n', send_datagram dgram next_hop n = (Ok tt, n') /\ sends n dgram next_hop ip payload n' /\ wf n'.
Proof.
  intros Hn Hip Hd. destruct (send_datagram_sends n dgram next_hop ip payload Hn Hip Hd) as (n' & E & Hs).
  exists n'. eauto using sends_wf.
Qed.

(** [C35] [recv_frame] on every branch, for any frame with a payload in one
    buffer: it returns; a frame for somebody else, or of another type, changes
    nothing; an IPv4 frame changes nothing and gives its datagram exactly when
    that parses; an ARP frame that parses teaches the sender's address for thirty
    seconds, is answered if it asks for this interface, and releases the
    datagrams that waited for the sender, in order. *)
Theorem recv_frame_correct n f b :
  wf n -> received f b ->
  exists o n', recv_frame f n = (Ok o, n') /\ wf n' /\
    if negb (for_us n f) then o = None /\ n' = n
    else if EthernetHeader.type (EthernetFrame.header f) =? EthernetHeader.TYPE_IPv4 then
      n' = n /\ exists r d, IPv4Datagram.parse b IPv4Datagram.default = Ok (r, d) /\
        o = if bool_decide (r = NoError) then Some d else None
    else if EthernetHeader.type (EthernetFrame.header f) =? EthernetHeader.TYPE_ARP then
      o = None /\ exists r m, ARPMessage.parse b ARPMessage.default = Ok (r, m) /\
        if bool_decide (r = NoError) then learns n m n' else n' = n
    else o = None /\ n' = n.
Proof.
  intros Hn Hb. destruct (for_us n f) eqn:Hu; cbn [negb]; [| rewrite recv_frame_not_for_us by done; eauto 10].
  destruct (Z.eqb_spec (EthernetHeader.type (EthernetFrame.header f)) EthernetHeader.TYPE_IPv4) as [Ht|Ht].
  { destruct (recv_frame_ipv4 n f b Hu Ht Hb) as (r & d & E & ->). eauto 10. }
  destruct (Z.eqb_spec (EthernetHeader.type (EthernetFrame.header f)) EthernetHeader.TYPE_ARP) as [Ha|Ha];
    [| rewrite recv_frame_other by done; eauto 10].
  destruct (recv_frame_arp n f b Hn Hu Ha Hb) as (r & m & n' & E & -> & Hr). exists None, n'.
  destruct (bool_decide (r = NoError)) eqn:Er.
  - destruct Hr as [Hl Hm]. split; [done |]. split; [by eapply learns_wf |]. split; [done |].
    exists r, m. by rewrite Er.
  - subst n'. split; [done |]. split; [done |]. split; [done |]. exists r, m. by rewrite Er.
Qed.

(** [C32] The interface's invariant, in every history in which the datagrams to be sent can
    be written ([serialize] returns: IP version 4, a header of at least five words, a
    true length field) and have IPv4 next hops, whatever frames arrive and however time
    passes: no event throws, datagrams wait only for addresses that are unknown and were
    asked for, no entry and no request outlives its time, and every frame can be written.
    A datagram to a next hop that is not an IPv4 address, and one that cannot be written to
    a next hop whose address is known, make [send_datagram] throw and change nothing; one
    that cannot be written is queued while the address is unknown, which is outside the
    invariant ([unwritable_waits]). *)
Theorem interface_invariant mac addr ip w :
  address_wf mac -> Address.ipv4_numeric addr = Ok ip -> InterfaceTrace.reach mac addr w ->
  let n := InterfaceTrace.iface w in
  wf n /\
  (forall ev, InterfaceTrace.allowed ev -> exists n', InterfaceTrace.exec_event ev n = (Ok tt, n') /\ wf n') /\
  (forall d hop e, Address.ipv4_numeric hop = Throw e -> send_datagram d hop n = (Throw e, n)) /\
  (forall d hop hop_ip entry e, Address.ipv4_numeric hop = Ok hop_ip -> _arp_table n !! hop_ip = Some entry ->
     IPv4Datagram.serialize d = Throw e -> send_datagram d hop n = (Throw e, n)).
Proof.
  intros Hm Ha Hw n. pose proof (InterfaceTrace.inv_wf w (InterfaceTrace.reach_inv mac addr ip Hm Ha w Hw)) as Hwf.
  split; [done |]. split; [intros ev Hev; by apply InterfaceTrace.exec_event_returns |].
  unfold send_datagram, bind, of_outcome, asks. split; [by intros d hop e -> |]. by intros d hop hop_ip entry e -> -> ->.
Qed.

(** [C33] Requests are rationed: in every such history, two ARP requests for one
    address are at least five seconds apart, whatever is sent (datagrams that can be
    written, to IPv4 next hops) and received in between. *)
Theorem arp_requests_spaced mac addr ip w i j ti tj target :
  address_wf mac -> Address.ipv4_numeric addr = Ok ip -> InterfaceTrace.reach mac addr w ->
  (i < j)%nat -> InterfaceTrace.log w !! i = Some (ti, target) -> InterfaceTrace.log w !! j = Some (tj, target) ->
  ti + ARP_RESPONSE_TTL_MS <= tj.
Proof.
  intros Hm Ha Hw. exact (InterfaceTrace.inv_spaced w (InterfaceTrace.reach_inv mac addr ip Hm Ha w Hw) i j ti tj target).
Qed.

(** [tick] is independent of the order in which the tables are walked, and
    nothing waits for ever: after five seconds without an answer no request is
    pending and no datagram is queued, and after thirty no address is known. *)
Theorem tick_expires n ms :
  wf n -> ARP_RESPONSE_TTL_MS <= ms ->
  (forall table l, l ≡ₚ map_to_list table -> tick_table_loop ms l table = omap (age_entry ms) table) /\
  exists n', tick ms n = (Ok tt, n') /\ _waiting_arp_response_ip_addr n' = ∅ /\ _waiting_internet_datagrams n' = ∅ /\
    (ARP_ENTRY_TTL_MS <= ms -> _arp_table n' = ∅).
Proof.
  intros Hn Hms. split; [intros; rewrite tick_table_loop_eq; by apply age_loop_omap |].
  eexists. split; [apply tick_eq |]. simpl. split_and!.
  - apply map_empty. intros ip. rewrite lookup_omap. destruct (_ !! ip) as [w|] eqn:E; [| done]. simpl.
    destruct (wf_waiting n Hn ip w E). unfold age_waiting. by rewrite (proj2 (Z.leb_le _ _)) by lia.
  - apply map_empty. intros ip. rewrite tick_datagrams.
    destruct (_waiting_arp_response_ip_addr n !! ip) as [w|] eqn:E.
    + destruct (wf_waiting n Hn ip w E). by rewrite (proj2 (Z.leb_le _ _)) by lia.
    + destruct (_waiting_internet_datagrams n !! ip) as [l|] eqn:El; [| done].
      destruct (wf_datagrams n Hn ip l El) as (_ & _ & [w Ew] & _). congruence.
  - intros He. apply map_empty. intros ip. rewrite lookup_omap. destruct (_ !! ip) as [e|] eqn:E; [| done]. simpl.
    destruct (wf_table n Hn ip e E) as (_ & _ & ?). unfold age_entry. by rewrite (proj2 (Z.leb_le _ _)) by lia.
Qed.

(** ** Witnesses: two hosts on one Ethernet *)

Definition mac_a : EthernetAddress := [2; 0; 0; 0; 0; 0xa].
Definition mac_b : EthernetAddress := [2; 0; 0; 0; 0; 0xb].
Definition host_a : t := new mac_a (Address.of_ip 0x0a000001).
Definition host_b : t := new mac_b (Address.of_ip 0x0a000002).

Lemma mac_a_wf : address_wf mac_a.
Proof. split; [done |]. repeat constructor; by vm_compute. Qed.
Lemma mac_b_wf : address_wf mac_b.
Proof. split; [done |]. repeat constructor; by vm_compute. Qed.
Lemma host_a_wf : wf host_a.
Proof. apply (new_wf _ 0x0a000001); [apply mac_a_wf | reflexivity]. Qed.
Lemma host_b_wf : wf host_b.
Proof. apply (new_wf _ 0x0a000002); [apply mac_b_wf | reflexivity]. Qed.

Lemma arp_delivers_witness :
  exists a1 b1 a2 d' request answer frame rest,
    send_datagram sample_datagram (Address.of_ip 0x0a000002) host_a = (Ok tt, a1) /\
    _frames_out a1 = _frames_out host_a ++ [request] /\
    (exists f, transmit request = Ok f /\ recv_frame f host_b = (Ok None, b1)) /\
    _frames_out b1 = _frames_out host_b ++ answer :: rest /\
    (exists f, transmit answer = Ok f /\ recv_frame f a1 = (Ok None, a2)) /\
    _frames_out a2 = _frames_out a1 ++ [frame] /\
    (exists f, transmit frame = Ok f /\ recv_frame f b1 = (Ok (Some d'), b1)) /\
    IPv4Datagram.same sample_datagram d'.
Proof.
  apply arp_delivers; [apply host_a_wf | apply host_b_wf | reflexivity | apply sample_datagram_wf | reflexivity | reflexivity].
Defined.

Definition sample_payload : BufferList.t :=
  match IPv4Datagram.serialize sample_datagram with Ok bl => bl | Throw _ => [] end.

Lemma sample_serialized : IPv4Datagram.serialize sample_datagram = Ok sample_payload.
Proof. vm_compute. reflexivity. Qed.

Lemma send_datagram_correct_witness :
  exists n', send_datagram sample_datagram (Address.of_ip 0x0a000002) host_a = (Ok tt, n') /\
    sends host_a sample_datagram (Address.of_ip 0x0a000002) 0x0a000002 sample_payload n' /\ wf n'.
Proof. apply send_datagram_correct; [apply host_a_wf | reflexivity | apply sample_serialized]. Defined.

(** A request of host A for host B's address, as B receives it. *)
Definition request_buffer : Buffer.t :=
  Buffer.of_string (ARPMessage.image (arp_request mac_a 0x0a000001 0x0a000002)).
Definition request_frame : EthernetFrame.t :=
  EthernetFrame.mk (EthernetHeader.mk ETHERNET_BROADCAST mac_a EthernetHeader.TYPE_ARP) [request_buffer].

Lemma request_received : received request_frame request_buffer.
Proof. split; [done |]. apply Buffer.wf_of_string. by vm_compute. Qed.

Lemma recv_frame_correct_witness :
  exists o n', recv_frame request_frame host_b = (Ok o, n') /\ wf n' /\
    if negb (for_us host_b request_frame) then o = None /\ n' = host_b
    else if EthernetHeader.type (EthernetFrame.header request_frame) =? EthernetHeader.TYPE_IPv4 then
      n' = host_b /\ exists r d, IPv4Datagram.parse request_buffer IPv4Datagram.default = Ok (r, d) /\
        o = if bool_decide (r = NoError) then Some d else None
    else if EthernetHeader.type (EthernetFrame.header request_frame) =? EthernetHeader.TYPE_ARP then
      o = None /\ exists r m, ARPMessage.parse request_buffer ARPMessage.default = Ok (r, m) /\
        if bool_decide (r = NoError) then learns host_b m n' else n' = host_b
    else o = None /\ n' = host_b.
Proof. apply recv_frame_correct; [apply host_b_wf | apply request_received]. Defined.

(** A history of host A: a datagram to B, six seconds without an answer, and the
    same datagram again. *)
Definition retry : InterfaceTrace.world :=
  InterfaceTrace.run (InterfaceTrace.mk_world host_a 0 [])
    [InterfaceTrace.Send sample_datagram (Address.of_ip 0x0a000002); InterfaceTrace.Tick 6000;
     InterfaceTrace.Send sample_datagram (Address.of_ip 0x0a000002)].

Lemma retry_log : InterfaceTrace.log retry = [(0, 0x0a000002); (6000, 0x0a000002)].
Proof. vm_compute. reflexivity. Qed.

Lemma retry_reach : InterfaceTrace.reach mac_a (Address.of_ip 0x0a000001) retry.
Proof.
  assert (Hd : writable sample_datagram) by (exists sample_payload; apply sample_serialized).
  apply (InterfaceTrace.reach_run _ _ 0x0a000001); [apply mac_a_wf | reflexivity | apply InterfaceTrace.reach_new |].
  repeat constructor; try (by exists 0x0a000002); done.
Qed.

Lemma interface_invariant_witness :
  wf (InterfaceTrace.iface retry) /\
  forall ev, InterfaceTrace.allowed ev -> exists n', InterfaceTrace.exec_event ev (InterfaceTrace.iface retry) = (Ok tt, n').
Proof.
  destruct (interface_invariant mac_a (Address.of_ip 0x0a000001) 0x0a000001 retry) as (Hwf & Hev & _);
    [apply mac_a_wf | reflexivity | apply retry_reach |].
  split; [exact Hwf |]. intros ev Ha. destruct (Hev ev Ha) as (n' & E & _). by exists n'.
Defined.

Lemma arp_requests_spaced_witness :
  InterfaceTrace.log retry = [(0, 0x0a000002); (6000, 0x0a000002)] /\ 0 + ARP_RESPONSE_TTL_MS <= 6000.
Proof.
  split; [exact retry_log |].
  apply (arp_requests_spaced mac_a (Address.of_ip 0x0a000001) 0x0a000001 retry 0 1 0 6000 0x0a000002);
    [apply mac_a_wf | reflexivity | apply retry_reach | lia | by rewrite retry_log | by rewrite retry_log].
Defined.

Lemma tick_expires_witness :
  (forall table l, l ≡ₚ map_to_list table -> tick_table_loop 30000 l table = omap (age_entry 30000) table) /\
  exists n', tick 30000 (InterfaceTrace.iface retry) = (Ok tt, n') /\ _waiting_arp_response_ip_addr n' = ∅ /\
    _waiting_internet_datagrams n' = ∅ /\ (ARP_ENTRY_TTL_MS <= 30000 -> _arp_table n' = ∅).
Proof.
  apply tick_expires; [| by vm_compute].
  apply (InterfaceTrace.inv_wf retry), (InterfaceTrace.reach_inv mac_a (Address.of_ip 0x0a000001) 0x0a000001);
    [apply mac_a_wf | reflexivity | apply retry_reach].
Defined.

(** ** A datagram that cannot be written

    Sent to an unknown address, it is queued.  When the answer comes, [serialize] throws in
    [recv_frame]: the address has been learned, and the datagram still waits for it. *)
Definition version_6 : IPv4Datagram.t :=
  IPv4Datagram.mk (IPv4Header.mk 6 5 0 21 0 false false 0 64 6 0 0x0a000001 0x0a000002) [Buffer.of_string [x61]].
Definition answer_frame : EthernetFrame.t :=
  EthernetFrame.mk (EthernetHeader.mk mac_a mac_b EthernetHeader.TYPE_ARP)
    [Buffer.of_string (ARPMessage.image (arp_reply mac_b mac_a 0x0a000002 0x0a000001))].

Lemma unwritable_waits :
  let n := snd (send_datagram version_6 (Address.of_ip 0x0a000002) host_a) in
  fst (send_datagram version_6 (Address.of_ip 0x0a000002) host_a) = Ok tt /\
  fst (recv_frame answer_frame n) = Throw (Runtime_error "wrong IP version") /\
  let n' := snd (recv_frame answer_frame n) in
  is_Some (_arp_table n' !! 0x0a000002) /\ is_Some (_waiting_internet_datagrams n' !! 0x0a000002).
Proof. vm_compute. split; [done |]. split; [done |]. split; by eexists. Qed.
