(* ===== verification/router.v ===== *)
(** * libsponge/router: a router with longest-prefix match and ICMP

    The routing table is a binary trie; its specification is a linear scan over
    the routes in the order they were added. *)

From S2P Require Import prelude buffer parser wire_format checksum ethernet arp_message ipv4 icmp_message address network_interface.

(** ** An interface that keeps the datagrams it received *)

Module AsyncNetworkInterface.
Record t : Type := mk { base : NetworkInterface.t; _datagrams_out : list IPv4Datagram.t }.

Definition eta (a : t) : t := mk (base a) (_datagrams_out a).
#[global] Instance set_base : Setter base := ltac:(derive_setter eta base).
#[global] Instance set_datagrams_out : Setter _datagrams_out := ltac:(derive_setter eta _datagrams_out).

(** [AsyncNetworkInterface(NetworkInterface &&interface)] *)
Definition of_interface (interface : NetworkInterface.t) : t := mk interface [].

Definition recv_frame (frame : EthernetFrame.t) : M t unit :=
  let* optional_dgram := zoom base (NetworkInterface.recv_frame frame) in
  match optional_dgram with
  | Some d => _datagrams_out %= (fun q => q ++ [d])
  | None => pure tt
  end.

Definition datagrams_out (a : t) : list IPv4Datagram.t := _datagrams_out a.
Definition send_datagram (dgram : IPv4Datagram.t) (next_hop : Address.t) : M t unit :=
  zoom base (NetworkInterface.send_datagram dgram next_hop).
Definition ip_address (a : t) : Address.t := NetworkInterface.ip_address (base a).
End AsyncNetworkInterface.

Module RouteEntry.
Record t : Type := mk {
  route_prefix : Z;
  prefix_length : Z;
  next_hop : option Address.t;
  interface_num : Z
}.
End RouteEntry.
Import RouteEntry (route_prefix, prefix_length, next_hop, interface_num).

(** ** The trie *)

Module RoutingTrie.

(** [std::unique_ptr<TrieNode>]: null, or two children and a route. *)
Inductive TrieNode : Type :=
| Null
| Node (child0 child1 : TrieNode) (route : option RouteEntry.t).

(** [_root]: never null *)
Definition new : TrieNode := Node Null Null None.

(** [(x >> (31 - bit)) & 1] *)
Definition dir (x bit : Z) : bool := Z.land (Z.shiftr x (31 - bit)) 1 =? 1.

(** [_navigate] from [bit] on, with [k] bits to go, and the assignment of
    [insert] at the node it reaches.  A missing child is created.  Beyond bit 31
    the shift amount is negative. *)
Fixpoint insert_at (k : nat) (bit : Z) (entry : RouteEntry.t) (node : TrieNode) : outcome TrieNode :=
  let '(c0, c1, r) := match node with Node c0 c1 r => (c0, c1, r) | Null => (Null, Null, None) end in
  match k with
  | O => Ok (Node c0 c1 (Some entry))
  | S k =>
      if 31 <? bit then Throw UndefinedBehavior
      else if dir (route_prefix entry) bit then
        c1' ← insert_at k (bit + 1) entry c1; Ok (Node c0 c1' r)
      else
        c0' ← insert_at k (bit + 1) entry c0; Ok (Node c0' c1 r)
  end.

Definition insert (entry : RouteEntry.t) (root : TrieNode) : outcome TrieNode :=
  insert_at (Z.to_nat (prefix_length entry)) 0 entry root.

(** The loop of [longest_prefix_match], with [k] iterations to go. *)
Fixpoint match_loop (k : nat) (bit dst : Z) (node : TrieNode) (best_match : option RouteEntry.t) : option RouteEntry.t :=
  match k, node with
  | S k, Node c0 c1 _ =>
      let node := if dir dst bit then c1 else c0 in
      match node with
      | Null => best_match
      | Node _ _ route =>
          match_loop k (bit + 1) dst node (match route with Some e => Some e | None => best_match end)
      end
  | _, _ => best_match
  end.

Definition longest_prefix_match (dst : Z) (root : TrieNode) : outcome (option RouteEntry.t) :=
  match root with
  | Null => Throw UndefinedBehavior
  | Node _ _ route => Ok (match_loop 32 0 dst root route)
  end.

(** ** The reference: a linear scan *)

(** The first [prefix_length] bits agree. *)
Definition matches (dst : Z) (e : RouteEntry.t) : bool :=
  Z.shiftr dst (32 - prefix_length e) =? Z.shiftr (route_prefix e) (32 - prefix_length e).

(** The later of two routes of one length wins. *)
Definition better (best : option RouteEntry.t) (e : RouteEntry.t) : bool :=
  match best with None => true | Some b => prefix_length b <=? prefix_length e end.

Definition scan (routes : list RouteEntry.t) (dst : Z) : option RouteEntry.t :=
  foldl (fun best e => if matches dst e && better best e then Some e else best) None routes.

Definition entry_wf (e : RouteEntry.t) : Prop :=
  0 <= route_prefix e < 2 ^ 32 /\ 0 <= prefix_length e <= 32.

(** ** The trie as a function from paths to routes *)

Fixpoint bits (x bit : Z) (k : nat) : list bool :=
  match k with O => [] | S k => dir x bit :: bits x (bit + 1) k end.

Fixpoint route_at (node : TrieNode) (path : list bool) : option RouteEntry.t :=
  match node, path with
  | Null, _ => None
  | Node _ _ r, [] => r
  | Node c0 c1 _, b :: path => route_at (if b : bool then c1 else c0) path
  end.

Lemma insert_at_eq k bit e node :
  0 <= bit -> bit + Z.of_nat k <= 32 ->
  exists c0 c1 r, insert_at k bit e node = Ok (Node c0 c1 r) /\
    forall path, route_at (Node c0 c1 r) path =
      if decide (path = bits (route_prefix e) bit k) then Some e else route_at node path.
Proof.
  revert bit node. induction k as [|k IH]; intros bit node Hb Hk.
  - exists (match node with Node c0 _ _ => c0 | Null => Null end),
      (match node with Node _ c1 _ => c1 | Null => Null end), (Some e).
    split; [by destruct node |]. intros path. destruct path as [|b path]; [done |].
    rewrite decide_False by done. destruct node as [|c0 c1 r]; [by destruct b | done].
  - simpl. rewrite (proj2 (Z.ltb_ge _ _)) by lia.
    set (c0 := match node with Node c0 _ _ => c0 | Null => Null end).
    set (c1 := match node with Node _ c1 _ => c1 | Null => Null end).
    set (r := match node with Node _ _ r => r | Null => None end).
    assert (Hnode : forall path, route_at (Node c0 c1 r) path = route_at node path).
    { intros path. destruct node as [|]; [| done]. by destruct path as [|[] path]. }
    replace (match node with Node _ _ _ => _ | Null => _ end) with (c0, c1, r) by (by destruct node).
    destruct (dir (route_prefix e) bit) eqn:Ed.
    + destruct (IH (bit + 1) c1) as (d0 & d1 & r1 & -> & Hr1); [lia | lia |].
      exists c0, (Node d0 d1 r1), r. split; [done |]. intros path. rewrite <- Hnode.
      destruct path as [|[] path]; [done | | done].
      change (route_at (Node c0 (Node d0 d1 r1) r) (true :: path)) with (route_at (Node d0 d1 r1) path). rewrite Hr1.
      by destruct (decide (path = bits (route_prefix e) (bit + 1) k)) as [-> |];
        [rewrite decide_True | rewrite decide_False by congruence].
    + destruct (IH (bit + 1) c0) as (d0 & d1 & r1 & -> & Hr1); [lia | lia |].
      exists (Node d0 d1 r1), c1, r. split; [done |]. intros path. rewrite <- Hnode.
      destruct path as [|[] path]; [done | done |].
      change (route_at (Node (Node d0 d1 r1) c1 r) (false :: path)) with (route_at (Node d0 d1 r1) path). rewrite Hr1.
      by destruct (decide (path = bits (route_prefix e) (bit + 1) k)) as [-> |];
        [rewrite decide_True | rewrite decide_False by congruence].
Qed.

(** The deepest route on a path below the root. *)
Fixpoint best_along (path : list bool) (f : list bool -> option RouteEntry.t) (best : option RouteEntry.t)
    : option RouteEntry.t :=
  match path with
  | [] => best
  | b :: path => best_along path (fun q => f (b :: q)) (match f [b] with Some e => Some e | None => best end)
  end.

Lemma best_along_ext path f g best :
  (forall q, q <> [] -> f q = g q) -> best_along path f best = best_along path g best.
Proof.
  revert f g best. induction path as [|b path IH]; intros f g best Hfg; simpl; [done |].
  rewrite (Hfg [b]) by done. apply IH. intros q _. by apply Hfg.
Qed.

Lemma best_along_none path f best : (forall q, f q = None) -> best_along path f best = best.
Proof. revert f. induction path as [|b path IH]; intros f Hf; simpl; [done |]. rewrite Hf. by apply IH. Qed.

Lemma match_loop_eq k bit dst node best :
  match_loop k bit dst node best = best_along (bits dst bit k) (route_at node) best.
Proof.
  revert bit node best. induction k as [|k IH]; intros bit node best; simpl; [by destruct node |].
  destruct node as [|c0 c1 r]; [by rewrite best_along_none by done |].
  set (child := if dir dst bit then c1 else c0).
  change (route_at (Node c0 c1 r) [dir dst bit]) with (route_at child []).
  rewrite (best_along_ext _ (fun q => route_at (Node c0 c1 r) (dir dst bit :: q)) (route_at child)) by done.
  destruct child as [|d0 d1 r1]; [by rewrite best_along_none by (by intros []) |]. apply IH.
Qed.

(** The result is the given default exactly when the path has no route, and the
    routes of [f] below depth [d] are longer than [d]. *)
Lemma best_along_default path f best :
  best_along path f best = match best_along path f None with Some e => Some e | None => best end.
Proof.
  revert f best. induction path as [|b path IH]; intros f best; simpl; [done |].
  rewrite (IH _ (match f [b] with Some e => Some e | None => best end)), (IH _ (match f [b] with Some e => Some e | None => None end)).
  destruct (best_along path _ None), (f [b]); done.
Qed.

Definition depth_ok (d : Z) (f : list bool -> option RouteEntry.t) : Prop :=
  forall q e, f q = Some e -> prefix_length e = d + len q.

Lemma depth_ok_cons d f b : depth_ok d f -> depth_ok (d + 1) (fun q => f (b :: q)).
Proof. intros Hf q e Hq. rewrite (Hf _ _ Hq), len_cons. lia. Qed.

Lemma best_along_deep path f d e : depth_ok d f -> best_along path f None = Some e -> d < prefix_length e.
Proof.
  revert f d. induction path as [|b path IH]; intros f d Hf; simpl; [done |].
  rewrite best_along_default. destruct (best_along path (fun q => f (b :: q)) None) as [e'|] eqn:E.
  - intros [= ->]. apply (IH _ (d + 1)) in E; [lia | by apply depth_ok_cons].
  - destruct (f [b]) as [e'|] eqn:Eb; [| done]. intros [= ->]. rewrite (Hf _ _ Eb). rewrite len_singleton. lia.
Qed.

(** Keep the longer of two routes; the new one on a tie. *)
Definition pick (best : option RouteEntry.t) (e : RouteEntry.t) : option RouteEntry.t :=
  if better best e then Some e else best.

(** Adding a route on the path, and adding one off it. *)
Lemma best_along_insert path f d best p0 e :
  depth_ok d f -> p0 `prefix_of` path -> p0 <> [] -> prefix_length e = d + len p0 ->
  (forall b, best = Some b -> prefix_length b <= d) ->
  best_along path (fun q => if decide (q = p0) then Some e else f q) best = pick (best_along path f best) e.
Proof.
  revert f d best p0. induction path as [|b path IH]; intros f d best p0 Hf Hp Hne He Hb.
  { by apply prefix_nil_inv in Hp. }
  destruct p0 as [|b0 p0]; [done |]. apply prefix_cons_inv_1 in Hp as Hb0. apply prefix_cons_inv_2 in Hp. subst b0.
  cbn [best_along]. destruct p0 as [|b1 p0].
  - rewrite decide_True by done.
    rewrite (best_along_ext _ (fun q => if decide (b :: q = [b]) then Some e else f (b :: q)) (fun q => f (b :: q)))
      by (intros q Hq; by rewrite decide_False by congruence).
    rewrite (best_along_default _ _ (Some e)), (best_along_default _ _ (match f [b] with Some e0 => Some e0 | None => best end)).
    rewrite len_singleton in He. destruct (best_along path (fun q => f (b :: q)) None) as [e'|] eqn:E.
    + apply (best_along_deep _ _ (d + 1)) in E; [| by apply depth_ok_cons].
      unfold pick, better. cbv iota. by rewrite (proj2 (Z.leb_gt _ _)) by lia.
    + unfold pick, better. cbv iota. destruct (f [b]) as [e'|] eqn:Eb.
      * rewrite (Hf _ _ Eb), len_singleton. by rewrite (proj2 (Z.leb_le _ _)) by lia.
      * destruct best as [b'|]; [| done]. specialize (Hb b' eq_refl). by rewrite (proj2 (Z.leb_le _ _)) by lia.
  - rewrite decide_False by done. set (best' := match f [b] with Some _ => _ | None => _ end).
    rewrite (best_along_ext _ (fun q => if decide (b :: q = b :: b1 :: p0) then Some e else f (b :: q))
      (fun q => if decide (q = b1 :: p0) then Some e else f (b :: q))).
    2:{ intros q _. by destruct (decide (q = b1 :: p0)) as [-> |];
          [rewrite decide_True | rewrite decide_False by congruence]. }
    apply (IH _ (d + 1)); [by apply depth_ok_cons | done | done | rewrite He, len_cons; lia |].
    unfold best'. intros b' Hb'. destruct (f [b]) as [e'|] eqn:Eb.
    + injection Hb' as <-. rewrite (Hf _ _ Eb), len_singleton. lia.
    + specialize (Hb _ Hb'). lia.
Qed.

Lemma best_along_off path f best p0 e :
  ~ p0 `prefix_of` path ->
  best_along path (fun q => if decide (q = p0) then Some e else f q) best = best_along path f best.
Proof.
  revert f best p0. induction path as [|b path IH]; intros f best p0 Hp; [done |]. cbn [best_along].
  destruct p0 as [|b0 p0]; [by destruct Hp; apply prefix_nil |].
  rewrite decide_False by (intros [= <- <-]; apply Hp; exists path; done).
  destruct (decide (b0 = b)) as [-> | Hne].
  - rewrite <- (IH (fun q => f (b :: q)) _ p0) by (intros H; by apply Hp, prefix_cons). apply best_along_ext.
    intros q _. by destruct (decide (q = p0)) as [-> |]; [rewrite decide_True | rewrite decide_False by congruence].
  - apply best_along_ext. intros q _. by rewrite decide_False by congruence.
Qed.

(** *** Paths and prefixes of addresses *)

Lemma length_bits x bit k : length (bits x bit k) = k.
Proof. revert bit. induction k as [|k IH]; intros bit; simpl; [done | by rewrite IH]. Qed.

Lemma bits_app x bit k n : bits x bit (k + n) = bits x bit k ++ bits x (bit + Z.of_nat k) n.
Proof.
  revert bit. induction k as [|k IH]; intros bit; simpl; [by rewrite Z.add_0_r |].
  rewrite IH. do 3 f_equal. lia.
Qed.

(** One more bit of an address. *)
Lemma shiftr_step x n : 0 <= n -> Z.shiftr x n = 2 * Z.shiftr x (n + 1) + Z.b2z (Z.land (Z.shiftr x n) 1 =? 1).
Proof.
  intros Hn. rewrite <- Z.shiftr_shiftr by lia. rewrite (Z.shiftr_div_pow2 _ 1) by lia.
  replace (Z.land (Z.shiftr x n) 1) with (Z.shiftr x n mod 2) by (symmetry; by apply (Z.land_ones _ 1)).
  change (2 ^ 1) with 2.
  pose proof (Z.div_mod (Z.shiftr x n) 2 ltac:(lia)). pose proof (Z.mod_pos_bound (Z.shiftr x n) 2 ltac:(lia)).
  destruct (Z.eqb_spec (Z.shiftr x n mod 2) 1); simpl Z.b2z; lia.
Qed.

Lemma bits_eq x y n :
  0 <= x < 2 ^ 32 -> 0 <= y < 2 ^ 32 -> (n <= 32)%nat ->
  bits x 0 n = bits y 0 n <-> Z.shiftr x (32 - Z.of_nat n) = Z.shiftr y (32 - Z.of_nat n).
Proof.
  intros Hx Hy. induction n as [|n IH]; intros Hn.
  { simpl. rewrite !Z.shiftr_div_pow2, !Z.div_small by lia. done. }
  replace (S n) with (n + 1)%nat at 1 2 by lia. rewrite !bits_app. simpl bits.
  rewrite (shiftr_step x), (shiftr_step y) by lia.
  replace (32 - Z.of_nat (S n) + 1) with (32 - Z.of_nat n) by lia. unfold dir.
  replace (31 - (0 + Z.of_nat n)) with (32 - Z.of_nat (S n)) by lia.
  set (a := _ =? 1). set (c := _ =? 1). clearbody a c. split.
  - intros E. apply app_inj_tail in E as [E Eac]. apply IH in E; [| lia]. by rewrite E, Eac.
  - intros E. assert (Hac : a = c /\ Z.shiftr x (32 - Z.of_nat n) = Z.shiftr y (32 - Z.of_nat n)).
    { destruct a, c; simpl in E; split; try done; lia. }
    destruct Hac as [-> E']. f_equal. apply IH; [lia | done].
Qed.

Lemma matches_prefix e dst :
  entry_wf e -> 0 <= dst < 2 ^ 32 ->
  matches dst e = true <->
  bits (route_prefix e) 0 (Z.to_nat (prefix_length e)) `prefix_of` bits dst 0 32.
Proof.
  intros [Hp Hl] Hd. set (n := Z.to_nat (prefix_length e)).
  assert (E32 : bits dst 0 32 = bits dst 0 n ++ bits dst (Z.of_nat n) (32 - n)).
  { rewrite <- bits_app. f_equal. lia. }
  unfold matches. rewrite Z.eqb_eq. replace (prefix_length e) with (Z.of_nat n) by lia.
  rewrite <- bits_eq by lia. rewrite E32. split.
  - intros ->. by apply prefix_app_r.
  - intros [k Ek]. apply app_inj_1 in Ek as [E _]; [done |]. by rewrite !length_bits.
Qed.

(** ** The trie implements the scan *)

Record represents (routes : list RouteEntry.t) (root : TrieNode) : Prop := {
  rep_root : root <> Null;
  rep_depth : depth_ok 0 (route_at root);
  rep_scan : forall dst, 0 <= dst < 2 ^ 32 ->
    best_along (bits dst 0 32) (route_at root) (route_at root []) = scan routes dst
}.

Lemma represents_new : represents [] new.
Proof.
  split; [done | by intros [|[] q] e | intros dst _]. simpl route_at.
  rewrite best_along_none; [done |]. by intros [|[] q].
Qed.

Lemma represents_match routes root dst :
  represents routes root -> 0 <= dst < 2 ^ 32 -> longest_prefix_match dst root = Ok (scan routes dst).
Proof.
  intros [Hr _ Hs] Hd. rewrite <- Hs by done. destruct root as [|c0 c1 r]; [done |].
  unfold longest_prefix_match. by rewrite match_loop_eq.
Qed.

Lemma scan_snoc routes e dst :
  scan (routes ++ [e]) dst = if matches dst e then pick (scan routes dst) e else scan routes dst.
Proof. unfold scan, pick. rewrite foldl_app. simpl. by destruct (matches dst e). Qed.

Lemma scan_elem routes dst e : scan routes dst = Some e -> e ∈ routes.
Proof.
  induction routes as [|e' routes IH] using rev_ind; [done |]. rewrite scan_snoc, elem_of_app, list_elem_of_singleton.
  unfold pick. destruct (matches dst e'); [destruct (better _ e')|]; intros H; naive_solver.
Qed.

(** The scan finds a longest match, and the last of them. *)
Lemma scan_longest routes dst :
  match scan routes dst with
  | None => forall e, e ∈ routes -> matches dst e = false
  | Some b => matches dst b = true /\
      forall e, e ∈ routes -> matches dst e = true -> prefix_length e <= prefix_length b
  end.
Proof.
  induction routes as [|e routes IH] using rev_ind; [by intros e ?%not_elem_of_nil |]. rewrite scan_snoc. unfold pick.
  destruct (matches dst e) eqn:Em.
  - destruct (scan routes dst) as [b|]; simpl.
    + destruct (Z.leb_spec (prefix_length b) (prefix_length e)); (split; [by destruct IH |]);
        intros e' [Hin | ->%list_elem_of_singleton]%elem_of_app He'; try lia;
        destruct IH as [_ IH]; specialize (IH e' Hin He'); lia.
    + split; [done |]. intros e' [Hin | ->%list_elem_of_singleton]%elem_of_app He'; [| lia].
      rewrite IH in He' by done. done.
  - destruct (scan routes dst) as [b|].
    + destruct IH as [Hb IH]. split; [done |].
      intros e' [Hin | ->%list_elem_of_singleton]%elem_of_app He'; [by apply IH | congruence].
    + intros e' [Hin | ->%list_elem_of_singleton]%elem_of_app; [by apply IH | done].
Qed.

Lemma represents_insert routes root e :
  represents routes root -> entry_wf e ->
  exists root', insert e root = Ok root' /\ represents (routes ++ [e]) root'.
Proof.
  intros [Hr Hdep Hs] He. pose proof He as [Hp Hl].
  destruct (insert_at_eq (Z.to_nat (prefix_length e)) 0 e root) as (c0 & c1 & r & E & Hat); [lia | lia |].
  set (p0 := bits (route_prefix e) 0 (Z.to_nat (prefix_length e))) in *.
  assert (Hlen : len p0 = prefix_length e) by (unfold p0, len; rewrite length_bits; lia).
  eexists. split; [exact E |]. split; [done | |].
  - intros q e' Hq. rewrite Hat in Hq. destruct (decide (q = p0)) as [-> |]; [injection Hq as <-; lia | by apply Hdep].
  - intros dst Hd. rewrite scan_snoc, <- Hs by done. set (f := route_at root) in *.
    rewrite (best_along_ext _ (route_at (Node c0 c1 r)) (fun q => if decide (q = p0) then Some e else f q)) by auto.
    rewrite Hat. pose proof (matches_prefix e dst He Hd) as Hm. fold p0 in Hm.
    destruct (matches dst e).
    + assert (Hpre : p0 `prefix_of` bits dst 0 32) by (by apply Hm). destruct (decide (p0 = [])) as [E0 | Hne].
      * rewrite decide_True by done.
        rewrite (best_along_ext _ (fun q => if decide (q = p0) then Some e else f q) f)
          by (intros q Hq; by rewrite decide_False by congruence).
        rewrite (best_along_default _ _ (Some e)), (best_along_default _ _ (f [])).
        rewrite E0 in Hlen. unfold pick, better. destruct (best_along _ f None) as [e'|] eqn:Eb.
        { apply (best_along_deep _ _ 0) in Eb; [| done]. rewrite (proj2 (Z.leb_gt _ _)); [done |].
          rewrite <- Hlen. exact Eb. }
        { destruct (f []) as [e'|] eqn:Ef; [| done]. rewrite (Hdep _ _ Ef). simpl.
          rewrite (proj2 (Z.leb_le _ _)); [done |]. rewrite <- Hlen. done. }
      * rewrite decide_False by congruence. apply (best_along_insert _ f 0); try done; try lia.
        intros b Hb. rewrite (Hdep _ _ Hb). done.
    + rewrite best_along_off by (intros H; by apply Hm in H). rewrite decide_False; [done |].
      intros E0. assert (false = true) by (apply Hm; rewrite <- E0; apply prefix_nil). done.
Qed.
End RoutingTrie.

(** ** The router *)

Module Router.

Record t : Type := mk {
  _interfaces : list AsyncNetworkInterface.t;
  _route_table : RoutingTrie.TrieNode;
  _icmp_enabled : bool
}.

Definition eta (r : t) : t := mk (_interfaces r) (_route_table r) (_icmp_enabled r).
#[global] Instance set_interfaces : Setter _interfaces := ltac:(derive_setter eta _interfaces).
#[global] Instance set_route_table : Setter _route_table := ltac:(derive_setter eta _route_table).
#[global] Instance set_icmp : Setter _icmp_enabled := ltac:(derive_setter eta _icmp_enabled).

Definition new : t := mk [] RoutingTrie.new false.

Definition add_interface (interface : AsyncNetworkInterface.t) : M t Z :=
  _interfaces %= (fun l => l ++ [interface]) ;;
  let* l := asks _interfaces in
  pure (len l - 1).

(** [_interfaces.at(i)], to call a member function of the interface. *)
Definition at_interface {A} (i : Z) (m : M AsyncNetworkInterface.t A) : M t A := fun r =>
  match zlookup (_interfaces r) i with
  | None => (Throw (Out_of_range "vector::_M_range_check"), r)
  | Some a => let '(o, a') := m a in (o, setf _interfaces (zinsert i a' (_interfaces r)) r)
  end.

Definition add_route (route_prefix prefix_length : Z) (next_hop : option Address.t) (interface_num : Z) : M t unit :=
  let* root := asks _route_table in
  let* root' := of_outcome (RoutingTrie.insert (RouteEntry.mk route_prefix prefix_length next_hop interface_num) root) in
  _route_table ::= root'.

Definition set_icmp_enabled (enabled : bool) : M t unit := _icmp_enabled ::= enabled.

(** The datagram around an ICMP message, as [route_one_datagram] and [send_icmp] build it. *)
Definition icmp_datagram (src dst : Z) (serialized : list byte) : IPv4Datagram.t :=
  let h := IPv4Header.default in
  let h := setf IPv4Header.src src h in
  let h := setf IPv4Header.dst dst h in
  let h := setf IPv4Header.proto IPv4Header.PROTO_ICMP h in
  let h := setf IPv4Header.ttl IPv4Header.DEFAULT_TTL h in
  let h := setf IPv4Header.len (u16 (IPv4Header.LENGTH + len serialized)) h in
  IPv4Datagram.mk h (BufferList.of_buffer (Buffer.of_string serialized)).

Definition send_icmp (type code : Z) (dgram_original : IPv4Datagram.t) (interface_num : Z) (next_hop : Address.t)
    : M t unit :=
  let* bl := of_outcome (IPv4Datagram.serialize dgram_original) in
  let original_serialized := BufferList.concatenate bl in
  let payload := ztake (Z.min (len original_serialized) (IPv4Header.LENGTH + 8)) original_serialized in
  let icmp := ICMPMessage.mk type code 0 0 0 payload in
  let* l := asks _interfaces in
  let* src :=
    (if interface_num <? len l then
       let* a := at_interface interface_num (asks AsyncNetworkInterface.ip_address) in
       of_outcome (Address.ipv4_numeric a)
     else pure 0) in
  let* icmp_serialized := of_outcome (ICMPMessage.serialize icmp) in
  let icmp_dgram := icmp_datagram src (IPv4Header.src (IPv4Datagram.header dgram_original)) icmp_serialized in
  if interface_num <? len l then
    at_interface interface_num (AsyncNetworkInterface.send_datagram icmp_dgram next_hop)
  else pure tt.

(** The search for an interface with the destination's address. *)
Fixpoint find_interface (l : list AsyncNetworkInterface.t) (i ip_dst : Z) : outcome (option Z) :=
  match l with
  | [] => Ok None
  | a :: l =>
      ip ← Address.ipv4_numeric (AsyncNetworkInterface.ip_address a);
      if ip_dst =? ip then Ok (Some i) else find_interface l (i + 1) ip_dst
  end.

(** The reply to an echo request. *)
Definition echo_reply (icmp : ICMPMessage.t) : ICMPMessage.t :=
  ICMPMessage.mk ICMPMessage.TYPE_ECHO_REPLY 0 0 (ICMPMessage.identifier icmp) (ICMPMessage.sequence_number icmp)
    (ICMPMessage.payload icmp).

(** The first layer of [route_one_datagram]: an ICMP message to the router itself,
    at interface [i]. *)
Definition handle_icmp (i : Z) (dgram : IPv4Datagram.t) : M t unit :=
  let h := IPv4Datagram.header dgram in
  let* (res, icmp) := of_outcome (ICMPMessage.parse
    (Buffer.of_string (BufferList.concatenate (IPv4Datagram.payload dgram))) ICMPMessage.default) in
  if bool_decide (res <> NoError) then pure tt
  else if ICMPMessage.type icmp =? ICMPMessage.TYPE_ECHO_REQUEST then
    let* reply_serialized := of_outcome (ICMPMessage.serialize (echo_reply icmp)) in
    let reply_dgram := icmp_datagram (IPv4Header.dst h) (IPv4Header.src h) reply_serialized in
    let* hop := of_outcome (Address.from_ipv4_numeric (IPv4Header.src h)) in
    at_interface i (AsyncNetworkInterface.send_datagram reply_dgram hop)
  else pure tt.

(** [dgram] is a reference to the front of the queue of interface [q]: the
    decremented TTL is written there. *)
Definition set_front (q : Z) (dgram : IPv4Datagram.t) : M t unit :=
  at_interface q (AsyncNetworkInterface._datagrams_out %= (fun l => match l with [] => [] | _ :: l => dgram :: l end)).

(** The layers below: the routing table, the TTL and the next hop. *)
Definition forward (q : Z) (dgram : IPv4Datagram.t) : M t unit :=
  let h := IPv4Datagram.header dgram in
  let ip_dst := IPv4Header.dst h in
  let* root := asks _route_table in
  let* best_match := of_outcome (RoutingTrie.longest_prefix_match ip_dst root) in
  let* enabled := asks _icmp_enabled in
  match best_match with
  | None =>
      if enabled then
        let* hop := of_outcome (Address.from_ipv4_numeric (IPv4Header.src h)) in
        send_icmp ICMPMessage.TYPE_DESTINATION_UNREACHABLE 0 dgram 0 hop
      else pure tt
  | Some best =>
      if IPv4Header.ttl h <=? 1 then
        if enabled then
          let* hop := of_outcome (Address.from_ipv4_numeric (IPv4Header.src h)) in
          send_icmp ICMPMessage.TYPE_TIME_EXCEEDED 0 dgram (interface_num best) hop
        else pure tt
      else
        let dgram := setf IPv4Datagram._header (setf IPv4Header.ttl (u8 (IPv4Header.ttl h - 1)) h) dgram in
        set_front q dgram ;;
        match next_hop best with
        | Some hop => at_interface (interface_num best) (AsyncNetworkInterface.send_datagram dgram hop)
        | None =>
            let* hop := of_outcome (Address.from_ipv4_numeric ip_dst) in
            at_interface (interface_num best) (AsyncNetworkInterface.send_datagram dgram hop)
        end
  end.

Definition route_one_datagram (q : Z) (dgram : IPv4Datagram.t) : M t unit :=
  let h := IPv4Datagram.header dgram in
  let* l := asks _interfaces in
  let* self :=
    (if IPv4Header.proto h =? IPv4Header.PROTO_ICMP then of_outcome (find_interface l 0 (IPv4Header.dst h))
     else pure None) in
  match self with
  | Some i => handle_icmp i dgram
  | None => forward q dgram
  end.

(** [while (not queue.empty())] for interface [q]; routing never adds to a queue,
    so the length of the queue is enough fuel. *)
Fixpoint drain (fuel : nat) (q : Z) : M t unit :=
  let* queue := at_interface q (asks AsyncNetworkInterface.datagrams_out) in
  match queue with
  | [] => pure tt
  | d :: _ =>
      match fuel with
      | O => throw OutOfFuel
      | S fuel =>
          route_one_datagram q d ;;
          at_interface q (AsyncNetworkInterface._datagrams_out %= tail) ;;
          drain fuel q
      end
  end.

(** The interfaces from [q] on. *)
Fixpoint route_from (k : nat) (q : Z) : M t unit :=
  match k with
  | O => pure tt
  | S k =>
      let* queue := at_interface q (asks AsyncNetworkInterface.datagrams_out) in
      drain (length queue) q ;;
      route_from k (q + 1)
  end.

Definition route : M t unit :=
  let* l := asks _interfaces in
  route_from (length l) 0.

(** ** The invariant *)

(** A datagram the router can write, with its addresses in range. *)
Record routable (d : IPv4Datagram.t) : Prop := {
  routable_writable : NetworkInterface.writable d;
  routable_src : 0 <= IPv4Header.src (IPv4Datagram.header d) < 2 ^ 32;
  routable_dst : 0 <= IPv4Header.dst (IPv4Datagram.header d) < 2 ^ 32;
  routable_ttl : 0 <= IPv4Header.ttl (IPv4Datagram.header d) < 2 ^ 8;
  routable_size : len (BufferList.bytes (IPv4Datagram.payload d)) < 2 ^ 64
}.

Definition iface_wf (a : AsyncNetworkInterface.t) : Prop :=
  NetworkInterface.wf (AsyncNetworkInterface.base a) /\ Forall routable (AsyncNetworkInterface._datagrams_out a).

(** A route leads to an interface, and its next hop is an IPv4 address. *)
Definition route_wf (n : Z) (e : RouteEntry.t) : Prop :=
  0 <= interface_num e < n /\
  forall hop, next_hop e = Some hop -> exists ip, Address.ipv4_numeric hop = Ok ip.

Record wf (routes : list RouteEntry.t) (r : t) : Prop := {
  wf_interfaces : Forall iface_wf (_interfaces r);
  wf_nonempty : 0 < len (_interfaces r);
  wf_table : RoutingTrie.represents routes (_route_table r);
  wf_routes : Forall (route_wf (len (_interfaces r))) routes
}.

Definition queues (r : t) : list (list IPv4Datagram.t) := map AsyncNetworkInterface._datagrams_out (_interfaces r).

Definition set_interface (i : Z) (a : AsyncNetworkInterface.t) (r : t) : t :=
  setf _interfaces (zinsert i a (_interfaces r)) r.

Lemma zlookup_Forall {A} (P : A -> Prop) l i x : Forall P l -> zlookup l i = Some x -> P x.
Proof. unfold zlookup. case_decide; [| done]. intros Hl Hx. by eapply Forall_lookup_1. Qed.

Lemma wf_set_interface routes r i a : wf routes r -> iface_wf a -> wf routes (set_interface i a r).
Proof.
  intros [Hi Hne Ht Hr] Ha. unfold set_interface. split; simpl; rewrite ?len_zinsert; try done.
  by apply Forall_insert.
Qed.

(** Looking at an interface leaves the router as it is. *)
Lemma set_interface_same r i a : zlookup (_interfaces r) i = Some a -> set_interface i a r = r.
Proof.
  intros Ha. unfold set_interface, zinsert. rewrite list_insert_id; [by destruct r |].
  unfold zlookup in Ha. by case_decide.
Qed.

Lemma at_interface_asks {A} r i a (f : AsyncNetworkInterface.t -> A) :
  zlookup (_interfaces r) i = Some a -> at_interface i (asks f) r = (Ok (f a), r).
Proof.
  intros Ha. unfold at_interface, asks. rewrite Ha. f_equal. by apply set_interface_same.
Qed.

Lemma at_interface_modify {T} r i a (proj : AsyncNetworkInterface.t -> T) `{Setter _ _ proj} (f : T -> T) :
  zlookup (_interfaces r) i = Some a ->
  at_interface i (proj %= f) r = (Ok tt, set_interface i (upd proj f a) r).
Proof. intros Ha. unfold at_interface. by rewrite Ha. Qed.

(** The router after interface [i] was given a datagram for a next hop. *)
Definition sent_on (r : t) (i : Z) (d : IPv4Datagram.t) (hop : Address.t) (r' : t) : Prop :=
  exists a n' ip bl,
    zlookup (_interfaces r) i = Some a /\ Address.ipv4_numeric hop = Ok ip /\ IPv4Datagram.serialize d = Ok bl /\
    NetworkInterface.sends (AsyncNetworkInterface.base a) d hop ip bl n' /\
    r' = set_interface i (AsyncNetworkInterface.mk n' (AsyncNetworkInterface._datagrams_out a)) r.

Lemma at_interface_send routes r i d hop ip :
  wf routes r -> 0 <= i < len (_interfaces r) -> NetworkInterface.writable d -> Address.ipv4_numeric hop = Ok ip ->
  exists r', at_interface i (AsyncNetworkInterface.send_datagram d hop) r = (Ok tt, r') /\ sent_on r i d hop r'.
Proof.
  intros Hr Hi [bl Hd] Hip. destruct (zlookup_lt_is_Some _ _ Hi) as [a Ha].
  destruct (zlookup_Forall _ _ _ _ (wf_interfaces _ _ Hr) Ha) as [Hn Hq].
  destruct (NetworkInterface.send_datagram_sends _ d hop ip bl Hn Hip Hd) as (n' & E & Hs).
  eexists. split; [| exists a, n', ip, bl; eauto 10].
  unfold at_interface, AsyncNetworkInterface.send_datagram, zoom. rewrite Ha, E. by destruct a.
Qed.

(** Sending changes one interface, and no queue of received datagrams. *)
Lemma sent_on_wf routes r i d hop r' : wf routes r -> sent_on r i d hop r' -> wf routes r' /\ queues r' = queues r.
Proof.
  intros Hr (a & n' & ip & bl & Ha & Hip & Hd & Hs & ->).
  destruct (zlookup_Forall _ _ _ _ (wf_interfaces _ _ Hr) Ha) as [Hn Hq]. split.
  - apply wf_set_interface; [done |]. split; [| done]. simpl.
    exact (NetworkInterface.sends_wf _ _ _ _ _ _ Hn Hip Hd Hs).
  - unfold queues, set_interface, zinsert. simpl. rewrite list_fmap_insert. simpl.
    apply list_insert_id. rewrite list_lookup_fmap. unfold zlookup in Ha. case_decide; [| done]. by rewrite Ha.
Qed.

(** ** What happens to one datagram *)

(** The message to the router itself: an ICMP datagram for the address of
    interface [i]. *)
Definition for_interface (r : t) (d : IPv4Datagram.t) (i : Z) : Prop :=
  exists a, zlookup (_interfaces r) i = Some a /\
    Address.ipv4_numeric (AsyncNetworkInterface.ip_address a) = Ok (IPv4Header.dst (IPv4Datagram.header d)).

Definition not_for_router (r : t) (d : IPv4Datagram.t) : Prop :=
  IPv4Header.proto (IPv4Datagram.header d) <> IPv4Header.PROTO_ICMP \/ forall i, ~ for_interface r d i.

(** An ICMP error about [d] goes from interface [i] to the source of [d]: it quotes the
    header, of [4 * hlen] bytes, and the first 8 bytes of the payload of [d] when the
    header has no options.  (With options the code still takes 28 bytes, and the quote ends
    before the payload's first 8 bytes do: [quote_with_options].) *)
Definition reports (r : t) (i type : Z) (d : IPv4Datagram.t) (r' : t) : Prop :=
  let h := IPv4Datagram.header d in
  exists a my_ip bl quote bs,
    zlookup (_interfaces r) i = Some a /\ Address.ipv4_numeric (AsyncNetworkInterface.ip_address a) = Ok my_ip /\
    IPv4Datagram.serialize d = Ok bl /\
    (IPv4Header.hlen h = 5 -> quote = ztake (4 * IPv4Header.hlen h + 8) (BufferList.bytes bl)) /\
    ICMPMessage.serialize (ICMPMessage.mk type 0 0 0 0 quote) = Ok bs /\
    sent_on r i (icmp_datagram my_ip (IPv4Header.src h) bs) (Address.of_ip (IPv4Header.src h)) r'.

(** The datagram with one hop less to live. *)
Definition one_hop_less (d : IPv4Datagram.t) : IPv4Datagram.t :=
  let h := IPv4Datagram.header d in
  setf IPv4Datagram._header (setf IPv4Header.ttl (IPv4Header.ttl h - 1) h) d.

Definition hop_of (e : RouteEntry.t) (dst : Z) : Address.t :=
  match next_hop e with Some hop => hop | None => Address.of_ip dst end.

(** [d] waits at the front of the queue of interface [q] and is replaced there. *)
Definition with_front (r : t) (q : Z) (d' : IPv4Datagram.t) (r1 : t) : Prop :=
  exists a d rest, zlookup (_interfaces r) q = Some a /\ AsyncNetworkInterface._datagrams_out a = d :: rest /\
    r1 = set_interface q (setf AsyncNetworkInterface._datagrams_out (d' :: rest) a) r.

(** The whole of [route_one_datagram], against the linear scan of the routes. *)
Definition routed (routes : list RouteEntry.t) (r : t) (q : Z) (d : IPv4Datagram.t) (r' : t) : Prop :=
  let h := IPv4Datagram.header d in
  (exists i m res,
     IPv4Header.proto h = IPv4Header.PROTO_ICMP /\ for_interface r d i /\
     ICMPMessage.parse (Buffer.of_string (BufferList.bytes (IPv4Datagram.payload d))) ICMPMessage.default = Ok (res, m) /\
     if bool_decide (res = NoError) && (ICMPMessage.type m =? ICMPMessage.TYPE_ECHO_REQUEST) then
       exists bs, ICMPMessage.serialize (echo_reply m) = Ok bs /\
         sent_on r i (icmp_datagram (IPv4Header.dst h) (IPv4Header.src h) bs) (Address.of_ip (IPv4Header.src h)) r'
     else r' = r) \/
  (not_for_router r d /\
   match RoutingTrie.scan routes (IPv4Header.dst h) with
   | None => if _icmp_enabled r then reports r 0 ICMPMessage.TYPE_DESTINATION_UNREACHABLE d r' else r' = r
   | Some e =>
       if IPv4Header.ttl h <=? 1 then
         if _icmp_enabled r then reports r (interface_num e) ICMPMessage.TYPE_TIME_EXCEEDED d r' else r' = r
       else exists r1, with_front r q (one_hop_less d) r1 /\
         sent_on r1 (interface_num e) (one_hop_less d) (hop_of e (IPv4Header.dst h)) r'
   end).

Lemma find_interface_eq l i ip :
  Forall iface_wf l ->
  exists o, find_interface l i ip = Ok o /\
    match o with
    | Some j => exists a, i <= j /\ zlookup l (j - i) = Some a /\ Address.ipv4_numeric (AsyncNetworkInterface.ip_address a) = Ok ip
    | None => forall a, a ∈ l -> Address.ipv4_numeric (AsyncNetworkInterface.ip_address a) <> Ok ip
    end.
Proof.
  intros Hl. revert i. induction Hl as [|a l [Hn _] _ IH]; intros i; simpl.
  { exists None. split; [done |]. by intros a ?%not_elem_of_nil. }
  destruct (NetworkInterface.wf_ip _ Hn) as [ip0 E0].
  unfold AsyncNetworkInterface.ip_address, NetworkInterface.ip_address in *. rewrite E0. cbn [mbind outcome_bind].
  destruct (Z.eqb_spec ip ip0) as [-> | Hne].
  - exists (Some i). split; [done |]. exists a. rewrite Z.sub_diag. split; [lia | done].
  - destruct (IH (i + 1)) as (o & -> & Ho). exists o. split; [done |]. destruct o as [j|].
    + destruct Ho as (a' & Hj & Ha' & Ea'). exists a'. split; [lia |].
      rewrite zlookup_cons_pos by lia. by replace (j - i - 1) with (j - (i + 1)) by lia.
    + intros a' [-> | Ha']%elem_of_cons; [congruence | by apply Ho].
Qed.

Lemma icmp_datagram_writable src dst bs : len bs < 2 ^ 16 -> NetworkInterface.writable (icmp_datagram src dst bs).
Proof.
  intros Hl. pose proof (len_nonneg bs). apply IPv4Datagram.serialize_ok_iff. split_and!; [| done | by vm_compute].
  simpl. unfold BufferList.size, BufferList.of_buffer, IPv4Header.payload_length. simpl.
  unfold Buffer.size. rewrite Buffer.str_of_string. rewrite u64_small by lia.
  unfold IPv4Header.LENGTH. change (4 * 5) with 20. unfold u16. zarith.
Qed.

Lemma writable_size d :
  routable d -> len (BufferList.bytes (IPv4Datagram.payload d)) < 2 ^ 16.
Proof.
  intros [Hw _ _ _ Hs]. apply IPv4Datagram.serialize_ok_iff in Hw as (E & _). rewrite BufferList.size_bytes in E by done.
  unfold IPv4Datagram.payload. rewrite E. apply u16_range.
Qed.

Lemma one_hop_less_routable d :
  routable d -> 1 < IPv4Header.ttl (IPv4Datagram.header d) -> routable (one_hop_less d).
Proof.
  intros [Hw ? ? ? ?] Hlive. split; try done; [| simpl; lia]. apply IPv4Datagram.serialize_ok_iff in Hw. by apply IPv4Datagram.serialize_ok_iff.
Qed.

Section one_datagram.
Context (routes : list RouteEntry.t) (r : t) (d : IPv4Datagram.t).
Hypothesis Hr : wf routes r.
Hypothesis Hd : routable d.
Notation h := (IPv4Datagram.header d).

Lemma source_hop : Address.ipv4_numeric (Address.of_ip (IPv4Header.src h)) = Ok (IPv4Header.src h).
Proof. apply Address.ipv4_numeric_of_ip, Hd. Qed.

Lemma handle_icmp_eq i :
  0 <= i < len (_interfaces r) ->
  exists r' m res, handle_icmp i d r = (Ok tt, r') /\
    ICMPMessage.parse (Buffer.of_string (BufferList.bytes (IPv4Datagram.payload d))) ICMPMessage.default = Ok (res, m) /\
    if bool_decide (res = NoError) && (ICMPMessage.type m =? ICMPMessage.TYPE_ECHO_REQUEST) then
      exists bs, ICMPMessage.serialize (echo_reply m) = Ok bs /\
        sent_on r i (icmp_datagram (IPv4Header.dst h) (IPv4Header.src h) bs) (Address.of_ip (IPv4Header.src h)) r'
    else r' = r.
Proof.
  intros Hi. pose proof (writable_size d Hd) as Hs. set (pl := BufferList.bytes (IPv4Datagram.payload d)) in *.
  destruct (ICMPMessage.parse_any_buffer (Buffer.of_string pl) ICMPMessage.default) as (res & m & E & Hm).
  { apply Buffer.wf_of_string. lia. }
  unfold handle_icmp, bind, of_outcome. rewrite BufferList.concatenate_bytes. fold pl. rewrite E.
  destruct (decide (res = NoError)) as [-> | Hne].
  2:{ exists r, m, res. rewrite (bool_decide_true (res <> NoError)), (bool_decide_false (res = NoError)) by done. done. }
  rewrite (bool_decide_false (NoError <> NoError)) by (by intros []).
  destruct (ICMPMessage.type m =? ICMPMessage.TYPE_ECHO_REQUEST) eqn:Et.
  2:{ exists r, m, NoError. by rewrite Et, andb_false_r. }
  destruct (ICMPMessage.serialize_total (echo_reply m)) as (ck & Es & _). rewrite Es, Address.from_ipv4_numeric_eq.
  destruct (at_interface_send routes r i (icmp_datagram (IPv4Header.dst h) (IPv4Header.src h) (ICMPMessage.write (echo_reply m) ck))
    (Address.of_ip (IPv4Header.src h)) (IPv4Header.src h)) as (r' & Er & Hsent); [done | done | | apply source_hop |].
  { apply icmp_datagram_writable. rewrite ICMPMessage.len_write. simpl.
    destruct (Hm eq_refl) as (_ & _ & _ & _ & _ & Hl). rewrite Buffer.str_of_string in Hl.
    rewrite Hl by (unfold ICMPMessage.is_echo; by rewrite Et). lia. }
  rewrite Er. exists r', m, NoError. rewrite bool_decide_true, Et by done. simpl. eauto.
Qed.

Lemma send_icmp_eq type i :
  0 <= i < len (_interfaces r) ->
  exists r', send_icmp type 0 d i (Address.of_ip (IPv4Header.src h)) r = (Ok tt, r') /\ reports r i type d r'.
Proof.
  intros Hi. destruct (zlookup_lt_is_Some _ _ Hi) as [a Ha].
  destruct (zlookup_Forall _ _ _ _ (wf_interfaces _ _ Hr) Ha) as [Hn _].
  destruct (NetworkInterface.wf_ip _ Hn) as [my_ip Hmy]. destruct (routable_writable d Hd) as [bl Hbl].
  set (icmp := ICMPMessage.mk type 0 0 0 0 (ztake 28 (BufferList.bytes bl))).
  destruct (ICMPMessage.serialize_total icmp) as (ck & Es & _).
  destruct (at_interface_send routes r i (icmp_datagram my_ip (IPv4Header.src h) (ICMPMessage.write icmp ck))
    (Address.of_ip (IPv4Header.src h)) (IPv4Header.src h)) as (r' & Er & Hsent); [done | done | | apply source_hop |].
  { apply icmp_datagram_writable. rewrite ICMPMessage.len_write. simpl. rewrite len_ztake. lia. }
  exists r'. split.
  2:{ exists a, my_ip, bl, (ztake 28 (BufferList.bytes bl)). eexists. do 3 (split; [done |]). split; [by intros -> |].
      split; [exact Es | exact Hsent]. }
  unfold send_icmp, bind, of_outcome. rewrite Hbl, BufferList.concatenate_bytes.
  change (asks _interfaces r) with (Ok (_interfaces r), r). cbv beta iota zeta.
  rewrite (proj2 (Z.ltb_lt _ _)) by lia. cbv beta iota zeta. rewrite (at_interface_asks _ i a) by done.
  unfold AsyncNetworkInterface.ip_address, NetworkInterface.ip_address. rewrite Hmy.
  replace (ztake (Z.min (len (BufferList.bytes bl)) (IPv4Header.LENGTH + 8)) (BufferList.bytes bl))
    with (ztake 28 (BufferList.bytes bl)).
  2:{ change (IPv4Header.LENGTH + 8) with 28. destruct (Z.min_spec (len (BufferList.bytes bl)) 28) as [[? ->] | [? ->]]; [| done].
      by rewrite !ztake_ge by lia. }
  fold icmp. rewrite Es.
  exact Er.
Qed.

Lemma forward_eq q a rest :
  zlookup (_interfaces r) q = Some a -> AsyncNetworkInterface._datagrams_out a = d :: rest ->
  exists r', forward q d r = (Ok tt, r') /\
    match RoutingTrie.scan routes (IPv4Header.dst h) with
    | None => if _icmp_enabled r then reports r 0 ICMPMessage.TYPE_DESTINATION_UNREACHABLE d r' else r' = r
    | Some e =>
        if IPv4Header.ttl h <=? 1 then
          if _icmp_enabled r then reports r (interface_num e) ICMPMessage.TYPE_TIME_EXCEEDED d r' else r' = r
        else exists r1, with_front r q (one_hop_less d) r1 /\
          sent_on r1 (interface_num e) (one_hop_less d) (hop_of e (IPv4Header.dst h)) r'
    end.
Proof.
  intros Ha Hq. pose proof (routable_ttl d Hd) as Httl. unfold forward, bind, of_outcome, asks.
  rewrite (RoutingTrie.represents_match routes) by (apply Hr || apply Hd).
  destruct (RoutingTrie.scan routes (IPv4Header.dst h)) as [e|] eqn:Ee.
  2:{ destruct (_icmp_enabled r); [| by eauto]. rewrite Address.from_ipv4_numeric_eq.
      apply send_icmp_eq. pose proof (wf_nonempty _ _ Hr). lia. }
  assert (He : route_wf (len (_interfaces r)) e).
  { apply RoutingTrie.scan_elem in Ee. exact (proj1 (list.Forall_forall _ _) (wf_routes _ _ Hr) e Ee). }
  destruct He as [Hnum Hhop]. destruct (Z.leb_spec (IPv4Header.ttl h) 1) as [Hexp | Hlive].
  { destruct (_icmp_enabled r); [| by eauto]. rewrite Address.from_ipv4_numeric_eq. by apply send_icmp_eq. }
  rewrite u8_small by lia.
  change (setf IPv4Datagram._header (setf IPv4Header.ttl (IPv4Header.ttl h - 1) h) d) with (one_hop_less d).
  unfold set_front. rewrite (at_interface_modify _ _ a) by done.
  set (r1 := set_interface q _ r).
  assert (Hr1 : wf routes r1).
  { apply wf_set_interface; [done |]. destruct (zlookup_Forall _ _ _ _ (wf_interfaces _ _ Hr) Ha) as [Hn Hf].
    split; [done |]. simpl. rewrite Hq in *. inversion Hf; subst. constructor; [by apply one_hop_less_routable | done]. }
  assert (Hfront : with_front r q (one_hop_less d) r1).
  { exists a, d, rest. split; [done |]. split; [done |]. unfold r1. simpl. unfold AsyncNetworkInterface.set_datagrams_out.
    simpl. by rewrite Hq. }
  assert (Hsend : exists ip, Address.ipv4_numeric (hop_of e (IPv4Header.dst h)) = Ok ip).
  { unfold hop_of. destruct (next_hop e) as [hop|] eqn:Eh; [by apply Hhop |].
    eexists. apply Address.ipv4_numeric_of_ip, Hd. }
  destruct Hsend as [ip Hip].
  destruct (at_interface_send routes r1 (interface_num e) (one_hop_less d)
    (hop_of e (IPv4Header.dst h)) ip Hr1) as (r' & Er & Hs).
  { unfold r1. simpl. by rewrite len_zinsert. } { by apply one_hop_less_routable. } { exact Hip. }
  exists r'. split; [| by eauto]. unfold hop_of in Er. rewrite Address.from_ipv4_numeric_eq.
  by destruct (next_hop e).
Qed.

Lemma route_one_datagram_eq q a rest :
  zlookup (_interfaces r) q = Some a -> AsyncNetworkInterface._datagrams_out a = d :: rest ->
  exists r', route_one_datagram q d r = (Ok tt, r') /\ routed routes r q d r'.
Proof.
  intros Ha Hq. destruct (forward_eq q a rest Ha Hq) as (rf & Ef & Hf).
  unfold route_one_datagram, bind. change (asks _interfaces r) with (Ok (_interfaces r), r). cbv beta iota zeta.
  destruct (Z.eqb_spec (IPv4Header.proto h) IPv4Header.PROTO_ICMP) as [Ep | Ep].
  2:{ exists rf. split; [done |]. right. split; [by left | done]. }
  unfold of_outcome. destruct (find_interface_eq (_interfaces r) 0 (IPv4Header.dst h)) as ([i|] & -> & Hi); [apply Hr | |].
  - destruct Hi as (ai & _ & Hai & Eai). rewrite Z.sub_0_r in Hai.
    destruct (handle_icmp_eq i (zlookup_Some_range _ _ _ Hai)) as (r' & m & res & E & Em & Hres).
    exists r'. split; [done |]. left. exists i, m, res. split; [done |]. split; [by exists ai | done].
  - exists rf. split; [done |]. right. split; [| done]. right. intros i (ai & Hai & Eai).
    apply (Hi ai); [| done]. unfold zlookup in Hai. case_decide; [| done]. by eapply list_elem_of_lookup_2.
Qed.
End one_datagram.

(** The lengths of the queues: routing a datagram does not change them. *)
Definition lens (r : t) : list Z := map len (queues r).

Lemma reports_wf routes r i type d r' : wf routes r -> reports r i type d r' -> wf routes r' /\ lens r' = lens r.
Proof.
  intros Hr (a & my_ip & bl & quote & bs & _ & _ & _ & _ & _ & Hs). destruct (sent_on_wf _ _ _ _ _ _ Hr Hs) as [? Eq].
  split; [done |]. unfold lens. by rewrite Eq.
Qed.

Lemma zlookup_insert_id {A} (l : list A) i x : zlookup l i = Some x -> zinsert i x l = l.
Proof. intros Hx. apply list_insert_id. unfold zlookup in Hx. by case_decide. Qed.

Lemma zlookup_map {A B} (f : A -> B) l i x : zlookup l i = Some x -> zlookup (map f l) i = Some (f x).
Proof. unfold zlookup. case_decide; [| done]. intros Hx. rewrite list_lookup_fmap. by rewrite Hx. Qed.

Lemma lens_set_interface r i a :
  lens (set_interface i a r) = zinsert i (len (AsyncNetworkInterface._datagrams_out a)) (lens r).
Proof. unfold lens, queues, set_interface, zinsert. simpl. by rewrite !list_fmap_insert. Qed.

Lemma with_front_wf routes r q d d' rest a r1 :
  wf routes r -> zlookup (_interfaces r) q = Some a -> AsyncNetworkInterface._datagrams_out a = d :: rest ->
  routable d' -> with_front r q d' r1 -> wf routes r1 /\ lens r1 = lens r.
Proof.
  intros Hr Ha Hq Hd' (a0 & d0 & rest0 & Ha0 & Hq0 & ->).
  destruct (zlookup_Forall _ _ _ _ (wf_interfaces _ _ Hr) Ha0) as [Hn Hf]. split.
  - apply wf_set_interface; [done |]. split; [done |]. simpl. rewrite Hq0 in Hf. inversion Hf; subst. by constructor.
  - rewrite lens_set_interface. simpl. apply zlookup_insert_id.
    unfold lens, queues. erewrite zlookup_map; [| eapply zlookup_map, Ha0]. by rewrite Hq0.
Qed.

Lemma routed_wf routes r q d a rest r' :
  wf routes r -> zlookup (_interfaces r) q = Some a -> AsyncNetworkInterface._datagrams_out a = d :: rest ->
  routable d -> routed routes r q d r' -> wf routes r' /\ lens r' = lens r.
Proof.
  intros Hr Ha Hq Hd [(i & m & res & _ & _ & _ & Hres) | [_ Hres]].
  { destruct (_ && _); [| by subst]. destruct Hres as (bs & _ & Hs).
    destruct (sent_on_wf _ _ _ _ _ _ Hr Hs) as [? Eq]. split; [done |]. unfold lens. by rewrite Eq. }
  destruct (RoutingTrie.scan _ _) as [e|].
  2:{ destruct (_icmp_enabled r); [by eapply reports_wf | by subst]. }
  destruct (Z.leb_spec (IPv4Header.ttl (IPv4Datagram.header d)) 1) as [|Hlive].
  { destruct (_icmp_enabled r); [by eapply reports_wf | by subst]. }
  destruct Hres as (r1 & Hf & Hs).
  destruct (with_front_wf routes r q d (one_hop_less d) rest a r1) as [Hr1 El1]; try done.
  { by apply one_hop_less_routable. }
  destruct (sent_on_wf _ _ _ _ _ _ Hr1 Hs) as [? Eq]. split; [done |]. rewrite <- El1. unfold lens. by rewrite Eq.
Qed.

(** ** [route] *)

Lemma len_lens r : len (lens r) = len (_interfaces r).
Proof. unfold lens, queues, len. by rewrite !length_map. Qed.

(** Equal lengths: the queue of the same interface. *)
Lemma lens_lookup r r1 j a1 :
  lens r1 = lens r -> zlookup (_interfaces r1) j = Some a1 ->
  exists a, zlookup (_interfaces r) j = Some a /\
    len (AsyncNetworkInterface._datagrams_out a1) = len (AsyncNetworkInterface._datagrams_out a).
Proof.
  intros El Ha1. destruct (zlookup_lt_is_Some (_interfaces r) j) as [a Ha].
  { rewrite <- len_lens, <- El, len_lens. by eapply zlookup_Some_range. }
  exists a. split; [done |]. apply (zlookup_map AsyncNetworkInterface._datagrams_out), (zlookup_map len) in Ha, Ha1.
  change (zlookup (lens r) j = Some (len (AsyncNetworkInterface._datagrams_out a))) in Ha.
  change (zlookup (lens r1) j = Some (len (AsyncNetworkInterface._datagrams_out a1))) in Ha1.
  rewrite El in Ha1. congruence.
Qed.

Lemma drain_eq routes r q a :
  wf routes r -> zlookup (_interfaces r) q = Some a ->
  exists r', drain (length (AsyncNetworkInterface._datagrams_out a)) q r = (Ok tt, r') /\ wf routes r' /\
    lens r' = zinsert q 0 (lens r).
Proof.
  remember (length (AsyncNetworkInterface._datagrams_out a)) as n eqn:En. revert r a En.
  induction n as [|n IH]; intros r a En Hr Ha; cbn [drain]; unfold bind;
    rewrite (at_interface_asks _ _ a) by done; cbv beta iota;
    change (AsyncNetworkInterface.datagrams_out a) with (AsyncNetworkInterface._datagrams_out a);
    destruct (AsyncNetworkInterface._datagrams_out a) as [|d rest] eqn:Eq; try done.
  - exists r. split; [done |]. split; [done |]. symmetry. apply zlookup_insert_id.
    unfold lens, queues. erewrite zlookup_map; [| eapply zlookup_map, Ha]. by rewrite Eq.
  - destruct (zlookup_Forall _ _ _ _ (wf_interfaces _ _ Hr) Ha) as [_ Hf]. rewrite Eq in Hf.
    assert (Hd : routable d) by (by inversion Hf).
    destruct (route_one_datagram_eq routes r d Hr Hd q a rest Ha Eq) as (r1 & E1 & H1). rewrite E1.
    destruct (routed_wf routes r q d a rest r1 Hr Ha Eq Hd H1) as [Hr1 El1].
    destruct (zlookup_lt_is_Some (_interfaces r1) q) as [a1 Ha1].
    { rewrite <- len_lens, El1, len_lens. by eapply zlookup_Some_range. }
    rewrite (at_interface_modify _ _ a1) by done.
    set (a2 := upd AsyncNetworkInterface._datagrams_out tail a1). set (r2 := set_interface q a2 r1).
    destruct (lens_lookup r r1 q a1 El1 Ha1) as (a0 & Ha0 & Hlen1). rewrite Ha in Ha0. injection Ha0 as <-.
    rewrite Eq, len_cons in Hlen1.
    assert (Hr2 : wf routes r2).
    { apply wf_set_interface; [done |]. destruct (zlookup_Forall _ _ _ _ (wf_interfaces _ _ Hr1) Ha1) as [Hn1 Hf1].
      split; [done |]. simpl. destruct (AsyncNetworkInterface._datagrams_out a1); [done | by inversion Hf1]. }
    assert (Ha2 : zlookup (_interfaces r2) q = Some a2).
    { unfold r2, set_interface. simpl. apply zlookup_zinsert_eq. by eapply zlookup_Some_range. }
    destruct (IH r2 a2) as (r' & E' & Hr' & El'); [| done | done |].
    { simpl. unfold len in Hlen1. simpl in En. destruct (AsyncNetworkInterface._datagrams_out a1); simpl in *; lia. }
    exists r'. split; [done |]. split; [done |]. rewrite El'. unfold r2. rewrite lens_set_interface, El1.
    unfold zinsert. apply list_insert_insert_eq.
Qed.

Lemma drained_lens (l : list Z) q k :
  0 <= q < len l -> ztake (q + 1) (zinsert q 0 l) ++ replicate k 0 = ztake q l ++ replicate (S k) 0.
Proof.
  intros Hq. replace (ztake (q + 1) (zinsert q 0 l)) with (ztake q l ++ [0]); [by rewrite <- app_assoc |].
  unfold ztake, zinsert. replace (Z.to_nat (q + 1)) with (S (Z.to_nat q)) by lia. unfold len in Hq.
  rewrite (take_S_r _ _ 0); [by rewrite take_insert_ge |]. apply list_lookup_insert_eq. lia.
Qed.

Lemma route_from_eq routes k q r :
  wf routes r -> 0 <= q -> q + Z.of_nat k = len (_interfaces r) ->
  exists r', route_from k q r = (Ok tt, r') /\ wf routes r' /\ lens r' = ztake q (lens r) ++ replicate k 0.
Proof.
  revert q r. induction k as [|k IH]; intros q r Hr Hq Hk; cbn [route_from].
  { exists r. split; [done |]. split; [done |]. rewrite ztake_ge by (rewrite len_lens; lia). by rewrite app_nil_r. }
  destruct (zlookup_lt_is_Some (_interfaces r) q) as [a Ha]; [lia |]. unfold bind.
  rewrite (at_interface_asks _ _ a) by done. cbv beta iota.
  destruct (drain_eq routes r q a Hr Ha) as (r1 & E1 & Hr1 & El1).
  change (AsyncNetworkInterface.datagrams_out a) with (AsyncNetworkInterface._datagrams_out a). rewrite E1.
  destruct (IH (q + 1) r1) as (r' & E' & Hr' & El'); [done | lia | |].
  { rewrite <- len_lens, El1, len_zinsert, len_lens. lia. }
  exists r'. split; [done |]. split; [done |]. rewrite El', El1. apply drained_lens. rewrite len_lens. lia.
Qed.

Lemma no_datagrams_left r k :
  lens r = replicate k 0 -> Forall (fun a => AsyncNetworkInterface._datagrams_out a = []) (_interfaces r).
Proof.
  intros El. apply Forall_lookup. intros i a Ha.
  assert (Hl : lens r !! i = Some (len (AsyncNetworkInterface._datagrams_out a))).
  { unfold lens, queues. by rewrite !list_lookup_fmap, Ha. }
  rewrite El in Hl. apply lookup_replicate in Hl as [Hl _]. by apply len_nil_inv.
Qed.

Lemma route_returns routes r :
  wf routes r ->
  exists r', route r = (Ok tt, r') /\ wf routes r' /\
    Forall (fun a => AsyncNetworkInterface._datagrams_out a = []) (_interfaces r').
Proof.
  intros Hr. destruct (route_from_eq routes (length (_interfaces r)) 0 r Hr) as (r' & E & Hr' & El); [lia | done |].
  exists r'. split; [done |]. split; [done |]. rewrite ztake_nonpos in El by lia. by eapply no_datagrams_left.
Qed.

(** ** One datagram through the router *)

Lemma route_from_skip m k q r :
  (forall i a, q <= i < q + Z.of_nat m -> zlookup (_interfaces r) i = Some a -> AsyncNetworkInterface._datagrams_out a = []) ->
  0 <= q -> q + Z.of_nat m <= len (_interfaces r) -> route_from (m + k) q r = route_from k (q + Z.of_nat m) r.
Proof.
  revert q. induction m as [|m IH]; intros q He Hq Hm; [by rewrite Z.add_0_r |].
  change (S m + k)%nat with (S (m + k)). cbn [route_from]. destruct (zlookup_lt_is_Some (_interfaces r) q) as [a Ha]; [lia |].
  unfold bind. rewrite (at_interface_asks _ _ a) by done. cbv beta iota.
  change (AsyncNetworkInterface.datagrams_out a) with (AsyncNetworkInterface._datagrams_out a).
  assert (E : AsyncNetworkInterface._datagrams_out a = []) by (eapply He; [| exact Ha]; lia).
  rewrite E. cbn [length drain]. unfold bind. rewrite (at_interface_asks _ _ a) by done. cbv beta iota.
  change (AsyncNetworkInterface.datagrams_out a) with (AsyncNetworkInterface._datagrams_out a). rewrite E. unfold pure.
  rewrite IH; [by replace (q + 1 + Z.of_nat m) with (q + Z.of_nat (S m)) by lia | | lia | lia].
  intros i a' Hi. apply He. lia.
Qed.

(** With one datagram waiting, [route] is [route_one_datagram] and [pop]. *)
Lemma route_single routes r i a d :
  wf routes r -> zlookup (_interfaces r) i = Some a -> AsyncNetworkInterface._datagrams_out a = [d] ->
  (forall j b, j <> i -> zlookup (_interfaces r) j = Some b -> AsyncNetworkInterface._datagrams_out b = []) ->
  exists r1 a1, routed routes r i d r1 /\ zlookup (_interfaces r1) i = Some a1 /\
    route r = (Ok tt, set_interface i (setf AsyncNetworkInterface._datagrams_out [] a1) r1).
Proof.
  intros Hr Ha Eq Hother. pose proof (zlookup_Some_range _ _ _ Ha) as Hi.
  destruct (zlookup_Forall _ _ _ _ (wf_interfaces _ _ Hr) Ha) as [_ Hf]. rewrite Eq in Hf. assert (Hd : routable d) by (by inversion Hf).
  destruct (route_one_datagram_eq routes r d Hr Hd i a [] Ha Eq) as (r1 & E1 & H1).
  destruct (routed_wf routes r i d a [] r1 Hr Ha Eq Hd H1) as [Hr1 El1].
  assert (Hlen1 : len (_interfaces r1) = len (_interfaces r)) by (by rewrite <- len_lens, El1, len_lens).
  destruct (zlookup_lt_is_Some (_interfaces r1) i) as [a1 Ha1]; [by rewrite Hlen1 |]. exists r1, a1. split; [done |]. split; [done |].
  pose proof (fun j b1 => lens_lookup r r1 j b1 El1) as Hq.
  destruct (Hq i a1 Ha1) as (a0 & Ha0 & Hl). rewrite Ha in Ha0. injection Ha0 as <-. rewrite Eq in Hl.
  assert (Et : tail (AsyncNetworkInterface._datagrams_out a1) = []).
  { destruct (AsyncNetworkInterface._datagrams_out a1) as [|x [|]]; try done. rewrite !len_cons in Hl. pose proof (len_nonneg l). change (len []) with 0 in *. lia. }
  set (a2 := setf AsyncNetworkInterface._datagrams_out [] a1). set (r2 := set_interface i a2 r1).
  assert (Ha2 : zlookup (_interfaces r2) i = Some a2) by (simpl; apply zlookup_zinsert_eq; by rewrite Hlen1).
  assert (Eidle : route_from (Z.to_nat (len (_interfaces r) - 1 - i)) (i + 1) r2 = (Ok tt, r2)).
  { rewrite <- (Nat.add_0_r (Z.to_nat _)), route_from_skip; [done | | lia | simpl; rewrite len_zinsert; lia].
    intros j b Hj Hb. simpl in Hb. rewrite zlookup_zinsert_ne in Hb by lia. destruct (Hq j b Hb) as (b0 & Hb0 & Hlb).
    rewrite (Hother j b0) in Hlb by (done || lia). by apply len_nil_inv. }
  unfold route, bind, asks. set (n := length (_interfaces r)).
  replace n with (Z.to_nat i + S (Z.to_nat (len (_interfaces r) - 1 - i)))%nat by (unfold n, len in *; lia).
  rewrite route_from_skip; [| intros j b Hj Hb; eapply Hother; [| exact Hb]; lia | lia | lia]. rewrite Z.add_0_l, Z2Nat.id by lia.
  cbn [route_from]. unfold bind. rewrite (at_interface_asks _ _ a) by done. cbv beta iota.
  change (AsyncNetworkInterface.datagrams_out a) with (AsyncNetworkInterface._datagrams_out a). rewrite Eq. cbn [length drain].
  unfold bind. rewrite (at_interface_asks _ _ a) by done. cbv beta iota.
  change (AsyncNetworkInterface.datagrams_out a) with (AsyncNetworkInterface._datagrams_out a). rewrite Eq. unfold bind. rewrite E1, (at_interface_modify _ _ a1) by done.
  replace (set_interface i (upd AsyncNetworkInterface._datagrams_out tail a1) r1) with r2
    by (unfold r2, a2; simpl; unfold AsyncNetworkInterface.set_datagrams_out; by rewrite Et).
  rewrite (at_interface_asks _ _ a2) by done. cbn [AsyncNetworkInterface.datagrams_out AsyncNetworkInterface._datagrams_out a2 setf upd].
  exact Eidle.
Qed.
End Router.

(** ** Properties *)

(** The routes of a list, added one after the other. *)
Fixpoint add_routes (routes : list RouteEntry.t) (root : RoutingTrie.TrieNode) : outcome RoutingTrie.TrieNode :=
  match routes with
  | [] => Ok root
  | e :: routes => root' ← RoutingTrie.insert e root; add_routes routes root'
  end.

Lemma add_routes_represents routes added root :
  Forall RoutingTrie.entry_wf routes -> RoutingTrie.represents added root ->
  exists root', add_routes routes root = Ok root' /\ RoutingTrie.represents (added ++ routes) root'.
Proof.
  intros Hr. revert added root. induction Hr as [|e routes He _ IH]; intros added root Hroot; simpl.
  { exists root. by rewrite app_nil_r. }
  destruct (RoutingTrie.represents_insert added root e Hroot He) as (root1 & E1 & H1). rewrite E1. cbn [mbind outcome_bind].
  destruct (IH _ _ H1) as (root' & E' & H'). exists root'. rewrite <- app_assoc in H'. done.
Qed.

(** [C25] The routing trie is a longest-prefix match: whatever routes are added
    and in whatever order, the lookup gives what a linear scan of all the routes
    gives, which is a matching route of maximal length, the last one added of
    that prefix, or nothing when no route matches. *)
Theorem routing_table_correct routes dst :
  Forall RoutingTrie.entry_wf routes -> 0 <= dst < 2 ^ 32 ->
  exists root, add_routes routes RoutingTrie.new = Ok root /\
    RoutingTrie.longest_prefix_match dst root = Ok (RoutingTrie.scan routes dst) /\
    match RoutingTrie.scan routes dst with
    | None => forall e, e ∈ routes -> RoutingTrie.matches dst e = false
    | Some b => b ∈ routes /\ RoutingTrie.matches dst b = true /\
        forall e, e ∈ routes -> RoutingTrie.matches dst e = true -> prefix_length e <= prefix_length b
    end.
Proof.
  intros Hr Hd. destruct (add_routes_represents routes [] RoutingTrie.new Hr RoutingTrie.represents_new) as (root & E & Hroot).
  exists root. split; [done |]. split; [by apply RoutingTrie.represents_match |].
  pose proof (RoutingTrie.scan_longest routes dst) as Hl. pose proof (RoutingTrie.scan_elem routes dst) as He.
  destruct (RoutingTrie.scan routes dst) as [b|]; [| done]. destruct Hl. auto.
Qed.

(** [C26] One datagram, on every branch, at a router whose waiting datagrams can all be
    written ([Router.wf]: [serialize] returns, as it does for IP version 4, a header of
    at least five words and a true length field): an echo request to one of the router's
    addresses is answered from that interface and other ICMP messages to it are
    dropped; without a route, or with its time to live used up, the datagram is
    reported to its source if ICMP is enabled (quoting, for a header without options, the
    header and the first 8 bytes of the payload), and dropped; otherwise it leaves,
    with one hop less to live, by the interface of the longest match, for the
    next hop of that route or for its destination.  Under this condition no branch
    throws and the router keeps it; what a datagram that cannot be written does to the
    router is [router_stuck]. *)
Theorem route_one_datagram_correct routes r q a d rest :
  Router.wf routes r -> zlookup (Router._interfaces r) q = Some a ->
  AsyncNetworkInterface._datagrams_out a = d :: rest ->
  exists r', Router.route_one_datagram q d r = (Ok tt, r') /\ Router.routed routes r q d r' /\ Router.wf routes r'.
Proof.
  intros Hr Ha Hq. destruct (Router.zlookup_Forall _ _ _ _ (Router.wf_interfaces _ _ Hr) Ha) as [_ Hf]. rewrite Hq in Hf.
  assert (Hd : Router.routable d) by (by inversion Hf).
  destruct (Router.route_one_datagram_eq routes r d Hr Hd q a rest Ha Hq) as (r' & E & H).
  exists r'. split; [done |]. split; [done |]. by destruct (Router.routed_wf routes r q d a rest r').
Qed.

(** ** Witnesses: a router between two networks *)

Definition sample_routes : list RouteEntry.t :=
  [RouteEntry.mk 0x0a000000 8 None 0; RouteEntry.mk 0x0a010000 16 (Some (Address.of_ip 0x0a000005)) 1;
   RouteEntry.mk 0 0 (Some (Address.of_ip 0x0a000009)) 0].

Lemma sample_routes_wf : Forall RoutingTrie.entry_wf sample_routes.
Proof. repeat constructor; by vm_compute. Qed.

Lemma routing_table_correct_witness :
  exists root, add_routes sample_routes RoutingTrie.new = Ok root /\
    RoutingTrie.longest_prefix_match 0x0a010203 root = Ok (RoutingTrie.scan sample_routes 0x0a010203) /\
    match RoutingTrie.scan sample_routes 0x0a010203 with
    | None => forall e, e ∈ sample_routes -> RoutingTrie.matches 0x0a010203 e = false
    | Some b => b ∈ sample_routes /\ RoutingTrie.matches 0x0a010203 b = true /\
        forall e, e ∈ sample_routes -> RoutingTrie.matches 0x0a010203 e = true -> prefix_length e <= prefix_length b
    end.
Proof. apply routing_table_correct; [apply sample_routes_wf | lia]. Defined.

Definition sample_root : RoutingTrie.TrieNode :=
  match add_routes sample_routes RoutingTrie.new with Ok root => root | Throw _ => RoutingTrie.Null end.

Definition sample_interface : AsyncNetworkInterface.t := AsyncNetworkInterface.mk host_a [sample_datagram].
Definition sample_router : Router.t :=
  Router.mk [sample_interface; AsyncNetworkInterface.of_interface host_b] sample_root true.

Lemma sample_root_represents : RoutingTrie.represents sample_routes sample_root.
Proof.
  destruct (add_routes_represents sample_routes [] RoutingTrie.new sample_routes_wf RoutingTrie.represents_new)
    as (root & E & H). unfold sample_root. by rewrite E.
Qed.

Lemma sample_datagram_routable : Router.routable sample_datagram.
Proof. split; [exists sample_payload; apply sample_serialized | by vm_compute ..]. Qed.

Lemma sample_router_wf : Router.wf sample_routes sample_router.
Proof.
  split; [| done | apply sample_root_represents |].
  - constructor; [split; [apply host_a_wf | constructor; [apply sample_datagram_routable | constructor]] |].
    constructor; [split; [apply host_b_wf | constructor] | constructor].
  - constructor; [split; [by vm_compute | done] |].
    do 2 (constructor; [split; [by vm_compute | intros hop [= <-]; by eexists] |]). constructor.
Qed.

Lemma route_one_datagram_correct_witness :
  exists r', Router.route_one_datagram 0 sample_datagram sample_router = (Ok tt, r') /\
    Router.routed sample_routes sample_router 0 sample_datagram r' /\ Router.wf sample_routes r'.
Proof.
  apply (route_one_datagram_correct sample_routes sample_router 0 sample_interface sample_datagram []);
    [apply sample_router_wf | reflexivity | reflexivity].
Defined.

(** ** A router that stops

    A datagram of another IP version is accepted by the parser and queued; with
    its time to live used up the router wants to quote it in an ICMP error,
    [serialize] throws, and the datagram is still at the front of the queue: so
    does every later call of [route]. *)

Definition poison_bytes : list byte :=
  [x65; x00; x00; x15; x00; x00; x00; x00; x01; x06; x00; x00; x0a; x00; x00; x01; x0a; x00; x00; x02; x61].
Definition poison : IPv4Datagram.t :=
  IPv4Datagram.mk (IPv4Header.mk 6 5 0 21 0 false false 0 1 6 0 0x0a000001 0x0a000002) [Buffer.mk (Some poison_bytes) 20].
Definition poison_frame : EthernetFrame.t :=
  EthernetFrame.mk (EthernetHeader.mk mac_a mac_b EthernetHeader.TYPE_IPv4) [Buffer.of_string poison_bytes].
Definition stuck_router : Router.t := Router.mk [AsyncNetworkInterface.mk host_a [poison]] sample_root true.

Lemma router_stuck :
  AsyncNetworkInterface.recv_frame poison_frame (AsyncNetworkInterface.of_interface host_a)
    = (Ok tt, AsyncNetworkInterface.mk host_a [poison]) /\
  Router.route stuck_router = (Throw (Runtime_error "wrong IP version"), stuck_router).
Proof. split; vm_compute; reflexivity. Qed.

(** ** A quote that is too short

    The header of this datagram is six words long.  The ICMP error about it, which waits
    for the Ethernet address of its source, quotes 28 bytes: the header and four bytes of
    the payload instead of eight. *)

Definition optioned : IPv4Datagram.t :=
  IPv4Datagram.mk (IPv4Header.mk 4 6 0 32 0 false false 0 1 6 0 0x0a000007 0x0a000002) [Buffer.of_string (replicate 8 x61)].
Definition optioned_router : Router.t := Router.mk [AsyncNetworkInterface.mk host_a [optioned]] sample_root true.

Definition errors_for (ip : Z) (r : Router.t) : list (list byte) :=
  match zlookup (Router._interfaces r) 0 with
  | Some a =>
      match NetworkInterface._waiting_internet_datagrams (AsyncNetworkInterface.base a) !! ip with
      | Some l => map (fun p => BufferList.bytes (IPv4Datagram.payload p.2)) l
      | None => []
      end
  | None => []
  end.

Lemma quote_with_options :
  map len (errors_for 0x0a000007 (snd (Router.route optioned_router))) = [8 + (24 + 4)].
Proof. vm_compute. reflexivity. Qed.
