(* ===== verification/file_descriptor.v ===== *)
(** * util/file_descriptor, util/socket: file descriptors and the kernel

    The operating system is the class [Kernel]: every system call the program makes
    is a function of it that returns the call's return value, [errno] and the data
    it delivers, and leaves another kernel state.  Nothing is assumed of them: the
    theorems hold for every kernel, so for every schedule of input, every partial
    read or write and every error.

    A [FileDescriptor] is a [shared_ptr] to an [FDWrapper]; the wrappers live in a
    store ([Sys]) and a [FileDescriptor] is an index into it, so that the copies made
    by [duplicate] share their flags and counts, as the event loop needs.  [trace]
    lists the data that crossed the kernel boundary; no operation looks at it. *)

From S2P Require Import prelude buffer parser address.

(** The value a system call returns, and [errno] after it. *)
Record sysret : Type := mk_sysret { rv : Z; errno : Z }.

(** One entry of [poll]'s array. *)
Record pollfd : Type := mk_pollfd { fd : Z; events : Z; revents : Z }.

(** [struct ifreq]: the members the program uses. *)
Record ifreq : Type := mk_ifreq { ifr_name : list byte; ifr_flags : Z }.

Class Kernel (K : Type) : Type := {
  sys_read : Z -> Z -> K -> sysret * list byte * K;
  sys_writev : Z -> list (list byte * Z) -> K -> sysret * K;
  sys_close : Z -> K -> sysret * K;
  sys_fcntl : Z -> Z -> Z -> K -> sysret * K;
  sys_shutdown : Z -> Z -> K -> sysret * K;
  (** data, source address, length of the address *)
  sys_recvfrom : Z -> Z -> Z -> K -> sysret * (list byte * list byte * Z) * K;
  (** destination (if any) *)
  sys_sendmsg : Z -> option Address.t -> list (list byte * Z) -> K -> sysret * K;
  (** the [revents] of the entries *)
  sys_poll : list pollfd -> Z -> K -> sysret * list Z * K;
  (** the steady clock, in milliseconds since the program started *)
  sys_clock : K -> Z * K;
  sys_socket : Z -> Z -> K -> sysret * K;
  (** the two descriptors of the pair *)
  sys_socketpair : Z -> Z -> K -> sysret * (Z * Z) * K;
  (** the value of an option, and the length it has *)
  sys_getsockopt : Z -> Z -> Z -> K -> sysret * (Z * Z) * K;
  sys_setsockopt : Z -> Z -> Z -> Z -> K -> sysret * K;
  (** the address, and its length *)
  sys_getsockname : Z -> K -> sysret * (list byte * Z) * K;
  sys_getpeername : Z -> K -> sysret * (list byte * Z) * K;
  sys_bind : Z -> Address.t -> K -> sysret * K;
  sys_connect : Z -> Address.t -> K -> sysret * K;
  sys_listen : Z -> Z -> K -> sysret * K;
  sys_accept : Z -> K -> sysret * K;
  (** path and flags *)
  sys_open : string -> Z -> K -> sysret * K;
  (** a request about an interface *)
  sys_ioctl : Z -> Z -> ifreq -> K -> sysret * K
}.

(** [SystemCall]: the return value is narrowed to [int]. *)
Definition SystemCall (attempt : string) (r : sysret) (errno_mask : Z) : outcome Z :=
  let return_value := i32 (rv r) in
  if (0 <=? return_value) || (errno r =? errno_mask) then Ok return_value
  else Throw (Tagged_error attempt (errno r)).

(** A transfer of Linux moves at most [0x7ffff000] bytes, and an error is [-1]. *)
Class LinuxIO (K : Type) `{Kernel K} : Prop := {
  writev_max fd iov k : -1 <= rv (fst (sys_writev fd iov k)) <= 0x7ffff000
}.

Module FDWrapper.
Record t : Type := mk {
  _fd : Z;
  _eof : bool;
  _closed : bool;
  _read_count : Z;
  _write_count : Z
}.
Definition eta (w : t) : t := mk (_fd w) (_eof w) (_closed w) (_read_count w) (_write_count w).
#[global] Instance set_eof : Setter _eof := ltac:(derive_setter eta _eof).
#[global] Instance set_closed : Setter _closed := ltac:(derive_setter eta _closed).
#[global] Instance set_read_count : Setter _read_count := ltac:(derive_setter eta _read_count).
#[global] Instance set_write_count : Setter _write_count := ltac:(derive_setter eta _write_count).

Definition new (fd : Z) : outcome t :=
  if fd <? 0 then Throw (Runtime_error ("invalid fd number:" +:+ "-" +:+ std_to_string (- fd))) else Ok (mk fd false false 0 0).
End FDWrapper.

(** Data that crossed the kernel boundary. *)
Inductive io : Type :=
| Got (h : nat) (data : list byte)                     (** [read] returned [data] *)
| Put (h : nat) (data : list byte)                     (** [writev] accepted [data] *)
| Received (h : nat) (source : Address.t) (data : list byte)
| Sent (h : nat) (dst : option Address.t) (data : list byte)
| Shut (h : nat) (how : Z).

Definition io_handle (e : io) : nat :=
  match e with Got h _ | Put h _ | Received h _ _ | Sent h _ _ | Shut h _ => h end.

Module Sys.
Section sys.
Context {K : Type}.

Record t : Type := mk {
  wrappers : list FDWrapper.t;
  kernel : K;
  trace : list io
}.
Definition eta (s : t) : t := mk (wrappers s) (kernel s) (trace s).
#[global] Instance set_wrappers : Setter wrappers := ltac:(derive_setter eta wrappers).
#[global] Instance set_kernel : Setter kernel := ltac:(derive_setter eta kernel).
#[global] Instance set_trace : Setter trace := ltac:(derive_setter eta trace).

(** Run a system call. *)
Definition call {A} (f : K -> A * K) : M t A := fun s =>
  let '(a, k) := f (kernel s) in (Ok a, setf kernel k s).

Definition record (e : io) : M t unit := trace %= (fun l => l ++ [e]).

(** [*_internal_fd] *)
Definition wrapper (h : nat) : M t FDWrapper.t := let* s := get in or_ub (wrappers s !! h).
Definition update (h : nat) (f : FDWrapper.t -> FDWrapper.t) : M t unit :=
  let* w := wrapper h in wrappers %= <[h := f w]>.
End sys.
Arguments t K : clear implicits.
End Sys.

Module FileDescriptor.
Section file_descriptor.
Context {K : Type} `{Kernel K}.

Definition O_NONBLOCK : Z := 2048.
Definition F_GETFL : Z := 3.
Definition F_SETFL : Z := 4.

(** [FileDescriptor(const int fd)] *)
Definition new (fd : Z) : M (Sys.t K) nat :=
  let* w := of_outcome (FDWrapper.new fd) in
  let* h := asks (fun s => length (Sys.wrappers s)) in
  Sys.wrappers %= (fun l => l ++ [w]) ;;
  pure h.

(** [duplicate]: another handle on the same wrapper. *)
Definition duplicate (h : nat) : nat := h.

Definition fd_num (h : nat) : M (Sys.t K) Z := let* w := Sys.wrapper h in pure (FDWrapper._fd w).
Definition eof (h : nat) : M (Sys.t K) bool := let* w := Sys.wrapper h in pure (FDWrapper._eof w).
Definition closed (h : nat) : M (Sys.t K) bool := let* w := Sys.wrapper h in pure (FDWrapper._closed w).
Definition read_count (h : nat) : M (Sys.t K) Z := let* w := Sys.wrapper h in pure (FDWrapper._read_count w).
Definition write_count (h : nat) : M (Sys.t K) Z := let* w := Sys.wrapper h in pure (FDWrapper._write_count w).

Definition register_read (h : nat) : M (Sys.t K) unit :=
  Sys.update h (upd FDWrapper._read_count (fun n => u32 (n + 1))).
Definition register_write (h : nat) : M (Sys.t K) unit :=
  Sys.update h (upd FDWrapper._write_count (fun n => u32 (n + 1))).

Definition close (h : nat) : M (Sys.t K) unit :=
  let* fd := fd_num h in
  let* r := Sys.call (sys_close fd) in
  let* _ := of_outcome (SystemCall "close" r 0) in
  Sys.update h (fun w => setf FDWrapper._eof true (setf FDWrapper._closed true w)).

Definition BUFFER_SIZE : Z := 1024 * 1024.

Definition read (h : nat) (limit : Z) : M (Sys.t K) (list byte) :=
  let size_to_read := Z.min BUFFER_SIZE limit in
  let* fd := fd_num h in
  let* (r, data) := Sys.call (sys_read fd size_to_read) in
  let* bytes_read := of_outcome (SystemCall "read" r 0) in
  when ((0 <? limit) && (bytes_read =? 0)) (Sys.update h (setf FDWrapper._eof true)) ;;
  if size_to_read <? bytes_read then throw (Runtime_error "read() read more than requested")
  else if bytes_read <? 0 then throw Length_error
  else
    let str := resize bytes_read data in
    Sys.record (Got h str) ;;
    register_read h ;;
    pure str.

(** The body of [write]'s loop: what is left, and how much was written. *)
Definition write_once (h : nat) (buffer : BufferViewList.t) : M (Sys.t K) (BufferViewList.t * Z) :=
  let* fd := fd_num h in
  let* r := Sys.call (sys_writev fd (BufferViewList.as_iovecs buffer)) in
  let* bytes_written := of_outcome (SystemCall "writev" r 0) in
  if (bytes_written =? 0) && negb (BufferViewList.size buffer =? 0) then
    throw (Runtime_error "write returned 0 given non-empty input buffer")
  else if BufferViewList.size buffer <? bytes_written then
    throw (Runtime_error "write wrote more than length of input buffer")
  else
    Sys.record (Put h (ztake (rv r) (mjoin buffer))) ;;
    register_write h ;;
    let* rest := of_outcome (BufferViewList.remove_prefix (u64 bytes_written) buffer) in
    pure (rest, bytes_written).

(** [do { ... } while (write_all and buffer.size())] *)
Fixpoint write_loop (fuel : nat) (h : nat) (write_all : bool) (buffer : BufferViewList.t) (total : Z)
    : M (Sys.t K) Z :=
  match fuel with
  | O => throw OutOfFuel
  | S fuel =>
      let* (rest, n) := write_once h buffer in
      let total := u64 (total + n) in
      if write_all && to_bool (BufferViewList.size rest) then write_loop fuel h write_all rest total
      else pure total
  end.

(** Every turn but the last writes at least one byte. *)
Definition write (h : nat) (buffer : BufferViewList.t) (write_all : bool) : M (Sys.t K) Z :=
  write_loop (S (length (mjoin buffer))) h write_all buffer 0.

Definition set_blocking (h : nat) (blocking_state : bool) : M (Sys.t K) unit :=
  let* fd := fd_num h in
  let* r := Sys.call (sys_fcntl fd F_GETFL 0) in
  let* flags := of_outcome (SystemCall "fcntl" r 0) in
  let flags := if blocking_state then Z.lxor flags (Z.land flags O_NONBLOCK) else Z.lor flags O_NONBLOCK in
  let* r := Sys.call (sys_fcntl fd F_SETFL flags) in
  let* _ := of_outcome (SystemCall "fcntl" r 0) in
  pure tt.

(** ** Specifications

    [at_fd s h w]: the handle [h] refers to the wrapper [w]. *)

Definition at_fd (s : Sys.t K) (h : nat) (w : FDWrapper.t) : Prop := Sys.wrappers s !! h = Some w.

(** The failures that are never the program's own fault: errors the kernel or the
    resolver report, and the checks of what they return.  A [read] that returns a negative
    count without an [errno] makes [resize] throw, such a [writev] makes [remove_prefix]
    throw, and a port from the resolver that is no number makes [stoi] throw. *)
Definition io_errors : list string :=
  ["read() read more than requested"; "write returned 0 given non-empty input buffer";
   "write wrote more than length of input buffer"; "recvfrom (oversized datagram)";
   "datagram payload too big for sendmsg()"; "invalid sockaddr size"].
Definition io_error (e : exn) : Prop :=
  match e with
  | Tagged_error _ _ | Length_error => True
  | Out_of_range what => what = "BufferListView::remove_prefix" \/ what = "stoi"
  | Invalid_argument what => what = "stoi"
  | Runtime_error what => Is_true (existsb (String.eqb what) io_errors)
  | _ => False
  end.

Lemma wrapper_wp h w (Q : FDWrapper.t -> Sys.t K -> Prop) E s : at_fd s h w -> Q w s -> wpe (Sys.wrapper h) Q E s.
Proof. intros Hw HQ. unfold Sys.wrapper. wp_steps. by eapply wp_or_ub. Qed.

Lemma fd_num_wp h w (Q : Z -> Sys.t K -> Prop) E s : at_fd s h w -> Q (FDWrapper._fd w) s -> wpe (fd_num h) Q E s.
Proof. intros Hw HQ. unfold fd_num. wp_step. by eapply wrapper_wp. Qed.

Lemma eof_wp h w (Q : bool -> Sys.t K -> Prop) E s : at_fd s h w -> Q (FDWrapper._eof w) s -> wpe (eof h) Q E s.
Proof. intros Hw HQ. unfold eof. wp_step. by eapply wrapper_wp. Qed.

Lemma update_wp h w f (Q : unit -> Sys.t K -> Prop) E s :
  at_fd s h w -> Q tt (upd Sys.wrappers <[h := f w]> s) -> wpe (Sys.update h f) Q E s.
Proof. intros Hw HQ. unfold Sys.update. wp_step. by eapply wrapper_wp. Qed.

Lemma at_fd_update s h w w' : at_fd s h w -> at_fd (upd Sys.wrappers <[h := w']> s) h w'.
Proof. intros Hw. apply list_lookup_insert_eq. by apply lookup_lt_Some in Hw. Qed.

Lemma at_fd_id s h w : at_fd s h w -> upd Sys.wrappers <[h := w]> s = s.
Proof.
  intros Hw. destruct s. unfold at_fd in Hw. cbv [upd Sys.set_wrappers Sys.wrappers Sys.kernel Sys.trace] in *.
  f_equal. by apply list_insert_id.
Qed.

(** From [s] to [s'] nothing happened on any other handle than [h]. *)
Record touches (h : nat) (s s' : Sys.t K) : Prop := {
  touch_others h' : h' <> h -> Sys.wrappers s' !! h' = Sys.wrappers s !! h';
  touch_own : is_Some (Sys.wrappers s !! h) -> is_Some (Sys.wrappers s' !! h);
  touch_trace : exists tr, Sys.trace s' = Sys.trace s ++ tr /\ Forall (fun e => io_handle e = h) tr
}.

#[global] Instance touches_preorder h : PreOrder (touches h).
Proof.
  split.
  - intros s. split; [done | done |]. exists []. by rewrite app_nil_r.
  - intros s1 s2 s3 [A1 B1 (tr1 & E1 & F1)] [A2 B2 (tr2 & E2 & F2)]. split.
    + intros h' Hne. by rewrite A2, A1.
    + auto.
    + exists (tr1 ++ tr2). rewrite E2, E1, <- app_assoc. split; [done |]. by apply Forall_app.
Qed.

Lemma touches_length h s s' :
  touches h s s' -> is_Some (Sys.wrappers s !! h) -> length (Sys.wrappers s') = length (Sys.wrappers s).
Proof.
  intros [Hoth Hown _] Hs. specialize (Hown Hs).
  assert (Hsame : forall i, is_Some (Sys.wrappers s' !! i) <-> is_Some (Sys.wrappers s !! i)).
  { intros i. destruct (decide (i = h)) as [-> |]; [done | by rewrite Hoth]. }
  setoid_rewrite lookup_lt_is_Some in Hsame. apply Nat.le_antisymm; apply Nat.nlt_ge; intros Hlt;
    [apply (Hsame (length (Sys.wrappers s))) in Hlt | apply (Hsame (length (Sys.wrappers s'))) in Hlt]; lia.
Qed.

Lemma touches_step h w' s k tr :
  Forall (fun e => io_handle e = h) tr ->
  touches h s (Sys.mk (<[h := w']> (Sys.wrappers s)) k (Sys.trace s ++ tr)).
Proof.
  intros Htr. split; simpl.
  - intros h' Hne. by rewrite list_lookup_insert_ne.
  - intros Hs. apply lookup_lt_is_Some. rewrite length_insert. by apply lookup_lt_is_Some.
  - by exists tr.
Qed.

Lemma at_fd_step h w w' s k tr :
  at_fd s h w -> at_fd (Sys.mk (<[h := w']> (Sys.wrappers s)) k tr) h w'.
Proof. intros Hw. apply list_lookup_insert_eq. by apply lookup_lt_Some in Hw. Qed.

Lemma is_Some_insert (ws : list FDWrapper.t) h w h' : is_Some (ws !! h') -> is_Some (<[h := w]> ws !! h').
Proof. intros Hs. apply lookup_lt_is_Some. rewrite length_insert. by apply lookup_lt_is_Some. Qed.

(** A system call changes the kernel alone. *)
Lemma call_wp {A} (f : K -> A * K) (Q : A -> Sys.t K -> Prop) E s :
  (forall k, (f (Sys.kernel s)).2 = k -> Q (f (Sys.kernel s)).1 (setf Sys.kernel k s)) -> wpe (Sys.call f) Q E s.
Proof. intros HQ. unfold wpe, Sys.call. destruct (f (Sys.kernel s)) as [a k]. by apply HQ. Qed.

Lemma system_call_wp attempt r mask (Q : Z -> Sys.t K -> Prop) (E : exn -> Sys.t K -> Prop) s :
  (0 <= i32 (rv r) \/ errno r = mask -> Q (i32 (rv r)) s) -> (forall code, E (Tagged_error attempt code) s) ->
  wpe (of_outcome (SystemCall attempt r mask)) Q E s.
Proof.
  intros HQ HE. unfold SystemCall, of_outcome, wpe.
  destruct (Z.leb_spec 0 (i32 (rv r))); simpl; [apply HQ; by left |].
  destruct (Z.eqb_spec (errno r) mask); [apply HQ; by right | apply HE].
Qed.

(** [read] returns at most [limit] bytes, records them, sets the EOF flag exactly
    on an empty read of a positive number of bytes, and counts the read. *)
Definition after_read (w : FDWrapper.t) (limit : Z) (data : list byte) : FDWrapper.t :=
  FDWrapper.mk (FDWrapper._fd w) (FDWrapper._eof w || ((0 <? limit) && bool_decide (data = [])))
    (FDWrapper._closed w) (u32 (FDWrapper._read_count w + 1)) (FDWrapper._write_count w).

Lemma fd_read_wp h w limit (Q : list byte -> Sys.t K -> Prop) (E : exn -> Sys.t K -> Prop) s :
  at_fd s h w -> 0 <= limit ->
  (forall data k, len data <= Z.min BUFFER_SIZE limit ->
     Q data (Sys.mk (<[h := after_read w limit data]> (Sys.wrappers s)) k (Sys.trace s ++ [Got h data]))) ->
  (forall e s', io_error e -> Sys.trace s' = Sys.trace s -> E e s') ->
  wpe (read h limit) Q E s.
Proof.
  intros Hw Hlimit HQ HE. unfold read. wp_step. eapply fd_num_wp; [exact Hw |]. wp_step.
  apply call_wp. intros k _. destruct (sys_read _ _ _).1 as [r data]. cbv beta iota. wp_step.
  apply system_call_wp; [intros _ | by intros; apply HE]. set (n := i32 (rv r)). wp_step. set (s1 := setf _ k s).
  assert (Hw1 : at_fd s1 h w) by done. clearbody n. clear r.
  apply wp_mono_exn with (P := fun (_ : unit) s2 => s2 = upd Sys.wrappers <[h :=
      FDWrapper.mk (FDWrapper._fd w) (FDWrapper._eof w || ((0 <? limit) && (n =? 0))) (FDWrapper._closed w)
        (FDWrapper._read_count w) (FDWrapper._write_count w)]> s1) (E := fun _ _ => False); [| | done].
  { apply wp_when; intros C.
    - eapply update_wp; [exact Hw1 |]. rewrite C, orb_true_r. done.
    - rewrite C, orb_false_r. symmetry. apply at_fd_id. by destruct w. }
  intros _ s2 ->. clear Hw1. apply wp_if; intros C1; [wp_step; by apply HE |].
  apply wp_if; intros C2; [wp_step; by apply HE |]. apply Z.ltb_ge in C1, C2.
  set (str := resize n data). assert (Hlen : len str = n).
  { unfold str, resize. rewrite len_app, len_ztake. unfold len at 2. rewrite length_replicate.
    pose proof (len_nonneg data). lia. }
  wp_steps. unfold Sys.record. wp_step. unfold register_read. wp_step.
  eapply update_wp; [by apply at_fd_update with w|]. wp_step.
  replace (upd Sys.wrappers _ _) with
    (Sys.mk (<[h := after_read w limit str]> (Sys.wrappers s)) k (Sys.trace s ++ [Got h str])); [apply HQ; lia |].
  unfold s1. destruct s as [ws k0 tr]. cbv [upd setf Sys.set_wrappers Sys.set_kernel Sys.set_trace Sys.wrappers Sys.kernel Sys.trace].
  rewrite list_insert_insert_eq. unfold after_read. do 4 f_equal. f_equal.
  f_equal. rewrite <- Hlen. destruct str; [done |]. rewrite len_cons. pose proof (len_nonneg str).
  rewrite bool_decide_false by done. by destruct (Z.eqb_spec (1 + len str) 0); [lia |].
Qed.

(** A closed descriptor counts as ended. *)
Lemma close_wp h w (Q : unit -> Sys.t K -> Prop) (E : exn -> Sys.t K -> Prop) s :
  at_fd s h w ->
  (forall k, Q tt (Sys.mk (<[h := setf FDWrapper._eof true (setf FDWrapper._closed true w)]> (Sys.wrappers s)) k (Sys.trace s))) ->
  (forall e s', io_error e -> Sys.trace s' = Sys.trace s -> E e s') -> wpe (close h) Q E s.
Proof.
  intros Hw HQ HE. unfold close. wp_step. eapply fd_num_wp; [exact Hw |]. wp_step. apply call_wp. intros k _.
  wp_step. apply system_call_wp; [intros _ | intros; by apply HE]. eapply update_wp; [exact Hw | apply HQ].
Qed.

(** Only the kernel knows about blocking. *)
Lemma set_blocking_wp h w blocking (Q : unit -> Sys.t K -> Prop) (E : exn -> Sys.t K -> Prop) s :
  at_fd s h w -> (forall k, Q tt (setf Sys.kernel k s)) ->
  (forall e s', io_error e -> Sys.trace s' = Sys.trace s -> E e s') -> wpe (set_blocking h blocking) Q E s.
Proof.
  intros Hw HQ HE. unfold set_blocking. wp_step. eapply fd_num_wp; [exact Hw |]. wp_step. apply call_wp. intros k _.
  wp_step. apply system_call_wp; [intros _ | intros; by apply HE]. wp_step. apply call_wp. intros k2 _.
  wp_step. apply system_call_wp; [intros _; wp_step; apply HQ | intros; by apply HE].
Qed.

(** One turn of [write]: the kernel took the first [n] bytes, and at least one when
    there was any. *)
Lemma write_once_wp `{!LinuxIO K} h w buffer (Q : BufferViewList.t * Z -> Sys.t K -> Prop)
    (E : exn -> Sys.t K -> Prop) s :
  at_fd s h w -> len (mjoin buffer) < 2 ^ 63 ->
  (forall rest n k, 0 <= n <= len (mjoin buffer) -> mjoin rest = zdrop n (mjoin buffer) ->
     (mjoin buffer <> [] -> 0 < n) ->
     Q (rest, n) (Sys.mk (<[h := upd FDWrapper._write_count (fun c => u32 (c + 1)) w]> (Sys.wrappers s)) k
       (Sys.trace s ++ [Put h (ztake n (mjoin buffer))]))) ->
  (forall e s', io_error e -> (exists d, Sys.trace s' = Sys.trace s ++ d /\ (d = [] \/ d = [Put h []])) -> E e s') ->
  wpe (write_once h buffer) Q E s.
Proof.
  intros Hw Hlen HQ HE. unfold write_once. wp_step. eapply fd_num_wp; [exact Hw |]. wp_step.
  apply call_wp. intros k _. pose proof (writev_max (FDWrapper._fd w) (BufferViewList.as_iovecs buffer) (Sys.kernel s)) as Hr.
  destruct (sys_writev _ _ _).1 as [n err]. simpl in Hr.
  assert (Hnone : exists d, Sys.trace s = Sys.trace s ++ d /\ (d = [] \/ d = [Put h []])).
  { exists []. by rewrite app_nil_r; auto. }
  wp_step. apply system_call_wp; [intros _ | intros; by apply HE]. cbn [rv].
  replace (i32 n) with n by (unfold i32; zarith). pose proof (len_nonneg (mjoin buffer)).
  rewrite BufferViewList.views_size by lia.
  apply wp_if; intros C1; [wp_step; by apply HE |]. apply wp_if; intros C2; [wp_step; by apply HE |].
  apply Z.ltb_ge in C2. wp_steps. unfold Sys.record. wp_step. wp_step. unfold register_write.
  eapply update_wp; [exact Hw |]. wp_step. destruct (decide (0 <= n)) as [Hn | Hn].
  - rewrite u64_small by lia. destruct (BufferViewList.views_remove_prefix buffer n) as (rest & Er & Erest); [lia |].
    eapply wp_of_outcome; [exact Er |]. wp_step. apply HQ; [lia | done |].
    intros Hne. apply andb_false_iff in C1 as [C1 | C1]; [apply Z.eqb_neq in C1; lia |].
    apply negb_false_iff, Z.eqb_eq, len_nil_inv in C1. done.
  - unfold of_outcome, wpe. rewrite ztake_nonpos by lia.
    rewrite BufferViewList.views_remove_prefix_over by solve_wrap.
    apply HE; [by left |]. exists [Put h []]. auto.
Qed.

(** The bytes the kernel accepted on [h] in a trace. *)
Definition accepted (h : nat) (tr : list io) : list byte :=
  mjoin (omap (fun e => match e with Put h' d => if decide (h' = h) then Some d else None | _ => None end) tr).

Lemma accepted_app h tr tr' : accepted h (tr ++ tr') = accepted h tr ++ accepted h tr'.
Proof. unfold accepted. by rewrite omap_app, join_app. Qed.

Lemma accepted_put h d : accepted h [Put h d] = d.
Proof. unfold accepted. simpl. rewrite decide_True by done. simpl. apply app_nil_r. Qed.

Lemma accepted_puts h (d : list (list byte)) : accepted h (Put h <$> d) = mjoin d.
Proof.
  induction d as [|x d IH]; [done |]. change (Put h <$> x :: d) with ([Put h x] ++ (Put h <$> d)).
  by rewrite accepted_app, accepted_put, IH.
Qed.

(** The bytes read from [h]. *)
Definition delivered (h : nat) (tr : list io) : list byte :=
  mjoin (omap (fun e => match e with Got h' d => if decide (h' = h) then Some d else None | _ => None end) tr).

Lemma delivered_app h tr tr' : delivered h (tr ++ tr') = delivered h tr ++ delivered h tr'.
Proof. unfold delivered. by rewrite omap_app, join_app. Qed.

Lemma delivered_got h d : delivered h [Got h d] = d.
Proof. unfold delivered. simpl. rewrite decide_True by done. simpl. apply app_nil_r. Qed.

Lemma delivered_puts h h' (d : list (list byte)) : delivered h (Put h' <$> d) = [].
Proof. induction d; [done |]. exact IHd. Qed.

(** What happens on other handles is neither read from nor written to this one. *)
Lemma silent h tr : Forall (fun e => io_handle e <> h) tr -> accepted h tr = [] /\ delivered h tr = [].
Proof.
  induction 1 as [|e tr He Htr [IHa IHd]]; [done |].
  change (e :: tr) with ([e] ++ tr). rewrite accepted_app, delivered_app, IHa, IHd, !app_nil_r.
  unfold accepted, delivered. destruct e; simpl in *; try done; by rewrite decide_False by congruence.
Qed.

Lemma others_silent h h' tr : h' <> h -> Forall (fun e => io_handle e = h') tr -> accepted h tr = [] /\ delivered h tr = [].
Proof. intros Hne Htr. apply silent. eapply Forall_impl; [| exact Htr]. by intros e ->. Qed.

(** The whole loop, from any point of it: it ends, and what the kernel accepted is
    the prefix of the buffer whose length is returned. *)
Lemma write_loop_count_wp `{!LinuxIO K} fuel h w write_all buffer total (Q : Z -> Sys.t K -> Prop)
    (E : exn -> Sys.t K -> Prop) s :
  at_fd s h w -> len (mjoin buffer) < 2 ^ 63 -> 0 <= total -> total + len (mjoin buffer) < 2 ^ 63 ->
  (length (mjoin buffer) < fuel)%nat ->
  (forall n c k tr, 0 <= n <= len (mjoin buffer) -> (write_all = true -> n = len (mjoin buffer)) ->
     (mjoin buffer <> [] -> 0 < n) -> (exists d, tr = Put h <$> d /\ mjoin d = ztake n (mjoin buffer)) ->
     (exists j, 1 <= j <= len (mjoin buffer) + 1 /\ c = u32 (FDWrapper._write_count w + j) /\ (write_all = false -> j = 1)) ->
     Q (total + n) (Sys.mk (<[h := setf FDWrapper._write_count c w]> (Sys.wrappers s)) k (Sys.trace s ++ tr))) ->
  (forall e s' tr, io_error e -> Sys.trace s' = Sys.trace s ++ tr ->
     (exists d, tr = Put h <$> d /\ mjoin d `prefix_of` mjoin buffer) -> E e s') ->
  wpe (write_loop fuel h write_all buffer total) Q E s.
Proof.
  revert w buffer total Q E s. induction fuel as [|fuel IH]; intros w buffer total Q E s Hw Hlen Ht Htl Hfuel HQ HE; [lia |].
  cbn [write_loop]. wp_step. eapply write_once_wp; [exact Hw | done | |].
  2:{ intros e s' He (d & Etr & Hd). eapply HE; [done | exact Etr |].
      destruct Hd as [-> | ->]; [exists [] | exists [[]]]; split; (done || apply prefix_nil). }
  intros rest n k Hn Erest Hpos. cbv beta iota zeta. rewrite u64_small by lia.
  assert (Hrest : len (mjoin rest) = len (mjoin buffer) - n) by (rewrite Erest, len_zdrop; lia).
  rewrite BufferViewList.views_size by lia. apply wp_if; intros C.
  - apply andb_true_iff in C as [-> C]. assert (Hne : mjoin buffer <> []).
    { intros E0. rewrite E0 in *. unfold to_bool in C. change (len []) with 0 in *. replace n with 0 in * by lia.
      rewrite Hrest in C. done. }
    specialize (Hpos Hne). eapply IH; [by apply (at_fd_update s h w) | lia | lia | lia | | |].
    { unfold len in *. lia. }
    + intros m c k' tr Hm Hall Hmpos (d & -> & Hd) (j & Hj & -> & _). rewrite <- Z.add_assoc. simpl Sys.wrappers. simpl Sys.trace.
      rewrite list_insert_insert_eq, <- app_assoc. apply (HQ (n + m) _ k').
      * lia.
      * intros _. rewrite Hall by done. lia.
      * lia.
      * exists (ztake n (mjoin buffer) :: d). split; [done |].
        change (mjoin (?a :: d)) with (a ++ mjoin d). rewrite Hd, Erest.
        rewrite <- (ztake_zdrop n (mjoin buffer)) at 3. rewrite ztake_app_ge by (rewrite len_ztake; lia).
        rewrite len_ztake. do 2 f_equal. lia.
      * exists (j + 1). split; [lia |]. split; [| done]. simpl. unfold u32. zarith.
    + intros e s' tr He Etr (d & -> & Hd). eapply HE; [done | rewrite Etr; simpl Sys.trace; rewrite <- app_assoc; done |].
      exists (ztake n (mjoin buffer) :: d). split; [done |]. rewrite Erest in Hd.
      change (mjoin (?a :: d)) with (a ++ mjoin d). rewrite <- (ztake_zdrop n (mjoin buffer)) at 2. by apply prefix_app.
  - wp_step. apply (HQ n); [lia | | done | by exists [ztake n (mjoin buffer)]; simpl; rewrite app_nil_r | exists 1; split; [pose proof (len_nonneg (mjoin buffer)); lia | done]].
    intros ->. simpl in C. unfold to_bool in C. apply negb_false_iff, Z.eqb_eq in C. lia.
Qed.
Lemma write_loop_wp `{!LinuxIO K} fuel h w write_all buffer total (Q : Z -> Sys.t K -> Prop)
    (E : exn -> Sys.t K -> Prop) s :
  at_fd s h w -> len (mjoin buffer) < 2 ^ 63 -> 0 <= total -> total + len (mjoin buffer) < 2 ^ 63 ->
  (length (mjoin buffer) < fuel)%nat ->
  (forall n c k tr, 0 <= n <= len (mjoin buffer) -> (write_all = true -> n = len (mjoin buffer)) ->
     (mjoin buffer <> [] -> 0 < n) -> (exists d, tr = Put h <$> d /\ mjoin d = ztake n (mjoin buffer)) ->
     (write_all = false -> c = u32 (FDWrapper._write_count w + 1)) ->
     Q (total + n) (Sys.mk (<[h := setf FDWrapper._write_count c w]> (Sys.wrappers s)) k (Sys.trace s ++ tr))) ->
  (forall e s' tr, io_error e -> Sys.trace s' = Sys.trace s ++ tr ->
     (exists d, tr = Put h <$> d /\ mjoin d `prefix_of` mjoin buffer) -> E e s') ->
  wpe (write_loop fuel h write_all buffer total) Q E s.
Proof.
  intros Hw Hl Ht Htl Hf HQ HE. eapply write_loop_count_wp; [exact Hw | done | done | done | done | | exact HE].
  intros n c k tr Hn Hall Hpos Htr (j & Hj & -> & Hone). apply HQ; try done. intros Hwa. by rewrite Hone.
Qed.
End file_descriptor.
End FileDescriptor.

(** ** Sockets *)

Module Socket.
Section socket.
Context {K : Type} `{Kernel K}.

Definition SHUT_RD : Z := 0.
Definition SHUT_WR : Z := 1.
Definition SHUT_RDWR : Z := 2.
Definition AF_UNIX : Z := 1.
Definition AF_INET : Z := 2.
Definition SOCK_STREAM : Z := 1.
Definition SOCK_DGRAM : Z := 2.
Definition SOL_SOCKET : Z := 1.
Definition SO_REUSEADDR : Z := 2.
Definition SO_TYPE : Z := 3.
Definition SO_DOMAIN : Z := 39.
Definition sizeof_int : Z := 4.

(** [Socket(domain, type)] *)
Definition new (domain type : Z) : M (Sys.t K) nat :=
  let* r := Sys.call (sys_socket domain type) in
  let* fd := of_outcome (SystemCall "socket" r 0) in
  FileDescriptor.new fd.

(** [Socket(FileDescriptor &&, domain, type)]: the descriptor is what it should be. *)
Definition of_fd (h : nat) (domain type : Z) : M (Sys.t K) nat :=
  let* fd := FileDescriptor.fd_num h in
  let* (r, (actual_value, len)) := Sys.call (sys_getsockopt fd SOL_SOCKET SO_DOMAIN) in
  let* _ := of_outcome (SystemCall "getsockopt" r 0) in
  if negb (len =? sizeof_int) || negb (actual_value =? domain) then throw (Runtime_error "socket domain mismatch")
  else
    let* (r, (actual_value, len)) := Sys.call (sys_getsockopt fd SOL_SOCKET SO_TYPE) in
    let* _ := of_outcome (SystemCall "getsockopt" r 0) in
    if negb (len =? sizeof_int) || negb (actual_value =? type) then throw (Runtime_error "socket type mismatch")
    else pure h.

Definition get_address (name_of_function : string) (function : Z -> K -> sysret * (list byte * Z) * K) (h : nat)
    : M (Sys.t K) Address.t :=
  let* fd := FileDescriptor.fd_num h in
  let* (r, (address, size)) := Sys.call (function fd) in
  let* _ := of_outcome (SystemCall name_of_function r 0) in
  of_outcome (Address.of_sockaddr address size).
Definition local_address : nat -> M (Sys.t K) Address.t := get_address "getsockname" sys_getsockname.
Definition peer_address : nat -> M (Sys.t K) Address.t := get_address "getpeername" sys_getpeername.

Definition bind (h : nat) (address : Address.t) : M (Sys.t K) unit :=
  let* fd := FileDescriptor.fd_num h in
  let* r := Sys.call (sys_bind fd address) in
  let* _ := of_outcome (SystemCall "bind" r 0) in
  pure tt.

Definition connect (h : nat) (address : Address.t) : M (Sys.t K) unit :=
  let* fd := FileDescriptor.fd_num h in
  let* r := Sys.call (sys_connect fd address) in
  let* _ := of_outcome (SystemCall "connect" r 0) in
  pure tt.

Definition setsockopt (h : nat) (level option option_value : Z) : M (Sys.t K) unit :=
  let* fd := FileDescriptor.fd_num h in
  let* r := Sys.call (sys_setsockopt fd level option option_value) in
  let* _ := of_outcome (SystemCall "setsockopt" r 0) in
  pure tt.
Definition set_reuseaddr (h : nat) : M (Sys.t K) unit := setsockopt h SOL_SOCKET SO_REUSEADDR 1.

Definition shutdown (h : nat) (how : Z) : M (Sys.t K) unit :=
  let* fd := FileDescriptor.fd_num h in
  let* r := Sys.call (sys_shutdown fd how) in
  let* _ := of_outcome (SystemCall "shutdown" r 0) in
  Sys.record (Shut h how) ;;
  if how =? SHUT_RD then FileDescriptor.register_read h
  else if how =? SHUT_WR then FileDescriptor.register_write h
  else if how =? SHUT_RDWR then FileDescriptor.register_read h ;; FileDescriptor.register_write h
  else throw (Runtime_error "Socket::shutdown() called with invalid `how`").

(** A shutdown counts as a read or a write of the descriptor, as the event loop
    needs. *)
Lemma shutdown_wr_wp h w (Q : unit -> Sys.t K -> Prop) (E : exn -> Sys.t K -> Prop) s :
  FileDescriptor.at_fd s h w ->
  (forall k, Q tt (Sys.mk (<[h := upd FDWrapper._write_count (fun c => u32 (c + 1)) w]> (Sys.wrappers s)) k
     (Sys.trace s ++ [Shut h SHUT_WR]))) ->
  (forall e s', FileDescriptor.io_error e -> Sys.trace s' = Sys.trace s -> E e s') -> wpe (shutdown h SHUT_WR) Q E s.
Proof.
  intros Hw HQ HE. unfold shutdown. wp_step. eapply FileDescriptor.fd_num_wp; [exact Hw |]. wp_step.
  apply FileDescriptor.call_wp. intros k _. wp_step. apply FileDescriptor.system_call_wp; [intros _ | intros; by apply HE].
  wp_step. unfold Sys.record. wp_step. cbn [SHUT_WR SHUT_RD Z.eqb].
  unfold FileDescriptor.register_write. eapply FileDescriptor.update_wp; [exact Hw |]. apply HQ.
Qed.

Lemma shutdown_rdwr_wp h w (Q : unit -> Sys.t K -> Prop) (E : exn -> Sys.t K -> Prop) s :
  FileDescriptor.at_fd s h w ->
  (forall ws k, Q tt (Sys.mk ws k (Sys.trace s ++ [Shut h SHUT_RDWR]))) ->
  (forall e s', FileDescriptor.io_error e -> E e s') -> wpe (shutdown h SHUT_RDWR) Q E s.
Proof.
  intros Hw HQ HE. unfold shutdown. wp_step. eapply FileDescriptor.fd_num_wp; [exact Hw |]. wp_step.
  apply FileDescriptor.call_wp. intros k _. wp_step. apply FileDescriptor.system_call_wp; [intros _ | intros; by apply HE].
  wp_step. unfold Sys.record. wp_step. cbn [SHUT_RDWR SHUT_WR SHUT_RD Z.eqb Pos.eqb]. wp_step.
  unfold FileDescriptor.register_write, FileDescriptor.register_read. eapply FileDescriptor.update_wp; [exact Hw |].
  eapply FileDescriptor.update_wp; [by eapply (FileDescriptor.at_fd_update _ h w) |]. apply HQ.
Qed.
End socket.
End Socket.

Module TCPSocket.
Section tcp_socket.
Context {K : Type} `{Kernel K}.

Definition new : M (Sys.t K) nat := Socket.new Socket.AF_INET Socket.SOCK_STREAM.
Definition of_fd (h : nat) : M (Sys.t K) nat := Socket.of_fd h Socket.AF_INET Socket.SOCK_STREAM.

Definition listen (h : nat) (backlog : Z) : M (Sys.t K) unit :=
  let* fd := FileDescriptor.fd_num h in
  let* r := Sys.call (sys_listen fd backlog) in
  let* _ := of_outcome (SystemCall "listen" r 0) in
  pure tt.

Definition accept (h : nat) : M (Sys.t K) nat :=
  FileDescriptor.register_read h ;;
  let* fd := FileDescriptor.fd_num h in
  let* r := Sys.call (sys_accept fd) in
  let* fd := of_outcome (SystemCall "accept" r 0) in
  let* h := FileDescriptor.new fd in
  of_fd h.
End tcp_socket.
End TCPSocket.

Module LocalStreamSocket.
Definition of_fd {K} `{Kernel K} (h : nat) : M (Sys.t K) nat := Socket.of_fd h Socket.AF_UNIX Socket.SOCK_STREAM.
End LocalStreamSocket.

Module UDPSocket.
Section udp.
Context {K : Type} `{Kernel K}.

Definition MSG_TRUNC : Z := 0x20.
Definition default_mtu : Z := 65536.

Definition new : M (Sys.t K) nat := Socket.new Socket.AF_INET Socket.SOCK_DGRAM.
Definition of_fd (h : nat) : M (Sys.t K) nat := Socket.of_fd h Socket.AF_INET Socket.SOCK_DGRAM.

Record received_datagram : Type := mk_received { source_address : Address.t; payload : list byte }.

Definition recv (h : nat) (mtu : Z) : M (Sys.t K) received_datagram :=
  let* fd := FileDescriptor.fd_num h in
  let* (r, (data, from, fromlen)) := Sys.call (sys_recvfrom fd mtu MSG_TRUNC) in
  let* recv_len := of_outcome (SystemCall "recvfrom" r 0) in
  if mtu <? recv_len then throw (Runtime_error "recvfrom (oversized datagram)")
  else
    FileDescriptor.register_read h ;;
    let* source := of_outcome (Address.of_sockaddr from fromlen) in
    if recv_len <? 0 then throw Length_error
    else
      let data := resize recv_len data in
      Sys.record (Received h source data) ;;
      pure (mk_received source data).

Definition sendmsg_helper (h : nat) (destination : option Address.t) (payload : BufferViewList.t)
    : M (Sys.t K) unit :=
  let* fd := FileDescriptor.fd_num h in
  let* r := Sys.call (sys_sendmsg fd destination (BufferViewList.as_iovecs payload)) in
  let* bytes_sent := of_outcome (SystemCall "sendmsg" r 0) in
  if negb (u64 bytes_sent =? BufferViewList.size payload) then
    throw (Runtime_error "datagram payload too big for sendmsg()")
  else Sys.record (Sent h destination (mjoin payload)).

Definition sendto (h : nat) (destination : Address.t) (payload : BufferViewList.t) : M (Sys.t K) unit :=
  sendmsg_helper h (Some destination) payload ;;
  FileDescriptor.register_write h.

Definition send (h : nat) (payload : BufferViewList.t) : M (Sys.t K) unit :=
  sendmsg_helper h None payload ;;
  FileDescriptor.register_write h.

Import FileDescriptor.

Lemma recv_wp h w mtu (Q : received_datagram -> Sys.t K -> Prop) (E : exn -> Sys.t K -> Prop) s :
  at_fd s h w -> 
  (forall src data k, len data <= mtu ->
     Q (mk_received src data) (Sys.mk (<[h := upd FDWrapper._read_count (fun c => u32 (c + 1)) w]> (Sys.wrappers s)) k
       (Sys.trace s ++ [Received h src data]))) ->
  (forall e s', io_error e -> Sys.trace s' = Sys.trace s -> E e s') -> wpe (recv h mtu) Q E s.
Proof.
  intros Hw HQ HE. unfold recv. wp_step. eapply fd_num_wp; [exact Hw |]. wp_step.
  apply call_wp. intros k _. destruct (sys_recvfrom _ _ _ _).1 as [r [[data from] fromlen]]. cbv beta iota. wp_step.
  apply system_call_wp; [intros _ | by intros; apply HE]. set (n := i32 (rv r)). clearbody n.
  apply wp_if; intros C1; [wp_step; by apply HE |]. apply Z.ltb_ge in C1.
  wp_step. unfold register_read. eapply update_wp; [exact Hw |]. wp_step.
  unfold of_outcome at 1, wpe at 1, Address.of_sockaddr. destruct (_ <? fromlen); [by apply HE |].
  fold (wpe (A := received_datagram) (S := Sys.t K)). apply wp_if; intros C2; [wp_step; by apply HE |]. apply Z.ltb_ge in C2.
  wp_step. unfold Sys.record. wp_step. wp_step. apply HQ.
  unfold resize. rewrite len_app, len_ztake. unfold len at 2. rewrite length_replicate. pose proof (len_nonneg data). lia.
Qed.

Lemma sendto_wp h w dst payload (Q : unit -> Sys.t K -> Prop) (E : exn -> Sys.t K -> Prop) s :
  at_fd s h w ->
  (forall k, Q tt (Sys.mk (<[h := upd FDWrapper._write_count (fun c => u32 (c + 1)) w]> (Sys.wrappers s)) k
     (Sys.trace s ++ [Sent h (Some dst) (mjoin payload)]))) ->
  (forall e s', io_error e -> Sys.trace s' = Sys.trace s -> E e s') -> wpe (sendto h dst payload) Q E s.
Proof.
  intros Hw HQ HE. unfold sendto, sendmsg_helper. wp_step. wp_step. eapply fd_num_wp; [exact Hw |]. wp_step.
  apply call_wp. intros k _. wp_step. apply system_call_wp; [intros _ | by intros; apply HE].
  apply wp_if; intros _; [wp_step; by apply HE |]. unfold Sys.record. wp_step.
  unfold register_write. eapply update_wp; [exact Hw |]. apply HQ.
Qed.
End udp.
End UDPSocket.

(** ** A scripted kernel

    Reads and datagrams come from lists, [writev] takes at most [chunk] bytes,
    [poll] returns the next line of a script and a timeout when there is none, and
    the clock advances by ten at every call. *)

Module Script.
Record t : Type := mk {
  reads : list (list byte);
  chunk : Z;
  datagrams : list (Address.t * list byte);
  polls : list (list Z);
  ms : Z
}.

Definition EAGAIN : Z := 11.
Definition ok (n : Z) : sysret := mk_sysret n 0.
Definition failed (e : Z) : sysret := mk_sysret (-1) e.

Definition read (_ size : Z) (k : t) : sysret * list byte * t :=
  match reads k with
  | [] => (failed EAGAIN, [], k)
  | d :: ds =>
      let rest := if len d <=? size then ds else zdrop size d :: ds in
      (ok (len (ztake size d)), ztake size d, mk rest (chunk k) (datagrams k) (polls k) (ms k))
  end.

Definition total (iov : list (list byte * Z)) : Z := len (mjoin (fst <$> iov)).
Definition writev (_ : Z) (iov : list (list byte * Z)) (k : t) : sysret * t :=
  (ok (Z.max 0 (Z.min (Z.min (chunk k) 0x7ffff000) (total iov))), k).
Definition quiet (k : t) : sysret * t := (ok 0, k).

Definition recvfrom (_ _ _ : Z) (k : t) : sysret * (list byte * list byte * Z) * t :=
  match datagrams k with
  | [] => (failed EAGAIN, ([], [], 0), k)
  | (a, d) :: ds =>
      (ok (len d), (d, Address.storage a, Address._size a), mk (reads k) (chunk k) ds (polls k) (ms k))
  end.
Definition sendmsg (_ : Z) (_ : option Address.t) (iov : list (list byte * Z)) (k : t) : sysret * t :=
  (ok (total iov), k).
Definition poll (_ : list pollfd) (_ : Z) (k : t) : sysret * list Z * t :=
  match polls k with
  | [] => (ok 0, [], k)
  | r :: rs => (ok (Z.min (len (filter (.≠ 0) r)) 0x7fffffff), r, mk (reads k) (chunk k) (datagrams k) rs (ms k))
  end.
Definition clock (k : t) : Z * t := (ms k, mk (reads k) (chunk k) (datagrams k) (polls k) (ms k + 10)).

#[global] Instance script_kernel : Kernel t := {|
  sys_read := read; sys_writev := writev; sys_close _ := quiet; sys_fcntl _ _ _ := quiet;
  sys_shutdown _ _ := quiet; sys_recvfrom := recvfrom; sys_sendmsg := sendmsg; sys_poll := poll; sys_clock := clock;
  sys_socket _ _ := quiet; sys_socketpair _ _ k := (ok 0, (3, 4), k);
  sys_getsockopt _ _ option k := (ok 0, (1, Socket.sizeof_int), k); sys_setsockopt _ _ _ _ := quiet;
  sys_getsockname _ k := (ok 0, ([], 0), k); sys_getpeername _ k := (ok 0, ([], 0), k);
  sys_bind _ _ := quiet; sys_connect _ _ := quiet; sys_listen _ _ := quiet; sys_accept _ := quiet;
  sys_open _ _ k := (ok 5, k); sys_ioctl _ _ _ := quiet
|}.

#[global] Instance script_linux : LinuxIO t.
Proof. split. intros. simpl. lia. Qed.
End Script.

(** ** Properties *)

(** [C36] Writing a buffer list to a descriptor ends, whatever the kernel does: it
    returns or throws an error of the system, never runs forever and never leaves
    the defined behaviour of C++.  If it returns, the bytes the kernel accepted are,
    in order, a prefix of the buffer as long as the number returned: all of it
    when the caller asked for all, and at least one byte unless there was none. *)
Theorem descriptor_write_correct {K} `{LinuxIO K} h w buffer write_all (s : Sys.t K) :
  FileDescriptor.at_fd s h w -> len (mjoin buffer) < 2 ^ 63 ->
  wpe (FileDescriptor.write h buffer write_all)
    (fun n s' => 0 <= n <= len (mjoin buffer) /\ (write_all = true -> n = len (mjoin buffer)) /\
       (mjoin buffer <> [] -> 0 < n) /\
       exists tr, Sys.trace s' = Sys.trace s ++ tr /\ FileDescriptor.accepted h tr = ztake n (mjoin buffer))
    (fun e s' => FileDescriptor.io_error e /\
       exists tr, Sys.trace s' = Sys.trace s ++ tr /\ FileDescriptor.accepted h tr `prefix_of` mjoin buffer) s.
Proof.
  intros Hw Hlen. unfold FileDescriptor.write.
  eapply FileDescriptor.write_loop_wp; [exact Hw | lia | lia | lia | lia | |].
  - intros n c k tr Hn Hall Hpos (d & -> & Hd) _. rewrite Z.add_0_l. split; [done |]. split; [done |]. split; [done |].
    eexists. split; [done |]. by rewrite FileDescriptor.accepted_puts.
  - intros e s' tr He Etr (d & -> & Hd). split; [done |]. eexists. split; [exact Etr |].
    by rewrite FileDescriptor.accepted_puts.
Qed.

(** ** Witness *)

Lemma descriptor_write_correct_witness :
  let s := Sys.mk [FDWrapper.mk 5 false false 0 0] (Script.mk [] 2 [] [] 0) [] in
  let buffer := [[x61; x62; x63]; [x64; x65]] in
  exists s', FileDescriptor.write 0 buffer true s = (Ok 5, s') /\
    FileDescriptor.accepted 0 (Sys.trace s') = [x61; x62; x63; x64; x65].
Proof.
  intros s buffer.
  assert (Hw : FileDescriptor.at_fd s 0 (FDWrapper.mk 5 false false 0 0)) by reflexivity.
  assert (Hl : len (mjoin buffer) < 2 ^ 63) by (vm_compute; reflexivity).
  pose proof (descriptor_write_correct 0 _ buffer true s Hw Hl) as Hok.
  unfold wpe in Hok. destruct (FileDescriptor.write 0 buffer true s) as [[n|e] s'] eqn:Ew.
  - destruct Hok as (_ & Hn & _ & tr & Etr & Hacc). rewrite Hn in * by done. exists s'. split; [done |].
    rewrite Etr. exact Hacc.
  - vm_compute in Ew. discriminate.
Defined.
