(* ===== verification/descriptor_lifetime.v ===== *)
(** * util/file_descriptor: who closes a descriptor

    The [FileDescriptor] objects of a program share their [FDWrapper]s: an object holds a
    [shared_ptr], or nothing after it was moved from or destroyed.  When the last object of
    a wrapper goes, [~FDWrapper] closes the descriptor, unless it was closed.  A wrapper stays
    in the store of [Sys] when it is destroyed; no object refers to it then. *)

From S2P Require Import prelude buffer parser address file_descriptor.

(** [~FDWrapper]; what it prints is not modelled. *)
Definition destroy_wrapper {K} `{Kernel K} (h : nat) : M (Sys.t K) unit :=
  try_catch
    (let* closed := FileDescriptor.closed h in
     if closed then pure tt else FileDescriptor.close h)
    (fun _ => pure tt).

Module Objects.
Section objects.
Context {K : Type} `{Kernel K}.

Record t : Type := mk { sys : Sys.t K; objects : list (option nat) }.
Definition eta (s : t) : t := mk (sys s) (objects s).
#[global] Instance set_sys : Setter sys := ltac:(derive_setter eta sys).
#[global] Instance set_objects : Setter objects := ltac:(derive_setter eta objects).

(** [shared_ptr::use_count] *)
Definition use_count (h : nat) (l : list (option nat)) : nat := length (filter (fun o => o = Some h) l).

(** What the object [i] holds *)
Definition object (i : nat) : M t (option nat) :=
  let* l := asks objects in
  or_ub (l !! i).

(** A new object *)
Definition add (o : option nat) : M t nat :=
  let* i := asks (fun s => length (objects s)) in
  objects %= (fun l => l ++ [o]) ;;
  pure i.

Definition create (fd : Z) : M t nat :=
  let* h := zoom sys (FileDescriptor.new fd) in
  add (Some h).

(** [duplicate]: the new object shares the wrapper. *)
Definition duplicate (i : nat) : M t nat :=
  let* o := object i in
  add o.

(** [FileDescriptor(FileDescriptor &&other)] *)
Definition move_construct (i : nat) : M t nat :=
  let* o := object i in
  objects %= <[i := None]> ;;
  add o.

(** The pointer [o] that an object held is given up. *)
Definition release (o : option nat) : M t unit :=
  match o with
  | None => pure tt
  | Some h =>
      let* l := asks objects in
      when (use_count h l =? 0)%nat (zoom sys (destroy_wrapper h))
  end.

(** [operator=(FileDescriptor &&other)] *)
Definition move_assign (i j : nat) : M t unit :=
  if decide (i = j) then pure tt
  else
    let* mine := object i in
    let* other := object j in
    objects %= (fun l => <[i := other]> (<[j := None]> l)) ;;
    release mine.

(** [~FileDescriptor] *)
Definition destroy (i : nat) : M t unit :=
  let* o := object i in
  objects %= <[i := None]> ;;
  release o.

(** [close()] of an object; of one that was moved from, it is undefined. *)
Definition close (i : nat) : M t unit :=
  let* o := object i in
  let* h := or_ub o in
  zoom sys (FileDescriptor.close h).

Inductive op : Type :=
| Create (fd : Z)
| Duplicate (i : nat)
| Move_construct (i : nat)
| Move_assign (i j : nat)
| Close (i : nat)
| Destroy (i : nat).
Definition step (o : op) : M t unit :=
  match o with
  | Create fd => let* _ := create fd in pure tt
  | Duplicate i => let* _ := duplicate i in pure tt
  | Move_construct i => let* _ := move_construct i in pure tt
  | Move_assign i j => move_assign i j
  | Close i => close i
  | Destroy i => destroy i
  end.

(** What a program does with its objects; an exception does not undo anything. *)
Fixpoint run (ops : list op) (s : t) : t :=
  match ops with
  | [] => s
  | o :: ops => run ops (step o s).2
  end.
End objects.
Arguments t K : clear implicits.
End Objects.

(** ** No descriptor is leaked *)

Section lifetime.
Context {K : Type} `{Kernel K}.
Import Objects.

(** [close(2)] succeeds. *)
Hypothesis close_succeeds : forall fd k, 0 <= i32 (rv (sys_close fd k).1).

Definition open (s : t K) (h : nat) : Prop := exists w, Sys.wrappers (sys s) !! h = Some w /\ FDWrapper._closed w = false.
Definition refers (s : t K) (h : nat) : Prop := Some h ∈ objects s.

(** The objects refer to wrappers that exist, and an open wrapper has an object. *)
Record lifetime (s : t K) : Prop := {
  life_valid h : refers s h -> is_Some (Sys.wrappers (sys s) !! h);
  life_open h : open s h -> refers s h
}.

Lemma use_count_0 h l : use_count h l = 0%nat <-> Some h ∉ l.
Proof.
  unfold use_count. split.
  - intros E Hin. apply length_zero_iff_nil in E. assert (Hf : Some h ∈ filter (fun o => o = Some h) l) by by apply list_elem_of_filter.
    rewrite E in Hf. by apply elem_of_nil in Hf.
  - intros Hn. apply length_zero_iff_nil. destruct (filter _ l) as [|o f] eqn:E; [done |]. exfalso. apply Hn.
    assert (Ho : o ∈ filter (fun o => o = Some h) l) by (rewrite E; by left). by apply list_elem_of_filter in Ho as [-> Ho].
Qed.

(** The wrapper of a closed descriptor *)
Definition marked (w : FDWrapper.t) : FDWrapper.t := setf FDWrapper._eof true (setf FDWrapper._closed true w).

Lemma close_marks_wp h w (s : Sys.t K) (Q : unit -> Sys.t K -> Prop) E : Sys.wrappers s !! h = Some w ->
  (forall k, Q tt (Sys.mk (<[h := marked w]> (Sys.wrappers s)) k (Sys.trace s))) -> wpe (FileDescriptor.close h) Q E s.
Proof.
  intros Hw HQ. unfold FileDescriptor.close. wp_step. eapply FileDescriptor.fd_num_wp; [exact Hw |]. wp_step.
  apply FileDescriptor.call_wp. intros k _. wp_step. unfold SystemCall. rewrite (proj2 (Z.leb_le _ _)) by apply close_succeeds.
  apply wp_of_outcome with (i32 (rv (sys_close (FDWrapper._fd w) (Sys.kernel s)).1)); [done |]. eapply FileDescriptor.update_wp; [exact Hw |]. apply HQ.
Qed.

(** The destructor leaves the wrapper closed and throws nothing. *)
Lemma destroy_wrapper_wp h w (s : Sys.t K) : Sys.wrappers s !! h = Some w ->
  wp (destroy_wrapper h) (fun _ s' => exists w', Sys.wrappers s' = <[h := w']> (Sys.wrappers s) /\ FDWrapper._closed w' = true) s.
Proof.
  intros Hw. unfold destroy_wrapper. apply wp_try_catch. wp_step. unfold FileDescriptor.closed. wp_step.
  eapply FileDescriptor.wrapper_wp; [exact Hw |]. wp_step. destruct (FDWrapper._closed w) eqn:Ec.
  - wp_step. exists w. by rewrite list_insert_id.
  - eapply close_marks_wp; [exact Hw |]. intros k. by exists (marked w).
Qed.

Lemma open_insert s l h h' w : FDWrapper._closed w = true ->
  open (mk (Sys.mk (<[h := w]> (Sys.wrappers (sys s))) (Sys.kernel (sys s)) (Sys.trace (sys s))) l) h' -> h' <> h /\ open s h'.
Proof.
  intros Hc (w' & Hw' & Ho). simpl in Hw'. destruct (decide (h' = h)) as [-> | Hne].
  - exfalso. apply list_lookup_insert_Some in Hw' as [(_ & <- & _) | [? _]]; [congruence | done].
  - split; [done |]. exists w'. by rewrite list_lookup_insert_ne in Hw'.
Qed.

(** Giving up a pointer: what else is open still has an object. *)
Lemma release_wp o s :
  (forall h, refers s h \/ o = Some h -> is_Some (Sys.wrappers (sys s) !! h)) ->
  (forall h, open s h -> refers s h \/ o = Some h) ->
  wp (release o) (fun _ => lifetime) s.
Proof.
  intros Hv Hopen. destruct o as [h|]; simpl.
  - wp_step. wp_step. apply wp_when; intros Hcount.
    + apply Nat.eqb_eq, use_count_0 in Hcount. destruct (Hv h (or_intror eq_refl)) as [w Hw]. wp_step.
      eapply wp_mono; [exact (destroy_wrapper_wp h w _ Hw) |]. intros [] s' (w' & Ews & Hc). split; unfold refers; simpl.
      * intros h' Hr. rewrite Ews, lookup_lt_is_Some, length_insert, <- lookup_lt_is_Some. apply Hv. by left.
      * intros h' (x & Hx & Ho). simpl in Hx. rewrite Ews in Hx.
        destruct (open_insert s (objects s) h h' w' Hc) as [Hne Ho']; [by exists x |]. destruct (Hopen h' Ho') as [Hr | E]; [done | congruence].
    + apply Nat.eqb_neq in Hcount. assert (Hr : refers s h).
      { unfold refers. destruct (decide (Some h ∈ objects s)) as [|Hn]; [done |]. by apply use_count_0 in Hn. }
      split; [intros; apply Hv; by left |]. intros h' Ho. destruct (Hopen h' Ho) as [| [= <-]]; done.
  - wp_step. split; [intros; apply Hv; by left |]. intros h' Ho. by destruct (Hopen h' Ho).
Qed.

Lemma elem_insert_old (l : list (option nat)) i x o h : l !! i = Some x -> Some h ∈ l -> Some h ∈ <[i := o]> l \/ x = Some h.
Proof.
  intros Hi (j & Hj)%list_elem_of_lookup. destruct (decide (j = i)) as [-> | Hne]; [right; congruence | left].
  apply list_elem_of_lookup. exists j. by rewrite list_lookup_insert_ne.
Qed.
Lemma elem_insert_new (l : list (option nat)) i o h : Some h ∈ <[i := o]> l -> o = Some h \/ Some h ∈ l.
Proof.
  intros (j & Hj)%list_elem_of_lookup. apply list_lookup_insert_Some in Hj as [(_ & -> & _) | [_ Hj]]; [by left | right].
  apply list_elem_of_lookup. by exists j.
Qed.

Lemma object_wp i s (Q : option nat -> t K -> Prop) (E : exn -> t K -> Prop) :
  (forall o, objects s !! i = Some o -> Q o s) -> (objects s !! i = None -> E UndefinedBehavior s) -> wpe (object i) Q E s.
Proof. intros HQ HE. unfold object. wp_step. wp_step. unfold or_ub. destruct (objects s !! i) eqn:Ei; [by apply HQ | by apply HE]. Qed.

(** The objects change, the wrappers do not. *)
Lemma lifetime_objects s l : lifetime s -> (forall h, Some h ∈ l <-> refers s h) -> lifetime (mk (sys s) l).
Proof. intros [Hv Ho] Hl. split; unfold refers; simpl; [intros h Hr; by apply Hv, Hl | intros h Hh; by apply Hl, Ho]. Qed.

Lemma create_wp fd s : lifetime s -> wpe (create fd) (fun _ => lifetime) (fun _ => lifetime) s.
Proof.
  intros [Hv Ho]. unfold create. wp_step. wp_step. unfold FileDescriptor.new, FDWrapper.new. wp_step.
  destruct (fd <? 0); [by destruct s |]. eapply wp_of_outcome; [done |]. wp_steps. unfold add. wp_steps. split; unfold refers; simpl.
  - intros h [Hr | [= ->]%list_elem_of_singleton]%elem_of_app.
    + destruct (Hv h Hr) as [w Hw]. exists w. by apply lookup_app_l_Some.
    + by rewrite lookup_app_r, Nat.sub_diag by lia.
  - intros h (w & Hw & Hc). simpl in Hw. apply elem_of_app. apply lookup_app_Some in Hw as [Hw | [Hge Hw]].
    + left. apply Ho. by exists w.
    + right. apply list_lookup_singleton_Some in Hw as [Hw _]. apply list_elem_of_singleton. f_equal. lia.
Qed.

Lemma move_assign_wp i j s : lifetime s -> wpe (move_assign i j) (fun _ => lifetime) (fun _ => lifetime) s.
Proof.
  intros [Hv Ho]. unfold move_assign. destruct (decide (i = j)) as [| Hne]; [by wp_step |].
  wp_step. apply object_wp; [| done]. intros mine Hi. wp_step. apply object_wp; [| done]. intros other Hj. wp_step. wp_step.
  assert (Hback : forall h, Some h ∈ <[i := other]> (<[j := None]> (objects s)) -> refers s h).
  { intros h [-> | [? | Hr]%elem_insert_new]%elem_insert_new; [| done | done]. apply list_elem_of_lookup. by exists j. }
  eapply wp_mono_exn; [apply release_wp | done | done]; unfold refers; simpl.
  - intros h [Hr | ->]; apply Hv; [by apply Hback |]. apply list_elem_of_lookup. by exists i.
  - intros h Hh. assert (Hr : refers s h) by by apply Ho.
    destruct (elem_insert_old _ j other None h Hj Hr) as [Hr' | ->].
    + apply (elem_insert_old _ i mine other h) in Hr'; [done |]. by rewrite list_lookup_insert_ne.
    + left. apply list_elem_of_lookup. exists i. rewrite list_lookup_insert_eq; [done |]. rewrite length_insert. by eapply lookup_lt_Some.
Qed.

Lemma close_object_wp i s : lifetime s -> wpe (close i) (fun _ => lifetime) (fun _ => lifetime) s.
Proof.
  intros Hl. destruct (Hl) as [Hv Ho]. unfold close. wp_step. apply object_wp; [| done]. intros [h|] Hi; [| exact Hl]. wp_step. eapply wp_or_ub; [done |].
  assert (Hr : refers s h) by (apply list_elem_of_lookup; by exists i). destruct (Hv h Hr) as [w Hw]. wp_step.
  eapply close_marks_wp; [exact Hw |]. intros k. split; unfold refers; simpl.
  - intros h' Hr'. rewrite lookup_lt_is_Some, length_insert, <- lookup_lt_is_Some. by apply Hv.
  - intros h' (x & Hx & Hc). simpl in Hx. destruct (open_insert s (objects s) h h' (marked w)) as [_ Hh']; [done | by exists x | by apply Ho].
Qed.

Lemma step_wp o s : lifetime s -> wpe (step o) (fun _ => lifetime) (fun _ => lifetime) s.
Proof.
  intros Hl. destruct (Hl) as [Hv Ho]. destruct o as [fd | i | i | i j | i | i]; simpl.
  - wp_step. eapply wp_mono; [by apply create_wp |]. intros ? s' Hs'. by wp_step.
  - wp_step. unfold duplicate. wp_step. apply object_wp; [| done]. intros o Hi. unfold add. wp_steps.
    apply (lifetime_objects s); [done |]. intros h. rewrite elem_of_app, list_elem_of_singleton. split; [| by left].
    intros [| <-]; [done |]. apply list_elem_of_lookup. by exists i.
  - wp_step. unfold move_construct. wp_step. apply object_wp; [| done]. intros o Hi. unfold add. wp_steps.
    apply (lifetime_objects s); [done |]. intros h. rewrite elem_of_app, list_elem_of_singleton. split.
    + intros [[? | ?]%elem_insert_new | <-]; [done | done |]. apply list_elem_of_lookup. by exists i.
    + intros Hr. destruct (elem_insert_old _ i o None h Hi Hr); [by left | by right].
  - by apply move_assign_wp.
  - by apply close_object_wp.
  - unfold destroy. wp_step. apply object_wp; [| done]. intros o Hi. wp_step. wp_step.
    eapply wp_mono_exn; [apply release_wp | done | done]; unfold refers; simpl.
    + intros h [[? | Hr]%elem_insert_new | ->]; [done | by apply Hv |]. apply Hv, list_elem_of_lookup. by exists i.
    + intros h Hh. apply (elem_insert_old _ i o None h Hi). by apply Ho.
Qed.

Lemma run_lifetime ops : forall s, lifetime s -> lifetime (run ops s).
Proof.
  induction ops as [|o ops IH]; intros s Hl; [done |]. simpl. apply IH. pose proof (step_wp o s Hl) as Hw. unfold wpe in Hw.
  by destruct (step o s) as [[]].
Qed.

(** Whatever a program does with its objects, when the last of them is gone no descriptor
    is left open. *)
Theorem descriptors_closed ops k h w :
  let s := run ops (mk (Sys.mk [] k []) []) in
  (forall o, o ∈ objects s -> o = None) -> Sys.wrappers (sys s) !! h = Some w -> FDWrapper._closed w = true.
Proof.
  intros s Hgone Hw. assert (Hl : lifetime s).
  { apply run_lifetime. split; unfold refers; simpl; [by intros h' ?%elem_of_nil |]. intros h' (x & Hx & _). done. }
  destruct (FDWrapper._closed w) eqn:Ec; [done |]. destruct Hl as [_ Ho]. assert (Hr : refers s h) by (apply Ho; by exists w).
  by apply Hgone in Hr.
Qed.
End lifetime.
