(* ===== verification/tun.v ===== *)
(** * util/tun: TUN and TAP devices

    A device is opened through [/dev/net/tun]: an [ioctl] with the name of the device and
    its kind turns the descriptor into one end of it.  The name is a fixed array of
    [IFNAMSIZ] characters in [struct ifreq]; [device_named] shows that the request always
    holds a C string, and that it is the name that was given unless that is too long. *)

From S2P Require Import prelude buffer parser address file_descriptor.

(** The characters of a [std::string] *)
Definition string_bytes (s : string) : list byte := String.list_byte_of_string s.

Module TunTapFD.
Definition CLONEDEV : string := "/dev/net/tun".
Definition O_RDWR : Z := 2.
Definition IFF_TUN : Z := 0x0001.
Definition IFF_TAP : Z := 0x0002.
Definition IFF_NO_PI : Z := 0x1000.
Definition IFNAMSIZ : Z := 16.
Definition TUNSETIFF : Z := 0x400454ca.

(** The characters before the first NUL; [data()] of a string has one after its end. *)
Fixpoint c_string (s : list byte) : list byte :=
  match s with
  | [] => []
  | c :: s => if Z_of_byte c =? 0 then [] else c :: c_string s
  end.

(** [strncpy(dst, src, n)]: at most [n] characters, padded with NULs. *)
Definition strncpy (dst src : list byte) (n : Z) : list byte :=
  resize n (ztake n (c_string src)) ++ zdrop n dst.

(** [tun_req], from [struct ifreq tun_req {}] to the call *)
Definition request (devname : string) (is_tun : bool) : ifreq :=
  let ifr_flags := Z.lor (if is_tun then IFF_TUN else IFF_TAP) IFF_NO_PI in
  let ifr_name := strncpy (replicate (Z.to_nat IFNAMSIZ) x00) (string_bytes devname) (IFNAMSIZ - 1) in
  let ifr_name := <[Z.to_nat (IFNAMSIZ - 1) := x00]> ifr_name in
  mk_ifreq ifr_name ifr_flags.

Definition new {K} `{Kernel K} (devname : string) (is_tun : bool) : M (Sys.t K) nat :=
  let* r := Sys.call (sys_open CLONEDEV O_RDWR) in
  let* fd := of_outcome (SystemCall "open" r 0) in
  let* self := FileDescriptor.new fd in
  let* fd := FileDescriptor.fd_num self in
  let* r := Sys.call (sys_ioctl fd TUNSETIFF (request devname is_tun)) in
  let* _ := of_outcome (SystemCall "ioctl" r 0) in
  pure self.

(** ** The request *)

Lemma c_string_no_nul s : Forall (fun c => Z_of_byte c <> 0) (c_string s).
Proof.
  induction s as [|c s IH]; simpl; [done |]. destruct (Z.eqb_spec (Z_of_byte c) 0); [done |]. by constructor.
Qed.

Lemma c_string_terminated s rest : Forall (fun c => Z_of_byte c <> 0) s -> c_string (s ++ x00 :: rest) = s.
Proof.
  induction 1 as [|c s Hc _ IH]; simpl; [done |]. by rewrite (proj2 (Z.eqb_neq _ _) Hc), IH.
Qed.

Lemma request_name devname is_tun :
  let name := ztake 15 (c_string (string_bytes devname)) in
  ifr_name (request devname is_tun) = name ++ replicate (Z.to_nat (16 - len name)) x00.
Proof.
  intros name. unfold request, strncpy, ifr_name, IFNAMSIZ. cbv zeta.
  change (16 - 1) with 15. fold name. assert (Hn : len name <= 15) by (unfold name; rewrite len_ztake; lia).
  pose proof (len_nonneg name). unfold resize. rewrite (ztake_ge 15 name) by lia.
  change (zdrop 15 _) with [x00]. rewrite insert_app_r_alt.
  2:{ rewrite length_app, length_replicate. unfold len in *. lia. }
  rewrite length_app, length_replicate. replace (_ - _)%nat with O by (unfold len in *; lia). simpl.
  rewrite <- app_assoc. f_equal. replace (Z.to_nat (16 - len name)) with (Z.to_nat (15 - len name) + 1)%nat by lia.
  by rewrite replicate_add.
Qed.

(** The name in the request is an array of sixteen characters that ends in a NUL, and the C
    string in it is the device's name, cut to fifteen characters. *)
Lemma device_named devname is_tun :
  len (ifr_name (request devname is_tun)) = IFNAMSIZ /\
  c_string (ifr_name (request devname is_tun)) = ztake 15 (c_string (string_bytes devname)).
Proof.
  rewrite request_name. set (name := ztake 15 _). assert (Hn : len name <= 15) by (unfold name; rewrite len_ztake; lia).
  split.
  - rewrite len_app. unfold len at 2. rewrite length_replicate. unfold IFNAMSIZ. lia.
  - replace (Z.to_nat (16 - len name)) with (S (Z.to_nat (15 - len name))) by lia. simpl.
    apply c_string_terminated. unfold name, ztake. apply Forall_take, c_string_no_nul.
Qed.

Example tun144_request :
  request "tun144" true = mk_ifreq [x74; x75; x6e; x31; x34; x34; x00; x00; x00; x00; x00; x00; x00; x00; x00; x00] 0x1001.
Proof. reflexivity. Qed.
End TunTapFD.

Module TunFD.
Definition new {K} `{Kernel K} (devname : string) : M (Sys.t K) nat := TunTapFD.new devname true.
End TunFD.

Module TapFD.
Definition new {K} `{Kernel K} (devname : string) : M (Sys.t K) nat := TunTapFD.new devname false.
End TapFD.
