(* ===== verification/fd_adapter.v ===== *)
(** * tcp_helpers: adapters between TCP segments and datagrams

    [FdAdapterConfig] (tcp_config.hh), [FdAdapterBase] and [TCPOverUDPSocketAdapter]
    (fd_adapter), [TCPOverIPv4Adapter] (tcp_over_ip), the TUN and the Ethernet
    adapters (tuntap_adapter) and [LossyFdAdapter].  An adapter owns a device, a
    handle of the system [Sys]; its operations run on the system and on its own
    state. *)

From S2P Require Import prelude buffer parser wire_format checksum wrapping_integers tcp_segment ethernet arp_message ipv4 address network_interface file_descriptor.

(** An object and the system it talks to. *)
Module World.
Section world.
Context {K A : Type}.
Record t : Type := mk { sys : Sys.t K; obj : A }.
Definition eta (w : t) : t := mk (sys w) (obj w).
#[global] Instance set_sys : Setter sys := ltac:(derive_setter eta sys).
#[global] Instance set_obj : Setter obj := ltac:(derive_setter eta obj).
End world.
Arguments t K A : clear implicits.
End World.

Module FdAdapterConfig.
Record t : Type := mk {
  source : Address.t;
  destination : Address.t;
  loss_rate_dn : Z;
  loss_rate_up : Z
}.
Definition eta (c : t) : t := mk (source c) (destination c) (loss_rate_dn c) (loss_rate_up c).
#[global] Instance set_source : Setter source := ltac:(derive_setter eta source).
#[global] Instance set_destination : Setter destination := ltac:(derive_setter eta destination).

(** [FdAdapterConfig{}]: both addresses are [{"0", 0}]. *)
Definition default `{Address.Netdb} : outcome t :=
  source ← Address.of_ip_port "0" 0;
  destination ← Address.of_ip_port "0" 0;
  Ok (mk source destination 0 0).
End FdAdapterConfig.

Module FdAdapterBase.
Record t : Type := mk { _cfg : FdAdapterConfig.t; _listen : bool }.
Definition eta (b : t) : t := mk (_cfg b) (_listen b).
#[global] Instance set_cfg : Setter _cfg := ltac:(derive_setter eta _cfg).
#[global] Instance set_listen : Setter _listen := ltac:(derive_setter eta _listen).

Definition new `{Address.Netdb} : outcome t := cfg ← FdAdapterConfig.default; Ok (mk cfg false).

Definition set_listening (l : bool) : t -> t := setf _listen l.
Definition listening (b : t) : bool := _listen b.
Definition config (b : t) : FdAdapterConfig.t := _cfg b.
(** [config_mut() = c] *)
Definition set_config (c : FdAdapterConfig.t) : t -> t := setf _cfg c.
(** [tick(const size_t)]: nothing to do *)
Definition tick (ms_since_last_tick : Z) (b : t) : t := b.
End FdAdapterBase.

(** ** TCP in IPv4 *)

Module TCPOverIPv4Adapter.
Section over_ip.
Context `{Address.Netdb}.
Import FdAdapterConfig FdAdapterBase.

(** The second half of [unwrap_tcp_in_ip]: the ports, and the peer of a listening end. *)
Definition accept_segment (hdr : IPv4Header.t) (tcp_seg : TCPSegment.t) : M FdAdapterBase.t (option TCPSegment.t) :=
  let h := TCPSegment.header tcp_seg in
  let* listening := asks listening in
  let* cfg := asks config in
  (* is the TCP segment for us? *)
  let* port := of_outcome (Address.port (source cfg)) in
  if negb (TCPHeader.dport h =? port) then pure None else
  (* should we target this source in reply? *)
  let* go :=
    (if listening then
       if TCPHeader.syn h && negb (TCPHeader.rst h) then
         let* port := of_outcome (Address.port (source cfg)) in
         let* src := of_outcome (Address.of_ip_port (Address.inet_ntoa (be_bytes 4 (IPv4Header.dst hdr))) port) in
         _cfg %= setf source src ;;
         let* dst := of_outcome
           (Address.of_ip_port (Address.inet_ntoa (be_bytes 4 (IPv4Header.src hdr))) (TCPHeader.sport h)) in
         _cfg %= setf destination dst ;;
         _listen ::= false ;;
         pure true
       else pure false
     else pure true) in
  if negb go then pure None else
  (* is the TCP segment from our peer? *)
  let* cfg := asks config in
  let* port := of_outcome (Address.port (destination cfg)) in
  if negb (TCPHeader.sport h =? port) then pure None else
  pure (Some tcp_seg).

Definition unwrap_tcp_in_ip (ip_dgram : IPv4Datagram.t) : M FdAdapterBase.t (option TCPSegment.t) :=
  let hdr := IPv4Datagram.header ip_dgram in
  let* listening := asks listening in
  let* cfg := asks config in
  (* is the IPv4 datagram for us? *)
  let* for_us :=
    (if listening then pure true
     else let* ip := of_outcome (Address.ipv4_numeric (source cfg)) in pure (IPv4Header.dst hdr =? ip)) in
  if negb for_us then pure None else
  (* is the IPv4 datagram from our peer? *)
  let* from_peer :=
    (if listening then pure true
     else let* ip := of_outcome (Address.ipv4_numeric (destination cfg)) in pure (IPv4Header.src hdr =? ip)) in
  if negb from_peer then pure None else
  (* does the IPv4 datagram claim that its payload is a TCP segment? *)
  if negb (IPv4Header.proto hdr =? IPv4Header.PROTO_TCP) then pure None else
  (* is the payload a valid TCP segment? *)
  let* buffer := of_outcome (BufferList.to_Buffer (IPv4Datagram.payload ip_dgram)) in
  let* (r, tcp_seg) := of_outcome (TCPSegment.parse buffer (IPv4Header.pseudo_cksum hdr) TCPSegment.default) in
  if bool_decide (r <> NoError) then pure None else
  accept_segment hdr tcp_seg.

(** [wrap_tcp_in_ip]: the segment with its ports, and the datagram. *)
Definition wrap_tcp_in_ip (seg : TCPSegment.t) (b : FdAdapterBase.t) : outcome (TCPSegment.t * IPv4Datagram.t) :=
  sport ← Address.port (source (config b));
  dport ← Address.port (destination (config b));
  let seg := upd TCPSegment._header (fun h => setf TCPHeader.dport dport (setf TCPHeader.sport sport h)) seg in
  src ← Address.ipv4_numeric (source (config b));
  dst ← Address.ipv4_numeric (destination (config b));
  let hdr := setf IPv4Header.dst dst (setf IPv4Header.src src IPv4Header.default) in
  let hdr := setf IPv4Header.len
    (u16 (IPv4Header.hlen hdr * 4 + TCPHeader.doff (TCPSegment.header seg) * 4 + Buffer.size (TCPSegment.payload seg)))
    hdr in
  payload ← TCPSegment.serialize (IPv4Header.pseudo_cksum hdr) seg;
  Ok (seg, IPv4Datagram.mk hdr payload).

(** *** Which segments belong to the connection *)

(** [d] carries the segment [seg], with a correct checksum. *)
Definition carries (d : IPv4Datagram.t) (seg : TCPSegment.t) : Prop :=
  IPv4Header.proto (IPv4Datagram.header d) = IPv4Header.PROTO_TCP /\
  exists buffer, BufferList.to_Buffer (IPv4Datagram.payload d) = Ok buffer /\
    TCPSegment.parse buffer (IPv4Header.pseudo_cksum (IPv4Datagram.header d)) TCPSegment.default = Ok (NoError, seg).

(** Source and destination are those of the connection ([sip], [sport] is this end),
    or, for a listening end, the segment opens a connection to its port. *)
Definition belongs (listen : bool) (sip sport dip dport : Z) (d : IPv4Datagram.t) (seg : TCPSegment.t) : Prop :=
  let hdr := IPv4Datagram.header d in
  let h := TCPSegment.header seg in
  TCPHeader.dport h = sport /\
  if listen then TCPHeader.syn h = true /\ TCPHeader.rst h = false
  else IPv4Header.dst hdr = sip /\ IPv4Header.src hdr = dip /\ TCPHeader.sport h = dport.

#[global] Instance belongs_dec listen sip sport dip dport d seg : Decision (belongs listen sip sport dip dport d seg).
Proof. unfold belongs. destruct listen; apply _. Defined.

(** The end [b] of a connection: where it is, and where its peer is. *)
Record endpoint (b : FdAdapterBase.t) (sip sport dip dport : Z) : Prop := {
  end_source : Address.inet (source (config b)) sip sport;
  end_destination : Address.inet (destination (config b)) dip dport
}.

(** What reading [seg] makes of [b]: a listening end adopts the peer. *)
Definition adopts (b b' : FdAdapterBase.t) (sport : Z) (d : IPv4Datagram.t) (seg : TCPSegment.t) : Prop :=
  if listening b then
    listening b' = false /\
    endpoint b' (IPv4Header.dst (IPv4Datagram.header d)) sport
      (IPv4Header.src (IPv4Datagram.header d)) (TCPHeader.sport (TCPSegment.header seg)) /\
    loss_rate_dn (config b') = loss_rate_dn (config b) /\ loss_rate_up (config b') = loss_rate_up (config b)
  else b' = b.

Context `{!Address.NetdbNumeric}.

Lemma pseudo_cksum_range h : 0 <= IPv4Header.pseudo_cksum h < 2 ^ 32.
Proof. unfold IPv4Header.pseudo_cksum. apply u32_range. Qed.

Section unwrap.
Context (b : FdAdapterBase.t) (sip sport dip dport : Z) (d : IPv4Datagram.t).
Hypothesis Hend : endpoint b sip sport dip dport.
Hypothesis Hr : IPv4Header.ranges (IPv4Datagram.header d).
Notation hdr := (IPv4Datagram.header d).
Notation mine := (belongs (listening b) sip sport dip dport d).

(** A segment that was found in a datagram with the right addresses. *)
Lemma accept_segment_correct seg (Q : option TCPSegment.t -> FdAdapterBase.t -> Prop) E :
  0 <= TCPHeader.sport (TCPSegment.header seg) < 2 ^ 16 ->
  (listening b = false -> IPv4Header.dst hdr = sip /\ IPv4Header.src hdr = dip) ->
  (~ mine seg -> Q None b) -> (forall b', mine seg -> adopts b b' sport d seg -> Q (Some seg) b') ->
  wpe (accept_segment hdr seg) Q E b.
Proof.
  intros Hsport Hips Hrej Hacc. destruct Hend as [Hsrc Hdst]. unfold adopts, belongs in *.
  pose proof (Address.inet_port_eq _ _ _ Hsrc) as Eps. pose proof (Address.inet_port_eq _ _ _ Hdst) as Epd.
  unfold accept_segment. do 4 wp_step. wp_step. eapply wp_of_outcome; [exact Eps |]. apply wp_if; intros C5.
  { wp_step. apply Hrej. apply negb_true_iff, Z.eqb_neq in C5. by intros [? _]. }
  apply negb_false_iff, Z.eqb_eq in C5. wp_step. destruct (listening b) eqn:El.
  - destruct (TCPHeader.syn (TCPSegment.header seg) && negb (TCPHeader.rst (TCPSegment.header seg))) eqn:C6.
    + apply andb_true_iff in C6 as [C6 C7%negb_true_iff].
      destruct (Address.of_ip_port_numeric (IPv4Header.dst hdr) sport) as (a1 & E1 & I1); [apply Hr | apply Hsrc |].
      destruct (Address.of_ip_port_numeric (IPv4Header.src hdr) (TCPHeader.sport (TCPSegment.header seg)))
        as (a2 & E2 & I2); [apply Hr | done |].
      wp_step. eapply wp_of_outcome; [exact Eps |]. wp_step. eapply wp_of_outcome; [exact E1 |]. wp_step. wp_step. wp_step.
      eapply wp_of_outcome; [exact E2 |]. do 5 wp_step. cbn [negb]. wp_step. wp_step. wp_step.
      eapply wp_of_outcome; [apply (Address.inet_port_eq _ _ _ I2) |]. rewrite Z.eqb_refl. cbn [negb]. wp_step.
      apply Hacc; [done |]. split; [done |]. split; [by split | done].
    + wp_step. cbn [negb]. wp_step. apply Hrej. intros (_ & Hs & Hr0). by rewrite Hs, Hr0 in C6.
  - destruct (Hips eq_refl). wp_step. cbn [negb]. wp_step. wp_step. wp_step. eapply wp_of_outcome; [exact Epd |].
    apply wp_if; intros C6; wp_step.
    + apply Hrej. apply negb_true_iff, Z.eqb_neq in C6. tauto.
    + apply Hacc; [| done]. apply negb_false_iff, Z.eqb_eq in C6. done.
Qed.

Lemma unwrap_correct buffer :
  BufferList.to_Buffer (IPv4Datagram.payload d) = Ok buffer -> Buffer.wf buffer ->
  exists r b', unwrap_tcp_in_ip d b = (Ok r, b') /\
    (forall seg, r = Some seg <-> carries d seg /\ mine seg) /\
    match r with Some seg => adopts b b' sport d seg | None => b' = b end.
Proof.
  intros Ebuf Hb. pose proof (Address.inet_numeric _ _ _ (end_source _ _ _ _ _ Hend)) as Es.
  pose proof (Address.inet_numeric _ _ _ (end_destination _ _ _ _ _ Hend)) as Ed.
  destruct (TCPSegment.segment_parse_total buffer (IPv4Header.pseudo_cksum hdr) TCPSegment.default)
    as (res & seg & Eseg & Hseg); [done | apply pseudo_cksum_range |].
  assert (Hcar : forall seg', carries d seg' -> IPv4Header.proto hdr = IPv4Header.PROTO_TCP /\ res = NoError /\ seg' = seg).
  { intros seg' (Hp & buf & Eb & Ep). rewrite Ebuf in Eb. injection Eb as <-. rewrite Eseg in Ep. by injection Ep. }
  apply (wp_run (unwrap_tcp_in_ip d) (fun r b' => (forall seg, r = Some seg <-> carries d seg /\ mine seg) /\
    match r with Some seg => adopts b b' sport d seg | None => b' = b end) b).
  assert (Hrej : (forall seg', carries d seg' -> ~ mine seg') ->
    (forall seg', None = Some seg' <-> carries d seg' /\ mine seg') /\ b = b).
  { intros Hn. split; [| done]. intros seg'. split; [done |]. intros [Hc Hbl]. by destruct (Hn seg'). }
  unfold unwrap_tcp_in_ip. do 5 wp_step.
  eapply (wp_mono _ (fun ok b' => b' = b /\ ok = (listening b || (IPv4Header.dst hdr =? sip)))).
  { destruct (listening b); [by wp_step |]. wp_step. eapply wp_of_outcome; [exact Es |]. by wp_step. }
  intros ok1 b1 [-> ->]. apply wp_if; intros C1.
  { wp_step. apply Hrej. intros seg' _ Hbl. apply negb_true_iff, orb_false_iff in C1 as [El C1]. rewrite El in Hbl.
    destruct Hbl as (_ & Hd & _). apply Z.eqb_neq in C1. lia. }
  wp_step. eapply (wp_mono _ (fun ok b' => b' = b /\ ok = (listening b || (IPv4Header.src hdr =? dip)))).
  { destruct (listening b); [by wp_step |]. wp_step. eapply wp_of_outcome; [exact Ed |]. by wp_step. }
  intros ok2 b2 [-> ->]. apply wp_if; intros C2.
  { wp_step. apply Hrej. intros seg' _ Hbl. apply negb_true_iff, orb_false_iff in C2 as [El C2]. rewrite El in Hbl.
    destruct Hbl as (_ & _ & Hd & _). apply Z.eqb_neq in C2. lia. }
  apply wp_if; intros C3.
  { wp_step. apply Hrej. intros seg' (Hp & _)%Hcar _. apply negb_true_iff, Z.eqb_neq in C3. done. }
  wp_step. eapply wp_of_outcome; [exact Ebuf |]. wp_step. eapply wp_of_outcome; [exact Eseg |].
  cbv beta iota. apply wp_if; intros C4.
  { wp_step. apply Hrej. intros seg' (_ & Hp & _)%Hcar _. apply bool_decide_eq_true in C4. done. }
  apply bool_decide_eq_false, dec_stable in C4. subst res. destruct (Hseg eq_refl) as [Hrange _].
  apply negb_false_iff in C1, C2, C3. apply Z.eqb_eq in C3. apply accept_segment_correct.
  - apply Hrange.
  - intros El. rewrite El in C1, C2. by apply Z.eqb_eq in C1, C2.
  - intros Hn. apply Hrej. by intros seg' (_ & _ & ->)%Hcar.
  - intros b' Hbl Had. split; [| done]. intros seg'. split; [| by intros [(_ & _ & ->)%Hcar _]].
    intros [= <-]. split; [| done]. split; [done | by exists buffer].
Qed.
End unwrap.

(** *** What is wrapped can be unwrapped by the peer *)

Definition addressed (sport dport : Z) (seg : TCPSegment.t) : TCPSegment.t :=
  upd TCPSegment._header (fun h => setf TCPHeader.dport dport (setf TCPHeader.sport sport h)) seg.

(** The same segment, up to the checksum and to where the payload is stored. *)
Definition same_segment (seg seg' : TCPSegment.t) : Prop :=
  (exists ck, TCPSegment.header seg' = setf TCPHeader.cksum ck (TCPSegment.header seg)) /\
  Buffer.str (TCPSegment.payload seg') = Buffer.str (TCPSegment.payload seg).

(** The same for a datagram that was parsed: a segment taken out of it is in range. *)
Lemma unwrap_parsed b sip sport dip dport buffer d :
  endpoint b sip sport dip dport -> Buffer.wf buffer ->
  IPv4Datagram.parse buffer IPv4Datagram.default = Ok (NoError, d) ->
  exists r b', unwrap_tcp_in_ip d b = (Ok r, b') /\
    (forall seg, r = Some seg <-> carries d seg /\ belongs (listening b) sip sport dip dport d seg) /\
    match r with
    | Some seg => adopts b b' sport d seg /\ TCPSegment.ranges UINT64_MAX seg
    | None => b' = b
    end.
Proof.
  intros Hend Hwf Ep. destruct (IPv4Datagram.parse_fresh_buffer _ Hwf) as (res & d0 & buf & Ep0 & Epl & Hbuf & Hacc).
  rewrite Ep in Ep0. injection Ep0 as <- <-.
  destruct (unwrap_correct b sip sport dip dport d) with (buffer := buf) as (r & b' & Eu & Hiff & Hr);
    [done | apply Hacc; done | by unfold IPv4Datagram.payload; rewrite Epl | done |].
  exists r, b'. split; [done |]. split; [done |]. destruct r as [seg|]; [| done]. split; [done |].
  destruct (proj1 (Hiff seg) eq_refl) as ((_ & buf' & Eb & Es) & _).
  unfold IPv4Datagram.payload in Eb. rewrite Epl in Eb. injection Eb as <-.
  destruct (TCPSegment.segment_parse_total buf (IPv4Header.pseudo_cksum (IPv4Datagram.header d)) TCPSegment.default)
    as (r' & seg' & Es' & Hs); [done | apply pseudo_cksum_range |]. rewrite Es in Es'. injection Es' as <- <-.
  destruct (Hs eq_refl) as [[? ? ? Hp] _]. split; try done. pose proof (Buffer.wf_len _ Hbuf). unfold UINT64_MAX. lia.
Qed.

Lemma pseudo_cksum_small h : IPv4Header.ranges h -> 0 <= IPv4Header.pseudo_cksum h < 2 ^ 24.
Proof.
  intros []. unfold IPv4Header.pseudo_cksum, IPv4Header.payload_length.
  change 0xffff with (Z.ones 16). rewrite !Z.land_ones, !Z.shiftr_div_pow2 by lia. unfold u16, u32. zarith.
Qed.

Lemma wrap_correct b sip sport dip dport seg :
  endpoint b sip sport dip dport -> TCPSegment.sendable seg ->
  exists d, wrap_tcp_in_ip seg b = Ok (addressed sport dport seg, d) /\ IPv4Datagram.wf d /\
    IPv4Header.src (IPv4Datagram.header d) = sip /\ IPv4Header.dst (IPv4Datagram.header d) = dip /\
    IPv4Header.proto (IPv4Datagram.header d) = IPv4Header.PROTO_TCP /\
    IPv4Header.ttl (IPv4Datagram.header d) = IPv4Header.DEFAULT_TTL /\
    forall d' ck t buffer,
      IPv4Datagram.header d' = setf IPv4Header.cksum ck (setf IPv4Header.ttl t (IPv4Datagram.header d)) ->
      BufferList.to_Buffer (IPv4Datagram.payload d') = Ok buffer -> Buffer.wf buffer ->
      Buffer.str buffer = BufferList.bytes (IPv4Datagram.payload d) ->
      exists seg', carries d' seg' /\ same_segment (addressed sport dport seg) seg'.
Proof.
  intros [Hsrc Hdst] [Hh Hsize]. unfold wrap_tcp_in_ip.
  rewrite (Address.inet_numeric _ _ _ Hsrc), (Address.inet_numeric _ _ _ Hdst).
  rewrite (Address.inet_port_eq _ _ _ Hsrc), (Address.inet_port_eq _ _ _ Hdst). cbn [mbind outcome_bind].
  fold (addressed sport dport seg). set (seg1 := addressed sport dport seg).
  destruct Hsrc as [Hsip Hsp _ _], Hdst as [Hdip Hdp _ _].
  assert (Hh1 : TCPHeader.wf (TCPSegment._header seg1)) by (destruct Hh; by split).
  assert (Hsize1 : len (Buffer.str (TCPSegment._payload seg1)) < 2 ^ 15) by done.
  set (hdr := setf IPv4Header.len _ _).
  pose proof (TCPHeader.wf_doff _ Hh1) as Hdoff. pose proof (len_nonneg (Buffer.str (TCPSegment._payload seg1))) as Hn.
  assert (Hlen : IPv4Header.len hdr = 20 + 4 * TCPHeader.doff (TCPSegment._header seg1) +
    len (Buffer.str (TCPSegment._payload seg1))).
  { change (IPv4Header.len hdr) with (u16 (5 * 4 + TCPHeader.doff (TCPSegment._header seg1) * 4 +
      len (Buffer.str (TCPSegment._payload seg1)))). rewrite u16_small; lia. }
  assert (Hr : IPv4Header.ranges hdr) by (split; first [rewrite Hlen; lia | exact Hsip | exact Hdip | by vm_compute]).
  destruct (TCPSegment.segment_serialize_eq (IPv4Header.pseudo_cksum hdr) seg1 Hh1 (pseudo_cksum_small hdr Hr) Hsize1)
    as (ck & bl & Ebl & Hck & Ebytes & _ & Hz).
  rewrite Ebl. cbn [mbind outcome_bind]. eexists. split; [done |]. rewrite BufferList.concatenate_bytes in Ebytes.
  split_and!; [| done | done | done | done |].
  { split; [by split | cbn [IPv4Datagram._header IPv4Datagram._payload]].
    rewrite Ebytes, Hlen, !len_app, TCPHeader.len_fixed_part, TCPHeader.len_options by exact (proj1 Hdoff).
    change (IPv4Header.hlen hdr) with 5.
    change (TCPHeader.doff (setf TCPHeader.cksum ck (TCPSegment._header seg1)))
      with (TCPHeader.doff (TCPSegment._header seg1)). lia. }
  intros d' ck' t buffer Ehdr Ebuf Hbuf Estr. cbn [IPv4Datagram.header IPv4Datagram.payload IPv4Datagram._header IPv4Datagram._payload] in *.
  assert (Epc : IPv4Header.pseudo_cksum (IPv4Datagram.header d') = IPv4Header.pseudo_cksum hdr) by (by rewrite Ehdr).
  rewrite Ebytes in Estr.
  destruct (TCPSegment.segment_parse_stored (IPv4Header.pseudo_cksum hdr) (setf TCPHeader.cksum ck (TCPSegment._header seg1))
    (Buffer.str (TCPSegment._payload seg1)) buffer TCPSegment.default) as (seg' & Es & Eh & Epl);
    [by destruct Hh1 | done | done | by rewrite Estr |].
  exists seg'. split; [| by split; [exists ck |]]. split; [by rewrite Ehdr |]. exists buffer. by rewrite Epc.
Qed.
End over_ip.
End TCPOverIPv4Adapter.

(** [std::numeric_limits<size_t>::max()]: the default limit of [read] *)
Definition no_limit : Z := UINT64_MAX.

(** ** The adapters *)

Module TCPOverUDPSocketAdapter.
Record t : Type := mk { base : FdAdapterBase.t; _sock : nat }.
Definition eta (a : t) : t := mk (base a) (_sock a).
#[global] Instance set_base : Setter base := ltac:(derive_setter eta base).

Section udp_adapter.
Context {K : Type} `{Kernel K} `{Address.Netdb}.
Import FdAdapterConfig FdAdapterBase.
Notation W := (World.t K TCPOverUDPSocketAdapter.t).

Definition new (sock : nat) : outcome TCPOverUDPSocketAdapter.t :=
  base ← FdAdapterBase.new; Ok (TCPOverUDPSocketAdapter.mk base sock).

Definition read : M W (option TCPSegment.t) :=
  let* sock := asks (fun w => _sock (World.obj w)) in
  let* datagram := zoom World.sys (UDPSocket.recv sock UDPSocket.default_mtu) in
  let* b := asks (fun w => base (World.obj w)) in
  (* is it for us? *)
  if negb (listening b) &&
     negb (Address.eqb (UDPSocket.source_address datagram) (destination (config b))) then pure None else
  (* is the payload a valid TCP segment? *)
  let* (r, seg) := of_outcome (TCPSegment.parse (Buffer.of_string (UDPSocket.payload datagram)) 0 TCPSegment.default) in
  if bool_decide (r <> NoError) then pure None else
  (* should we target this source in all future replies? *)
  if listening b then
    if TCPHeader.syn (TCPSegment.header seg) && negb (TCPHeader.rst (TCPSegment.header seg)) then
      zoom World.obj (base %= upd _cfg (setf destination (UDPSocket.source_address datagram))) ;;
      zoom World.obj (base %= set_listening false) ;;
      pure (Some seg)
    else pure None
  else pure (Some seg).

(** The segment keeps the ports it is given. *)
Definition write (seg : TCPSegment.t) : M W TCPSegment.t :=
  let* sock := asks (fun w => _sock (World.obj w)) in
  let* cfg := asks (fun w => config (base (World.obj w))) in
  let* sport := of_outcome (Address.port (source cfg)) in
  let* dport := of_outcome (Address.port (destination cfg)) in
  let seg := upd TCPSegment._header (fun h => setf TCPHeader.dport dport (setf TCPHeader.sport sport h)) seg in
  let* payload := of_outcome (TCPSegment.serialize 0 seg) in
  zoom World.sys (UDPSocket.sendto sock (destination cfg) (BufferViewList.of_BufferList payload)) ;;
  pure seg.
End udp_adapter.
End TCPOverUDPSocketAdapter.

Module TCPOverIPv4OverTunFdAdapter.
Record t : Type := mk { base : FdAdapterBase.t; _tun : nat }.
Definition eta (a : t) : t := mk (base a) (_tun a).
#[global] Instance set_base : Setter base := ltac:(derive_setter eta base).

Section tun_adapter.
Context {K : Type} `{Kernel K} `{Address.Netdb}.
Notation W := (World.t K t).

Definition new (tun : nat) : outcome t := base ← FdAdapterBase.new; Ok (mk base tun).

Definition read : M W (option TCPSegment.t) :=
  let* tun := asks (fun w => _tun (World.obj w)) in
  let* data := zoom World.sys (FileDescriptor.read tun no_limit) in
  let* (r, ip_dgram) := of_outcome (IPv4Datagram.parse (Buffer.of_string data) IPv4Datagram.default) in
  if bool_decide (r <> NoError) then pure None
  else zoom World.obj (zoom base (TCPOverIPv4Adapter.unwrap_tcp_in_ip ip_dgram)).

Definition write (seg : TCPSegment.t) : M W TCPSegment.t :=
  let* tun := asks (fun w => _tun (World.obj w)) in
  let* b := asks (fun w => base (World.obj w)) in
  let* (seg, dgram) := of_outcome (TCPOverIPv4Adapter.wrap_tcp_in_ip seg b) in
  let* bytes := of_outcome (IPv4Datagram.serialize dgram) in
  let* _ := zoom World.sys (FileDescriptor.write tun (BufferViewList.of_BufferList bytes) true) in
  pure seg.

Context `{!Address.NetdbNumeric}.
Import TCPOverIPv4Adapter.

(** A packet that the device delivers, at an endpoint. *)
Lemma tun_read_packet a sip sport dip dport (s s' : Sys.t K) packet :
  endpoint (base a) sip sport dip dport -> len packet < 2 ^ 64 ->
  FileDescriptor.read (_tun a) no_limit s = (Ok packet, s') ->
  exists r res d b', IPv4Datagram.parse (Buffer.of_string packet) IPv4Datagram.default = Ok (res, d) /\
    read (World.mk s a) = (Ok r, World.mk s' (setf base b' a)) /\
    (forall seg, r = Some seg <->
       res = NoError /\ carries d seg /\ belongs (FdAdapterBase.listening (base a)) sip sport dip dport d seg) /\
    match r with
    | Some seg => adopts (base a) b' sport d seg /\ TCPSegment.ranges UINT64_MAX seg
    | None => b' = base a
    end.
Proof.
  intros Hend Hlen Eread. pose proof (Buffer.wf_of_string packet Hlen) as Hwf.
  destruct (IPv4Datagram.parse_fresh _ Hwf) as (res & d & Ep & _).
  destruct (decide (res = NoError)) as [-> | Hne].
  - destruct (unwrap_parsed (base a) sip sport dip dport _ d Hend Hwf Ep) as (r & b' & Eu & Hiff & Hr).
    exists r, NoError, d, b'. split; [done |].
    split; [| split; [intros seg; rewrite Hiff; split; [by intros Hc; split | by intros [_ Hc]] | done]].
    apply wp_result. unfold read. do 4 wp_step. eapply wp_eq; [exact Eread |]. wp_step.
    eapply wp_of_outcome; [exact Ep |]. cbv beta iota. rewrite bool_decide_false by (intros Hn; by apply Hn).
    wp_step. wp_step. eapply wp_eq; [exact Eu | done].
  - exists None, res, d, (base a). split; [done |].
    split; [| split; [intros seg; split; [done | by intros [? _]] | done]].
    apply wp_result. unfold read. do 4 wp_step. eapply wp_eq; [exact Eread |]. wp_step.
    eapply wp_of_outcome; [exact Ep |]. cbv beta iota. rewrite bool_decide_true by done. wp_step. by destruct a.
Qed.
End tun_adapter.
End TCPOverIPv4OverTunFdAdapter.

Module TCPOverIPv4OverEthernetAdapter.
Record t : Type := mk {
  base : FdAdapterBase.t;
  _tap : nat;
  _interface : NetworkInterface.t;
  _next_hop : Address.t
}.
Definition eta (a : t) : t := mk (base a) (_tap a) (_interface a) (_next_hop a).
#[global] Instance set_base : Setter base := ltac:(derive_setter eta base).
#[global] Instance set_interface : Setter _interface := ltac:(derive_setter eta _interface).

Section ethernet_adapter.
Context {K : Type} `{Kernel K} `{Address.Netdb}.
Notation W := (World.t K t).

(** The constructor: a dummy frame is written to the TAP device. *)
Definition new (tap : nat) (eth_address : EthernetAddress) (ip_address next_hop : Address.t) : M (Sys.t K) t :=
  let* b := of_outcome FdAdapterBase.new in
  let dummy_frame := EthernetFrame.default in
  let* _ := FileDescriptor.write tap (BufferViewList.of_BufferList (EthernetFrame.serialize dummy_frame)) true in
  pure (mk b tap (NetworkInterface.new eth_address ip_address) next_hop).

(** [while (not _interface.frames_out().empty())]: a frame leaves the queue at
    every turn. *)
Fixpoint send_loop (fuel : nat) : M W unit :=
  let* frames := asks (fun w => NetworkInterface.frames_out (_interface (World.obj w))) in
  match frames with
  | [] => pure tt
  | frame :: rest =>
      match fuel with
      | O => throw OutOfFuel
      | S fuel =>
          let* tap := asks (fun w => _tap (World.obj w)) in
          let* _ := zoom World.sys
            (FileDescriptor.write tap (BufferViewList.of_BufferList (EthernetFrame.serialize frame)) true) in
          zoom World.obj (zoom _interface (NetworkInterface._frames_out ::= rest)) ;;
          send_loop fuel
      end
  end.

Definition send_pending : M W unit :=
  let* n := asks (fun w => length (NetworkInterface.frames_out (_interface (World.obj w)))) in
  send_loop n.

Definition read : M W (option TCPSegment.t) :=
  let* tap := asks (fun w => _tap (World.obj w)) in
  let* data := zoom World.sys (FileDescriptor.read tap no_limit) in
  let* (r, frame) := of_outcome (EthernetFrame.parse (Buffer.of_string data) EthernetFrame.default) in
  if bool_decide (r <> NoError) then pure None
  else
    let* ip_dgram := zoom World.obj (zoom _interface (NetworkInterface.recv_frame frame)) in
    send_pending ;;
    match ip_dgram with
    | Some ip_dgram => zoom World.obj (zoom base (TCPOverIPv4Adapter.unwrap_tcp_in_ip ip_dgram))
    | None => pure None
    end.

Definition tick (ms_since_last_tick : Z) : M W unit :=
  zoom World.obj (zoom _interface (NetworkInterface.tick ms_since_last_tick)) ;;
  send_pending.

Definition write (seg : TCPSegment.t) : M W TCPSegment.t :=
  let* b := asks (fun w => base (World.obj w)) in
  let* next_hop := asks (fun w => _next_hop (World.obj w)) in
  let* (seg, dgram) := of_outcome (TCPOverIPv4Adapter.wrap_tcp_in_ip seg b) in
  zoom World.obj (zoom _interface (NetworkInterface.send_datagram dgram next_hop)) ;;
  send_pending ;;
  pure seg.
End ethernet_adapter.
End TCPOverIPv4OverEthernetAdapter.

(** ** What a socket needs of an adapter: the members of [AdaptT] *)

Class FdAdapter (K A : Type) : Type := {
  adapter_fd : A -> nat;
  adapter_read : M (World.t K A) (option TCPSegment.t);
  adapter_write : TCPSegment.t -> M (World.t K A) TCPSegment.t;
  adapter_tick : Z -> M (World.t K A) unit;
  adapter_config : A -> FdAdapterConfig.t;
  adapter_set_config : FdAdapterConfig.t -> A -> A;
  adapter_set_listening : bool -> A -> A
}.

Section instances.
Context {K : Type} `{Kernel K} `{Address.Netdb}.

#[export] Instance udp_fd_adapter : FdAdapter K TCPOverUDPSocketAdapter.t := {|
  adapter_fd := TCPOverUDPSocketAdapter._sock;
  adapter_read := TCPOverUDPSocketAdapter.read;
  adapter_write := TCPOverUDPSocketAdapter.write;
  adapter_tick ms := zoom World.obj (TCPOverUDPSocketAdapter.base %= FdAdapterBase.tick ms);
  adapter_config a := FdAdapterBase.config (TCPOverUDPSocketAdapter.base a);
  adapter_set_config c := upd TCPOverUDPSocketAdapter.base (FdAdapterBase.set_config c);
  adapter_set_listening l := upd TCPOverUDPSocketAdapter.base (FdAdapterBase.set_listening l)
|}.

#[export] Instance tun_fd_adapter : FdAdapter K TCPOverIPv4OverTunFdAdapter.t := {|
  adapter_fd := TCPOverIPv4OverTunFdAdapter._tun;
  adapter_read := TCPOverIPv4OverTunFdAdapter.read;
  adapter_write := TCPOverIPv4OverTunFdAdapter.write;
  adapter_tick ms := zoom World.obj (TCPOverIPv4OverTunFdAdapter.base %= FdAdapterBase.tick ms);
  adapter_config a := FdAdapterBase.config (TCPOverIPv4OverTunFdAdapter.base a);
  adapter_set_config c := upd TCPOverIPv4OverTunFdAdapter.base (FdAdapterBase.set_config c);
  adapter_set_listening l := upd TCPOverIPv4OverTunFdAdapter.base (FdAdapterBase.set_listening l)
|}.

#[export] Instance ethernet_fd_adapter : FdAdapter K TCPOverIPv4OverEthernetAdapter.t := {|
  adapter_fd := TCPOverIPv4OverEthernetAdapter._tap;
  adapter_read := TCPOverIPv4OverEthernetAdapter.read;
  adapter_write := TCPOverIPv4OverEthernetAdapter.write;
  adapter_tick := TCPOverIPv4OverEthernetAdapter.tick;
  adapter_config a := FdAdapterBase.config (TCPOverIPv4OverEthernetAdapter.base a);
  adapter_set_config c := upd TCPOverIPv4OverEthernetAdapter.base (FdAdapterBase.set_config c);
  adapter_set_listening l := upd TCPOverIPv4OverEthernetAdapter.base (FdAdapterBase.set_listening l)
|}.
End instances.

(** ** Losses *)

(** A random number generator: [std::mt19937], seeded by [get_random_generator]. *)
Class Rng (G : Type) : Type := next : G -> Z * G.

(** [get_random_generator()]: the device [rd] fills the [state_size] words of the seed, in
    order; [mt19937] is the generator's constructor from a [seed_seq] of them. *)
Definition state_size : nat := 624.
Fixpoint generate {D} `{Rng D} (n : nat) (rd : D) : list Z * D :=
  match n with
  | O => ([], rd)
  | S n => let '(x, rd) := next rd in let '(l, rd) := generate n rd in (u32 x :: l, rd)
  end.
Definition get_random_generator {D G} `{Rng D} (mt19937 : list Z -> G) (rd : D) : G * D :=
  let '(seed_data, rd) := generate state_size rd in (mt19937 seed_data, rd).

(** Every word of the seed is drawn from the device. *)
Lemma generate_words {D} `{Rng D} n (rd : D) :
  length (generate n rd).1 = n /\ Forall (fun x => 0 <= x < 2 ^ 32) (generate n rd).1.
Proof.
  revert rd. induction n as [|n IH]; intros rd; [by split |]. cbn [generate]. destruct (next rd) as [x rd1].
  specialize (IH rd1). destruct (generate n rd1) as [l rd2]. simpl in IH. destruct IH as [El Hl]. split; [simpl; by rewrite El |].
  constructor; [apply u32_range | done].
Qed.

Module LossyFdAdapter.
Section lossy.
Context {K A G : Type} `{FdAdapter K A} `{Rng G}.

Record t : Type := mk { _rand : G; _adapter : A }.
Definition eta (a : t) : t := mk (_rand a) (_adapter a).
#[global] Instance set_rand : Setter _rand := ltac:(derive_setter eta _rand).
#[global] Instance set_adapter : Setter _adapter := ltac:(derive_setter eta _adapter).
Notation W := (World.t K t).

(** Run an operation of the underlying adapter. *)
Definition inner {B} (m : M (World.t K A) B) : M W B := fun w =>
  let '(o, w') := m (World.mk (World.sys w) (_adapter (World.obj w))) in
  (o, World.mk (World.sys w') (mk (_rand (World.obj w)) (World.obj w'))).

Definition _should_drop (uplink : bool) : M W bool :=
  let* cfg := asks (fun w => adapter_config (_adapter (World.obj w))) in
  let loss := if uplink then FdAdapterConfig.loss_rate_up cfg else FdAdapterConfig.loss_rate_dn cfg in
  if loss =? 0 then pure false
  else
    let* g := asks (fun w => _rand (World.obj w)) in
    let '(x, g) := next g in
    zoom World.obj (_rand ::= g) ;;
    pure (u16 x <? loss).

Definition read : M W (option TCPSegment.t) :=
  let* ret := inner adapter_read in
  let* drop := _should_drop false in
  if drop then pure None else pure ret.

Definition write (seg : TCPSegment.t) : M W TCPSegment.t :=
  let* drop := _should_drop true in
  if drop then pure seg else inner (adapter_write seg).

#[export] Instance lossy_fd_adapter : FdAdapter K t := {|
  adapter_fd a := adapter_fd (_adapter a);
  adapter_read := read;
  adapter_write := write;
  adapter_tick ms := inner (adapter_tick ms);
  adapter_config a := adapter_config (_adapter a);
  adapter_set_config c := upd _adapter (adapter_set_config c);
  adapter_set_listening l := upd _adapter (adapter_set_listening l)
|}.
End lossy.
Arguments t A G : clear implicits.
End LossyFdAdapter.

(** ** What a socket relies on

    An adapter that is in order ([adapter_ok]) reads its device once, returns
    segments whose fields are in range, touches no other descriptor, and fails with
    errors of the system only. *)

Definition in_order {K A} `{FdAdapter K A} (ok : A -> Prop) (w : World.t K A) : Prop :=
  ok (World.obj w) /\ is_Some (Sys.wrappers (World.sys w) !! adapter_fd (World.obj w)).

Record adapter_step {K A} `{FdAdapter K A} (ok : A -> Prop) (w w' : World.t K A) : Prop := {
  step_ok : ok (World.obj w');
  step_fd : adapter_fd (World.obj w') = adapter_fd (World.obj w);
  step_touches : FileDescriptor.touches (adapter_fd (World.obj w)) (World.sys w) (World.sys w')
}.

Class FdAdapterLaws (K A : Type) `{FdAdapter K A} : Type := {
  adapter_ok : A -> Prop;
  adapter_read_wp w f :
    adapter_ok (World.obj w) -> FileDescriptor.at_fd (World.sys w) (adapter_fd (World.obj w)) f ->
    wpe adapter_read (fun r w' => adapter_step adapter_ok w w' /\
        (exists f', FileDescriptor.at_fd (World.sys w') (adapter_fd (World.obj w)) f' /\
           FDWrapper._read_count f' = u32 (FDWrapper._read_count f + 1)) /\
        match r with Some seg => TCPSegment.ranges UINT64_MAX seg | None => True end)
      (fun e _ => FileDescriptor.io_error e) w;
  adapter_write_wp w seg :
    in_order adapter_ok w -> TCPSegment.sendable seg ->
    wpe (adapter_write seg) (fun _ w' => adapter_step adapter_ok w w') (fun e _ => FileDescriptor.io_error e) w;
  adapter_tick_wp w ms :
    in_order adapter_ok w -> 0 <= ms ->
    wpe (adapter_tick ms) (fun _ w' => adapter_step adapter_ok w w') (fun e _ => FileDescriptor.io_error e) w;
  adapter_listen_ok l a : adapter_ok a -> adapter_ok (adapter_set_listening l a);
  adapter_listen_fd l a : adapter_fd (adapter_set_listening l a) = adapter_fd a;
  adapter_config_fd c a : adapter_fd (adapter_set_config c a) = adapter_fd a
}.

Lemma adapter_step_refl {K A} `{FdAdapter K A} (ok : A -> Prop) (w : World.t K A) : ok (World.obj w) -> adapter_step ok w w.
Proof. by split. Qed.

Section port.
Context `{Address.Netdb}.

(** Printing an address fails only with the resolver's errors. *)
Lemma address_result a :
  match Address.ip_port a with Ok p => 0 <= p.2 < 2 ^ 16 | Throw e => FileDescriptor.io_error e end.
Proof.
  unfold Address.ip_port. destruct (Address.getnameinfo _ _ _) as [ret [ip p]].
  destruct (negb (ret =? 0)); [done |]. cbn [mbind outcome_bind].
  unfold std_stoi. destruct (span_string is_space p) as [? s].
  destruct (match s with String _ _ => _ | _ => _ end) as [sign s']. destruct (dec_value _); [| done].
  destruct (_ || _); [by right |]. cbn [mbind outcome_bind snd]. apply u16_range.
Qed.

Lemma port_result a :
  match Address.port a with Ok p => 0 <= p < 2 ^ 16 | Throw e => FileDescriptor.io_error e end.
Proof. unfold Address.port. pose proof (address_result a). by destruct (Address.ip_port a). Qed.

Lemma port_wp {S} a (Q : Z -> S -> Prop) (E : exn -> S -> Prop) s :
  (forall p, 0 <= p < 2 ^ 16 -> Q p s) -> (forall e, FileDescriptor.io_error e -> E e s) ->
  wpe (of_outcome (Address.port a)) Q E s.
Proof. intros HQ HE. unfold wpe, of_outcome. pose proof (port_result a). destruct (Address.port a); auto. Qed.

Lemma addressed_sendable sport dport seg :
  0 <= sport < 2 ^ 16 -> 0 <= dport < 2 ^ 16 -> TCPSegment.sendable seg ->
  TCPSegment.sendable (TCPOverIPv4Adapter.addressed sport dport seg).
Proof. intros Hs Hd [[] ?]. by split. Qed.
End port.

Section udp_laws.
Context {K : Type} `{Kernel K} `{Address.Netdb}.
Import TCPOverUDPSocketAdapter.

#[export, refine] Instance udp_laws : FdAdapterLaws K TCPOverUDPSocketAdapter.t := {| adapter_ok _ := True |}.
Proof.
  - intros [s [b sock]] f _ Hf. simpl in *. unfold read. do 4 wp_step. simpl World.sys. simpl World.obj.
    eapply UDPSocket.recv_wp; [exact Hf | | done]. intros src data k Hlen. wp_step. wp_step. simpl.
    set (s' := Sys.mk _ k _). unfold UDPSocket.default_mtu in Hlen.
    assert (Hstep : forall b', adapter_step (fun _ => True) (World.mk s (mk b sock)) (World.mk s' (mk b' sock))).
    { intros b'. split; [done | done |]. apply FileDescriptor.touches_step. by constructor. }
    assert (Hfd : exists f', FileDescriptor.at_fd s' sock f' /\
      FDWrapper._read_count f' = u32 (FDWrapper._read_count f + 1)).
    { eexists. split; [by eapply FileDescriptor.at_fd_step | done]. }
    apply wp_if; intros _; [wp_step; split; [apply Hstep | done] |].
    destruct (TCPSegment.segment_parse_total (Buffer.of_string data) 0 TCPSegment.default) as (r & seg & Eseg & Hseg);
      [apply Buffer.wf_of_string; lia | lia |].
    wp_step. eapply wp_of_outcome; [exact Eseg |]. cbv beta iota.
    apply wp_if; intros C; [wp_step; split; [apply Hstep | done] |].
    apply bool_decide_eq_false, dec_stable in C. destruct (Hseg C) as [[? ? ? Hp] _].
    assert (Hr : TCPSegment.ranges UINT64_MAX seg) by (split; try done; rewrite Buffer.str_of_string in Hp; unfold UINT64_MAX; lia).
    apply wp_if; intros _; [apply wp_if; intros _ |]; wp_steps; (split; [apply Hstep | done]).
  - intros [s a] seg [_ [f Hf]] Hsend. simpl in *. unfold write. do 5 wp_step. apply port_wp; [| done]. intros sport Hs.
    wp_step. apply port_wp; [| done]. intros dport Hd. cbv zeta.
    pose proof (addressed_sendable sport dport seg Hs Hd Hsend) as [Hh Hsize].
    destruct (TCPSegment.segment_serialize_eq 0 _ Hh ltac:(lia) Hsize) as (ck & bl & Ebl & _).
    wp_step. eapply wp_of_outcome; [exact Ebl |]. wp_step. wp_step.
    eapply UDPSocket.sendto_wp; [exact Hf | | done]. intros k. wp_step.
    split; [done | done |]. apply FileDescriptor.touches_step. by constructor.
  - intros [s a] ms [_ ?] _. simpl. wp_steps. split; [done | done |]. simpl. reflexivity.
  - done.
  - done.
  - done.
Defined.
End udp_laws.
Section tun_laws.
Context {K : Type} `{LinuxIO K} `{!Address.Netdb, !Address.NetdbNumeric}.
Import TCPOverIPv4Adapter TCPOverIPv4OverTunFdAdapter.

Definition tun_ok (a : TCPOverIPv4OverTunFdAdapter.t) : Prop :=
  exists sip sport dip dport, endpoint (base a) sip sport dip dport.

Lemma adopts_endpoint b b' sip sport dip dport d seg :
  endpoint b sip sport dip dport -> adopts b b' sport d seg -> exists sip' sport' dip' dport', endpoint b' sip' sport' dip' dport'.
Proof.
  intros Hb. unfold adopts. destruct (FdAdapterBase.listening b); [| intros ->; by eexists _, _, _, _].
  intros (_ & Hb' & _). by eexists _, _, _, _.
Qed.

Lemma tun_read_wp s a f :
  tun_ok a -> FileDescriptor.at_fd s (_tun a) f ->
  wpe read (fun r w' => adapter_step tun_ok (World.mk s a) w' /\
      (exists f', FileDescriptor.at_fd (World.sys w') (_tun a) f' /\
         FDWrapper._read_count f' = u32 (FDWrapper._read_count f + 1)) /\
      match r with Some seg => TCPSegment.ranges UINT64_MAX seg | None => True end)
    (fun e _ => FileDescriptor.io_error e) (World.mk s a).
Proof.
  intros (sip & sport & dip & dport & Hend) Hf.
  assert (Hread : wpe (FileDescriptor.read (_tun a) no_limit) (fun packet s' => len packet <= FileDescriptor.BUFFER_SIZE /\
      FileDescriptor.touches (_tun a) s s' /\
      exists f', FileDescriptor.at_fd s' (_tun a) f' /\ FDWrapper._read_count f' = u32 (FDWrapper._read_count f + 1))
    (fun e _ => FileDescriptor.io_error e) s).
  { eapply FileDescriptor.fd_read_wp; [exact Hf | done | | by intros]. intros data k Hlen. split; [lia |].
    split; [by apply FileDescriptor.touches_step; constructor |]. eexists. by split; [eapply FileDescriptor.at_fd_step |]. }
  unfold wpe in Hread. destruct (FileDescriptor.read (_tun a) no_limit s) as [[packet|e] s'] eqn:Er.
  - destruct Hread as (Hlen & Ht & Hf'). unfold FileDescriptor.BUFFER_SIZE in Hlen.
    destruct (tun_read_packet a sip sport dip dport s s' packet Hend ltac:(lia) Er)
      as (r & res & d & b' & _ & Eread & Hiff & Hr).
    eapply wp_eq; [exact Eread |]. split; [| split; [done |]].
    + split; [| done | done]. simpl.
      destruct r as [seg|]; [destruct Hr; by eapply adopts_endpoint | subst b'; by eexists _, _, _, _].
    + destruct r as [seg|]; [by destruct Hr | done].
  - unfold read, wpe, bind, asks, zoom. simpl. by rewrite Er.
Qed.

(** A write puts exactly the datagram on the device. *)
Lemma tun_write_wp s a f sip sport dip dport seg (Q : TCPSegment.t -> World.t K TCPOverIPv4OverTunFdAdapter.t -> Prop) :
  endpoint (base a) sip sport dip dport -> TCPSegment.sendable seg -> FileDescriptor.at_fd s (_tun a) f ->
  (forall d bl s' tr, wrap_tcp_in_ip seg (base a) = Ok (addressed sport dport seg, d) ->
     IPv4Datagram.serialize d = Ok bl -> len (BufferList.bytes bl) < 2 ^ 16 ->
     FileDescriptor.touches (_tun a) s s' -> Sys.trace s' = Sys.trace s ++ tr ->
     FileDescriptor.accepted (_tun a) tr = BufferList.bytes bl -> Q (addressed sport dport seg) (World.mk s' a)) ->
  wpe (write seg) Q (fun e _ => FileDescriptor.io_error e) (World.mk s a).
Proof.
  intros Hend Hseg Hf HQ.
  destruct (wrap_correct _ _ _ _ _ _ Hend Hseg) as (d & Ewrap & Hd & _).
  destruct (IPv4Datagram.datagram_parse_serialized d Hd) as (bl & ck & Ebl & _ & Hlen & _).
  assert (Eviews : mjoin (BufferViewList.of_BufferList bl) = BufferList.bytes bl) by apply BufferViewList.views_bytes.
  unfold write. do 5 wp_step. eapply wp_of_outcome; [exact Ewrap |]. cbv beta iota.
  wp_step. eapply wp_of_outcome; [exact Ebl |]. wp_step. wp_step.
  eapply FileDescriptor.write_loop_wp; [exact Hf | rewrite Eviews; lia | lia | rewrite Eviews; lia | lia | |]; rewrite Eviews.
  2:{ by intros. }
  intros n c k tr _ Hn _ (ds & -> & Hds) _. wp_step. rewrite Hn, ztake_ge in Hds by done.
  eapply HQ; [exact Ewrap | exact Ebl | done | | done | by rewrite FileDescriptor.accepted_puts].
  apply FileDescriptor.touches_step, Forall_fmap, Forall_forall. done.
Qed.

#[export, refine] Instance tun_laws : FdAdapterLaws K TCPOverIPv4OverTunFdAdapter.t := {| adapter_ok := tun_ok |}.
Proof.
  - intros [s a] f Hok Hf. by apply tun_read_wp.
  - intros [s a] seg [(sip & sport & dip & dport & Hend) [f Hf]] Hseg. eapply tun_write_wp; [done | done | exact Hf |].
    intros d bl s' tr _ _ _ Ht _ _. split; [by eexists _, _, _, _ | done | done].
  - intros [s a] ms [? ?] _. simpl. wp_steps. split; [by destruct a | done | simpl; reflexivity].
  - intros l a (sip & sport & dip & dport & []). exists sip, sport, dip, dport. by split.
  - done.
  - done.
Defined.
End tun_laws.

Section lossy_laws.
Context {K A G : Type} `{FdAdapterLaws K A} `{!Rng G}.
Import LossyFdAdapter.

Lemma inner_wp {B} (m : M (World.t K A) B) (Q : B -> World.t K (LossyFdAdapter.t A G) -> Prop) (E : exn -> Prop) s a :
  wpe m (fun r w => Q r (World.mk (World.sys w) (mk (_rand a) (World.obj w)))) (fun e _ => E e) (World.mk s (_adapter a)) ->
  wpe (inner m) Q (fun e _ => E e) (World.mk s a).
Proof. unfold wpe, inner. simpl. by destruct (m _) as [[] []]. Qed.

(** A decision to drop changes the generator alone. *)
Lemma should_drop_wp uplink (Q : bool -> World.t K (LossyFdAdapter.t A G) -> Prop) E s a :
  (forall drop g, Q drop (World.mk s (mk g (_adapter a)))) -> wpe (_should_drop uplink) Q E (World.mk s a).
Proof.
  intros HQ. unfold _should_drop. wp_step. wp_step. apply wp_if; intros _; [wp_step; destruct a; apply HQ |].
  wp_step. wp_step. destruct (next _) as [x g]. wp_steps. apply HQ.
Qed.

Lemma lossy_step s s' a a' g :
  adapter_step adapter_ok (World.mk s (_adapter a)) (World.mk s' a') ->
  adapter_step (fun a => adapter_ok (_adapter a)) (World.mk s a) (World.mk s' (mk g a')).
Proof. by intros []. Qed.

#[export, refine] Instance lossy_laws : FdAdapterLaws K (LossyFdAdapter.t A G) :=
  {| adapter_ok a := adapter_ok (_adapter a) |}.
Proof.
  - intros [s a] f Hok Hf. simpl. unfold read. wp_step. apply (inner_wp _ _ FileDescriptor.io_error).
    eapply wp_mono; [by apply (adapter_read_wp (World.mk s (_adapter a))) |].
    intros r [s' a'] (Hstep & Hf' & Hr). wp_step. apply should_drop_wp. intros drop g. 
    apply wp_if; intros _; wp_step; (split; [by apply lossy_step | done]).
  - intros [s a] seg [Hok Hf] Hseg. simpl. unfold write. wp_step. apply should_drop_wp. intros drop g. apply wp_if; intros _.
    + wp_step. apply lossy_step. by apply adapter_step_refl.
    + apply (inner_wp _ _ FileDescriptor.io_error). eapply wp_mono; [by apply (adapter_write_wp (World.mk s (_adapter a))) |].
      intros r [s' a'] Hstep. by apply lossy_step.
  - intros [s a] ms [Hok Hf] Hms. apply (inner_wp _ _ FileDescriptor.io_error).
    eapply wp_mono; [by apply (adapter_tick_wp (World.mk s (_adapter a))) |].
    intros r [s' a'] Hstep. by apply lossy_step.
  - intros l a. exact (adapter_listen_ok l (_adapter a)).
  - intros l a. exact (adapter_listen_fd l (_adapter a)).
  - intros c a. exact (adapter_config_fd c (_adapter a)).
Defined.

(** Without losses the adapter is the one it wraps. *)
Lemma lossless_transparent s (a : LossyFdAdapter.t A G) seg :
  FdAdapterConfig.loss_rate_up (adapter_config (_adapter a)) = 0 -> write seg (World.mk s a) = inner (adapter_write seg) (World.mk s a).
Proof. intros E. unfold write, bind, _should_drop, bind, asks. simpl. by rewrite E. Qed.
End lossy_laws.

(** ** Properties *)

Section properties.
Context `{!Address.Netdb, !Address.NetdbNumeric}.
Import FdAdapterBase TCPOverIPv4Adapter.

(** A segment put into a datagram is taken out of it by the peer, connected or listening
    for the segment's SYN, whatever time to live and checksum the header has by then. *)
Lemma wrapped_unwrapped a b aip ap bip bp x y z seg :
  endpoint a aip ap bip bp -> TCPSegment.sendable seg -> endpoint b x bp y z ->
  (if listening b
   then TCPHeader.syn (TCPSegment.header seg) = true /\ TCPHeader.rst (TCPSegment.header seg) = false
   else x = bip /\ y = aip /\ z = ap) ->
  exists d, wrap_tcp_in_ip seg a = Ok (addressed ap bp seg, d) /\ IPv4Datagram.wf d /\
    IPv4Header.dst (IPv4Datagram.header d) = bip /\
    IPv4Header.proto (IPv4Datagram.header d) = IPv4Header.PROTO_TCP /\
    IPv4Header.ttl (IPv4Datagram.header d) = IPv4Header.DEFAULT_TTL /\
    forall d' ck t pl, IPv4Datagram.header d' = setf IPv4Header.cksum ck (setf IPv4Header.ttl t (IPv4Datagram.header d)) ->
      IPv4Header.ranges (IPv4Datagram.header d') -> IPv4Datagram._payload d' = [pl] -> Buffer.wf pl ->
      Buffer.str pl = BufferList.bytes (IPv4Datagram.payload d) ->
      exists got b', unwrap_tcp_in_ip d' b = (Ok (Some got), b') /\ same_segment (addressed ap bp seg) got /\
        endpoint b' bip bp aip ap /\ listening b' = false.
Proof.
  intros Ha Hseg Hb Hfor.
  destruct (wrap_correct _ _ _ _ _ _ Ha Hseg) as (d & Ewrap & Hd & Esrc & Edst & Eproto & Ettl & Hcar).
  exists d. do 5 (split; [done |]). intros d' ck t pl Eh' Hr' Epl Hpl Estr.
  destruct (Hcar d' ck t pl) as (got & Hgot & Hsame); [done | by unfold IPv4Datagram.payload; rewrite Epl | done | done |].
  destruct (unwrap_correct b x bp y z d') with (buffer := pl) as (r & b' & Eu & Hiff & Hr);
    [done | done | by unfold IPv4Datagram.payload; rewrite Epl | done |].
  pose proof Hsame as ((ck' & Ehdr) & _). unfold IPv4Datagram.header in *.
  assert (Egot : r = Some got).
  { apply Hiff. split; [done |]. unfold belongs, IPv4Datagram.header. rewrite Ehdr, Eh'. split; [done |].
    destruct (listening b); [exact Hfor |]. destruct Hfor as (-> & -> & ->). done. }
  subst r. exists got, b'. do 2 (split; [done |]). unfold adopts, IPv4Datagram.header in Hr.
  destruct (listening b) eqn:El.
  - destruct Hr as (Hl & He & _). rewrite Eh', Ehdr in He. cbn in He. by rewrite Esrc, Edst in He.
  - subst b'. destruct Hfor as (-> & -> & ->). done.
Qed.

(** The same from the datagram's bytes. *)
Lemma wrapped_delivered a b aip ap bip bp x y z seg :
  endpoint a aip ap bip bp -> TCPSegment.sendable seg -> endpoint b x bp y z ->
  (if listening b
   then TCPHeader.syn (TCPSegment.header seg) = true /\ TCPHeader.rst (TCPSegment.header seg) = false
   else x = bip /\ y = aip /\ z = ap) ->
  exists d bl, wrap_tcp_in_ip seg a = Ok (addressed ap bp seg, d) /\ IPv4Datagram.wf d /\
    IPv4Datagram.serialize d = Ok bl /\ len (BufferList.bytes bl) < 2 ^ 16 /\
    forall buf, Buffer.wf buf -> Buffer.str buf = BufferList.bytes bl ->
      exists d' got b', IPv4Datagram.parse buf IPv4Datagram.default = Ok (NoError, d') /\
        unwrap_tcp_in_ip d' b = (Ok (Some got), b') /\ same_segment (addressed ap bp seg) got /\
        endpoint b' bip bp aip ap /\ listening b' = false.
Proof.
  intros Ha Hseg Hb Hfor.
  destruct (wrapped_unwrapped a b aip ap bip bp x y z seg Ha Hseg Hb Hfor) as (d & Ewrap & Hd & _ & _ & _ & Hun).
  destruct (IPv4Datagram.datagram_parse_serialized d Hd) as (bl & ck & Ebl & _ & Hlen & Hparse).
  exists d, bl. do 4 (split; [done |]). intros buf Hbuf Estr.
  destruct (Hparse buf IPv4Datagram.default Hbuf Estr) as (d' & Ed' & Eh' & Epl').
  destruct (IPv4Datagram.parse_fresh_buffer buf Hbuf) as (r0 & d1 & pl & Ep1 & Epl1 & Hpl & Hacc).
  rewrite Ed' in Ep1. injection Ep1 as <- <-.
  destruct (Hun d' ck (IPv4Header.ttl (IPv4Datagram.header d)) pl) as (got & b' & Eu & Hrest); [| by apply Hacc | done | done | |].
  { unfold IPv4Datagram.header. rewrite Eh'. by destruct (IPv4Datagram._header d). }
  { unfold IPv4Datagram.payload. rewrite <- Epl', Epl1, BufferList.bytes_cons. by rewrite app_nil_r. }
  exists d', got, b'. by split.
Qed.

(** Which segments reach the connection: an endpoint takes a segment out of a
    datagram exactly when the datagram carries one with a correct checksum, for its
    port, and (while it listens) the segment opens a connection, or (afterwards) all
    of the addresses and ports are those of the connection.  A listening endpoint
    adopts the peer's address and port and the address it was reached at, and no
    longer listens; in every other case it is left as it was. *)
Theorem unwrap_filters b sip sport dip dport d buffer :
  endpoint b sip sport dip dport -> IPv4Header.ranges (IPv4Datagram.header d) ->
  BufferList.to_Buffer (IPv4Datagram.payload d) = Ok buffer -> Buffer.wf buffer ->
  exists r b', unwrap_tcp_in_ip d b = (Ok r, b') /\
    (forall seg, r = Some seg <-> carries d seg /\ belongs (listening b) sip sport dip dport d seg) /\
    match r with Some seg => adopts b b' sport d seg | None => b' = b end.
Proof. intros Hend Hr. by apply unwrap_correct. Qed.

(** Delivery over TUN devices: writing a segment either fails with an error of the
    system, or puts one packet on the device from which the peer, connected or
    listening for the segment's SYN, reads the same segment (ports filled in, the
    checksum computed); the peer is then connected to the sender. *)
Theorem tun_delivers {K} `{LinuxIO K} (a b : TCPOverIPv4OverTunFdAdapter.t) aip ap bip bp x y z seg (s : Sys.t K) w :
  endpoint (TCPOverIPv4OverTunFdAdapter.base a) aip ap bip bp -> TCPSegment.sendable seg ->
  FileDescriptor.at_fd s (TCPOverIPv4OverTunFdAdapter._tun a) w ->
  endpoint (TCPOverIPv4OverTunFdAdapter.base b) x bp y z ->
  (if listening (TCPOverIPv4OverTunFdAdapter.base b)
   then TCPHeader.syn (TCPSegment.header seg) = true /\ TCPHeader.rst (TCPSegment.header seg) = false
   else x = bip /\ y = aip /\ z = ap) ->
  wpe (TCPOverIPv4OverTunFdAdapter.write seg)
    (fun _ w' => exists tr, Sys.trace (World.sys w') = Sys.trace s ++ tr /\
       forall sb sb' : Sys.t K,
         FileDescriptor.read (TCPOverIPv4OverTunFdAdapter._tun b) no_limit sb =
           (Ok (FileDescriptor.accepted (TCPOverIPv4OverTunFdAdapter._tun a) tr), sb') ->
         exists got b', TCPOverIPv4OverTunFdAdapter.read (World.mk sb b) = (Ok (Some got), World.mk sb' b') /\
           same_segment (addressed ap bp seg) got /\
           endpoint (TCPOverIPv4OverTunFdAdapter.base b') bip bp aip ap /\
           listening (TCPOverIPv4OverTunFdAdapter.base b') = false)
    (fun e _ => FileDescriptor.io_error e) (World.mk s a).
Proof.
  intros Ha Hseg Hw Hb Hfor.
  destruct (wrapped_delivered _ _ _ _ _ _ _ _ _ _ Ha Hseg Hb Hfor) as (d & bl & Ewrap & _ & Ebl & Hlen & Hdel).
  eapply tun_write_wp; [exact Ha | exact Hseg | exact Hw |].
  intros d0 bl0 s' tr Ewrap0 Ebl0 _ _ Etr Hacc. rewrite Ewrap in Ewrap0. injection Ewrap0 as <-.
  rewrite Ebl in Ebl0. injection Ebl0 as <-. exists tr. split; [exact Etr |]. intros sb sb'. rewrite Hacc. intros Eread.
  destruct (Hdel (Buffer.of_string (BufferList.bytes bl))) as (d' & got & b' & Ep & Eu & Hsame & Hend).
  { apply Buffer.wf_of_string. lia. } { apply Buffer.str_of_string. }
  exists got, (setf TCPOverIPv4OverTunFdAdapter.base b' b). split; [| by split].
  apply wp_result. unfold TCPOverIPv4OverTunFdAdapter.read. do 4 wp_step. eapply wp_eq; [exact Eread |]. wp_step.
  eapply wp_of_outcome; [exact Ep |]. cbv beta iota. rewrite bool_decide_false by (intros Hn; by apply Hn).
  wp_step. wp_step. eapply wp_eq; [exact Eu | done].
Qed.
End properties.

(** ** Witnesses *)

Definition sample_address (ip port : Z) : Address.t :=
  Address.mk Address.sizeof_sockaddr_in (Address.inet_bytes ip port ++ replicate 120 x00).
Definition sample_base (sip sport dip dport : Z) (listen : bool) : FdAdapterBase.t :=
  FdAdapterBase.mk (FdAdapterConfig.mk (sample_address sip sport) (sample_address dip dport) 0 0) listen.

Lemma sample_endpoint sip sport dip dport listen :
  0 <= sip < 2 ^ 32 -> 0 <= sport < 2 ^ 16 -> 0 <= dip < 2 ^ 32 -> 0 <= dport < 2 ^ 16 ->
  TCPOverIPv4Adapter.endpoint (sample_base sip sport dip dport listen) sip sport dip dport.
Proof. intros. by split; split; try done; eexists. Qed.

(** A client at 10.0.0.1:1000 opens a connection to port 80 of 10.0.0.2, where a
    server is listening. *)
Definition sample_client : FdAdapterBase.t := sample_base 0x0a000001 1000 0x0a000002 80 false.
Definition sample_server : FdAdapterBase.t := sample_base 0 80 0 0 true.
Definition sample_syn : TCPSegment.t :=
  TCPSegment.mk (setf TCPHeader.syn true TCPHeader.default) (Buffer.of_string []).
(** The server's copy of the datagram: its payload is in one buffer. *)
Definition sample_packet : IPv4Datagram.t :=
  match TCPOverIPv4Adapter.wrap_tcp_in_ip (H := Address.numeric_netdb) sample_syn sample_client with
  | Ok (_, d) => IPv4Datagram.mk (IPv4Datagram._header d) [Buffer.of_string (BufferList.bytes (IPv4Datagram._payload d))]
  | Throw _ => IPv4Datagram.default
  end.

Section witnesses.
#[local] Existing Instance Address.numeric_netdb.
#[local] Existing Instance Address.numeric_netdb_numeric.

Lemma unwrap_filters_witness : exists seg b',
  TCPOverIPv4Adapter.unwrap_tcp_in_ip sample_packet sample_server = (Ok (Some seg), b') /\
  TCPOverIPv4Adapter.adopts sample_server b' 80 sample_packet seg.
Proof.
  destruct (unwrap_filters sample_server 0 80 0 0 sample_packet (Buffer.of_string (BufferList.bytes (IPv4Datagram._payload sample_packet))))
    as (r & b' & E & _ & Hr).
  - by apply sample_endpoint.
  - vm_compute. by split.
  - vm_compute. reflexivity.
  - apply Buffer.wf_of_string. by vm_compute.
  - pose proof (f_equal (fun o => match fst o with Ok (Some _) => true | _ => false end) E) as Es.
    vm_compute in Es. destruct r as [seg|]; [| discriminate Es]. exists seg, b'. split; [exact E | exact Hr].
Defined.

(** The server reads what the client's device was given. *)
Lemma tun_delivers_witness :
  let k := Script.mk [] 1000 [] [] 0 in
  let s := Sys.mk [FDWrapper.mk 5 false false 0 0] k [] in
  exists w' got b', snd (TCPOverIPv4OverTunFdAdapter.write sample_syn
      (World.mk s (TCPOverIPv4OverTunFdAdapter.mk sample_client 0))) = w' /\
    (let sb := Sys.mk [FDWrapper.mk 6 false false 0 0]
       (Script.mk [FileDescriptor.accepted 0 (Sys.trace (World.sys w'))] 1000 [] [] 0) [] in
     fst (TCPOverIPv4OverTunFdAdapter.read (World.mk sb (TCPOverIPv4OverTunFdAdapter.mk sample_server 0))) = Ok (Some got)) /\
    TCPOverIPv4Adapter.same_segment (TCPOverIPv4Adapter.addressed 1000 80 sample_syn) got /\
    TCPOverIPv4Adapter.endpoint b' 0x0a000002 80 0x0a000001 1000.
Proof.
  intros k s. pose (a := TCPOverIPv4OverTunFdAdapter.mk sample_client 0).
  pose (b := TCPOverIPv4OverTunFdAdapter.mk sample_server 0).
  assert (Hok : wpe (TCPOverIPv4OverTunFdAdapter.write sample_syn)
    (fun _ w' => exists tr, Sys.trace (World.sys w') = Sys.trace s ++ tr /\
       forall sb sb' : Sys.t Script.t,
         FileDescriptor.read 0 no_limit sb = (Ok (FileDescriptor.accepted 0 tr), sb') ->
         exists got b', TCPOverIPv4OverTunFdAdapter.read (World.mk sb b) = (Ok (Some got), World.mk sb' b') /\
           TCPOverIPv4Adapter.same_segment (TCPOverIPv4Adapter.addressed 1000 80 sample_syn) got /\
           TCPOverIPv4Adapter.endpoint (TCPOverIPv4OverTunFdAdapter.base b') 0x0a000002 80 0x0a000001 1000 /\
           FdAdapterBase.listening (TCPOverIPv4OverTunFdAdapter.base b') = false)
    (fun e _ => FileDescriptor.io_error e) (World.mk s a)).
  { apply (tun_delivers a b 0x0a000001 1000 0x0a000002 80 0 0 0 sample_syn s (FDWrapper.mk 5 false false 0 0)).
    - by apply sample_endpoint.
    - split; [split; by vm_compute | by vm_compute].
    - reflexivity.
    - by apply sample_endpoint.
    - done. }
  assert (Eo : match fst (TCPOverIPv4OverTunFdAdapter.write sample_syn (World.mk s a)) with Ok _ => true | _ => false end = true)
    by (vm_compute; reflexivity).
  unfold wpe in Hok. destruct (TCPOverIPv4OverTunFdAdapter.write sample_syn (World.mk s a)) as [[seg|e] w'] eqn:Ew;
    [| discriminate Eo]. destruct Hok as (tr & Etr & Hread). cbn [app Sys.trace s] in Etr. rewrite <- Etr in Hread.
  set (sb := Sys.mk [FDWrapper.mk 6 false false 0 0]
    (Script.mk [FileDescriptor.accepted 0 (Sys.trace (World.sys w'))] 1000 [] [] 0) []).
  assert (Er : fst (FileDescriptor.read 0 no_limit sb) = Ok (FileDescriptor.accepted 0 (Sys.trace (World.sys w')))).
  { apply (f_equal snd) in Ew. unfold sb. cbn [snd] in Ew. rewrite <- Ew. vm_compute. reflexivity. }
  destruct (FileDescriptor.read 0 no_limit sb) as [o sb'] eqn:Erd. cbn [fst] in Er. subst o.
  destruct (Hread sb sb' Erd) as (got & b' & Eg & Hsame & Hend & _).
  exists w', got, (TCPOverIPv4OverTunFdAdapter.base b'). unfold a in Ew. rewrite Ew. split; [reflexivity |].
  split; [| split; [exact Hsame | exact Hend]]. cbv zeta. fold sb. fold b. rewrite Eg. reflexivity.
Defined.

(** A connected UDP adapter does not look at the ports of the TCP header: a segment from
    the peer's UDP address is taken although neither of its ports is the connection's. *)
Definition stray_segment : list byte :=
  match TCPSegment.serialize 0 (TCPOverIPv4Adapter.addressed 7 9 sample_syn) with
  | Ok bl => BufferList.concatenate bl
  | Throw _ => []
  end.
Lemma udp_ignores_ports :
  let k := Script.mk [] 0 [(sample_address 0x0a000002 80, stray_segment)] [] 0 in
  let w := World.mk (Sys.mk [FDWrapper.mk 5 false false 0 0] k []) (TCPOverUDPSocketAdapter.mk sample_client 0) in
  match fst (TCPOverUDPSocketAdapter.read w) with
  | Ok (Some seg) => TCPHeader.sport (TCPSegment.header seg) = 7 /\ TCPHeader.dport (TCPSegment.header seg) = 9
  | _ => False
  end.
Proof. vm_compute. auto. Qed.
End witnesses.
