(* ===== verification/ethernet_adapter.v ===== *)
(** * tcp_helpers/tuntap_adapter: what the Ethernet adapter promises

    [TCPOverIPv4OverEthernetAdapter] puts TCP over IPv4 over an Ethernet of which it
    sees a TAP device.  Here: the pending frames all leave and in order, the adapter
    satisfies what a socket relies on ([FdAdapterLaws]), so that the theorem about
    sockets holds of the full stack too, and a segment reaches a neighbour. *)

From S2P Require Import prelude buffer parser wire_format checksum wrapping_integers tcp_segment ethernet arp_message ipv4 address network_interface file_descriptor fd_adapter.

Import TCPOverIPv4Adapter TCPOverIPv4OverEthernetAdapter.

(** ** Sizes

    A frame is as long as its datagram and a header: far below the [size_t] the
    system call returns. *)

Definition small (payload : BufferList.t) : Prop := len (BufferList.bytes payload) < 2 ^ 17.

Definition small_frame (f : EthernetFrame.t) : Prop := small (EthernetFrame.payload f).

(** A datagram whose bytes, if it has any, are few. *)
Definition small_datagram (d : IPv4Datagram.t) : Prop := forall bl, IPv4Datagram.serialize d = Ok bl -> small bl.

Record fits (n : NetworkInterface.t) : Prop := {
  fits_frames : Forall small_frame (NetworkInterface._frames_out n);
  fits_waiting : map_Forall (fun _ l => Forall (fun p => small_datagram p.2) l) (NetworkInterface._waiting_internet_datagrams n)
}.

Lemma small_arp m : len (BufferList.bytes (BufferList.of_string m)) = len m.
Proof. unfold BufferList.of_string. rewrite BufferList.bytes_cons, Buffer.str_of_string. by rewrite app_nil_r. Qed.

Lemma fits_sends n dgram next_hop ip payload n' :
  NetworkInterface.wf n -> fits n -> Address.ipv4_numeric next_hop = Ok ip -> small_datagram dgram ->
  IPv4Datagram.serialize dgram = Ok payload ->
  NetworkInterface.sends n dgram next_hop ip payload n' -> fits n'.
Proof.
  intros Hwf [Hf Hw] Hip Hd Epl. unfold NetworkInterface.sends.
  destruct (NetworkInterface._arp_table n !! ip) as [e|].
  { intros ->. split; [| done]. apply Forall_app_2; [done |]. constructor; [by apply Hd | done]. }
  intros (request & waiting' & -> & Hreq). split; simpl.
  - apply Forall_app_2; [done |]. destruct (NetworkInterface._waiting_arp_response_ip_addr n !! ip).
    { by destruct Hreq as [-> _]. }
    destruct Hreq as (my_ip & msg & Emy & Emsg & -> & _). constructor; [| done].
    rewrite ARPMessage.arp_serialize_eq in Emsg; [| apply NetworkInterface.arp_request_wf; [done | | done]].
    2:{ by eapply Address.ipv4_numeric_range. }
    injection Emsg as <-. unfold small_frame, small. simpl. rewrite small_arp, ARPMessage.len_arp_image; [done |].
    apply NetworkInterface.arp_request_wf; [done | by eapply Address.ipv4_numeric_range | done].
  - apply map_Forall_insert_2; [| done]. apply Forall_app_2; [| by constructor].
    destruct (NetworkInterface._waiting_internet_datagrams n !! ip) as [l|] eqn:El; [exact (Hw _ _ El) | constructor].
Qed.

Lemma fits_learns n m n' :
  NetworkInterface.wf n -> fits n -> ARPMessage.wf m -> NetworkInterface.learns n m n' -> fits n'.
Proof.
  intros Hwf [Hf Hw] Hm (my_ip & payloads & Emy & Hpl & ->). split; simpl.
  - apply Forall_app_2; [done |]. apply Forall_app_2.
    + unfold NetworkInterface.reply_frames. destruct (_ && _); [| done]. constructor; [| done].
      unfold small_frame, small. simpl. rewrite small_arp, ARPMessage.len_arp_image; [done |].
      apply NetworkInterface.arp_reply_wf; [done | apply Hm | done | apply Hm].
    + apply Forall_map.
      assert (Hl : Forall (fun p => small_datagram p.2)
        (default [] (NetworkInterface._waiting_internet_datagrams n !! ARPMessage.sender_ip_address m))).
      { destruct (_ !! _) as [l|] eqn:El; [exact (Hw _ _ El) | constructor]. }
      clear - Hpl Hl. induction Hpl as [|p bl l bls Ep _ IH]; [constructor |].
      apply list.Forall_cons in Hl as [Hp Hl]. constructor; [by apply Hp | by apply IH].
  - by apply map_Forall_delete.
Qed.

Lemma fits_tick ms n n' : fits n -> NetworkInterface.tick ms n = (Ok tt, n') -> fits n'.
Proof.
  intros [Hf Hw]. rewrite NetworkInterface.tick_eq. intros [= <-]. split; [done |]. simpl.
  intros ip l. rewrite NetworkInterface.tick_datagrams. intros Hl. apply (Hw ip).
  destruct (NetworkInterface._waiting_arp_response_ip_addr n !! ip) as [w|]; [by destruct (w <=? ms) | done].
Qed.

(** ** Sending what is pending *)

Section laws.
Context {K : Type} `{LinuxIO K} `{!Address.Netdb, !Address.NetdbNumeric}.
Notation W := (World.t K TCPOverIPv4OverEthernetAdapter.t).

(** The bytes of the frames, one after the other. *)
Definition frames_bytes (frames : list EthernetFrame.t) : list byte :=
  mjoin ((fun f => BufferList.bytes (EthernetFrame.serialize f)) <$> frames).

(** A frame of the interface is a header and a small payload. *)
Definition can_send (f : EthernetFrame.t) : Prop := EthernetHeader.wf (EthernetFrame.header f) /\ small_frame f.

Lemma can_send_len f : can_send f -> len (BufferList.bytes (EthernetFrame.serialize f)) < 2 ^ 18.
Proof.
  intros [Hh Hs]. rewrite EthernetFrame.bytes_serialize, len_app, EthernetHeader.len_serialize by done.
  unfold small_frame, small, EthernetFrame.payload, EthernetHeader.LENGTH in *. lia.
Qed.

Lemma interface_can_send n : NetworkInterface.wf n -> fits n -> Forall can_send (NetworkInterface._frames_out n).
Proof.
  intros Hwf [Hf _]. pose proof (NetworkInterface.wf_frames n Hwf) as Hh.
  apply Forall_forall. intros f Hin. rewrite Forall_forall in Hf, Hh. split; [by apply Hh | by apply Hf].
Qed.

(** The state after the frames have gone: the queue is empty, the device has
    accepted their bytes in order, and nothing was read. *)
Record sent_pending (w w' : W) : Prop := {
  sp_obj : World.obj w' = setf _interface (setf NetworkInterface._frames_out [] (_interface (World.obj w))) (World.obj w);
  sp_touches : FileDescriptor.touches (_tap (World.obj w)) (World.sys w) (World.sys w');
  sp_fd : forall f, FileDescriptor.at_fd (World.sys w) (_tap (World.obj w)) f ->
    exists c, FileDescriptor.at_fd (World.sys w') (_tap (World.obj w)) (setf FDWrapper._write_count c f);
  sp_trace : exists tr, Sys.trace (World.sys w') = Sys.trace (World.sys w) ++ tr /\
    FileDescriptor.accepted (_tap (World.obj w)) tr = frames_bytes (NetworkInterface._frames_out (_interface (World.obj w)))
}.

Lemma sent_nothing s a : NetworkInterface._frames_out (_interface a) = [] -> sent_pending (World.mk s a) (World.mk s a).
Proof.
  intros Efr. split; simpl.
  - destruct a as [? ? [] ?]. simpl in *. by subst.
  - reflexivity.
  - intros f Hf. exists (FDWrapper._write_count f). by destruct f.
  - exists []. by rewrite app_nil_r, Efr.
Qed.

Lemma send_loop_wp fuel s a f :
  FileDescriptor.at_fd s (_tap a) f -> Forall can_send (NetworkInterface._frames_out (_interface a)) ->
  (length (NetworkInterface._frames_out (_interface a)) <= fuel)%nat ->
  wpe (send_loop fuel) (fun _ => sent_pending (World.mk s a)) (fun e _ => FileDescriptor.io_error e) (World.mk s a).
Proof.
  revert s a f. induction fuel as [|fuel IH]; intros s a f Hf Hsend Hfuel; cbn [send_loop]; wp_step; wp_step;
    unfold NetworkInterface.frames_out; simpl World.obj;
    destruct (NetworkInterface._frames_out (_interface a)) as [|frame rest] eqn:Efr; simpl in Hfuel; try lia.
  1, 2: by wp_step; apply sent_nothing.
  apply list.Forall_cons in Hsend as [Hframe Hrest]. pose proof (can_send_len _ Hframe) as Hlen.
  assert (Eviews : mjoin (BufferViewList.of_BufferList (EthernetFrame.serialize frame))
    = BufferList.bytes (EthernetFrame.serialize frame)) by apply BufferViewList.views_bytes.
  wp_step. wp_step. wp_step. wp_step. simpl World.sys.
  eapply FileDescriptor.write_loop_wp; [exact Hf | rewrite Eviews; lia | lia | rewrite Eviews; lia | lia | |]; rewrite Eviews;
    [| by intros].
  intros n c k tr _ Hn _ (ds & -> & Hds) _. rewrite Hn, ztake_ge in Hds by done.
  set (s1 := Sys.mk _ k _). do 4 wp_step.
  eapply wp_mono; [apply (IH s1 (setf _interface (setf NetworkInterface._frames_out rest (_interface a)) a)
    (setf FDWrapper._write_count c f)) |].
  - by apply (FileDescriptor.at_fd_update s _ f).
  - done.
  - simpl. lia.
  - intros [] [s2 a2] [Ho Ht Hfd (tr & Etr & Hacc)]. split; simpl in *.
    + rewrite Ho. by destruct a as [? ? [] ?].
    + transitivity s1; [| done]. apply FileDescriptor.touches_step, Forall_fmap, Forall_forall. done.
    + intros f' Hf'. destruct (Hfd (setf FDWrapper._write_count c f)) as [c' Hc'];
        [by apply (FileDescriptor.at_fd_update s _ f) |].
      exists c'. unfold FileDescriptor.at_fd in *. rewrite Hf in Hf'. injection Hf' as <-. by rewrite Hc'.
    + exists ((Put (_tap a) <$> ds) ++ tr). rewrite Etr. split; [by rewrite <- app_assoc |].
      rewrite FileDescriptor.accepted_app, FileDescriptor.accepted_puts, Hacc, Hds, Efr. done.
Qed.

Lemma send_pending_wp s a f :
  FileDescriptor.at_fd s (_tap a) f -> NetworkInterface.wf (_interface a) -> fits (_interface a) ->
  wpe send_pending (fun _ => sent_pending (World.mk s a)) (fun e _ => FileDescriptor.io_error e) (World.mk s a).
Proof.
  intros Hf Hwf Hfits. unfold send_pending. wp_step. wp_step.
  eapply send_loop_wp; [exact Hf | by apply interface_can_send | done].
Qed.

(** ** An adapter in order *)

Record eth_ok (a : TCPOverIPv4OverEthernetAdapter.t) : Prop := {
  eth_endpoint : exists sip sport dip dport, endpoint (base a) sip sport dip dport;
  eth_interface : NetworkInterface.wf (_interface a);
  eth_fits : fits (_interface a);
  eth_next_hop : exists ip, Address.ipv4_numeric (_next_hop a) = Ok ip
}.

Lemma wf_no_frames n : NetworkInterface.wf n -> NetworkInterface.wf (setf NetworkInterface._frames_out [] n).
Proof. by intros []. Qed.

Lemma fits_no_frames n : fits n -> fits (setf NetworkInterface._frames_out [] n).
Proof. by intros []. Qed.

(** After the frames have gone the adapter is in order again. *)
Lemma sent_step s a w' :
  eth_ok a -> sent_pending (World.mk s a) w' -> adapter_step eth_ok (World.mk s a) w'.
Proof.
  intros [He Hwf Hf Hn] [Ho Ht _ _]. split.
  - rewrite Ho. split; [done | by apply wf_no_frames | by apply fits_no_frames | done].
  - by rewrite Ho.
  - done.
Qed.

Lemma eth_new_interface a n : eth_ok a -> NetworkInterface.wf n -> fits n -> eth_ok (setf _interface n a).
Proof. by intros []. Qed.

(** A frame of any content: the interface stays in order. *)
Lemma recv_any n f b :
  NetworkInterface.wf n -> fits n -> NetworkInterface.received f b ->
  exists o n', NetworkInterface.recv_frame f n = (Ok o, n') /\ NetworkInterface.wf n' /\ fits n' /\
    match o with Some d => IPv4Datagram.parse b IPv4Datagram.default = Ok (NoError, d) | None => True end.
Proof.
  intros Hwf Hf Hb. destruct (NetworkInterface.for_us n f) eqn:Hu;
    [| rewrite NetworkInterface.recv_frame_not_for_us by done; by eexists _, _].
  destruct (decide (EthernetHeader.type (EthernetFrame.header f) = EthernetHeader.TYPE_IPv4)) as [Ht|Ht].
  { destruct (NetworkInterface.recv_frame_ipv4 n f b Hu Ht Hb) as (r & d & Ep & ->). eexists _, _. do 3 (split; [done |]).
    rewrite Ep. by case_bool_decide; subst. }
  destruct (decide (EthernetHeader.type (EthernetFrame.header f) = EthernetHeader.TYPE_ARP)) as [Ha|Ha].
  - destruct (NetworkInterface.recv_frame_arp n f b Hwf Hu Ha Hb) as (r & m & n' & _ & -> & Hr). exists None, n'.
    split; [done |]. case_bool_decide; [| by subst]. destruct Hr as [Hl Hm].
    split; [by eapply NetworkInterface.learns_wf |]. by split; [eapply fits_learns |].
  - rewrite NetworkInterface.recv_frame_other by done. by eexists _, _.
Qed.

(** Reading a packet: its frame goes to the interface, the frames that are due in
    answer go out, and the datagram of the frame, if it has one, is looked at. *)
Lemma eth_read_packet s s1 a f packet fr o n' (Q : option TCPSegment.t -> W -> Prop) (E : exn -> W -> Prop) :
  FileDescriptor.read (_tap a) no_limit s = (Ok packet, s1) -> FileDescriptor.at_fd s1 (_tap a) f ->
  EthernetFrame.parse (Buffer.of_string packet) EthernetFrame.default = Ok (NoError, fr) ->
  NetworkInterface.recv_frame fr (_interface a) = (Ok o, n') -> NetworkInterface.wf n' -> fits n' ->
  (forall e w, FileDescriptor.io_error e -> E e w) ->
  (forall w', sent_pending (World.mk s1 (setf _interface n' a)) w' ->
     wpe (match o with Some d => zoom World.obj (zoom base (unwrap_tcp_in_ip d)) | None => pure None end) Q E w') ->
  wpe read Q E (World.mk s a).
Proof.
  intros Er Hf Ep Erecv Hwf Hfits HE HQ. unfold read. do 4 wp_step. eapply wp_eq; [exact Er |].
  wp_step. eapply wp_of_outcome; [exact Ep |]. cbv beta iota. rewrite bool_decide_false by (intros Hn; by apply Hn).
  do 3 wp_step. eapply wp_eq; [exact Erecv |]. wp_step.
  eapply wp_mono_exn; [by apply (send_pending_wp s1 (setf _interface n' a) f) | | by intros e w; apply HE].
  intros [] w' Hsp. by apply HQ.
Qed.

Lemma eth_read_wp s a f :
  eth_ok a -> FileDescriptor.at_fd s (_tap a) f ->
  wpe read (fun r w' => adapter_step eth_ok (World.mk s a) w' /\
      (exists f', FileDescriptor.at_fd (World.sys w') (_tap a) f' /\
         FDWrapper._read_count f' = u32 (FDWrapper._read_count f + 1)) /\
      match r with Some seg => TCPSegment.ranges UINT64_MAX seg | None => True end)
    (fun e _ => FileDescriptor.io_error e) (World.mk s a).
Proof.
  intros Hok Hf.
  assert (Hread : wpe (FileDescriptor.read (_tap a) no_limit) (fun packet s1 => len packet <= FileDescriptor.BUFFER_SIZE /\
      FileDescriptor.touches (_tap a) s s1 /\ FileDescriptor.at_fd s1 (_tap a) (FileDescriptor.after_read f no_limit packet))
    (fun e _ => FileDescriptor.io_error e) s).
  { eapply FileDescriptor.fd_read_wp; [exact Hf | done | | by intros]. intros data k Hlen. split; [lia |].
    split; [by apply FileDescriptor.touches_step; constructor | by apply (FileDescriptor.at_fd_step _ f)]. }
  unfold wpe in Hread. destruct (FileDescriptor.read (_tap a) no_limit s) as [[packet|e] s1] eqn:Er.
  2:{ unfold read, wpe, bind, asks, zoom. simpl. by rewrite Er. }
  destruct Hread as (Hlen & Ht1 & Hf1). unfold FileDescriptor.BUFFER_SIZE in Hlen.
  destruct (EthernetFrame.frame_parse_total (Buffer.of_string packet) EthernetFrame.default) as (h & b & Ep & Hb);
    [apply Buffer.wf_of_string; lia |].
  destruct (recv_any (_interface a) (EthernetFrame.mk h [b]) b) as (o & n' & Erecv & Hwf' & Hfits' & Ho);
    [apply Hok | apply Hok | by split |].
  assert (Hok1 : eth_ok (setf _interface n' a)) by (by apply eth_new_interface).
  eapply eth_read_packet; [exact Er | exact Hf1 | exact Ep | exact Erecv | done | done | done |].
  intros [s' a'] Hsp. pose proof (sent_step _ _ _ Hok1 Hsp) as [Hok' Efd Ht']. simpl in *.
  destruct (sp_fd _ _ Hsp _ Hf1) as [c Hfd]. simpl in *.
  assert (Hcount : exists f', FileDescriptor.at_fd s' (_tap a) f' /\ FDWrapper._read_count f' = u32 (FDWrapper._read_count f + 1))
    by (by eexists; split; [exact Hfd |]).
  assert (Hstep : forall b', (exists sip sport dip dport, endpoint b' sip sport dip dport) ->
    adapter_step eth_ok (World.mk s a) (World.mk s' (setf base b' a'))).
  { intros b' Hb'. split; simpl; [by destruct Hok' | done | by transitivity s1]. }
  destruct o as [d|]; [| wp_step; split; [destruct a'; by apply Hstep; destruct Hok' | done]].
  destruct (eth_endpoint _ Hok') as (sip & sport & dip & dport & Hend).
  destruct (unwrap_parsed _ _ _ _ _ _ _ Hend Hb Ho) as (r & b' & Eu & _ & Hr).
  wp_step. wp_step. eapply wp_eq; [exact Eu |]. split; [| split; [done |]].
  - apply Hstep. destruct r as [seg|]; [destruct Hr; by eapply adopts_endpoint | subst b'; by eexists _, _, _, _].
  - destruct r as [seg|]; [by destruct Hr | done].
Qed.

(** A write, when the datagram has gone through the interface. *)
Lemma eth_write_wp s a f sip sport dip dport seg (Q : TCPSegment.t -> W -> Prop) :
  eth_ok a -> endpoint (base a) sip sport dip dport -> TCPSegment.sendable seg -> FileDescriptor.at_fd s (_tap a) f ->
  (forall d bl ip n' w', wrap_tcp_in_ip seg (base a) = Ok (addressed sport dport seg, d) ->
     IPv4Datagram.serialize d = Ok bl -> Address.ipv4_numeric (_next_hop a) = Ok ip ->
     NetworkInterface.send_datagram d (_next_hop a) (_interface a) = (Ok tt, n') -> eth_ok (setf _interface n' a) ->
     sent_pending (World.mk s (setf _interface n' a)) w' -> Q (addressed sport dport seg) w') ->
  wpe (write seg) Q (fun e _ => FileDescriptor.io_error e) (World.mk s a).
Proof.
  intros Hok Hend Hseg Hf HQ. destruct (eth_next_hop a Hok) as [ip Eip].
  destruct (wrap_correct _ _ _ _ _ _ Hend Hseg) as (d & Ewrap & Hd & _).
  destruct (IPv4Datagram.datagram_parse_serialized d Hd) as (bl & ck & Ebl & _ & Hlen & _).
  destruct (NetworkInterface.send_datagram_sends (_interface a) d (_next_hop a) ip bl) as (n' & Es & Hs);
    [apply Hok | done | done |].
  assert (Hn' : eth_ok (setf _interface n' a)).
  { apply eth_new_interface; [done | |].
    - eapply NetworkInterface.sends_wf; [apply Hok | exact Eip | exact Ebl | exact Hs].
    - eapply fits_sends; [apply Hok | apply Hok | exact Eip | | exact Ebl | exact Hs].
      intros bl' Ebl'. rewrite Ebl in Ebl'. injection Ebl' as <-. unfold small. lia. }
  unfold write. do 5 wp_step. eapply wp_of_outcome; [exact Ewrap |]. cbv beta iota.
  do 3 wp_step. eapply wp_eq; [exact Es |]. wp_step.
  eapply wp_mono; [apply (send_pending_wp s (setf _interface n' a) f); [done | apply Hn' | apply Hn'] |].
  intros [] w' Hsp. wp_step. by eapply HQ.
Qed.

#[export, refine] Instance ethernet_laws : FdAdapterLaws K TCPOverIPv4OverEthernetAdapter.t := {| adapter_ok := eth_ok |}.
Proof.
  - intros [s a] f Hok Hf. by apply eth_read_wp.
  - intros [s a] seg [Hok [f Hf]] Hseg. destruct (eth_endpoint a Hok) as (sip & sport & dip & dport & Hend).
    eapply eth_write_wp; [exact Hok | exact Hend | done | exact Hf |].
    intros d bl ip n' w' _ _ _ _ Hn' Hsp. destruct (sent_step _ _ _ Hn' Hsp). by split.
  - intros [s a] ms [Hok [f Hf]] Hms. destruct (NetworkInterface.tick ms (_interface a)) as [o n'] eqn:Et.
    assert (o = Ok tt) as -> by (rewrite NetworkInterface.tick_eq in Et; by injection Et).
    assert (Hn' : eth_ok (setf _interface n' a)).
    { apply eth_new_interface; [done | |].
      - eapply NetworkInterface.tick_wf; [apply Hok | exact Hms | exact Et].
      - eapply fits_tick; [apply Hok | exact Et]. }
    simpl. unfold tick. do 3 wp_step. eapply wp_eq; [exact Et |].
    eapply wp_mono; [apply (send_pending_wp s (setf _interface n' a) f); [done | apply Hn' | apply Hn'] |].
    intros [] w' Hsp. destruct (sent_step _ _ _ Hn' Hsp). by split.
  - intros l a [(sip & sport & dip & dport & []) ? ? ?]. split; [| done | done | done]. exists sip, sport, dip, dport. by split.
  - done.
  - done.
Defined.

(** ** Across an Ethernet *)

(** Between [s] and [s'] the device [h] was given the bytes [packet]. *)
Definition puts (h : nat) (s s' : Sys.t K) (packet : list byte) : Prop :=
  exists tr, Sys.trace s' = Sys.trace s ++ tr /\ FileDescriptor.accepted h tr = packet.

(** A frame put on a device is a packet that parses at the other end. *)
Lemma transmit_parse f f' :
  can_send f -> transmit f = Ok f' ->
  EthernetFrame.parse (Buffer.of_string (BufferList.bytes (EthernetFrame.serialize f))) EthernetFrame.default = Ok (NoError, f').
Proof.
  intros Hf. unfold transmit. rewrite BufferList.concatenate_bytes. pose proof (can_send_len f Hf).
  destruct (EthernetFrame.frame_parse_total (Buffer.of_string (BufferList.bytes (EthernetFrame.serialize f)))
    EthernetFrame.default) as (h & b & -> & _); [apply Buffer.wf_of_string; lia |]. by intros [= <-].
Qed.

Lemma read_at_fd (s s1 : Sys.t K) h f packet :
  FileDescriptor.at_fd s h f -> FileDescriptor.read h no_limit s = (Ok packet, s1) ->
  exists f1, FileDescriptor.at_fd s1 h f1.
Proof.
  intros Hf Er. assert (Hread : wpe (FileDescriptor.read h no_limit) (fun packet s1 => exists f1, FileDescriptor.at_fd s1 h f1)
    (fun _ _ => True) s).
  { eapply FileDescriptor.fd_read_wp; [exact Hf | done | | by intros].
    intros data k _. eexists. by apply (FileDescriptor.at_fd_step _ f). }
  unfold wpe in Hread. by rewrite Er in Hread.
Qed.

(** One frame was pending: the device is given its bytes. *)
Lemma sent_one s a w' f :
  sent_pending (World.mk s a) w' -> NetworkInterface._frames_out (_interface a) = [f] ->
  puts (_tap a) s (World.sys w') (BufferList.bytes (EthernetFrame.serialize f)) /\
  World.obj w' = setf _interface (settle true (_interface a)) a.
Proof.
  intros [Ho _ _ (tr & Etr & Hacc)] Ef. split; [| exact Ho]. exists tr. split; [exact Etr |]. simpl in *.
  rewrite Hacc, Ef. unfold frames_bytes. simpl. by rewrite app_nil_r.
Qed.

Lemma pending_can_send n (a : TCPOverIPv4OverEthernetAdapter.t) f :
  eth_ok (setf _interface n a) -> NetworkInterface._frames_out n = [f] -> can_send f.
Proof.
  intros Hok Ef. pose proof (interface_can_send n (eth_interface _ Hok) (eth_fits _ Hok)) as Hall.
  rewrite Ef in Hall. by inversion Hall.
Qed.

(** The datagram that a receiver finds in a frame is the one that its bytes parse into. *)
Lemma carried_datagram (a b : TCPOverIPv4OverEthernetAdapter.t) n n' bl frame f d :
  eth_ok (setf _interface n a) -> eth_ok b -> len (BufferList.bytes bl) < 2 ^ 16 ->
  frame = NetworkInterface.frame_to n (NetworkInterface._ethernet_address (_interface b)) EthernetHeader.TYPE_IPv4 bl ->
  transmit frame = Ok f -> NetworkInterface.recv_frame f n' = (Ok (Some d), n') ->
  exists buf, Buffer.wf buf /\ Buffer.str buf = BufferList.bytes bl /\
    IPv4Datagram.parse buf IPv4Datagram.default = Ok (NoError, d).
Proof.
  intros Ha Hb Hlen -> Et Er.
  destruct (transmit_frame n (NetworkInterface._ethernet_address (_interface b)) EthernetHeader.TYPE_IPv4 bl)
    as (buf & Et' & Hbuf & Estr); [apply Ha | apply Hb | done | lia |].
  rewrite Et in Et'. injection Et' as ->. exists buf. split; [done |]. split; [done |].
  destruct (NetworkInterface.for_us n' (EthernetFrame.mk (EthernetHeader.mk (NetworkInterface._ethernet_address (_interface b))
    (NetworkInterface._ethernet_address n) EthernetHeader.TYPE_IPv4) [buf])) eqn:Hu;
    [| rewrite NetworkInterface.recv_frame_not_for_us in Er by done; discriminate Er].
  destruct (NetworkInterface.recv_frame_ipv4 n' _ buf Hu eq_refl) as (r & d0 & Ep & Er0); [by split |].
  rewrite Er in Er0. rewrite Ep. case_bool_decide; by simplify_eq.
Qed.

(** With nothing pending nothing is sent. *)
Lemma send_pending_nothing (s : Sys.t K) a :
  NetworkInterface._frames_out (_interface a) = [] -> send_pending (World.mk s a) = (Ok tt, World.mk s a).
Proof. intros E. unfold send_pending, bind, asks, NetworkInterface.frames_out. simpl. rewrite E. simpl. unfold bind, asks, NetworkInterface.frames_out. simpl. by rewrite E. Qed.

(** A frame with a datagram and nothing to answer. *)
Lemma eth_read_quiet s s1 a packet fr r b' d :
  FileDescriptor.read (_tap a) no_limit s = (Ok packet, s1) ->
  EthernetFrame.parse (Buffer.of_string packet) EthernetFrame.default = Ok (NoError, fr) ->
  NetworkInterface._frames_out (_interface a) = [] ->
  NetworkInterface.recv_frame fr (_interface a) = (Ok (Some d), _interface a) ->
  unwrap_tcp_in_ip d (base a) = (Ok r, b') -> read (World.mk s a) = (Ok r, World.mk s1 (setf base b' a)).
Proof.
  intros Er Ep Efr Erecv Eu. apply wp_result. unfold read. do 4 wp_step. eapply wp_eq; [exact Er |].
  wp_step. eapply wp_of_outcome; [exact Ep |]. cbv beta iota. rewrite bool_decide_false by (intros Hn; by apply Hn).
  do 3 wp_step. eapply wp_eq; [exact Erecv |]. wp_step.
  change (setf World.obj _ _) with (World.mk s1 (setf _interface (_interface a) a)).
  eapply wp_eq; [by apply send_pending_nothing |]. wp_step. wp_step. eapply wp_eq; [exact Eu |]. by destruct a.
Qed.
End laws.

(** ** Properties *)

Section properties.
Context {K : Type} `{LinuxIO K} `{!Address.Netdb, !Address.NetdbNumeric}.
Import FdAdapterBase.

(** [C22] Delivery through the full stack: a host writes a segment for a peer whose Ethernet
    address it has yet to learn.  Its device is given one packet, a request; the peer,
    reading that packet, takes no segment from it and answers with one packet; the host,
    reading the answer, takes no segment from it and sends one packet more; and from that
    packet the peer, connected or listening for the segment's SYN, reads the same
    segment (ports filled in, the checksum computed) and is connected to the host.  Every
    step returns or fails with an error of the system. *)
Theorem full_stack_delivers a b aip ap bip bp x y z seg hop my_ip (s : Sys.t K) f :
  eth_ok a -> eth_ok b ->
  NetworkInterface.frames_out (_interface a) = [] -> NetworkInterface.frames_out (_interface b) = [] ->
  endpoint (base a) aip ap bip bp -> TCPSegment.sendable seg -> endpoint (base b) x bp y z ->
  (if listening (base b)
   then TCPHeader.syn (TCPSegment.header seg) = true /\ TCPHeader.rst (TCPSegment.header seg) = false
   else x = bip /\ y = aip /\ z = ap) ->
  Address.ipv4_numeric (_next_hop a) = Ok hop ->
  Address.ipv4_numeric (NetworkInterface.ip_address (_interface b)) = Ok hop ->
  NetworkInterface._arp_table (_interface a) !! hop = None ->
  NetworkInterface._waiting_arp_response_ip_addr (_interface a) !! hop = None ->
  Address.ipv4_numeric (NetworkInterface.ip_address (_interface a)) = Ok my_ip ->
  NetworkInterface._waiting_internet_datagrams (_interface b) !! my_ip = None ->
  FileDescriptor.at_fd s (_tap a) f ->
  wpe (write seg) (fun _ wa => exists request, puts (_tap a) s (World.sys wa) request /\
    forall sb sb1 fb, FileDescriptor.at_fd sb (_tap b) fb -> FileDescriptor.read (_tap b) no_limit sb = (Ok request, sb1) ->
    wpe read (fun r wb => r = None /\ exists answer, puts (_tap b) sb1 (World.sys wb) answer /\
      forall sa sa1 fa, FileDescriptor.at_fd sa (_tap a) fa -> FileDescriptor.read (_tap a) no_limit sa = (Ok answer, sa1) ->
      wpe read (fun r wa2 => r = None /\ exists frame, puts (_tap a) sa1 (World.sys wa2) frame /\
        forall sb2 sb3 fb2, FileDescriptor.at_fd sb2 (_tap b) fb2 -> FileDescriptor.read (_tap b) no_limit sb2 = (Ok frame, sb3) ->
        exists got b', read (World.mk sb2 (World.obj wb)) = (Ok (Some got), World.mk sb3 b') /\
          same_segment (addressed ap bp seg) got /\ endpoint (base b') bip bp aip ap /\ listening (base b') = false)
        (fun e _ => FileDescriptor.io_error e) (World.mk sa (World.obj wa)))
      (fun e _ => FileDescriptor.io_error e) (World.mk sb b))
    (fun e _ => FileDescriptor.io_error e) (World.mk s a).
Proof.
  intros Hoka Hokb Efa Efb Ha Hseg Hb Hfor Ehop Eip Ht Hw Emy Hwb Hf.
  destruct (wrapped_delivered _ _ _ _ _ _ _ _ _ _ Ha Hseg Hb Hfor) as (d & bl & Ewrap & Hd & Ebl & Hlen & Hdel).
  destruct (arp_exchange true (_interface a) (_interface b) (_next_hop a) hop d) as
    (bl' & a1 & b1 & a2 & request & answer & frame & f1 & f2 & f3 & rest & d' & Ebl' & Hex);
    [apply Hoka | apply Hokb | done | done | done | done | done |].
  rewrite Ebl in Ebl'. injection Ebl' as <-.
  destruct Hex as [Es _ [Ef1 Et1] Er1 (m1 & ip1 & Hm1 & Hl1 & _) [Ef2 Et2] Hrest Er2 (m2 & Hm2 & Hl2) (Ef3 & Et3 & Eframe) Er3 _].
  rewrite (Hrest my_ip Emy Hwb) in Ef2. unfold NetworkInterface.frames_out in Efa, Efb. rewrite Efa in Ef1. rewrite Efb in Ef2.
  eapply eth_write_wp; [exact Hoka | exact Ha | exact Hseg | exact Hf |].
  intros d0 bl0 ip n' wa E0 _ _ En Hok1 Hsp. rewrite Ewrap in E0. injection E0 as <-. rewrite Es in En. injection En as <-.
  assert (Hokb1 : eth_ok (setf _interface b1 b)).
  { apply eth_new_interface; [done | |].
    - eapply NetworkInterface.learns_wf; [apply Hokb | exact Hm1 | exact Hl1].
    - eapply fits_learns; [apply Hokb | apply Hokb | exact Hm1 | exact Hl1]. }
  destruct (sent_one _ _ _ _ Hsp Ef1) as [Hputs Ewa]. eexists. split; [exact Hputs |].
  intros sb sb1 fb Hfb Eread. destruct (read_at_fd _ _ _ _ _ Hfb Eread) as [fb1 Hfb1].
  pose proof (pending_can_send _ _ _ Hok1 Ef1) as Hs1.
  eapply eth_read_packet; [exact Eread | exact Hfb1 | by apply transmit_parse | exact Er1 | apply Hokb1 | apply Hokb1 | done |].
  intros wb Hspb. cbv iota. wp_step. split; [done |].
  destruct (sent_one _ _ _ _ Hspb Ef2) as [Hputsb Ewb]. eexists. split; [exact Hputsb |].
  intros sa sa1 fa Hfa Ereada. destruct (read_at_fd _ _ _ _ _ Hfa Ereada) as [fa1 Hfa1]. rewrite Ewa.
  assert (Hok2 : eth_ok (setf _interface a2 a)).
  { apply eth_new_interface; [done | |].
    - eapply (NetworkInterface.learns_wf (settle true a1)); [apply wf_settle, Hok1 | exact Hm2 | exact Hl2].
    - eapply (fits_learns (settle true a1)); [apply wf_settle, Hok1 | apply fits_no_frames, Hok1 | exact Hm2 | exact Hl2]. }
  pose proof (pending_can_send _ _ _ Hokb1 Ef2) as Hs2.
  eapply eth_read_packet; [exact Ereada | exact Hfa1 | by apply transmit_parse | exact Er2 | apply Hok2 | apply Hok2 | done |].
  intros wa2 Hspa. cbv iota. wp_step. split; [done |]. pose proof (pending_can_send _ _ _ Hok2 Ef3) as Hs3.
  destruct (sent_one _ _ _ _ Hspa Ef3) as [Hputsa _]. eexists. split; [exact Hputsa |].
  intros sb2 sb3 fb2 Hfb2 Eread2. pose proof (transmit_parse _ _ Hs3 Et3) as Ep3.
  destruct (carried_datagram _ _ _ _ _ _ _ _ Hok1 Hokb Hlen Eframe Et3 Er3) as (buf & Hbuf & Ebuf & Epd).
  destruct (Hdel buf Hbuf Ebuf) as (d1 & got & b' & Epd1 & Eu & Hsame & Hend). rewrite Epd in Epd1. injection Epd1 as <-.
  rewrite Ewb. exists got, (setf base b' (setf _interface (settle true b1) (setf _interface b1 b))).
  split; [| by split]. by eapply eth_read_quiet.
Qed.
End properties.

(** ** Witnesses *)

Section witnesses.
#[local] Existing Instance Address.numeric_netdb.
#[local] Existing Instance Address.numeric_netdb_numeric.

(** The client at 10.0.0.1 and the server at 10.0.0.2 are neighbours. *)
Definition client_host : TCPOverIPv4OverEthernetAdapter.t := mk sample_client 0 host_a (Address.of_ip 0x0a000002).
Definition server_host : TCPOverIPv4OverEthernetAdapter.t := mk sample_server 0 host_b (Address.of_ip 0x0a000001).

Lemma fits_new mac ip : fits (NetworkInterface.new mac ip).
Proof. split; [constructor | apply map_Forall_empty]. Qed.

Lemma client_host_ok : eth_ok client_host.
Proof.
  split; [eexists _, _, _, _; by apply sample_endpoint | apply host_a_wf | apply fits_new |].
  by exists 0x0a000002.
Qed.

Lemma server_host_ok : eth_ok server_host.
Proof.
  split; [eexists _, _, _, _; by apply sample_endpoint | apply host_b_wf | apply fits_new |].
  by exists 0x0a000001.
Qed.

Lemma sample_syn_sendable : TCPSegment.sendable sample_syn.
Proof. split; [split; by vm_compute | by vm_compute]. Qed.

(** A system whose device will be given [packets] to read. *)
Definition device (packets : list (list byte)) : Sys.t Script.t :=
  Sys.mk [FDWrapper.mk 5 false false 0 0] (Script.mk packets 2000 [] [] 0) [].

(** What a host has put on its device. *)
Definition output {A} (r : A * World.t Script.t TCPOverIPv4OverEthernetAdapter.t) : list byte :=
  FileDescriptor.accepted 0 (Sys.trace (World.sys (snd r))).

(** The client's request, on its device, and the server that reads it: the answer is
    one packet. *)
Lemma full_stack_delivers_witness :
  let r := write sample_syn (World.mk (device []) client_host) in
  wpe read (fun o wb => o = None /\
      exists answer, puts 0 (snd (FileDescriptor.read 0 no_limit (device [output r]))) (World.sys wb) answer)
    (fun e _ => FileDescriptor.io_error e) (World.mk (device [output r]) server_host).
Proof.
  cbv zeta. assert (Eo : match fst (write sample_syn (World.mk (device []) client_host)) with Ok _ => true | _ => false end = true)
    by (vm_compute; reflexivity).
  assert (Er : fst (FileDescriptor.read 0 no_limit (device [output (write sample_syn (World.mk (device []) client_host))]))
    = Ok (output (write sample_syn (World.mk (device []) client_host)))) by (vm_compute; reflexivity).
  pose proof (full_stack_delivers client_host server_host 0x0a000001 1000 0x0a000002 80 0 0 0 sample_syn 0x0a000002 0x0a000001
    (device []) (FDWrapper.mk 5 false false 0 0) client_host_ok server_host_ok eq_refl eq_refl
    (sample_endpoint 0x0a000001 1000 0x0a000002 80 false ltac:(lia) ltac:(lia) ltac:(lia) ltac:(lia)) sample_syn_sendable
    (sample_endpoint 0 80 0 0 true ltac:(lia) ltac:(lia) ltac:(lia) ltac:(lia)) (conj eq_refl eq_refl)
    eq_refl eq_refl eq_refl eq_refl eq_refl eq_refl eq_refl) as Hok.
  unfold wpe at 1 in Hok. unfold output in *.
  destruct (write sample_syn (World.mk (device []) client_host)) as [[seg|e] wa]; [| discriminate Eo].
  destruct Hok as (request & (tr & Etr & Hacc) & Hread). cbn [app Sys.trace device] in Etr. cbn [snd] in *.
  rewrite Etr in *. change (_tap client_host) with 0%nat in Hacc. rewrite Hacc in *.
  destruct (FileDescriptor.read 0 no_limit (device [request])) as [o sb1] eqn:Erd. cbn [fst] in Er. subst o.
  eapply wp_mono; [exact (Hread (device [request]) sb1 (FDWrapper.mk 5 false false 0 0) eq_refl Erd) |].
  intros o wb (Eo' & answer & Hputs & _). split; [exact Eo' |]. exists answer. exact Hputs.
Defined.

(** The four steps: the segment that the server reads in the end. *)
Definition four_steps : outcome (option TCPSegment.t) :=
  let r1 := write sample_syn (World.mk (device []) client_host) in
  let r2 := read (World.mk (device [output r1]) server_host) in
  let r3 := read (World.mk (device [output r2]) (World.obj (snd r1))) in
  fst (read (World.mk (device [output r3]) (World.obj (snd r2)))).

Example four_steps_deliver : exists seg, four_steps = Ok (Some seg) /\ TCPHeader.syn (TCPSegment.header seg) = true /\
  TCPHeader.sport (TCPSegment.header seg) = 1000 /\ TCPHeader.dport (TCPSegment.header seg) = 80.
Proof. eexists. vm_compute. split; [reflexivity | auto]. Qed.
End witnesses.
