(* ===== verification/eventloop.v ===== *)
(** * util/eventloop: rules, [poll] and callbacks

    A [Rule] watches a file descriptor; its callbacks are closures over the
    program's state, here computations on a world [W] that contains the system.
    The state of [wait_next_event] is the world and the list of rules. *)

From S2P Require Import prelude buffer parser address file_descriptor.

(** The part of the world that is the system. *)
Class HasSys (K W : Type) : Type := {
  the_sys : W -> Sys.t K;
  sys_setter :: Setter the_sys;
  sys_id w : setf the_sys (the_sys w) w = w;
  sys_set s w : the_sys (setf the_sys s w) = s
}.
Definition on_sys {K W A} `{HasSys K W} (m : M (Sys.t K) A) : M W A := zoom the_sys m.

Module EventLoop.

Definition POLLIN : Z := 0x001.
Definition POLLOUT : Z := 0x004.
Definition POLLERR : Z := 0x008.
Definition POLLHUP : Z := 0x010.
Definition POLLNVAL : Z := 0x020.
Definition EINTR : Z := 4.

Inductive Direction : Type := In | Out.
#[global] Instance direction_eq_dec : EqDecision Direction.
Proof. solve_decision. Defined.
(** [static_cast<short>(direction)] *)
Definition direction_events (d : Direction) : Z := match d with In => POLLIN | Out => POLLOUT end.

Inductive Result : Type := Success | Timeout | Exit.
#[global] Instance result_eq_dec : EqDecision Result.
Proof. solve_decision. Defined.

Section eventloop.
Context {K W : Type} `{Kernel K} `{HasSys K W}.

Record Rule : Type := mk_rule {
  fd : nat;
  direction : Direction;
  callback : M W unit;
  interest : M W bool;
  cancel : M W unit
}.

Record t : Type := mk { _rules : list Rule; world : W }.
Definition eta (l : t) : t := mk (_rules l) (world l).
#[global] Instance set_rules : Setter _rules := ltac:(derive_setter eta _rules).
#[global] Instance set_world : Setter world := ltac:(derive_setter eta world).

Definition service_count (r : Rule) : M W Z :=
  match direction r with
  | In => on_sys (FileDescriptor.read_count (fd r))
  | Out => on_sys (FileDescriptor.write_count (fd r))
  end.

(** [interest] and [cancel] have defaults. *)
Definition add_rule (h : nat) (direction : Direction) (callback : M W unit) (interest : M W bool) (cancel : M W unit)
    : M t unit :=
  _rules %= (fun l => l ++ [mk_rule (FileDescriptor.duplicate h) direction callback interest cancel]).
Definition always : M W bool := pure true.
Definition no_cancel : M W unit := pure tt.

(** The first loop: [kept] are the rules before the iterator, [rest] the ones from
    it on; [erase] drops the current one. *)
Fixpoint setup_loop (kept rest : list Rule) (pollfds : list pollfd) (something_to_poll : bool)
    : M t (list pollfd * bool) :=
  match rest with
  | [] => pure (pollfds, something_to_poll)
  | this_rule :: rest =>
      let erase := _rules ::= (kept ++ rest) ;; setup_loop kept rest pollfds something_to_poll in
      let* at_eof :=
        (if bool_decide (direction this_rule = In) then zoom world (on_sys (FileDescriptor.eof (fd this_rule)))
         else pure false) in
      if at_eof then zoom world (cancel this_rule) ;; erase
      else
        let* closed := zoom world (on_sys (FileDescriptor.closed (fd this_rule))) in
        if closed then zoom world (cancel this_rule) ;; erase
        else
          let* interested := zoom world (interest this_rule) in
          let* num := zoom world (on_sys (FileDescriptor.fd_num (fd this_rule))) in
          let events := if interested then direction_events (direction this_rule) else 0 in
          setup_loop (kept ++ [this_rule]) rest (pollfds ++ [mk_pollfd num events 0])
            (if interested then true else something_to_poll)
  end.

(** What [poll] leaves in the array: entry [idx] gets its [revents]. *)
Definition polled (pollfds : list pollfd) (revents : list Z) : list pollfd :=
  imap (fun i p => mk_pollfd (file_descriptor.fd p) (events p) (default 0 (revents !! i))) pollfds.

(** The second loop, over the rules from the iterator on; [pollfds[idx]] is undefined
    behaviour out of range. *)
Fixpoint serve_loop (kept rest : list Rule) (idx : nat) (pollfds : list pollfd) : M t unit :=
  match rest with
  | [] => pure tt
  | this_rule :: rest =>
      let* this_pollfd := or_ub (pollfds !! idx) in
      let has (bits : Z) := to_bool (Z.land (revents this_pollfd) bits) in
      if has (Z.lor POLLERR POLLNVAL) then throw (Runtime_error "EventLoop: error on polled file descriptor")
      else
        let poll_ready := has (events this_pollfd) in
        let poll_hup := has POLLHUP in
        if poll_hup && to_bool (events this_pollfd) && negb poll_ready then
          zoom world (cancel this_rule) ;;
          _rules ::= (kept ++ rest) ;;
          serve_loop kept rest (S idx) pollfds
        else
          when poll_ready
            (let* count_before := zoom world (service_count this_rule) in
             zoom world (callback this_rule) ;;
             let* count := zoom world (service_count this_rule) in
             let* busy := (if count_before =? count then zoom world (interest this_rule) else pure false) in
             when busy (throw (Runtime_error
               "EventLoop: busy wait detected: callback did not read/write fd and is still interested"))) ;;
          serve_loop (kept ++ [this_rule]) rest (S idx) pollfds
  end.

(** [wait_next_event]: of the errors of [poll], [EINTR] ends the wait; every other
    one is caught and ignored, and the array is looked at all the same. *)
Definition wait_next_event (timeout_ms : Z) : M t Result :=
  let* rules := asks _rules in
  let* (pollfds, something_to_poll) := setup_loop [] rules [] false in
  if negb something_to_poll then pure Exit
  else
    let* (r, revents) := zoom world (on_sys (Sys.call (sys_poll pollfds timeout_ms))) in
    let serve :=
      let* rules := asks _rules in
      serve_loop [] rules 0 (polled pollfds revents) ;;
      pure Success in
    match SystemCall "poll" r 0 with
    | Ok n => if n =? 0 then pure Timeout else serve
    | Throw (Tagged_error _ code) => if code =? EINTR then pure Exit else serve
    | Throw e => throw e
    end.

(** ** Reasoning about the loop

    [I k] is an invariant of the world, and [E] what holds after an exception; a
    callback may use up one unit of the budget [k] (a counter that must not
    overflow, say), so that [I (S k)] becomes [I k].  A rule comes with a condition [P] that its interest establishes and that its callback
    may rely on: between the two run the callbacks of other rules, which must not
    destroy it ([apart]).  A callback must read or write its descriptor, or be no
    longer interested. *)

Section reasoning.
Context (I : nat -> W -> Prop) (E : exn -> W -> Prop).
Hypothesis I_mono : forall k w, I (S k) w -> I k w.

Lemma I_le j k w : (j <= k)%nat -> I k w -> I j w.
Proof. induction 1; auto. Qed.

Definition count (d : Direction) (w : FDWrapper.t) : Z :=
  match d with In => FDWrapper._read_count w | Out => FDWrapper._write_count w end.

Definition serviced (r : Rule) (w w' : W) : Prop :=
  exists f f', FileDescriptor.at_fd (the_sys w) (fd r) f /\ FileDescriptor.at_fd (the_sys w') (fd r) f' /\
    count (direction r) f <> count (direction r) f'.

(** The kernel has gone on. *)
Definition set_kernel (k : K) (w : W) : W := setf the_sys (setf Sys.kernel k (the_sys w)) w.

Record rule_ok (rp : Rule * (W -> Prop)) : Prop := {
  ok_fd w : I 0 w -> exists f, FileDescriptor.at_fd (the_sys w) (fd rp.1) f;
  ok_interest w : I 0 w -> exists b, interest rp.1 w = (Ok b, w) /\ (b = true -> rp.2 w);
  ok_callback k w : I (S k) w -> rp.2 w ->
    wpe (callback rp.1) (fun _ w' => I k w' /\ (serviced rp.1 w w' \/ interest rp.1 w' = (Ok false, w'))) E w;
  ok_cancel k w : I (S k) w -> wpe (cancel rp.1) (fun _ => I k) E w;
  ok_kernel w k : rp.2 w -> rp.2 (set_kernel k w)
}.

(** What one rule does leaves the other's condition alone. *)
Record apart (rp rp' : Rule * (W -> Prop)) : Prop := {
  apart_callback w : I 1 w -> rp.2 w -> rp'.2 w -> wpe (callback rp.1) (fun _ => rp'.2) (fun _ _ => True) w;
  apart_cancel w : I 1 w -> rp'.2 w -> wpe (cancel rp.1) (fun _ => rp'.2) (fun _ _ => True) w
}.
Definition compatible : list (Rule * (W -> Prop)) -> Prop :=
  ForallOrdPairs (fun rp rp' => apart rp rp' /\ apart rp' rp).

(** An entry that asks for events belongs to a rule whose condition holds. *)
Definition asked (w : W) (rp : Rule * (W -> Prop)) (p : pollfd) : Prop := events p <> 0 -> rp.2 w.

Lemma query_wp {A} (m : M (Sys.t K) A) a w (Q : A -> t -> Prop) E' l :
  m (the_sys w) = (Ok a, the_sys w) -> world l = w -> Q a l -> wpe (zoom world (on_sys m)) Q E' l.
Proof.
  intros Em <- HQ. apply wp_zoom, wp_zoom. eapply wp_eq; [exact Em |]. rewrite sys_id. by destruct l.
Qed.

Lemma service_count_eq r w f : FileDescriptor.at_fd (the_sys w) (fd r) f -> service_count r w = (Ok (count (direction r) f), w).
Proof.
  intros Hf. apply wp_result. unfold service_count, on_sys.
  destruct (direction r); apply wp_zoom; unfold FileDescriptor.read_count, FileDescriptor.write_count; wp_step;
    (eapply FileDescriptor.wrapper_wp; [exact Hf |]); wp_step; by rewrite sys_id.
Qed.

Lemma compatible_mid k x r : compatible (k ++ x :: r) -> Forall (fun y => apart x y /\ apart y x) (k ++ r).
Proof.
  induction k as [|y k IH]; simpl; intros Hc.
  - inversion Hc as [|? ? Ha _]; subst. exact Ha.
  - inversion Hc as [|? ? Ha Hc']; subst. constructor; [| by apply IH].
    rewrite Forall_app in Ha. destruct Ha as [_ Ha]. inversion Ha as [|? ? [] _]; subst. done.
Qed.

Lemma compatible_drop k x r : compatible (k ++ x :: r) -> compatible (k ++ r).
Proof.
  induction k as [|y k IH]; simpl; intros Hc; inversion Hc as [|? ? Ha Hc']; subst; [done |].
  constructor; [| by apply IH]. rewrite Forall_app in Ha |- *. destruct Ha as [? Ha]. split; [done |]. by inversion Ha.
Qed.

Lemma ok_of_In k x r : Forall rule_ok (k ++ x :: r) -> rule_ok x.
Proof. rewrite list.Forall_app, list.Forall_cons. tauto. Qed.

Lemma ok_drop k x r : Forall rule_ok (k ++ x :: r) -> Forall rule_ok (k ++ r).
Proof. rewrite !list.Forall_app, list.Forall_cons. tauto. Qed.

Lemma sublist_erase {A} (left k : list A) x r : left `sublist_of` k ++ r -> left `sublist_of` k ++ x :: r.
Proof. intros Hl. etrans; [exact Hl |]. apply sublist_app; [done |]. by apply sublist_cons. Qed.

Lemma sublist_keeps {A} (P : A -> Prop) l l' : l `sublist_of` l' -> Forall P l' -> Forall P l.
Proof. induction 1; intros Hf; inversion Hf; subst; auto. Qed.

Lemma compatible_sublist l l' : l `sublist_of` l' -> compatible l' -> compatible l.
Proof.
  induction 1 as [|x l l' Hsub IH|x l l' Hsub IH]; intros Hc; [done | |]; inversion Hc; subst; [| by apply IH].
  constructor; [| by apply IH]. by eapply sublist_keeps.
Qed.

(** A computation that leaves the other rules' conditions alone, in a world where it
    returns. *)
Lemma wp_keeps (m : M W unit) (Q : unit -> W -> Prop) ks pfs w :
  wpe m Q E w ->
  Forall (fun rp => rp.2 w -> wpe m (fun _ => rp.2) (fun _ _ => True) w) ks -> Forall2 (asked w) ks pfs ->
  wpe m (fun u w' => Q u w' /\ Forall2 (asked w') ks pfs) E w.
Proof.
  unfold wpe. destruct (m w) as [[u|e] w']; [| done]. intros HQ Hks Hall. split; [done |].
  induction Hall as [|rp p ks pfs Ha Hall IH]; [constructor |]. inversion Hks; subst.
  constructor; [| by apply IH]. intros Hev. auto.
Qed.

Lemma eof_query h f w : FileDescriptor.at_fd (the_sys w) h f ->
  FileDescriptor.eof h (the_sys w) = (Ok (FDWrapper._eof f), the_sys w).
Proof. intros Hf. apply wp_result. unfold FileDescriptor.eof. wp_step. by eapply FileDescriptor.wrapper_wp. Qed.
Lemma closed_query h f w : FileDescriptor.at_fd (the_sys w) h f ->
  FileDescriptor.closed h (the_sys w) = (Ok (FDWrapper._closed f), the_sys w).
Proof. intros Hf. apply wp_result. unfold FileDescriptor.closed. wp_step. by eapply FileDescriptor.wrapper_wp. Qed.
Lemma fd_num_query h f w : FileDescriptor.at_fd (the_sys w) h f ->
  FileDescriptor.fd_num h (the_sys w) = (Ok (FDWrapper._fd f), the_sys w).
Proof. intros Hf. apply wp_result. unfold FileDescriptor.fd_num. wp_step. by eapply FileDescriptor.wrapper_wp. Qed.

(** The first loop: the rules that are left, each with its entry of the array. *)
Definition aligned (k : nat) (left : list (Rule * (W -> Prop))) (pfs : list pollfd) (l : t) : Prop :=
  _rules l = left.*1 /\ I k (world l) /\ Forall2 (asked (world l)) left pfs.

Lemma setup_wp m rest : forall kept pfs stp l,
  compatible (kept ++ rest) -> Forall rule_ok (kept ++ rest) ->
  _rules l = (kept ++ rest).*1 -> I (length rest + m) (world l) -> Forall2 (asked (world l)) kept pfs ->
  wpe (setup_loop kept.*1 rest.*1 pfs stp)
    (fun o l' => exists left, left `sublist_of` kept ++ rest /\ aligned m left o.1 l')
    (fun e l' => E e (world l')) l.
Proof.
  induction rest as [|x rest IH]; intros kept pfs stp l Hcomp Hok Hrules HI Hall; simpl.
  - rewrite app_nil_r in *. wp_step. exists kept. done.
  - pose proof (ok_of_In _ _ _ Hok) as Hx. pose proof (I_le 0 _ _ (Nat.le_0_l _) HI) as HI0.
    destruct (ok_fd _ Hx _ HI0) as (f & Hf).
    pose proof (compatible_mid _ _ _ Hcomp) as Hap. rewrite Forall_app in Hap. destruct Hap as [Hap _].
    assert (Herase : wpe (zoom world (cancel x.1) ;; _rules ::= (kept.*1 ++ rest.*1) ;; setup_loop kept.*1 rest.*1 pfs stp)
      (fun o l' => exists left, left `sublist_of` kept ++ x :: rest /\ aligned m left o.1 l')
      (fun e l' => E e (world l')) l).
    { wp_step. wp_step. eapply wp_mono; [eapply (wp_keeps _ _ kept pfs); [by apply (ok_cancel _ Hx (length rest + m)) | | done] |].
      - eapply Forall_impl; [| exact Hap]. intros y [[_ Hc] _] HP. apply Hc; [eapply I_le; [| exact HI]; simpl; lia | done].
      - intros [] w' [HI' Hall']. wp_step. wp_step. eapply wp_mono; [apply IH |].
        + by eapply compatible_drop.
        + by eapply ok_drop.
        + simpl. by rewrite fmap_app.
        + done.
        + done.
        + intros o l' (left & Hsub & Hal). exists left. split; [by apply sublist_erase | done]. }
    wp_step. apply (wp_mono _ (fun b l' => l' = l)).
    { apply wp_if; intros _; [| by wp_step]. eapply query_wp; [by apply eof_query | done | done]. }
    intros at_eof l' ->. apply wp_if; intros _; [exact Herase |].
    wp_step. eapply query_wp; [by apply closed_query | done |]. apply wp_if; intros _; [exact Herase |].
    destruct (ok_interest _ Hx _ HI0) as (b & Eb & Hb). wp_step. wp_step. eapply wp_eq; [exact Eb |].
    replace (setf world (world l) l) with l by (by destruct l).
    wp_step. eapply query_wp; [by apply fd_num_query | done |].
    change (kept.*1 ++ [x.1]) with (kept.*1 ++ [x].*1). rewrite <- fmap_app.
    eapply wp_mono; [apply IH; rewrite <- ?app_assoc; try done; [by apply I_mono |] |].
    + apply Forall2_app; [done |]. constructor; [| constructor]. intros Hev. apply Hb. by destruct b.
    + intros o l' (left & Hsub & Hal). rewrite <- app_assoc in Hsub. by exists left.
Qed.

(** [something_to_poll] says whether some entry asks for an event. *)
Lemma setup_polls rest : forall kept pfs stp l,
  (stp = false -> Forall (fun p => events p = 0) pfs) ->
  wpe (setup_loop kept rest pfs stp) (fun o _ => o.2 = false -> Forall (fun p => events p = 0) o.1) (fun _ _ => True) l.
Proof.
  induction rest as [|x rest IH]; intros kept pfs stp l Hstp; simpl; [by wp_step |].
  assert (Herase : forall l, wpe (zoom world (cancel x) ;; _rules ::= (kept ++ rest) ;; setup_loop kept rest pfs stp)
    (fun o _ => o.2 = false -> Forall (fun p => events p = 0) o.1) (fun _ _ => True) l).
  { intros l1. wp_step. eapply wp_mono; [apply wp_true |]. intros [] l2 _. wp_step. wp_step. by apply IH. }
  wp_step. eapply wp_mono; [apply wp_true |]. intros at_eof l1 _. apply wp_if; intros _; [apply Herase |].
  wp_step. eapply wp_mono; [apply wp_true |]. intros closed l2 _. apply wp_if; intros _; [apply Herase |].
  wp_step. eapply wp_mono; [apply wp_true |]. intros interested l3 _.
  wp_step. eapply wp_mono; [apply wp_true |]. intros num l4 _. apply IH.
  destruct interested; [done |]. intros E0. apply Forall_app; split; [by apply Hstp |]. by repeat constructor.
Qed.

Definition poll_failed : exn := Runtime_error "EventLoop: error on polled file descriptor".

Lemma serve_wp m rest : forall kept idx pfs l,
  compatible (kept ++ rest) -> Forall rule_ok (kept ++ rest) ->
  _rules l = (kept ++ rest).*1 -> I (length rest + m) (world l) -> Forall2 (asked (world l)) rest (drop idx pfs) ->
  wpe (serve_loop kept.*1 rest.*1 idx pfs)
    (fun _ l' => exists left, left `sublist_of` kept ++ rest /\ _rules l' = left.*1 /\ I m (world l'))
    (fun e l' => E e (world l') \/ (e = poll_failed /\ I 0 (world l'))) l.
Proof.
  induction rest as [|x rest IH]; intros kept idx pfs l Hcomp Hok Hrules HI Hall; simpl.
  - wp_step. rewrite app_nil_r in *. by exists kept.
  - pose proof (ok_of_In _ _ _ Hok) as Hx. pose proof (I_le 0 _ _ (Nat.le_0_l _) HI) as HI0.
    assert (HI1 : I 1 (world l)) by (eapply I_le; [| exact HI]; simpl; lia).
    pose proof (compatible_mid _ _ _ Hcomp) as Hap. rewrite Forall_app in Hap. destruct Hap as [_ Hap].
    destruct (drop idx pfs) as [|p ps] eqn:Edrop; [by inversion Hall |].
    assert (Hp : pfs !! idx = Some p) by (rewrite <- (Nat.add_0_r idx), <- lookup_drop, Edrop; done).
    assert (Hps : ps = drop (S idx) pfs) by (rewrite <- Nat.add_1_r, <- drop_drop, Edrop; done).
    inversion Hall as [|? ? ? ? Hask Hall']; subst. clear Hall Edrop.
    wp_step. eapply wp_or_ub; [exact Hp |]. cbv zeta. apply wp_if; intros _; [wp_step; by right |].
    apply wp_if; intros C.
    + wp_step. wp_step. eapply wp_mono_exn; [eapply (wp_keeps _ _ rest); [by apply (ok_cancel _ Hx (length rest + m)) | | exact Hall'] | | by left].
      { eapply Forall_impl; [| exact Hap]. intros y [[_ Hc] _] HP. by apply Hc. }
      intros [] w' [HI' Hall'']. wp_step. wp_step. eapply wp_mono; [apply IH |].
      * by eapply compatible_drop.
      * by eapply ok_drop.
      * simpl. by rewrite fmap_app.
      * done.
      * exact Hall''.
      * intros [] l' (left & Hsub & ? & ?). exists left. split; [by apply sublist_erase | done].
    + clear C. wp_step. apply (wp_mono _ (fun _ l' => _rules l' = _rules l /\ I (length rest + m) (world l') /\
        Forall2 (asked (world l')) rest (drop (S idx) pfs))).
      { apply wp_when; intros C; [| split; [done | split; [by apply I_mono | done]]].
        assert (Hev : events p <> 0). { intros E0. rewrite E0, Z.land_0_r in C. done. }
        destruct (ok_fd _ Hx _ HI0) as (f & Hf). wp_step. wp_step. eapply wp_eq; [by apply service_count_eq |].
        replace (setf world (world l) l) with l by (by destruct l). wp_step. wp_step.
        eapply wp_mono_exn; [eapply (wp_keeps _ _ rest); [by apply (ok_callback _ Hx (length rest + m)); [| apply Hask] | | exact Hall'] | | by left].
        { eapply Forall_impl; [| exact Hap]. intros y [[Hc _] _] HP. apply Hc; auto. }
        intros [] w' [[HI' Hserv] Hall'']. destruct (ok_fd _ Hx w') as (f' & Hf'); [by eapply I_le; [| exact HI']; lia |]. wp_step. wp_step.
        eapply wp_eq; [by apply service_count_eq |]. simpl. wp_step.
        apply (wp_mono _ (fun b l' => b = false /\ l' = setf world w' l)).
        { destruct (Z.eqb_spec (count (direction x.1) f) (count (direction x.1) f')) as [Eq|Ne]; [| by wp_step].
          destruct Hserv as [(g & g' & Hg & Hg' & Hne) | Hint].
          - unfold FileDescriptor.at_fd in *. rewrite Hf in Hg. rewrite Hf' in Hg'. congruence.
          - wp_step. eapply wp_eq; [exact Hint |]. by destruct l. }
        intros b l' [-> ->]. done. }
      intros [] l' (Er & HI' & Hall''). change (kept.*1 ++ [x.1]) with (kept.*1 ++ [x].*1). rewrite <- fmap_app.
      eapply wp_mono; [apply IH; rewrite <- ?app_assoc; try done; rewrite Er; exact Hrules |].
      intros [] l2 (left & Hsub & ? & ?). rewrite <- app_assoc in Hsub. by exists left.
Qed.

Lemma asked_polled left pfs rev w : Forall2 (asked w) left pfs -> Forall2 (asked w) left (polled pfs rev).
Proof.
  unfold polled. intros Hall. revert rev. induction Hall as [|x p left pfs Ha Hall IH]; intros rev; simpl; [constructor |].
  constructor; [done |]. specialize (IH (tail rev)). erewrite imap_ext; [exact IH |]. intros i q _. simpl. by destruct rev.
Qed.

(** *** The whole call *)

(** What the result of a call says.  In the world [w1], where the first loop ended, the
    array had an entry for each rule of a part of [specs].  [Exit]: no entry asked
    for an event, or [poll] was interrupted by a signal; [Timeout]: [poll] returned 0;
    in both cases no callback has run since.  [Success]: [poll] returned what satisfies
    [served]. *)
Definition reported (served : sysret -> Prop) (specs : list (Rule * (W -> Prop))) (ms : Z) (res : Result) (w' : W) : Prop :=
  exists w1 rows pollfds, rows `sublist_of` specs /\ Forall2 (asked w1) rows pollfds /\
    let '((r, _), k) := sys_poll pollfds ms (Sys.kernel (the_sys w1)) in
    match res with
    | Exit => Forall (fun p => events p = 0) pollfds /\ w' = w1 \/
        i32 (rv r) < 0 /\ errno r = EINTR /\ w' = set_kernel k w1
    | Timeout => i32 (rv r) = 0 /\ w' = set_kernel k w1
    | Success => served r
    end.

(** [poll] found descriptors ready, or failed otherwise than by a signal. *)
Definition found_or_failed (r : sysret) : Prop :=
  i32 (rv r) <> 0 /\ (i32 (rv r) < 0 -> errno r <> EINTR).

Definition kept_inv (m : nat) (specs : list (Rule * (W -> Prop))) (l' : t) : Prop :=
  exists left, left `sublist_of` specs /\ _rules l' = left.*1 /\ I m (world l').

Lemma kept_inv_le j m left specs l : (m <= j)%nat -> left `sublist_of` specs ->
  _rules l = left.*1 -> I j (world l) -> kept_inv m specs l.
Proof. intros Hj Hsub Hr HI. exists left. split; [done |]. split; [done |]. by eapply I_le. Qed.

(** The second loop, on the array [poll] has filled in. *)
Lemma serve_all_wp m left specs pfs rev l :
  compatible specs -> Forall rule_ok specs -> left `sublist_of` specs ->
  _rules l = left.*1 -> I (length left + m) (world l) -> Forall2 (asked (world l)) left pfs ->
  wpe (let* rules := asks _rules in serve_loop [] rules 0 (polled pfs rev) ;; pure Success)
    (fun res l' => res = Success /\ kept_inv m specs l')
    (fun e l' => E e (world l') \/ (e = poll_failed /\ I 0 (world l'))) l.
Proof.
  intros Hcomp Hok Hsub Hr HI Hall. wp_step. wp_step. wp_step. rewrite Hr.
  eapply wp_mono; [apply (serve_wp m left [] 0); try done |].
  - by eapply compatible_sublist.
  - by eapply sublist_keeps.
  - by apply asked_polled.
  - intros [] l2 (left2 & Hsub2 & ? & ?). wp_step. split; [done |]. exists left2. split; [by etrans | done].
Qed.

Lemma asked_set_kernel w k left pfs :
  Forall rule_ok left -> Forall2 (asked w) left pfs -> Forall2 (asked (set_kernel k w)) left pfs.
Proof.
  intros Hok Hall. induction Hall as [|x p left pfs Ha Hall IH]; [constructor |].
  inversion Hok; subst. constructor; [| by apply IH]. intros Hev. apply ok_kernel; auto.
Qed.

Lemma wait_next_event_reports m specs ms l :
  compatible specs -> Forall rule_ok specs -> (forall j w k, I j w -> I j (set_kernel k w)) ->
  _rules l = specs.*1 -> I (2 * length specs + m) (world l) ->
  wpe (wait_next_event ms)
    (fun res l' => kept_inv m specs l' /\ reported found_or_failed specs ms res (world l'))
    (fun e l' => E e (world l') \/ (e = poll_failed /\ I 0 (world l'))) l.
Proof.
  intros Hcomp Hok HK Hrules HI. unfold wait_next_event. wp_step. wp_step. wp_step. rewrite Hrules.
  eapply wp_mono_exn; [apply wp_both; [apply (setup_wp (length specs + m) specs [] [] false) |
    apply (setup_polls specs.*1 [] [] false)]; try done; eapply I_le; [| exact HI]; lia | | intros e l' [? _]; by left].
  intros [pfs stp] l1 [(left & Hsub & Hr1 & HI1 & Hall1) Hpoll]. simpl in Hsub, Hall1, Hpoll. cbv beta iota.
  pose proof (sublist_length _ _ Hsub) as Hlen.
  apply wp_if; intros Estp.
  { wp_step. split; [by eapply (kept_inv_le (length specs + m)); [lia |..] |].
    exists (world l1), left, pfs. split; [done |]. split; [done |].
    destruct (sys_poll _ _ _) as [[r rev] k]. left. split; [| done]. apply Hpoll. by destruct stp. }
  wp_step. unfold on_sys. wp_step. wp_step. apply FileDescriptor.call_wp. intros k Ek.
  assert (Hrep : forall served res w',
    (let '((r, _), k) := sys_poll pfs ms (Sys.kernel (the_sys (world l1))) in
     match res with
     | Exit => i32 (rv r) < 0 /\ errno r = EINTR /\ w' = set_kernel k (world l1)
     | Timeout => i32 (rv r) = 0 /\ w' = set_kernel k (world l1)
     | Success => served r
     end) -> reported served specs ms res w').
  { intros served res w' Hres. exists (world l1), left, pfs. split; [done |]. split; [done |].
    destruct (sys_poll _ _ _) as [[r rev] k']. destruct res; auto. }
  destruct (sys_poll _ _ _) as [[r rev] k'] eqn:Ep. simpl in Ek. subst k'. cbn [fst]. cbv beta iota zeta in Hrep |- *.
  set (l2 := setf world (set_kernel k (world l1)) l1).
  assert (HI2 : I (length left + m) (world l2)) by (apply HK; eapply I_le; [| exact HI1]; lia).
  assert (Hkept : kept_inv m specs l2) by (eapply (kept_inv_le (length left + m)); [lia | exact Hsub | done | done]).
  assert (Hserve : found_or_failed r ->
    wpe (let* rules := asks _rules in serve_loop [] rules 0 (polled pfs rev) ;; pure Success)
      (fun res l' => kept_inv m specs l' /\ reported found_or_failed specs ms res (world l'))
      (fun e l' => E e (world l') \/ (e = poll_failed /\ I 0 (world l'))) l2).
  { intros Hf. eapply wp_mono; [apply (serve_all_wp m left specs); try done |].
    - apply asked_set_kernel; [by eapply sublist_keeps | done].
    - intros res l' [-> Hk]. split; [done |]. by apply Hrep. }
  unfold SystemCall. destruct (Z.leb_spec 0 (i32 (rv r))) as [Hrv|Hrv]; simpl.
  - apply wp_if; intros E0; [wp_step; split; [done | apply Hrep; split; [lia | done]] | apply Hserve; split; lia].
  - destruct (Z.eqb_spec (errno r) 0) as [E0|_].
    + apply wp_if; intros ?; [lia |]. apply Hserve. split; [lia |]. intros _. rewrite E0. done.
    + apply wp_if; intros Ee; [wp_step; split; [done | apply Hrep; split_and!; [done | lia | done]] |].
      apply Hserve. split; lia.
Qed.

Lemma wait_next_event_wp m specs ms l :
  compatible specs -> Forall rule_ok specs -> (forall j w k, I j w -> I j (set_kernel k w)) ->
  _rules l = specs.*1 -> I (2 * length specs + m) (world l) ->
  wpe (wait_next_event ms) (fun _ l' => kept_inv m specs l')
    (fun e l' => E e (world l') \/ (e = poll_failed /\ I 0 (world l'))) l.
Proof.
  intros. eapply wp_mono; [by apply wait_next_event_reports |]. by intros res l' [? _].
Qed.
End reasoning.
End eventloop.
Arguments Rule W : clear implicits.
Arguments t W : clear implicits.
End EventLoop.

(** ** Properties *)

(** [C21] Soundness of the event loop, for a [poll] that succeeds or is interrupted by a
    signal: let an invariant be kept by every cancel, and by every callback that runs
    while the condition holds that its rule's interest established when the array was
    built.  Then one call of [wait_next_event] keeps the invariant, leaves a part of the
    rules in their order, runs each rule at most twice (the budget), never indexes
    outside the array, and never reports a busy wait when every callback services its
    descriptor or loses interest: it only throws what a callback throws, or on a polled
    descriptor in error, where the invariant still holds.  It returns [Exit] only when no
    rule asked for an event or a signal came, [Timeout] only when [poll] returned 0, in
    both cases with no callback run, and [Success] only when [poll] found descriptors
    ready.  (Any other failure of [poll] is swallowed: [poll_error_ignored].) *)
Theorem eventloop_sound {K W} `{Kernel K} `{HasSys K W} (I : nat -> W -> Prop) (E : exn -> W -> Prop)
    m specs ms (l : EventLoop.t W) :
  (forall pollfds k, let r := (sys_poll pollfds ms k).1.1 in 0 <= i32 (rv r) \/ errno r = EventLoop.EINTR) ->
  (forall k w, I (S k) w -> I k w) -> (forall j w k, I j w -> I j (EventLoop.set_kernel k w)) ->
  EventLoop.compatible I specs -> Forall (EventLoop.rule_ok I E) specs ->
  EventLoop._rules l = specs.*1 -> I (2 * length specs + m)%nat (EventLoop.world l) ->
  wpe (EventLoop.wait_next_event ms)
    (fun res l' =>
      (exists left, left `sublist_of` specs /\ EventLoop._rules l' = left.*1 /\ I m (EventLoop.world l')) /\
      EventLoop.reported (fun r => 0 < i32 (rv r)) specs ms res (EventLoop.world l'))
    (fun e l' => E e (EventLoop.world l') \/ (e = EventLoop.poll_failed /\ I 0%nat (EventLoop.world l'))) l.
Proof.
  intros Hpoll Hm HK Hc Hok Hr HI.
  eapply wp_mono; [by apply (EventLoop.wait_next_event_reports I E Hm m specs) |].
  intros res l' [Hk (w1 & rows & pfs & Hrows & Hall & Hrep)]. split; [exact Hk |].
  exists w1, rows, pfs. split; [done |]. split; [done |]. specialize (Hpoll pfs (Sys.kernel (the_sys w1))).
  destruct (sys_poll _ _ _) as [[r rev] k]. simpl in Hpoll.
  destruct res; [| done |]; try done. destruct Hrep. lia.
Qed.

(** ** Witness *)

(** The system alone as a world. *)
#[export, refine] Instance sys_alone K : HasSys K (Sys.t K) := {| the_sys := id; sys_setter := fun f => f |}.
Proof. all: done. Defined.

(** Read whatever arrives on descriptor 0. *)
Definition reader : EventLoop.Rule (Sys.t Script.t) :=
  EventLoop.mk_rule 0 EventLoop.In (let* _ := FileDescriptor.read 0 10 in pure tt) EventLoop.always EventLoop.no_cancel.

Definition reader_inv (k : nat) (s : Sys.t Script.t) : Prop := exists f, FileDescriptor.at_fd s 0 f.

Lemma reader_ok : EventLoop.rule_ok reader_inv (fun e _ => FileDescriptor.io_error e) (reader, fun _ => True).
Proof.
  split; simpl.
  - done.
  - intros w _. by exists true.
  - intros k w (f & Hf) _. wp_step. eapply FileDescriptor.fd_read_wp; [exact Hf | lia | | by intros].
    intros data k' _. wp_step. assert (Hf' : Sys.wrappers (Sys.mk (<[0%nat := FileDescriptor.after_read f 10 data]>
      (Sys.wrappers w)) k' (Sys.trace w ++ [Got 0 data])) !! 0%nat = Some (FileDescriptor.after_read f 10 data)).
    { apply list_lookup_insert_eq. by apply lookup_lt_Some in Hf. }
    split; [by eexists |]. left. exists f, (FileDescriptor.after_read f 10 data). split; [done |]. split; [done |].
    simpl. apply not_eq_sym, u32_succ_ne.
  - by intros k w Hw.
  - done.
Qed.

Lemma script_poll pollfds ms (k : Script.t) :
  let r := (sys_poll pollfds ms k).1.1 in 0 <= i32 (rv r) \/ errno r = EventLoop.EINTR.
Proof.
  left. simpl. unfold Script.poll. destruct (Script.polls k) as [|rs ?]; [done |]. simpl.
  pose proof (len_nonneg (filter (.≠ 0) rs)). unfold i32. zarith.
Qed.

Lemma eventloop_sound_witness :
  let l := EventLoop.mk [reader] (Sys.mk [FDWrapper.mk 3 false false 0 0] (Script.mk [[x61; x62]] 1 [] [[EventLoop.POLLIN]] 0) []) in
  exists l', EventLoop.wait_next_event 10 l = (Ok EventLoop.Success, l') /\
    Sys.trace (EventLoop.world l') = [Got 0 [x61; x62]] /\ reader_inv 0 (EventLoop.world l').
Proof.
  intros l.
  assert (Hs : wpe (EventLoop.wait_next_event 10)
    (fun res l' => (exists left, left `sublist_of` [(reader, fun _ : Sys.t Script.t => True)] /\
       EventLoop._rules l' = left.*1 /\ reader_inv 0 (EventLoop.world l')) /\
       EventLoop.reported (fun r => 0 < i32 (rv r)) [(reader, fun _ : Sys.t Script.t => True)] 10 res (EventLoop.world l'))
    (fun e l' => FileDescriptor.io_error e \/ (e = EventLoop.poll_failed /\ reader_inv 0 (EventLoop.world l'))) l).
  { apply (eventloop_sound reader_inv (fun e _ => FileDescriptor.io_error e)).
    - intros pollfds k. exact (script_poll pollfds 10 k).
    - done.
    - done.
    - repeat constructor.
    - constructor; [exact reader_ok | constructor].
    - reflexivity.
    - eexists. reflexivity. }
  assert (Eo : fst (EventLoop.wait_next_event 10 l) = Ok EventLoop.Success) by (vm_compute; reflexivity).
  assert (Et : Sys.trace (EventLoop.world (snd (EventLoop.wait_next_event 10 l))) = [Got 0 [x61; x62]])
    by (vm_compute; reflexivity).
  unfold wpe in Hs. destruct (EventLoop.wait_next_event 10 l) as [o l']. cbn [fst snd] in Eo, Et. subst o.
  destruct Hs as [(left & _ & _ & Hinv) _]. by exists l'.
Defined.

(** ** Errors of [poll] *)

(** A kernel whose [poll] fails with [EINVAL]. *)
Definition EINVAL : Z := 22.
Definition broken_poll : Kernel unit := {|
  sys_read _ _ k := (mk_sysret (-1) EINVAL, [], k); sys_writev _ _ k := (mk_sysret (-1) EINVAL, k);
  sys_close _ k := (mk_sysret (-1) EINVAL, k); sys_fcntl _ _ _ k := (mk_sysret (-1) EINVAL, k);
  sys_shutdown _ _ k := (mk_sysret (-1) EINVAL, k); sys_recvfrom _ _ _ k := (mk_sysret (-1) EINVAL, ([], [], 0), k);
  sys_sendmsg _ _ _ k := (mk_sysret (-1) EINVAL, k); sys_poll _ _ k := (mk_sysret (-1) EINVAL, [], k);
  sys_clock k := (0, k); sys_socket _ _ k := (mk_sysret (-1) EINVAL, k);
  sys_socketpair _ _ k := (mk_sysret (-1) EINVAL, (0, 0), k); sys_getsockopt _ _ _ k := (mk_sysret (-1) EINVAL, (0, 0), k);
  sys_setsockopt _ _ _ _ k := (mk_sysret (-1) EINVAL, k); sys_getsockname _ k := (mk_sysret (-1) EINVAL, ([], 0), k);
  sys_getpeername _ k := (mk_sysret (-1) EINVAL, ([], 0), k); sys_bind _ _ k := (mk_sysret (-1) EINVAL, k);
  sys_connect _ _ k := (mk_sysret (-1) EINVAL, k); sys_listen _ _ k := (mk_sysret (-1) EINVAL, k);
  sys_accept _ k := (mk_sysret (-1) EINVAL, k); sys_open _ _ k := (mk_sysret (-1) EINVAL, k);
  sys_ioctl _ _ _ k := (mk_sysret (-1) EINVAL, k)
|}.

(** An error of [poll] other than [EINTR] is not reported: the call returns
    [Success] although no rule was triggered. *)
Lemma poll_error_ignored :
  let idle := EventLoop.mk_rule 0 EventLoop.In (throw UndefinedBehavior) EventLoop.always EventLoop.no_cancel in
  let l := EventLoop.mk [idle] (Sys.mk [FDWrapper.mk 3 false false 0 0] tt []) in
  EventLoop.wait_next_event (H := broken_poll) 10 l = (Ok EventLoop.Success, l).
Proof. reflexivity. Qed.
