(* ===== verification/bidirectional_stream_copy.v ===== *)
(** * apps/bidirectional_stream_copy: the standard streams and a socket

    The function that most of the programs end in: four rules of an event loop copy the
    standard input to a socket and the socket to the standard output, through two byte
    streams.  The state holds the function's local variables. *)

From S2P Require Import prelude buffer parser byte_stream address file_descriptor eventloop.

Module StreamCopy.

Section state.
Context {K : Type}.
Record t : Type := mk {
  sys : Sys.t K;
  socket : nat;
  _input : nat;
  _output : nat;
  _outbound : ByteStream.t;
  _inbound : ByteStream.t;
  _outbound_shutdown : bool;
  _inbound_shutdown : bool
}.
Definition eta (w : t) : t :=
  mk (sys w) (socket w) (_input w) (_output w) (_outbound w) (_inbound w) (_outbound_shutdown w) (_inbound_shutdown w).
#[global] Instance set_sys : Setter sys := ltac:(derive_setter eta sys).
#[global] Instance set_outbound : Setter _outbound := ltac:(derive_setter eta _outbound).
#[global] Instance set_inbound : Setter _inbound := ltac:(derive_setter eta _inbound).
#[global] Instance set_outbound_shutdown : Setter _outbound_shutdown := ltac:(derive_setter eta _outbound_shutdown).
#[global] Instance set_inbound_shutdown : Setter _inbound_shutdown := ltac:(derive_setter eta _inbound_shutdown).

#[global, refine] Instance copy_has_sys : HasSys K t := {| the_sys := sys |}.
Proof. - by intros []. - done. Defined.
End state.
Arguments t K : clear implicits.

Section copy.
Context {K : Type} `{Kernel K}.
Notation W := (StreamCopy.t K).

Definition max_copy_length : Z := 65536.
Definition buffer_size : Z := 1048576.
Definition STDIN_FILENO : Z := 0.
Definition STDOUT_FILENO : Z := 1.

(** *** The two halves of a rule's work

    Rules 1 and 3 read from a descriptor into a stream; rules 2 and 4 write from a
    stream to a descriptor, and do something more when the stream has come to its end. *)

Definition copy_in (h : nat) (stream : W -> ByteStream.t) `{!Setter stream} : M W unit :=
  let* room := asks (fun w => ByteStream.remaining_capacity (stream w)) in
  let* data := on_sys (FileDescriptor.read h room) in
  let* _ := zoom stream (ByteStream.write data) in
  let* eof := on_sys (FileDescriptor.eof h) in
  when eof (zoom stream ByteStream.end_input).

Definition copy_out (h : nat) (stream : W -> ByteStream.t) `{!Setter stream} (finish : M W unit) : M W unit :=
  let* bytes_to_write := asks (fun w => Z.min max_copy_length (ByteStream.buffer_size (stream w))) in
  let* data := asks (fun w => ByteStream.peek_output bytes_to_write (stream w)) in
  let* bytes_written := on_sys (FileDescriptor.write h (BufferViewList.of_string_view data) false) in
  zoom stream (ByteStream.pop_output bytes_written) ;;
  let* eof := asks (fun w => ByteStream.eof (stream w)) in
  when eof finish.

(** *** Rule 1: from the standard input into the outbound stream *)

Definition rule1_callback : M W unit := let* input := asks _input in copy_in input _outbound.
Definition rule1_interest : M W bool := asks (fun w =>
  negb (ByteStream.error (_outbound w)) && (0 <? ByteStream.remaining_capacity (_outbound w)) &&
  negb (ByteStream.error (_inbound w))).
(** The cancel of rules 1 and 2. *)
Definition end_outbound : M W unit := zoom _outbound ByteStream.end_input.

(** *** Rule 2: from the outbound stream into the socket *)

Definition rule2_callback : M W unit :=
  let* socket := asks socket in
  copy_out socket _outbound
    (on_sys (Socket.shutdown socket Socket.SHUT_WR) ;;
     _outbound_shutdown ::= true).
Definition rule2_interest : M W bool := asks (fun w =>
  negb (ByteStream.buffer_empty (_outbound w)) || (ByteStream.eof (_outbound w) && negb (_outbound_shutdown w))).

(** *** Rule 3: from the socket into the inbound stream *)

Definition rule3_callback : M W unit := let* socket := asks socket in copy_in socket _inbound.
Definition rule3_interest : M W bool := asks (fun w =>
  negb (ByteStream.error (_inbound w)) && (0 <? ByteStream.remaining_capacity (_inbound w)) &&
  negb (ByteStream.error (_outbound w))).
(** The cancel of rules 3 and 4. *)
Definition end_inbound : M W unit := zoom _inbound ByteStream.end_input.

(** *** Rule 4: from the inbound stream into the standard output *)

Definition rule4_callback : M W unit :=
  let* output := asks _output in
  copy_out output _inbound
    (on_sys (FileDescriptor.close output) ;;
     _inbound_shutdown ::= true).
Definition rule4_interest : M W bool := asks (fun w =>
  negb (ByteStream.buffer_empty (_inbound w)) || (ByteStream.eof (_inbound w) && negb (_inbound_shutdown w))).

(** *** The function *)

Definition add_rules : M (EventLoop.t W) unit :=
  let* w := asks EventLoop.world in
  EventLoop.add_rule (_input w) EventLoop.In rule1_callback rule1_interest end_outbound ;;
  EventLoop.add_rule (socket w) EventLoop.Out rule2_callback rule2_interest end_outbound ;;
  EventLoop.add_rule (socket w) EventLoop.In rule3_callback rule3_interest end_inbound ;;
  EventLoop.add_rule (_output w) EventLoop.Out rule4_callback rule4_interest end_inbound.

(** [while (true)]: nothing bounds the number of turns; [fuel] of them are run. *)
Fixpoint loop (fuel : nat) : M (EventLoop.t W) unit :=
  match fuel with
  | O => throw OutOfFuel
  | S fuel =>
      let* result := EventLoop.wait_next_event (-1) in
      if bool_decide (result = EventLoop.Exit) then pure tt else loop fuel
  end.

(** The local variables live as long as the call. *)
Definition locally (m : M (EventLoop.t W) unit) (w : W) : M (Sys.t K) unit := fun s =>
  let '(o, l) := m (EventLoop.mk [] (setf sys s w)) in (o, sys (EventLoop.world l)).

Definition bidirectional_stream_copy (fuel : nat) (socket : nat) : M (Sys.t K) unit :=
  let* input := FileDescriptor.new STDIN_FILENO in
  let* output := FileDescriptor.new STDOUT_FILENO in
  FileDescriptor.set_blocking socket false ;;
  FileDescriptor.set_blocking input false ;;
  FileDescriptor.set_blocking output false ;;
  let* s := get in
  locally (add_rules ;; loop fuel)
    (mk s socket input output (ByteStream.new buffer_size) (ByteStream.new buffer_size) false false).

(** ** What the streams hold *)

(** [relays st got put]: the stream was given [got], of which [put] was taken. *)
Definition relays (st : ByteStream.t) (got put : list byte) : Prop :=
  exists rd ended, refines st (Spec.mk got rd buffer_size ended false) /\ put = ztake rd got.

Lemma relays_prefix st got put : relays st got put -> put `prefix_of` got.
Proof. intros (rd & ended & _ & ->). exists (zdrop rd got). by rewrite ztake_zdrop. Qed.

Lemma relays_new : relays (ByteStream.new buffer_size) [] [].
Proof. exists 0, false. split; [by apply refines_new | done]. Qed.

Lemma relays_end st got put : relays st got put -> relays (setf ByteStream._input_ended_flag true st) got put.
Proof.
  intros (rd & ended & HR & ->). exists rd, true. split; [| done]. destruct HR. split; try done. by apply ByteStream.end_input_wf.
Qed.

Lemma relays_write_wp st got put data (Q : Z -> ByteStream.t -> Prop) E :
  relays st got put -> len data <= ByteStream.remaining_capacity st ->
  (forall n st', relays st' (got ++ data) put -> Q n st') -> wpe (ByteStream.write data) Q E st.
Proof.
  intros (rd & ended & HR & ->) Hlen HQ. eapply wp_mono; [by apply write_refines |]. intros n st' [_ HR']. apply HQ.
  assert (Hroom : len data <= Spec.room (Spec.mk got rd buffer_size ended false)).
  { rewrite ByteStream.remaining_capacity_eq in Hlen by apply HR. unfold Spec.room.
    rewrite <- (refines_size _ _ HR), <- (ref_capacity _ _ HR). done. }
  unfold Spec.write in HR'. simpl in HR'. rewrite ztake_ge in HR' by done. exists rd, ended. split; [done |].
  rewrite ztake_app_le; [done |]. pose proof (ref_cursor _ _ HR) as Hc. simpl in Hc. lia.
Qed.

Lemma relays_pop_wp st got put n (Q : unit -> ByteStream.t -> Prop) E :
  relays st got put -> 0 <= n <= len (ByteStream.contents st) ->
  (forall st', relays st' got (put ++ ztake n (ByteStream.contents st)) -> Q tt st') -> wpe (ByteStream.pop_output n) Q E st.
Proof.
  intros (rd & ended & HR & ->) Hn HQ. eapply wp_mono; [apply pop_refines; [exact HR | lia] |]. intros [] st' HR'. apply HQ.
  pose proof (refines_size _ _ HR) as Hsize. pose proof (ref_contents _ _ HR) as Ec. pose proof (ref_cursor _ _ HR) as Hc.
  simpl in *. unfold Spec.pop in HR'. simpl in HR'. rewrite Z.min_l in HR' by lia. exists (rd + n), ended. split; [done |].
  rewrite Ec.
  rewrite <- (slice_0 rd), <- (slice_0 (rd + n)). rewrite <- (slice_app 0 rd (rd + n)) by lia. f_equal.
  unfold slice. f_equal. lia.
Qed.

(** ** The halves of the rules, on either stream *)

Section half.
Context (stream : W -> ByteStream.t) `{!Setter stream}.
Hypothesis stream_sys : forall s w, stream (setf the_sys s w) = stream w.
Hypothesis stream_get : forall st w, stream (setf stream st w) = st.
Hypothesis stream_set : forall st st' w, setf stream st (setf stream st' w) = setf stream st w.
Hypothesis sys_stream : forall st w, the_sys (setf stream st w) = the_sys w.

(** The bytes that were read are added to the stream. *)
Lemma copy_in_wp h f w got put (Q : unit -> W -> Prop) (E : exn -> W -> Prop) :
  FileDescriptor.at_fd (sys w) h f -> relays (stream w) got put ->
  (forall data f' k st', FDWrapper._read_count f' = u32 (FDWrapper._read_count f + 1) -> relays st' (got ++ data) put ->
     Q tt (setf stream st' (setf the_sys (Sys.mk (<[h := f']> (Sys.wrappers (sys w))) k (Sys.trace (sys w) ++ [Got h data])) w))) ->
  (forall e s', FileDescriptor.io_error e -> Sys.trace s' = Sys.trace (sys w) -> E e (setf the_sys s' w)) ->
  wpe (copy_in h stream) Q E w.
Proof.
  intros Hf Hrel HQ HE. unfold copy_in. wp_step. wp_step. wp_step. unfold on_sys. wp_step.
  eapply FileDescriptor.fd_read_wp; [exact Hf | apply u64_range | | by intros; apply HE].
  intros data k Hlen. set (f1 := FileDescriptor.after_read _ _ _). set (s1 := Sys.mk _ k _).
  assert (Hf1 : FileDescriptor.at_fd s1 h f1) by (by eapply FileDescriptor.at_fd_step).
  wp_step. wp_step. rewrite stream_sys. eapply relays_write_wp; [exact Hrel | lia |]. intros n st' Hrel'.
  wp_step. wp_step. eapply FileDescriptor.eof_wp; [rewrite sys_stream; exact Hf1 |].
  rewrite sys_id.
  apply wp_when; intros _; [| by eapply HQ].
  wp_step. unfold ByteStream.end_input. wp_step. rewrite stream_get, stream_set. eapply HQ; [done | by apply relays_end].
Qed.

(** What the descriptor accepts is taken from the stream; also when it fails, it has
    accepted nothing else. *)
Lemma copy_out_wp h f w got put finish (Q : unit -> W -> Prop) (E : exn -> W -> Prop) `{!LinuxIO K} :
  FileDescriptor.at_fd (sys w) h f -> relays (stream w) got put ->
  (forall d f' k st', FDWrapper._write_count f' = u32 (FDWrapper._write_count f + 1) -> relays st' got (put ++ mjoin d) ->
     let w' := setf stream st' (setf the_sys (Sys.mk (<[h := f']> (Sys.wrappers (sys w))) k
       (Sys.trace (sys w) ++ (Put h <$> d))) w) in
     Q tt w' /\ wpe finish Q E w') ->
  (forall e d s', FileDescriptor.io_error e -> Sys.trace s' = Sys.trace (sys w) ++ (Put h <$> d) ->
     put ++ mjoin d `prefix_of` got -> E e (setf the_sys s' w)) ->
  wpe (copy_out h stream finish) Q E w.
Proof.
  intros Hf Hrel HQ HE. unfold copy_out, max_copy_length. pose proof Hrel as (rd & ended & HR & Eput).
  pose proof (ref_wf _ _ HR) as Hwf. pose proof (len_nonneg (ByteStream.contents (stream w))).
  do 4 wp_step. rewrite (ByteStream.wf_size _ Hwf). set (amount := Z.min 65536 _).
  rewrite ByteStream.peek_output_eq by (try done; lia). set (data := ztake amount (ByteStream.contents (stream w))).
  assert (Hdata : len data = amount) by (unfold data; rewrite len_ztake; lia).
  assert (Eviews : mjoin (BufferViewList.of_string_view data) = data) by apply app_nil_r.
  assert (Hpre : forall n, put ++ ztake n (ByteStream.contents (stream w)) `prefix_of` got).
  { intros n. rewrite Eput, (ref_contents _ _ HR). simpl. exists (zdrop n (zdrop rd got)).
    by rewrite <- app_assoc, ztake_zdrop, ztake_zdrop. }
  wp_step. unfold on_sys. wp_step.
  eapply FileDescriptor.write_loop_wp; [exact Hf | rewrite Eviews; lia | lia | rewrite Eviews; lia | lia | |]; rewrite Eviews.
  2:{ intros e s' tr He Etr (d & -> & Hd). eapply HE; [done | exact Etr |].
      destruct Hd as [rest Hd]. transitivity (put ++ data); [exists rest; by rewrite Hd, app_assoc | apply Hpre]. }
  intros n c k tr Hn _ _ (d & -> & Ed) Ecount. rewrite Z.add_0_l, (Ecount eq_refl).
  assert (Ed' : mjoin d = ztake n (ByteStream.contents (stream w))).
  { rewrite Ed. unfold data. rewrite ztake_ztake. f_equal. lia. }
  wp_step. wp_step. rewrite stream_sys. eapply relays_pop_wp; [exact Hrel | lia |]. intros st' Hrel'.
  rewrite <- Ed' in Hrel'. wp_step. wp_step.
  destruct (HQ d (setf FDWrapper._write_count (u32 (FDWrapper._write_count f + 1)) f) k st' ltac:(done) Hrel') as [Hq Hfin].
  by apply wp_when.
Qed.
End half.

(** ** The rules *)

Section rules.
Context `{!LinuxIO K} (sock inp outp : nat) (start : list io).
Hypothesis sock_inp : sock <> inp.
Hypothesis sock_outp : sock <> outp.
Hypothesis inp_outp : inp <> outp.

(** In both directions what was written is a prefix of what was read. *)
Definition relayed (tr : list io) : Prop :=
  FileDescriptor.accepted sock tr `prefix_of` FileDescriptor.delivered inp tr /\
  FileDescriptor.accepted outp tr `prefix_of` FileDescriptor.delivered sock tr.

Definition streams (w : W) (tr : list io) : Prop :=
  relays (_outbound w) (FileDescriptor.delivered inp tr) (FileDescriptor.accepted sock tr) /\
  relays (_inbound w) (FileDescriptor.delivered sock tr) (FileDescriptor.accepted outp tr).

Record inv (w : W) : Prop := {
  iv_socket : socket w = sock;
  iv_input : _input w = inp;
  iv_output : _output w = outp;
  iv_fds : Forall (fun h => is_Some (Sys.wrappers (sys w) !! h)) [sock; inp; outp];
  iv_trace : exists tr, Sys.trace (sys w) = start ++ tr /\ streams w tr
}.

(** What a rule may throw, and what holds then. *)
Definition failure (e : exn) (w : W) : Prop :=
  FileDescriptor.io_error e /\ exists tr, Sys.trace (sys w) = start ++ tr /\ relayed tr.

Lemma streams_relayed w tr : streams w tr -> relayed tr.
Proof. intros [H1 H2]. split; by eapply relays_prefix. Qed.

Lemma fds_insert (ws : list FDWrapper.t) h f : Forall (fun h => is_Some (ws !! h)) [sock; inp; outp] ->
  Forall (fun h' => is_Some (<[h := f]> ws !! h')) [sock; inp; outp].
Proof. apply Forall_impl. intros h' Hs. by apply FileDescriptor.is_Some_insert. Qed.

(** A descriptor's own events, and those of another one. *)
Lemma trace_got h data tr :
  FileDescriptor.delivered h (tr ++ [Got h data]) = FileDescriptor.delivered h tr ++ data /\
  forall h', FileDescriptor.accepted h' (tr ++ [Got h data]) = FileDescriptor.accepted h' tr.
Proof.
  rewrite FileDescriptor.delivered_app, FileDescriptor.delivered_got. split; [done |]. intros h'.
  rewrite FileDescriptor.accepted_app. apply app_nil_r.
Qed.

Lemma trace_other h h' tr new : h' <> h -> Forall (fun e => io_handle e = h') new ->
  FileDescriptor.delivered h (tr ++ new) = FileDescriptor.delivered h tr /\
  FileDescriptor.accepted h (tr ++ new) = FileDescriptor.accepted h tr.
Proof.
  intros Hne Hall. destruct (FileDescriptor.others_silent h h' new Hne Hall) as [Ea Ed].
  by rewrite FileDescriptor.delivered_app, FileDescriptor.accepted_app, Ea, Ed, !app_nil_r.
Qed.

Lemma trace_put h d tr :
  FileDescriptor.accepted h (tr ++ (Put h <$> d)) = FileDescriptor.accepted h tr ++ mjoin d /\
  FileDescriptor.delivered h (tr ++ (Put h <$> d)) = FileDescriptor.delivered h tr.
Proof.
  rewrite FileDescriptor.accepted_app, FileDescriptor.accepted_puts, FileDescriptor.delivered_app, FileDescriptor.delivered_puts.
  by rewrite app_nil_r.
Qed.

(** Events that are neither reads nor writes. *)
Lemma trace_shut h how tr h' :
  FileDescriptor.delivered h' (tr ++ [Shut h how]) = FileDescriptor.delivered h' tr /\
  FileDescriptor.accepted h' (tr ++ [Shut h how]) = FileDescriptor.accepted h' tr.
Proof. rewrite FileDescriptor.delivered_app, FileDescriptor.accepted_app. split; apply app_nil_r. Qed.

Lemma puts_handle h (d : list (list byte)) : Forall (fun e => io_handle e = h) (Put h <$> d).
Proof. apply Forall_fmap, Forall_forall. done. Qed.

Definition serviced (count : FDWrapper.t -> Z) (h : nat) (w w' : W) : Prop :=
  exists f f', FileDescriptor.at_fd (sys w) h f /\ FileDescriptor.at_fd (sys w') h f' /\ count f <> count f'.

Lemma read_stdin_wp w : inv w ->
  wpe rule1_callback (fun _ w' => inv w' /\ serviced FDWrapper._read_count inp w w') failure w.
Proof.
  intros [Es Ei Eo Hfds (tr & Etr & Hout & Hin)]. unfold rule1_callback. wp_step. wp_step. rewrite Ei.
  pose proof Hfds as Hfds'. rewrite !list.Forall_cons in Hfds'. destruct Hfds' as (_ & [f Hf] & _).
  eapply (copy_in_wp _outbound); [done.. | exact Hf | exact Hout | |].
  - intros data f' ker st' Ecount Hrel. destruct (trace_got inp data tr) as [Ed Ea].
    destruct (trace_other sock inp tr [Got inp data]) as [Ed' _]; [done | by constructor |]. split.
    + split; try done; [by apply fds_insert |]. exists (tr ++ [Got inp data]). split; [simpl; by rewrite Etr, app_assoc |].
      split; simpl; by rewrite ?Ed, ?Ed', ?Ea.
    + exists f, f'. split; [done |]. split; [by eapply FileDescriptor.at_fd_step |]. rewrite Ecount. apply not_eq_sym, u32_succ_ne.
  - intros e s' He Es'. split; [done |]. exists tr. simpl. rewrite Es'. split; [done |]. by apply (streams_relayed w).
Qed.

Lemma read_socket_wp w : inv w ->
  wpe rule3_callback (fun _ w' => inv w' /\ serviced FDWrapper._read_count sock w w') failure w.
Proof.
  intros [Es Ei Eo Hfds (tr & Etr & Hout & Hin)]. unfold rule3_callback. wp_step. wp_step. rewrite Es.
  pose proof Hfds as Hfds'. rewrite !list.Forall_cons in Hfds'. destruct Hfds' as ([f Hf] & _).
  eapply (copy_in_wp _inbound); [done.. | exact Hf | exact Hin | |].
  - intros data f' ker st' Ecount Hrel. destruct (trace_got sock data tr) as [Ed Ea].
    destruct (trace_other inp sock tr [Got sock data]) as [Ed' _]; [done | by constructor |]. split.
    + split; try done; [by apply fds_insert |]. exists (tr ++ [Got sock data]). split; [simpl; by rewrite Etr, app_assoc |].
      split; simpl; by rewrite ?Ed, ?Ed', ?Ea.
    + exists f, f'. split; [done |]. split; [by eapply FileDescriptor.at_fd_step |]. rewrite Ecount. apply not_eq_sym, u32_succ_ne.
  - intros e s' He Es'. split; [done |]. exists tr. simpl. rewrite Es'. split; [done |]. by apply (streams_relayed w).
Qed.

(** The traces after a write to the socket and to the standard output. *)
Lemma put_sock d tr : let tr' := tr ++ (Put sock <$> d) in
  FileDescriptor.accepted sock tr' = FileDescriptor.accepted sock tr ++ mjoin d /\
  FileDescriptor.delivered sock tr' = FileDescriptor.delivered sock tr /\
  FileDescriptor.delivered inp tr' = FileDescriptor.delivered inp tr /\
  FileDescriptor.accepted outp tr' = FileDescriptor.accepted outp tr.
Proof.
  destruct (trace_put sock d tr). destruct (trace_other inp sock tr (Put sock <$> d)); [done | apply puts_handle |].
  destruct (trace_other outp sock tr (Put sock <$> d)); [done | apply puts_handle |]. done.
Qed.

Lemma put_outp d tr : let tr' := tr ++ (Put outp <$> d) in
  FileDescriptor.accepted outp tr' = FileDescriptor.accepted outp tr ++ mjoin d /\
  FileDescriptor.delivered sock tr' = FileDescriptor.delivered sock tr /\
  FileDescriptor.delivered inp tr' = FileDescriptor.delivered inp tr /\
  FileDescriptor.accepted sock tr' = FileDescriptor.accepted sock tr.
Proof.
  destruct (trace_put outp d tr). destruct (trace_other inp outp tr (Put outp <$> d)); [done | apply puts_handle |].
  destruct (trace_other sock outp tr (Put outp <$> d)); [done | apply puts_handle |]. done.
Qed.

Lemma write_socket_wp w : inv w ->
  wpe rule2_callback (fun _ w' => inv w' /\ serviced FDWrapper._write_count sock w w') failure w.
Proof.
  intros [Es Ei Eo Hfds (tr & Etr & Hout & Hin)]. unfold rule2_callback. wp_step. wp_step. rewrite Es.
  pose proof Hfds as Hfds'. rewrite !list.Forall_cons in Hfds'. destruct Hfds' as ([f Hf] & _).
  eapply (copy_out_wp _outbound); [done.. | exact Hf | exact Hout | |].
  - intros d f' ker st' Ecount Hrel w'. destruct (put_sock d tr) as (Ea & Ed & Ed1 & Ea2).
    assert (Hstr : streams w' (tr ++ (Put sock <$> d))) by (split; simpl; by rewrite ?Ea, ?Ed, ?Ed1, ?Ea2).
    assert (Etr' : Sys.trace (sys w') = start ++ tr ++ (Put sock <$> d)) by (simpl; by rewrite Etr, app_assoc).
    assert (Hf' : FileDescriptor.at_fd (sys w') sock f') by (by eapply FileDescriptor.at_fd_step).
    split.
    + split; [split; try done; [by apply fds_insert | by exists (tr ++ (Put sock <$> d))] |].
      exists f, f'. do 2 (split; [done |]). rewrite Ecount. apply not_eq_sym, u32_succ_ne.
    + wp_step. unfold on_sys. wp_step. eapply Socket.shutdown_wr_wp; [exact Hf' | |].
      * intros ker'. wp_step. split.
        -- split; try done; [by do 2 apply fds_insert |]. exists ((tr ++ (Put sock <$> d)) ++ [Shut sock Socket.SHUT_WR]).
           split; [simpl in *; by rewrite Etr', <- !app_assoc |]. unfold streams.
           rewrite !(proj1 (trace_shut _ _ _ _)), !(proj2 (trace_shut _ _ _ _)). exact Hstr.
        -- exists f, (upd FDWrapper._write_count (fun c => u32 (c + 1)) f'). split; [done |].
           split; [by eapply (FileDescriptor.at_fd_step sock f') |]. simpl. rewrite Ecount. apply not_eq_sym, u32_succ2_ne.
      * intros e s' He Es'. split; [done |]. exists (tr ++ (Put sock <$> d)). simpl. rewrite Es'. split; [done |].
        by apply (streams_relayed w').
  - intros e d s' He Es' Hpre. split; [done |]. exists (tr ++ (Put sock <$> d)). simpl. rewrite Es', Etr, app_assoc. split; [done |].
    destruct (put_sock d tr) as (Ea & Ed & Ed1 & Ea2).
    unfold relayed. rewrite Ea, Ed, Ed1, Ea2. split; [done | by eapply relays_prefix].
Qed.

Lemma write_stdout_wp w : inv w ->
  wpe rule4_callback (fun _ w' => inv w' /\ serviced FDWrapper._write_count outp w w') failure w.
Proof.
  intros [Es Ei Eo Hfds (tr & Etr & Hout & Hin)]. unfold rule4_callback. wp_step. wp_step. rewrite Eo.
  pose proof Hfds as Hfds'. rewrite !list.Forall_cons in Hfds'. destruct Hfds' as (_ & _ & [f Hf] & _).
  eapply (copy_out_wp _inbound); [done.. | exact Hf | exact Hin | |].
  - intros d f' ker st' Ecount Hrel w'. destruct (put_outp d tr) as (Ea & Ed & Ed1 & Ea2).
    assert (Hstr : streams w' (tr ++ (Put outp <$> d))) by (split; simpl; by rewrite ?Ea, ?Ed, ?Ed1, ?Ea2).
    assert (Etr' : Sys.trace (sys w') = start ++ tr ++ (Put outp <$> d)) by (simpl; by rewrite Etr, app_assoc).
    assert (Hf' : FileDescriptor.at_fd (sys w') outp f') by (by eapply FileDescriptor.at_fd_step).
    split.
    + split; [split; try done; [by apply fds_insert | by exists (tr ++ (Put outp <$> d))] |].
      exists f, f'. do 2 (split; [done |]). rewrite Ecount. apply not_eq_sym, u32_succ_ne.
    + wp_step. unfold on_sys. wp_step. eapply FileDescriptor.close_wp; [exact Hf' | |].
      * intros ker'. wp_step. split.
        -- split; try done; [by do 2 apply fds_insert |]. by exists (tr ++ (Put outp <$> d)).
        -- exists f, (setf FDWrapper._eof true (setf FDWrapper._closed true f')). split; [done |].
           split; [by eapply (FileDescriptor.at_fd_step outp f') |]. simpl. rewrite Ecount. apply not_eq_sym, u32_succ_ne.
      * intros e s' He Es'. split; [done |]. exists (tr ++ (Put outp <$> d)). simpl. rewrite Es'. split; [done |].
        by apply (streams_relayed w').
  - intros e d s' He Es' Hpre. split; [done |]. exists (tr ++ (Put outp <$> d)). simpl. rewrite Es', Etr, app_assoc. split; [done |].
    destruct (put_outp d tr) as (Ea & Ed & Ed1 & Ea2).
    unfold relayed. rewrite Ea, Ed, Ed1, Ea2. split; [by eapply relays_prefix | done].
Qed.

(** *** The four rules together, and the loop *)

Definition any (_ : W) : Prop := True.
Definition specs : list (EventLoop.Rule W * (W -> Prop)) :=
  [(EventLoop.mk_rule inp EventLoop.In rule1_callback rule1_interest end_outbound, any);
   (EventLoop.mk_rule sock EventLoop.Out rule2_callback rule2_interest end_outbound, any);
   (EventLoop.mk_rule sock EventLoop.In rule3_callback rule3_interest end_inbound, any);
   (EventLoop.mk_rule outp EventLoop.Out rule4_callback rule4_interest end_inbound, any)].

Lemma end_outbound_wp w : inv w -> wpe end_outbound (fun _ => inv) failure w.
Proof.
  intros [Es Ei Eo Hfds (tr & Etr & Hout & Hin)]. unfold end_outbound. wp_step. unfold ByteStream.end_input. wp_step.
  split; try done. exists tr. split; [done |]. split; [by apply relays_end | done].
Qed.

Lemma end_inbound_wp w : inv w -> wpe end_inbound (fun _ => inv) failure w.
Proof.
  intros [Es Ei Eo Hfds (tr & Etr & Hout & Hin)]. unfold end_inbound. wp_step. unfold ByteStream.end_input. wp_step.
  split; try done. exists tr. split; [done |]. split; [done | by apply relays_end].
Qed.

Lemma copy_rules_ok : Forall (EventLoop.rule_ok (fun _ => inv) failure) specs.
Proof.
  assert (Hfds : forall w, inv w -> Forall (fun h => is_Some (Sys.wrappers (sys w) !! h)) [sock; inp; outp]) by (intros w []; done).
  setoid_rewrite list.Forall_cons in Hfds. setoid_rewrite list.Forall_cons in Hfds. setoid_rewrite list.Forall_cons in Hfds.
  repeat apply list.Forall_cons_2; try apply list.Forall_nil_2; split; simpl;
    try (by intros); try (by intros w (? & ? & ? & _)%Hfds);
    try (by intros w _; eexists); try (by intros _ w; apply end_outbound_wp); try (by intros _ w; apply end_inbound_wp);
    intros _ w Hw _.
  - eapply wp_mono; [by apply read_stdin_wp |]. intros [] w' [? ?]. split; [done | by left].
  - eapply wp_mono; [by apply write_socket_wp |]. intros [] w' [? ?]. split; [done | by left].
  - eapply wp_mono; [by apply read_socket_wp |]. intros [] w' [? ?]. split; [done | by left].
  - eapply wp_mono; [by apply write_stdout_wp |]. intros [] w' [? ?]. split; [done | by left].
Qed.

Lemma copy_rules_compatible : EventLoop.compatible (fun _ => inv) specs.
Proof.
  assert (Hany : forall (m : M W unit) w, wpe m (fun _ => any) (fun _ _ => True) w) by (intros m w; unfold wpe; by destruct (m w) as [[]]).
  unfold specs. repeat constructor; intros; apply Hany.
Qed.

(** What a call of the function ends with: it returns, fails with an error of the
    system, or is still running. *)
Definition stopped (e : exn) (w : W) : Prop :=
  (FileDescriptor.io_error e \/ e = EventLoop.poll_failed \/ e = OutOfFuel) /\
  exists tr, Sys.trace (sys w) = start ++ tr /\ relayed tr.

Lemma inv_relayed w : inv w -> exists tr, Sys.trace (sys w) = start ++ tr /\ relayed tr.
Proof. intros Hw. destruct (iv_trace _ Hw) as (tr & Etr & Hs). exists tr. split; [done | by eapply streams_relayed]. Qed.

Definition serving (l : EventLoop.t W) : Prop :=
  inv (EventLoop.world l) /\ exists left, left `sublist_of` specs /\ EventLoop._rules l = left.*1.

Lemma copy_loop_wp fuel : forall l, serving l ->
  wpe (loop fuel) (fun _ l' => inv (EventLoop.world l')) (fun e l' => stopped e (EventLoop.world l')) l.
Proof.
  induction fuel as [|fuel IH]; intros l [Hinv (left & Hsub & Hrules)]; cbn [loop].
  - wp_step. split; [auto | by apply inv_relayed].
  - wp_step. eapply wp_mono_exn; [apply (EventLoop.wait_next_event_wp (fun _ => inv) failure ltac:(done) 0 left) | |].
    + eapply EventLoop.compatible_sublist; [exact Hsub | apply copy_rules_compatible].
    + eapply EventLoop.sublist_keeps; [exact Hsub | apply copy_rules_ok].
    + intros _ w k []. by split.
    + done.
    + done.
    + intros r l' (left' & Hsub' & Hrules' & Hinv'). apply wp_if; intros _; [by wp_step |]. apply IH. split; [done |].
      exists left'. split; [by etrans | done].
    + intros e l' [[He Htr] | [He Hw]]; split; auto. by apply inv_relayed.
Qed.

Lemma add_rules_wp w : inv w ->
  wpe add_rules (fun _ => serving) (fun _ _ => False) (EventLoop.mk [] w).
Proof.
  intros Hw. unfold add_rules, EventLoop.add_rule. pose proof Hw as [Es Ei Eo _ _]. wp_steps. simpl. rewrite Es, Ei, Eo.
  split; [done |]. by exists specs.
Qed.
End rules.

Lemma fd_new_wp fd (Q : nat -> Sys.t K -> Prop) E s : 0 <= fd ->
  Q (length (Sys.wrappers s)) (Sys.mk (Sys.wrappers s ++ [FDWrapper.mk fd false false 0 0]) (Sys.kernel s) (Sys.trace s)) ->
  wpe (FileDescriptor.new fd) Q E s.
Proof.
  intros Hfd HQ. unfold FileDescriptor.new, FDWrapper.new. rewrite (proj2 (Z.ltb_ge fd 0)) by lia. by wp_steps.
Qed.
End copy.
End StreamCopy.

(** What happened from [s] to [s'] is a faithful copy. *)
Definition faithful {K} (sock input output : nat) (s s' : Sys.t K) : Prop :=
  exists tr, Sys.trace s' = Sys.trace s ++ tr /\
    FileDescriptor.accepted sock tr `prefix_of` FileDescriptor.delivered input tr /\
    FileDescriptor.accepted output tr `prefix_of` FileDescriptor.delivered sock tr.

Lemma copy_faithful {K} `{LinuxIO K} fuel sock (s : Sys.t K) :
  is_Some (Sys.wrappers s !! sock) ->
  let input := length (Sys.wrappers s) in
  let output := S (length (Sys.wrappers s)) in
  wpe (StreamCopy.bidirectional_stream_copy fuel sock)
    (fun _ s' => faithful sock input output s s' /\ is_Some (Sys.wrappers s' !! sock))
    (fun e s' => (FileDescriptor.io_error e \/ e = EventLoop.poll_failed \/ e = OutOfFuel) /\ faithful sock input output s s') s.
Proof.
  intros [f Hf] input output. pose proof (lookup_lt_Some _ _ _ Hf) as Hlt.
  assert (Hnone : forall s', Sys.trace s' = Sys.trace s -> faithful sock input output s s').
  { intros s' Es. exists []. rewrite app_nil_r. split; [done |]. split; apply prefix_nil. }
  unfold StreamCopy.bidirectional_stream_copy.
  wp_step. apply StreamCopy.fd_new_wp; [done |]. wp_step. apply StreamCopy.fd_new_wp; [done |]. cbn [Sys.wrappers Sys.trace Sys.kernel].
  rewrite length_app, Nat.add_1_r. fold input. fold output.
  set (ws := (_ ++ _) ++ _).
  assert (Hs : ws !! sock = Some f) by (unfold ws; rewrite !lookup_app_l; [done | lia | rewrite length_app; lia]).
  assert (Hi : ws !! input = Some (FDWrapper.mk StreamCopy.STDIN_FILENO false false 0 0)).
  { unfold ws. rewrite lookup_app_l by (rewrite length_app; simpl; lia). by apply list_lookup_middle. }
  assert (Ho : ws !! output = Some (FDWrapper.mk StreamCopy.STDOUT_FILENO false false 0 0)).
  { unfold ws. apply list_lookup_middle. by rewrite length_app, Nat.add_1_r. }
  assert (HE : forall e s', FileDescriptor.io_error e -> Sys.trace s' = Sys.trace s ->
    (FileDescriptor.io_error e \/ e = EventLoop.poll_failed \/ e = OutOfFuel) /\ faithful sock input output s s') by auto.
  wp_step. eapply FileDescriptor.set_blocking_wp; [exact Hs | | exact HE]. intros k1.
  wp_step. eapply FileDescriptor.set_blocking_wp; [exact Hi | | exact HE]. intros k2.
  wp_step. eapply FileDescriptor.set_blocking_wp; [exact Ho | | exact HE]. intros k3. wp_step. wp_step.
  set (w := StreamCopy.mk _ _ _ _ _ _ _ _).
  assert (Hw : StreamCopy.inv sock input output (Sys.trace s) w).
  { split; try done; [by repeat (apply list.Forall_cons_2 || apply list.Forall_nil_2) |]. exists [].
    split; [by rewrite app_nil_r |]. split; apply StreamCopy.relays_new. }
  assert (Hloop : wpe (StreamCopy.add_rules ;; StreamCopy.loop fuel)
    (fun _ l => StreamCopy.inv sock input output (Sys.trace s) (EventLoop.world l))
    (fun e l => StreamCopy.stopped sock input output (Sys.trace s) e (EventLoop.world l)) (EventLoop.mk [] w)).
  { wp_step. eapply wp_mono_exn; [by apply StreamCopy.add_rules_wp | | done]. intros [] l Hl.
    eapply wp_mono_exn; [eapply StreamCopy.copy_loop_wp; [.. | exact Hl]; lia | done | done]. }
  unfold wpe, StreamCopy.locally in *. change (setf StreamCopy.sys _ w) with w.
  destruct ((_ ;; _) _) as [[[]|e] l]; [| exact Hloop].
  split; [by eapply StreamCopy.inv_relayed |]. apply StreamCopy.iv_fds in Hloop. by apply list.Forall_cons in Hloop as [? _].
Qed.

(** [C19] Copying between the standard streams and a socket is faithful: however the
    kernel behaves, and for any number of turns of the loop, the function returns, or fails
    with an error of the system, or is still running, and in all three cases what the
    socket accepted is a prefix of what was read from the standard input, and what
    the standard output accepted is a prefix of what was read from the socket: nothing is
    skipped, repeated, reordered or made up.  In particular no rule overruns its byte
    stream's buffer or is reported as a busy wait. *)
Theorem copy_relays {K} `{LinuxIO K} fuel sock (s : Sys.t K) :
  is_Some (Sys.wrappers s !! sock) ->
  let input := length (Sys.wrappers s) in
  let output := S (length (Sys.wrappers s)) in
  let faithful (s' : Sys.t K) := exists tr, Sys.trace s' = Sys.trace s ++ tr /\
    FileDescriptor.accepted sock tr `prefix_of` FileDescriptor.delivered input tr /\
    FileDescriptor.accepted output tr `prefix_of` FileDescriptor.delivered sock tr in
  wpe (StreamCopy.bidirectional_stream_copy fuel sock)
    (fun _ s' => faithful s')
    (fun e s' => (FileDescriptor.io_error e \/ e = EventLoop.poll_failed \/ e = OutOfFuel) /\ faithful s') s.
Proof. intros Hs. eapply wp_mono; [by apply copy_faithful |]. by intros [] s' [Hf _]. Qed.

(** ** Witness

    Two bytes from the standard input and one from the socket, each followed by the end of
    the stream, with a kernel that accepts one byte at a time. *)

Definition sample_copy : Sys.t Script.t :=
  Sys.mk [FDWrapper.mk 7 false false 0 0]
    (Script.mk [[x61; x62]; []; [x63]; []] 1 []
      [[EventLoop.POLLIN; 0; 0; 0]; [EventLoop.POLLIN; EventLoop.POLLOUT; 0; 0]; [EventLoop.POLLOUT; EventLoop.POLLIN; 0];
       [0; EventLoop.POLLIN; EventLoop.POLLOUT]] 0) [].

Definition sample_run : outcome unit * Sys.t Script.t := StreamCopy.bidirectional_stream_copy 5 0 sample_copy.

Lemma sample_copy_runs :
  sample_run.1 = Ok tt /\ FileDescriptor.accepted 0 (Sys.trace sample_run.2) = [x61; x62] /\
  FileDescriptor.accepted 2 (Sys.trace sample_run.2) = [x63] /\
  FDWrapper._closed <$> Sys.wrappers sample_run.2 = [false; false; true] /\
  existsb (fun e => match e with Shut 0 how => how =? Socket.SHUT_WR | _ => false end) (Sys.trace sample_run.2) = true.
Proof. vm_compute. do 4 (split; [reflexivity |]). reflexivity. Qed.

Lemma copy_relays_witness :
  (exists s', StreamCopy.bidirectional_stream_copy 5 0 sample_copy = (Ok tt, s')) /\
  exists tr, Sys.trace (StreamCopy.bidirectional_stream_copy 5 0 sample_copy).2 = tr /\
  FileDescriptor.accepted 0 tr `prefix_of` FileDescriptor.delivered 1 tr /\
  FileDescriptor.accepted 2 tr `prefix_of` FileDescriptor.delivered 0 tr.
Proof.
  assert (Hs : is_Some (Sys.wrappers sample_copy !! 0%nat)) by (by eexists).
  generalize (copy_relays 5 0 sample_copy Hs). generalize (proj1 sample_copy_runs). unfold sample_run, wpe.
  destruct (StreamCopy.bidirectional_stream_copy 5 0 sample_copy) as [o s']. intros Eo. simpl in Eo. subst o.
  intros (tr & Etr & Hout & Hin). split; [by exists s' |]. by exists tr.
Defined.
