(* ===== verification/bouncer.v ===== *)
(** * apps/bouncer: a relay between pairs of UDP sockets

    For each even port of a range the program opens a socket on it and one on the next
    port.  What arrives on one of the two is sent on from the other, to the address from
    which that other last received; an event loop runs the two rules of every pair. *)

From S2P Require Import prelude buffer parser address file_descriptor eventloop.

Module Bouncer.

Section state.
Context {K : Type}.
(** The system, and the two vectors of [program_body]. *)
Record t : Type := mk { sys : Sys.t K; sockets : list nat; peers : list (option Address.t) }.
Definition eta (w : t) : t := mk (sys w) (sockets w) (peers w).
#[global] Instance set_sys : Setter sys := ltac:(derive_setter eta sys).
#[global] Instance set_sockets : Setter sockets := ltac:(derive_setter eta sockets).
#[global] Instance set_peers : Setter peers := ltac:(derive_setter eta peers).

#[global, refine] Instance bouncer_has_sys : HasSys K t := {| the_sys := sys |}.
Proof. - by intros []. - done. Defined.
End state.
Arguments t K : clear implicits.

Section bouncer.
Context {K : Type} `{Kernel K} `{Address.Netdb}.
Notation W := (Bouncer.t K).

(** A reference into [peers]; the vector has reserved its room and does not move. *)
Definition peer (i : nat) : M W (option Address.t) := let* w := get in or_ub (peers w !! i).
Definition set_peer (i : nat) (a : Address.t) : M W unit := peers %= <[i := Some a]>.

(** [not x_peer.has_value() or x_peer.value() != source] *)
Definition is_new (p : option Address.t) (source : Address.t) : bool :=
  match p with None => true | Some a => negb (Address.eqb a source) end.

(** A new address is remembered and printed; printing calls the kernel and the resolver,
    which may fail. *)
Definition note_peer (x i : nat) (x_peer : option Address.t) (source : Address.t) : M W unit :=
  when (is_new x_peer source)
    (set_peer i source ;;
     let* local := on_sys (Socket.local_address x) in
     let* _ := of_outcome (Address.to_string local) in
     let* _ := of_outcome (Address.to_string source) in
     pure tt).

(** The callback for a datagram on [x]: [i] and [j] are the places of [x_peer] and [y_peer]. *)
Definition forward (x y i j : nat) : M W unit :=
  let* rec := on_sys (UDPSocket.recv x UDPSocket.default_mtu) in
  let source := UDPSocket.source_address rec in
  let* x_peer := peer i in
  note_peer x i x_peer source ;;
  let* y_peer := peer j in
  match y_peer with
  | Some a =>
      when (negb (bool_decide (UDPSocket.payload rec = [])))
        (on_sys (UDPSocket.sendto y a (BufferViewList.of_string_view (UDPSocket.payload rec))))
  | None => pure tt
  end.

(** The body of the [for] loop. *)
Definition open_pair (lower_port : Z) : M (EventLoop.t W) unit :=
  let* (x, y, i) := zoom EventLoop.world
    (let* hx := on_sys UDPSocket.new in
     sockets %= (fun l => l ++ [hx]) ;;
     let* hy := on_sys UDPSocket.new in
     sockets %= (fun l => l ++ [hy]) ;;
     peers %= (fun l => l ++ [None]) ;;
     peers %= (fun l => l ++ [None]) ;;
     let* w := get in
     let* x := or_ub (sockets w !! (length (sockets w) - 2)%nat) in
     let* y := or_ub (sockets w !! (length (sockets w) - 1)%nat) in
     let i := (length (peers w) - 2)%nat in
     let* ax := of_outcome (Address.of_ip_port "0" lower_port) in
     on_sys (Socket.bind x ax) ;;
     let* ay := of_outcome (Address.of_ip_port "0" (u16 (lower_port + 1))) in
     on_sys (Socket.bind y ay) ;;
     pure (x, y, i)) in
  EventLoop.add_rule x EventLoop.In (forward x y i (S i)) EventLoop.always EventLoop.no_cancel ;;
  EventLoop.add_rule y EventLoop.In (forward y x (S i) i) EventLoop.always EventLoop.no_cancel.

(** [for (uint16_t lower_port = 1024; lower_port <= 64000; lower_port += 2)] *)
Definition FIRST_PORT : Z := 1024.
Definition LAST_PORT : Z := 64000.
Fixpoint open_pairs (fuel : nat) (lower_port : Z) : M (EventLoop.t W) unit :=
  match fuel with
  | O => throw OutOfFuel
  | S fuel =>
      if lower_port <=? LAST_PORT then open_pair lower_port ;; open_pairs fuel (u16 (lower_port + 2))
      else pure tt
  end.
Definition loop_turns : nat := Z.to_nat ((LAST_PORT - FIRST_PORT) / 2 + 2).

(** [while (Exit != loop.wait_next_event(-1)) {}]: [turns] of it; [false] when it still runs. *)
Fixpoint serve (turns : nat) : M (EventLoop.t W) bool :=
  match turns with
  | O => pure false
  | S turns =>
      let* result := EventLoop.wait_next_event (-1) in
      if bool_decide (result = EventLoop.Exit) then pure true else serve turns
  end.

Definition program_body (turns : nat) : M (EventLoop.t W) bool :=
  open_pairs loop_turns FIRST_PORT ;;
  serve turns.

(** ** What the relay promises

    [expected x y tr]: the peers of the pair, and the datagrams that should have left its
    sockets, after the events [tr]. *)

Definition learn (p : option Address.t) (source : Address.t) : option Address.t :=
  if is_new p source then Some source else p.
Definition forwarded (out : nat) (to : option Address.t) (data : list byte) : list io :=
  match to with
  | Some a => if bool_decide (data = []) then [] else [Sent out (Some a) data]
  | None => []
  end.

Definition step (x y : nat) (st : option Address.t * option Address.t * list io) (e : io) :
    option Address.t * option Address.t * list io :=
  let '(px, py, sends) := st in
  match e with
  | Received h source data =>
      if decide (h = x) then (learn px source, py, sends ++ forwarded y py data)
      else if decide (h = y) then (px, learn py source, sends ++ forwarded x px data)
      else st
  | _ => st
  end.
Definition expected (x y : nat) (tr : list io) : option Address.t * option Address.t * list io :=
  foldl (step x y) (None, None, []) tr.

(** The datagrams that left the two sockets. *)
Definition is_sent (x y : nat) (e : io) : bool :=
  match e with Sent h _ _ => bool_decide (h = x) || bool_decide (h = y) | _ => false end.
Definition sent (x y : nat) (tr : list io) : list io := List.filter (is_sent x y) tr.

(** Pair number [n] of the program. *)
Definition pair_of (w : W) (n x y : nat) : Prop :=
  sockets w !! (2 * n)%nat = Some x /\ sockets w !! (2 * n + 1)%nat = Some y.

(** Every pair has sent what it should, and remembers whom it heard. *)
Record inv (w : W) : Prop := {
  inv_sizes : length (peers w) = length (sockets w);
  inv_handles : NoDup (sockets w);
  inv_open : Forall (fun h => is_Some (Sys.wrappers (sys w) !! h)) (sockets w);
  inv_relay n x y : pair_of w n x y ->
    exists px py, peers w !! (2 * n)%nat = Some px /\ peers w !! (2 * n + 1)%nat = Some py /\
      expected x y (Sys.trace (sys w)) = (px, py, sent x y (Sys.trace (sys w)))
}.

(** After an error: nothing but a part of what should have been sent was sent. *)
Definition failed (e : exn) (w : W) : Prop :=
  e <> OutOfFuel /\ e <> UndefinedBehavior /\
  forall n x y, pair_of w n x y -> sent x y (Sys.trace (sys w)) `prefix_of` (expected x y (Sys.trace (sys w))).2.

(** ** Pairs *)

(** [x] and its partner [y], and their places in the vectors. *)
Definition linked (ss : list nat) (x y i j : nat) : Prop :=
  ss !! i = Some x /\ ss !! j = Some y /\ exists n, (i = 2 * n /\ j = 2 * n + 1)%nat \/ (i = 2 * n + 1 /\ j = 2 * n)%nat.

Lemma linked_ne ss x y i j : NoDup ss -> linked ss x y i j -> x <> y.
Proof. intros Hd (Hx & Hy & n & Hn) ->. pose proof (NoDup_lookup ss i j y Hd Hx Hy). lia. Qed.

(** Other places hold other sockets. *)
Lemma linked_apart ss x y i j k z : NoDup ss -> linked ss x y i j -> ss !! k = Some z -> k <> i -> k <> j -> z <> x /\ z <> y.
Proof.
  intros Hd (Hx & Hy & _) Hz Hi Hj. split; intros ->; [apply Hi | apply Hj]; by eapply NoDup_lookup.
Qed.

Lemma step_swap x y px py l e : x <> y ->
  step y x (py, px, l) e = let '(px', py', l') := step x y (px, py, l) e in (py', px', l').
Proof. intros Hne. destruct e; try done. cbn [step]. repeat case_decide; subst; done. Qed.

Lemma expected_swap x y tr : x <> y ->
  expected y x tr = let '(px, py, l) := expected x y tr in (py, px, l).
Proof.
  intros Hne. unfold expected. induction tr as [|e tr IH] using rev_ind; [done |].
  rewrite !foldl_app. cbn [foldl]. rewrite IH. destruct (foldl (step x y) _ tr) as [[px py] l]. by apply step_swap.
Qed.

Lemma sent_swap x y tr : sent y x tr = sent x y tr.
Proof.
  unfold sent. induction tr as [|e tr IH]; [done |]. cbn [List.filter]. rewrite IH.
  destruct e; try done. cbn [is_sent]. by rewrite orb_comm.
Qed.

(** Both directions of a pair. *)
Lemma inv_linked w x y i j :
  inv w -> linked (sockets w) x y i j ->
  exists px py, peers w !! i = Some px /\ peers w !! j = Some py /\
    expected x y (Sys.trace (sys w)) = (px, py, sent x y (Sys.trace (sys w))).
Proof.
  intros Hw Hl. pose proof (linked_ne _ _ _ _ _ (inv_handles _ Hw) Hl) as Hne.
  destruct Hl as (Hx & Hy & n & [[-> ->] | [-> ->]]).
  - by apply (inv_relay _ Hw n).
  - destruct (inv_relay _ Hw n y x) as (py & px & Ey & Ex & E); [done |]. exists px, py. split; [done |]. split; [done |].
    rewrite expected_swap, E, sent_swap by done. done.
Qed.

(** Events on other sockets do not matter to a pair. *)
Lemma step_other x y st e : io_handle e <> x -> io_handle e <> y -> step x y st e = st /\ is_sent x y e = false.
Proof.
  intros Hx Hy. destruct st as [[px py] l]. destruct e; cbn [step is_sent io_handle] in *; try done.
  - by rewrite !decide_False.
  - by rewrite !bool_decide_false.
Qed.

Lemma pair_other x y tr ex : Forall (fun e => io_handle e <> x /\ io_handle e <> y) ex ->
  expected x y (tr ++ ex) = expected x y tr /\ sent x y (tr ++ ex) = sent x y tr.
Proof.
  intros Hex. unfold expected, sent. rewrite foldl_app, List.filter_app.
  induction ex as [|e ex IH]; [by rewrite app_nil_r |]. inversion Hex as [|? ? [Hx Hy] Hex']; subst.
  cbn [foldl List.filter]. destruct (step_other x y (foldl (step x y) (None, None, []) tr) e Hx Hy) as [-> ->]. by apply IH.
Qed.

(** A datagram on [x], and what leaves [y] for it. *)
Lemma expected_received x y tr px py l source data :
  x <> y -> expected x y tr = (px, py, l) ->
  expected x y (tr ++ Received x source data :: forwarded y py data) = (learn px source, py, l ++ forwarded y py data) /\
  sent x y (tr ++ Received x source data :: forwarded y py data) = sent x y tr ++ forwarded y py data.
Proof.
  intros Hne E. unfold expected, sent in *. rewrite foldl_app, List.filter_app, E. cbn [foldl step List.filter is_sent].
  rewrite decide_True by done. unfold forwarded. destruct py as [a|]; [| done]. case_bool_decide; [done |].
  cbn [foldl step List.filter is_sent]. rewrite (bool_decide_true (y = y)), orb_true_r by done. done.
Qed.

(** ** The callback *)

(** What every other pair sees of the events of this one. *)
Lemma other_pairs w x y i j n x' y' ex :
  inv w -> linked (sockets w) x y i j -> pair_of w n x' y' -> (2 * n)%nat <> i -> (2 * n)%nat <> j ->
  Forall (fun e => io_handle e = x \/ io_handle e = y) ex ->
  (2 * n + 1)%nat <> i /\ (2 * n + 1)%nat <> j /\
  expected x' y' (Sys.trace (sys w) ++ ex) = expected x' y' (Sys.trace (sys w)) /\
  sent x' y' (Sys.trace (sys w) ++ ex) = sent x' y' (Sys.trace (sys w)).
Proof.
  intros Hw Hl [Hx' Hy'] Hi Hj Hex.
  assert (Hn : (2 * n + 1)%nat <> i /\ (2 * n + 1)%nat <> j) by (destruct Hl as (_ & _ & m & Hm); lia).
  destruct Hn as [Hi' Hj']. split; [done |]. split; [done |]. apply pair_other.
  pose proof (inv_handles _ Hw) as Hd.
  destruct (linked_apart _ _ _ _ _ _ _ Hd Hl Hx' Hi Hj), (linked_apart _ _ _ _ _ _ _ Hd Hl Hy' Hi' Hj').
  eapply Forall_impl; [| exact Hex]. intros e [He | He]; rewrite He; split; congruence.
Qed.

Lemma pair_linked w x y i j n x' y' :
  linked (sockets w) x y i j -> pair_of w n x' y' -> (2 * n)%nat = i \/ (2 * n)%nat = j ->
  (x' = x /\ y' = y /\ (2 * n)%nat = i /\ (2 * n + 1)%nat = j) \/ (x' = y /\ y' = x /\ (2 * n)%nat = j /\ (2 * n + 1)%nat = i).
Proof.
  intros (Hx & Hy & m & Hm) [Hx' Hy'] [E | E].
  - left. assert ((2 * n + 1)%nat = j) by lia. subst. rewrite Hx in Hx'. rewrite Hy in Hy'. split_and!; congruence.
  - right. assert ((2 * n + 1)%nat = i) by lia. subst. rewrite Hy in Hx'. rewrite Hx in Hy'. split_and!; congruence.
Qed.

Lemma forwarded_handles x y py source data :
  Forall (fun e => io_handle e = x \/ io_handle e = y) (Received x source data :: forwarded y py data).
Proof.
  constructor; [by left |]. unfold forwarded. destruct py; [| constructor]. case_bool_decide; [constructor |]. constructor; [by right | constructor].
Qed.

(** The invariant after a datagram was received and passed on. *)
Lemma inv_forwarded w w' x y i j px py source data :
  inv w -> linked (sockets w) x y i j -> peers w !! i = Some px -> peers w !! j = Some py ->
  sockets w' = sockets w -> peers w' = <[i := learn px source]> (peers w) ->
  (forall h, is_Some (Sys.wrappers (sys w) !! h) -> is_Some (Sys.wrappers (sys w') !! h)) ->
  Sys.trace (sys w') = Sys.trace (sys w) ++ Received x source data :: forwarded y py data -> inv w'.
Proof.
  intros Hw Hl Ei Ej Es Ep Hwr Et. pose proof (linked_ne _ _ _ _ _ (inv_handles _ Hw) Hl) as Hne.
  assert (Hij : i <> j) by (destruct Hl as (_ & _ & m & Hm); lia).
  destruct (inv_linked _ _ _ _ _ Hw Hl) as (px0 & py0 & Ex0 & Ey0 & Eexp).
  rewrite Ei in Ex0. rewrite Ej in Ey0. injection Ex0 as <-. injection Ey0 as <-.
  destruct (expected_received x y _ _ _ _ source data Hne Eexp) as [E1 E2].
  split.
  - rewrite Ep, length_insert, Es. apply Hw.
  - rewrite Es. apply Hw.
  - rewrite Es. eapply Forall_impl; [| apply Hw]. exact Hwr.
  - intros n x' y' Hp. unfold pair_of in Hp. rewrite Es in Hp. rewrite Et, Ep.
    assert (Hlt : (i < length (peers w))%nat) by (by apply lookup_lt_Some in Ei).
    destruct (decide ((2 * n)%nat = i \/ (2 * n)%nat = j)) as [Hij' | Hij'].
    + destruct (pair_linked w x y i j n x' y' Hl Hp Hij') as [(-> & -> & -> & ->) | (-> & -> & -> & ->)].
      * exists (learn px source), py. rewrite list_lookup_insert_eq, list_lookup_insert_ne by done. by rewrite E1, E2.
      * exists py, (learn px source). rewrite list_lookup_insert_eq, list_lookup_insert_ne by done.
        rewrite (sent_swap x y), expected_swap, E1, E2 by done. done.
    + destruct (other_pairs w x y i j n x' y' (Received x source data :: forwarded y py data)) as (Hi' & Hj' & -> & ->);
        [done | done | done | tauto | tauto | apply forwarded_handles |].
      rewrite !list_lookup_insert_ne by (intros E; rewrite E in *; tauto). by apply (inv_relay _ Hw).
Qed.

(** After an error before the datagram was received, and after it. *)
Lemma failed_before e w w' : inv w -> sockets w' = sockets w -> Sys.trace (sys w') = Sys.trace (sys w) ->
  FileDescriptor.io_error e -> failed e w'.
Proof.
  intros Hw Es Et He. split; [by intros -> |]. split; [by intros -> |]. intros n x y Hp. unfold pair_of in Hp. rewrite Es in Hp.
  destruct (inv_relay _ Hw n x y Hp) as (px & py & _ & _ & E). rewrite Et, E. done.
Qed.

Lemma failed_after e w w' x y i j source data :
  inv w -> linked (sockets w) x y i j -> sockets w' = sockets w ->
  Sys.trace (sys w') = Sys.trace (sys w) ++ [Received x source data] -> e <> OutOfFuel -> e <> UndefinedBehavior -> failed e w'.
Proof.
  intros Hw Hl Es Et He He'. split; [done |]. split; [done |]. intros n x' y' Hp. unfold pair_of in Hp. rewrite Es in Hp. rewrite Et.
  pose proof (linked_ne _ _ _ _ _ (inv_handles _ Hw) Hl) as Hne.
  destruct (inv_linked _ _ _ _ _ Hw Hl) as (px & py & _ & _ & Eexp).
  assert (E : sent x y (Sys.trace (sys w) ++ [Received x source data]) `prefix_of`
    (expected x y (Sys.trace (sys w) ++ [Received x source data])).2).
  { unfold expected, sent in *. rewrite foldl_app, List.filter_app, Eexp. cbn [foldl step List.filter is_sent].
    rewrite decide_True, app_nil_r by done. apply prefix_app_r. done. }
  destruct (decide ((2 * n)%nat = i \/ (2 * n)%nat = j)) as [Hij' | Hij'].
  - destruct (pair_linked w x y i j n x' y' Hl Hp Hij') as [(-> & -> & _) | (-> & -> & _)]; [done |].
    rewrite (sent_swap x y), expected_swap by done. revert E. destruct (expected x y (_ ++ _)) as [[? ?] ?]. cbn [snd]. tauto.
  - destruct (other_pairs w x y i j n x' y' [Received x source data]) as (_ & _ & -> & ->); try done; try tauto.
    { constructor; [by left | constructor]. }
    destruct (inv_relay _ Hw n x' y' Hp) as (? & ? & _ & _ & ->). done.
Qed.

Lemma local_address_wp h f (Q : Address.t -> Sys.t K -> Prop) (E : exn -> Sys.t K -> Prop) s :
  FileDescriptor.at_fd s h f -> (forall a k, Q a (setf Sys.kernel k s)) ->
  (forall e k, FileDescriptor.io_error e -> E e (setf Sys.kernel k s)) -> wpe (Socket.local_address h) Q E s.
Proof.
  intros Hf HQ HE. unfold Socket.local_address, Socket.get_address. wp_step. eapply FileDescriptor.fd_num_wp; [exact Hf |].
  wp_step. apply FileDescriptor.call_wp. intros k _. destruct (sys_getsockname _ _).1 as [r [a n]]. cbv beta iota.
  wp_step. apply FileDescriptor.system_call_wp; [intros _ | intros; by apply HE].
  unfold of_outcome, wpe, Address.of_sockaddr. destruct (_ <? n); [by apply HE | apply HQ].
Qed.

(** Printing an address: an error is the resolver's. *)
Lemma to_string_error a e : Address.to_string a = Throw e -> e <> OutOfFuel /\ e <> UndefinedBehavior.
Proof.
  unfold Address.to_string, Address.ip_port, std_stoi.
  destruct (Address.getnameinfo _ _ _) as [r [ip port]]. destruct (negb _); [by intros [= <-] |].
  destruct (span_string _ _) as [? s1]. destruct s1 as [|ch s2]; [by intros [= <-] |].
  repeat (destruct (_ =? _)%nat); destruct (dec_value _); try (destruct (_ || _)); by intros [= <-].
Qed.

Lemma printed_wp {A} a (k : string -> M W A) Q (E : exn -> W -> Prop) w :
  (forall str, wpe (k str) Q E w) -> (forall e, e <> OutOfFuel -> e <> UndefinedBehavior -> E e w) ->
  wpe (let* str := of_outcome (Address.to_string a) in k str) Q E w.
Proof.
  intros Hk HE. wp_step. unfold of_outcome, wpe. destruct (Address.to_string a) as [str|e] eqn:Ea; [apply Hk |].
  apply to_string_error in Ea as [? ?]. by apply HE.
Qed.

Lemma peer_wp i p (Q : option Address.t -> W -> Prop) E w : peers w !! i = Some p -> Q p w -> wpe (peer i) Q E w.
Proof. intros Hp HQ. unfold peer. wp_step. wp_step. by eapply wp_or_ub. Qed.

(** Only the kernel may go on meanwhile. *)
Lemma note_peer_wp x i px source f (Q : unit -> W -> Prop) (E : exn -> W -> Prop) w :
  FileDescriptor.at_fd (sys w) x f -> peers w !! i = Some px ->
  (forall k, Q tt (mk (setf Sys.kernel k (sys w)) (sockets w) (<[i := learn px source]> (peers w)))) ->
  (forall e k ps, e <> OutOfFuel -> e <> UndefinedBehavior -> E e (mk (setf Sys.kernel k (sys w)) (sockets w) ps)) ->
  wpe (note_peer x i px source) Q E w.
Proof.
  intros Hf Hi HQ HE. unfold note_peer, learn in *. destruct (is_new px source); cbn [when].
  - wp_step. unfold set_peer. wp_step. wp_step. unfold on_sys. wp_step. eapply local_address_wp; [exact Hf | |].
    + intros a k. apply printed_wp; [intros _ | intros; by apply HE].
      apply printed_wp; [intros _ | intros; by apply HE]. wp_step. apply HQ.
    + intros e k He. apply HE; by intros ->.
  - wp_step. specialize (HQ (Sys.kernel (sys w))). rewrite (list_insert_id _ _ _ Hi) in HQ. by destruct w as [[] ? ?].
Qed.

Definition counted (f : FDWrapper.t) : FDWrapper.t := upd FDWrapper._read_count (fun c => u32 (c + 1)) f.

Lemma forward_wp x y i j w :
  inv w -> linked (sockets w) x y i j ->
  wpe (forward x y i j)
    (fun _ w' => inv w' /\ sockets w' = sockets w /\
       exists f, FileDescriptor.at_fd (sys w) x f /\ FileDescriptor.at_fd (sys w') x (counted f)) failed w.
Proof.
  intros Hw Hl. pose proof (linked_ne _ _ _ _ _ (inv_handles _ Hw) Hl) as Hne.
  assert (Hfd : exists f g, FileDescriptor.at_fd (sys w) x f /\ FileDescriptor.at_fd (sys w) y g).
  { pose proof (inv_open _ Hw) as Ho. rewrite Forall_lookup in Ho. destruct Hl as (Hx & Hy & _).
    destruct (Ho _ _ Hx) as [f Hf], (Ho _ _ Hy) as [g Hg]. by exists f, g. }
  destruct Hfd as (f & g & Hf & Hg).
  destruct (inv_linked _ _ _ _ _ Hw Hl) as (px & py & Ei & Ej & _).
  assert (Hij : i <> j) by (destruct Hl as (_ & _ & m & Hm); lia).
  unfold forward, on_sys. wp_step. wp_step. eapply UDPSocket.recv_wp; [exact Hf | |].
  2:{ intros e s' He Et. eapply failed_before; [exact Hw | done | done | done]. }
  intros source data k _. cbn [UDPSocket.source_address UDPSocket.payload].
  set (s1 := Sys.mk (<[x := counted f]> (Sys.wrappers (sys w))) k (Sys.trace (sys w) ++ [Received x source data])).
  assert (Hf1 : FileDescriptor.at_fd s1 x (counted f)) by (by apply (FileDescriptor.at_fd_step x f)).
  assert (Hg1 : FileDescriptor.at_fd s1 y g).
  { unfold FileDescriptor.at_fd, s1. cbn [Sys.wrappers]. by rewrite list_lookup_insert_ne. }
  assert (Hopen : forall h, is_Some (Sys.wrappers (sys w) !! h) -> is_Some (Sys.wrappers s1 !! h)).
  { intros h Hh. by apply FileDescriptor.is_Some_insert. }
  assert (Hfail : forall e k' ps, e <> OutOfFuel -> e <> UndefinedBehavior -> failed e (mk (setf Sys.kernel k' s1) (sockets w) ps)).
  { intros e k' ps He He'. by apply (failed_after e w _ x y i j source data). }
  cbv zeta. wp_step. eapply peer_wp; [exact Ei |].
  wp_step. eapply note_peer_wp; [exact Hf1 | exact Ei | | intros; by apply Hfail].
  intros k'. wp_step. eapply (peer_wp j py); [cbn [peers]; by rewrite list_lookup_insert_ne |].
  assert (Hdone : forall w', sockets w' = sockets w -> peers w' = <[i := learn px source]> (peers w) ->
    (forall h, is_Some (Sys.wrappers s1 !! h) -> is_Some (Sys.wrappers (sys w') !! h)) ->
    Sys.trace (sys w') = Sys.trace (sys w) ++ Received x source data :: forwarded y py data ->
    FileDescriptor.at_fd (sys w') x (counted f) ->
    inv w' /\ sockets w' = sockets w /\ exists f, FileDescriptor.at_fd (sys w) x f /\ FileDescriptor.at_fd (sys w') x (counted f)).
  { intros w' Es Ep Hwr Et Hx. split; [| split; [done | by exists f]].
    eapply (inv_forwarded w w' x y i j px py source data); eauto. }
  destruct py as [a|]; [| wp_step; by apply Hdone].
  apply wp_when; intros C.
  - apply negb_true_iff, bool_decide_eq_false in C. wp_step. eapply UDPSocket.sendto_wp; [exact Hg1 | |].
    + intros k2. apply Hdone; [done | done | | |].
      * intros h Hh. by apply FileDescriptor.is_Some_insert.
      * unfold forwarded. rewrite bool_decide_false by done.
        change (Sys.trace _) with ((Sys.trace (sys w) ++ [Received x source data]) ++ [Sent y (Some a) (data ++ [])]) at 1.
        by rewrite app_nil_r, <- app_assoc.
      * etrans; [by apply list_lookup_insert_ne | exact Hf1].
    + intros e s' He Et. eapply (failed_after e w _ x y i j source data); [done | done | done | exact Et | by intros -> | by intros ->].
  - apply negb_false_iff, bool_decide_eq_true in C. subst data. by apply Hdone.
Qed.

(** ** The loop *)

Definition rule (q : nat * nat * nat * nat) : EventLoop.Rule W :=
  let '(x, y, i, j) := q in EventLoop.mk_rule x EventLoop.In (forward x y i j) EventLoop.always EventLoop.no_cancel.
Definition spec (q : nat * nat * nat * nat) : EventLoop.Rule W * (W -> Prop) := (rule q, fun _ => True).
Definition is_linked (ss : list nat) (q : nat * nat * nat * nat) : Prop := let '(x, y, i, j) := q in linked ss x y i j.

(** The invariant while the sockets are [ss]; the loop's budget is not used. *)
Definition relaying (ss : list nat) (_ : nat) (w : W) : Prop := inv w /\ sockets w = ss.

Lemma rule_relays ss q : is_linked ss q -> EventLoop.rule_ok (relaying ss) failed (spec q).
Proof.
  destruct q as [[[x y] i] j]. intros Hl. split; cbn [spec rule fst snd EventLoop.fd EventLoop.interest EventLoop.cancel EventLoop.callback].
  - intros w [Hw Es]. rewrite <- Es in Hl. pose proof (inv_open _ Hw) as Ho. rewrite Forall_lookup in Ho. destruct Hl as (Hx & _).
    destruct (Ho _ _ Hx) as [f Hf]. by exists f.
  - intros w _. by exists true.
  - intros k w [Hw Ess] _. rewrite <- Ess in Hl. eapply wp_mono; [by apply forward_wp |]. intros [] w' (Hw' & Es & f & Hf & Hf').
    split; [split; [done | by rewrite Es, Ess] |]. left. exists f, (counted f). split; [done |]. split; [done |]. apply not_eq_sym, u32_succ_ne.
  - intros k w Hw. exact Hw.
  - done.
Qed.

Lemma specs_compatible ss qs : EventLoop.compatible (relaying ss) (map spec qs).
Proof.
  unfold EventLoop.compatible. induction qs as [|q qs IH]; [constructor |]. cbn [map]. constructor; [| exact IH].
  apply List.Forall_forall. intros rp Hrp. apply in_map_iff in Hrp as (q' & <- & _).
  split; split; intros w; intros; apply wp_true.
Qed.

Lemma inv_failed e w : inv w -> e <> OutOfFuel -> e <> UndefinedBehavior -> failed e w.
Proof.
  intros Hw He He'. split; [done |]. split; [done |]. intros n x y Hp.
  destruct (inv_relay _ Hw n x y Hp) as (? & ? & _ & _ & ->). done.
Qed.

Lemma relay_serve_wp ss turns : forall specs l,
  EventLoop.compatible (relaying ss) specs -> Forall (EventLoop.rule_ok (relaying ss) failed) specs ->
  EventLoop._rules l = specs.*1 -> relaying ss 0 (EventLoop.world l) ->
  wpe (serve turns) (fun _ l' => relaying ss 0 (EventLoop.world l')) (fun e l' => failed e (EventLoop.world l')) l.
Proof.
  induction turns as [|turns IH]; intros specs l Hc Hok Hr HI; cbn [serve]; [wp_step; apply HI |]. wp_step.
  eapply wp_mono_exn; [apply (EventLoop.wait_next_event_wp (relaying ss) failed ltac:(done) 0 specs); try done |..].
  - intros j w k [Hw Es]. split; [by destruct Hw | done].
  - intros r l' (left & Hsub & Hr' & HI'). apply wp_if; intros _; [wp_step; apply HI' |].
    apply (IH left); [| | done | done].
    + by eapply EventLoop.compatible_sublist.
    + by eapply EventLoop.sublist_keeps.
  - intros e l' [He | [-> [Hw _]]]; [done |]. by apply inv_failed.
Qed.

(** ** The sockets are opened *)

(** [n] pairs are open, nothing has been received yet. *)
Record opened (n : nat) (l : EventLoop.t W) : Prop := {
  opened_trace : Sys.trace (sys (EventLoop.world l)) = [];
  opened_sockets : length (sockets (EventLoop.world l)) = (2 * n)%nat;
  opened_peers : peers (EventLoop.world l) = replicate (2 * n) None;
  opened_handles : NoDup (sockets (EventLoop.world l));
  opened_open : Forall (fun h => is_Some (Sys.wrappers (sys (EventLoop.world l)) !! h)) (sockets (EventLoop.world l));
  opened_rules : exists qs, EventLoop._rules l = map rule qs /\ Forall (is_linked (sockets (EventLoop.world l))) qs
}.

Lemma opened_inv n l : opened n l -> inv (EventLoop.world l).
Proof.
  intros [Et Es Ep Hd Ho _]. split; [by rewrite Ep, length_replicate, Es | done | done |].
  intros m x y [Hx Hy]. rewrite Et. exists None, None. apply lookup_lt_Some in Hy. rewrite Es in Hy.
  rewrite Ep, !lookup_replicate_2 by lia. done.
Qed.

(** A failure before anything was sent. *)
Lemma silent_failed e w : Sys.trace (sys w) = [] -> e <> OutOfFuel -> e <> UndefinedBehavior -> failed e w.
Proof. intros Et He He'. split; [done |]. split; [done |]. intros n x y _. by rewrite Et. Qed.

Lemma udp_new_wp (Q : nat -> Sys.t K -> Prop) (E : exn -> Sys.t K -> Prop) s :
  (forall f k, Q (length (Sys.wrappers s)) (Sys.mk (Sys.wrappers s ++ [f]) k (Sys.trace s))) ->
  (forall e k, e <> OutOfFuel -> e <> UndefinedBehavior -> E e (setf Sys.kernel k s)) -> wpe UDPSocket.new Q E s.
Proof.
  intros HQ HE. unfold UDPSocket.new, Socket.new. wp_step. apply FileDescriptor.call_wp. intros k _. wp_step.
  apply FileDescriptor.system_call_wp; [intros _ | intros; by apply HE]. unfold FileDescriptor.new. wp_step.
  unfold of_outcome, wpe, FDWrapper.new. destruct (_ <? 0); [by apply HE | apply HQ].
Qed.

Lemma socket_bind_wp h f a (Q : unit -> Sys.t K -> Prop) (E : exn -> Sys.t K -> Prop) s :
  FileDescriptor.at_fd s h f -> (forall k, Q tt (setf Sys.kernel k s)) ->
  (forall e k, e <> OutOfFuel -> e <> UndefinedBehavior -> E e (setf Sys.kernel k s)) -> wpe (Socket.bind h a) Q E s.
Proof.
  intros Hf HQ HE. unfold Socket.bind. wp_step. eapply FileDescriptor.fd_num_wp; [exact Hf |]. wp_step.
  apply FileDescriptor.call_wp. intros k _. wp_step. apply FileDescriptor.system_call_wp; [intros _ | intros; by apply HE].
  wp_step. apply HQ.
Qed.

Lemma of_ip_port_wp {A} ip p (k : Address.t -> M W A) Q (E : exn -> W -> Prop) w :
  (forall a, wpe (k a) Q E w) -> (forall e, e <> OutOfFuel -> e <> UndefinedBehavior -> E e w) ->
  wpe (let* a := of_outcome (Address.of_ip_port ip p) in k a) Q E w.
Proof.
  intros Hk HE. wp_step. unfold of_outcome, wpe, Address.of_ip_port, Address.of_node.
  destruct (Address.getaddrinfo _ _ _) as [r [|[a n] rest]]; destruct (negb _); try (by apply HE).
  unfold Address.of_sockaddr. destruct (_ <? n); [by apply HE | apply Hk].
Qed.

Lemma linked_mono ss more q : is_linked ss q -> is_linked (ss ++ more) q.
Proof.
  destruct q as [[[x y] i] j]. intros (Hx & Hy & Hn). split; [by apply lookup_app_l_Some |]. split; [by apply lookup_app_l_Some | done].
Qed.

Lemma handles_fresh (ws : list FDWrapper.t) ss :
  NoDup ss -> Forall (fun h => is_Some (ws !! h)) ss -> NoDup (ss ++ [length ws; S (length ws)]).
Proof.
  intros Hd Ho. rewrite list.Forall_forall in Ho.
  assert (Hlt : forall h, h ∈ ss -> (h < length ws)%nat) by (intros h Hh; by apply lookup_lt_is_Some, Ho).
  apply list.NoDup_app. split; [done |]. split.
  - intros h Hh Hin. apply Hlt in Hh. rewrite !elem_of_cons, elem_of_nil in Hin. lia.
  - apply NoDup_cons_2; [| apply NoDup_singleton]. rewrite list_elem_of_singleton. lia.
Qed.

(** The world after a pair was added. *)
Lemma opened_pair n l f g k :
  opened n l ->
  let w := EventLoop.world l in
  let x := length (Sys.wrappers (sys w)) in
  opened (S n) (EventLoop.mk (EventLoop._rules l ++ [rule (x, S x, 2 * n, S (2 * n)); rule (S x, x, S (2 * n), 2 * n)])%nat
    (mk (Sys.mk ((Sys.wrappers (sys w) ++ [f]) ++ [g]) k (Sys.trace (sys w))) ((sockets w ++ [x]) ++ [S x])
       ((peers w ++ [None]) ++ [None]))).
Proof.
  intros [Et Es Ep Hd Ho (qs & Er & Hl)] w x. split; cbn [EventLoop.world EventLoop._rules sys sockets peers Sys.trace Sys.wrappers].
  - done.
  - rewrite !length_app. fold w in Es. rewrite Es. cbn. lia.
  - fold w in Ep. rewrite Ep. replace (2 * S n)%nat with (2 * n + 1 + 1)%nat by lia. by rewrite !replicate_add.
  - rewrite <- app_assoc. by apply handles_fresh.
  - rewrite <- !app_assoc. apply Forall_app. split.
    + eapply Forall_impl; [| exact Ho]. intros h [v Hv]. exists v. by apply lookup_app_l_Some.
    + cbn [app]. repeat constructor; apply lookup_lt_is_Some; rewrite length_app; cbn; unfold x, w; lia.
  - exists (qs ++ [(x, S x, 2 * n, S (2 * n)); (S x, x, S (2 * n), 2 * n)])%nat.
    rewrite map_app, Er. split; [done |]. apply Forall_app. rewrite <- !app_assoc. split.
    + eapply Forall_impl; [| exact Hl]. intros q. apply linked_mono.
    + fold w in Es. assert (H0' : (sockets w ++ [x] ++ [S x]) !! (2 * n)%nat = Some x).
      { rewrite <- Es, lookup_app_r, Nat.sub_diag by lia. done. }
      assert (H1' : (sockets w ++ [x] ++ [S x]) !! S (2 * n) = Some (S x)).
      { rewrite <- Es, lookup_app_r by lia. by replace (S (length (sockets w)) - length (sockets w))%nat with 1%nat by lia. }
      constructor; [| constructor; [| constructor]]; (split; [done | split; [done |]]); exists n; lia.
Qed.

Lemma open_pair_wp n p l :
  opened n l -> wpe (open_pair p) (fun _ l' => opened (S n) l') (fun e l' => failed e (EventLoop.world l')) l.
Proof.
  intros Hl. pose proof (opened_trace _ _ Hl) as Et.
  assert (Hfail : forall e s ss ps, Sys.trace s = [] -> e <> OutOfFuel -> e <> UndefinedBehavior ->
    failed e (EventLoop.world (setf EventLoop.world (mk s ss ps) l))) by (intros; by apply silent_failed).
  unfold open_pair, on_sys. wp_step. wp_step. destruct l as [rs w]. cbn [EventLoop.world] in *.
  wp_step. wp_step. apply udp_new_wp; [intros f k1 | intros; by apply Hfail]. wp_step. wp_step.
  wp_step. wp_step. apply udp_new_wp; [intros g k2 | intros; by apply Hfail]. wp_step. wp_step. wp_step. wp_step. wp_step. wp_step.
  wp_step. wp_step. cbn [sockets peers setf upd set_sockets set_peers set_sys the_sys bouncer_has_sys sys_setter sys Sys.wrappers Sys.trace].
  rewrite !length_app. cbn [length]. pose proof (opened_pair n (EventLoop.mk rs w) f g) as Hopen. cbv zeta in Hopen. cbn [EventLoop.world EventLoop._rules] in Hopen.
  set (x := length (Sys.wrappers (sys w))) in *.
  replace (x + 1)%nat with (S x) by lia.
  wp_step. eapply wp_or_ub.
  { rewrite <- app_assoc. replace (_ + 1 + 1 - 2)%nat with (length (sockets w)) by lia. rewrite lookup_app_r, Nat.sub_diag by lia. done. }
  wp_step. eapply wp_or_ub.
  { rewrite <- app_assoc. replace (_ + 1 + 1 - 1)%nat with (S (length (sockets w))) by lia. rewrite lookup_app_r by lia.
    replace (S (length (sockets w)) - length (sockets w))%nat with 1%nat by lia. done. }
  cbv zeta. replace (length (peers w) + 1 + 1 - 2)%nat with (2 * n)%nat
    by (pose proof (opened_peers _ _ Hl) as Ep; cbn [EventLoop.world] in Ep; rewrite Ep, length_replicate; lia).
  apply of_ip_port_wp; [intros ax | intros; by apply Hfail]. wp_step. wp_step.
  eapply (socket_bind_wp x f); [| intros k3 | intros; by apply Hfail].
  { unfold FileDescriptor.at_fd. cbn. rewrite <- app_assoc, lookup_app_r, Nat.sub_diag by done. done. }
  apply of_ip_port_wp; [intros ay | intros; by apply Hfail]. wp_step. wp_step.
  eapply (socket_bind_wp (S x) g); [| intros k4 | intros; by apply Hfail].
  { unfold FileDescriptor.at_fd. cbn. rewrite <- app_assoc, lookup_app_r by (unfold x; lia).
    replace (S x - length (Sys.wrappers (sys w)))%nat with 1%nat by (unfold x; lia). done. }
  wp_step. cbv beta iota. unfold EventLoop.add_rule. wp_step. wp_step. wp_step.
  specialize (Hopen k4 Hl). cbn [app] in Hopen. change (rs ++ [?a; ?b]) with (rs ++ [a] ++ [b]) in Hopen.
  rewrite app_assoc in Hopen. exact Hopen.
Qed.

(** The ports are even, so the last pair is on [LAST_PORT] and the next one. *)
Lemma open_pairs_wp fuel : forall n m p l,
  p = FIRST_PORT + 2 * Z.of_nat n -> p <= LAST_PORT + 2 -> m = Z.to_nat ((LAST_PORT + 2 - p) / 2) -> (m < fuel)%nat ->
  opened n l ->
  wpe (open_pairs fuel p) (fun _ l' => opened (n + m) l') (fun e l' => failed e (EventLoop.world l')) l.
Proof.
  unfold FIRST_PORT, LAST_PORT in *. induction fuel as [|fuel IH]; intros n m p l Ep Hp Em Hm Hl; [lia |]. cbn [open_pairs].
  apply wp_if; intros C; unfold LAST_PORT in C.
  - apply Z.leb_le in C. wp_step. eapply wp_mono; [by apply open_pair_wp |]. intros [] l' Hl'.
    rewrite u16_small by lia. destruct m as [|m]; [zarith |]. replace (n + S m)%nat with (S n + m)%nat by lia.
    apply IH; [lia | lia | zarith | lia | done].
  - apply Z.leb_gt in C. wp_step. replace m with 0%nat by zarith. by rewrite Nat.add_0_r.
Qed.
End bouncer.
End Bouncer.

(** ** Property *)

(** [C20] The bouncer relays: on any kernel, and after any number of turns of its event loop,
    each of its 31489 pairs of sockets has sent exactly the non-empty datagrams that it
    received on the one socket from the other, unchanged and in order, each to the address
    from which that other had last heard; the vectors stay within what was reserved, so
    that the references into them stay valid.  If a system call or the resolver fails,
    what was sent is a prefix of what should have been. *)
Theorem bouncer_relays {K} `{Kernel K} `{Address.Netdb} turns (k : K) :
  wpe (Bouncer.program_body turns)
    (fun _ l => let w := EventLoop.world l in
       length (Bouncer.sockets w) = Z.to_nat 62978 /\ length (Bouncer.peers w) = Z.to_nat 62978 /\
       forall n x y, Bouncer.pair_of w n x y ->
         Bouncer.sent x y (Sys.trace (Bouncer.sys w)) = (Bouncer.expected x y (Sys.trace (Bouncer.sys w))).2)
    (fun e l => Bouncer.failed e (EventLoop.world l))
    (EventLoop.mk [] (Bouncer.mk (Sys.mk [] k []) [] [])).
Proof.
  unfold Bouncer.program_body. wp_step.
  eapply wp_mono; [apply (Bouncer.open_pairs_wp Bouncer.loop_turns 0 (Z.to_nat 31489)) |].
  - done.
  - done.
  - done.
  - unfold Bouncer.loop_turns. apply Z2Nat.inj_lt; done.
  - split; try done; [apply NoDup_nil_2 |]. by exists [].
  - intros [] l Hl. destruct (Bouncer.opened_rules _ _ Hl) as (qs & Er & Hqs).
    eapply wp_mono; [apply (Bouncer.relay_serve_wp (Bouncer.sockets (EventLoop.world l)) turns (map Bouncer.spec qs)) |].
    + apply Bouncer.specs_compatible.
    + apply Forall_map. eapply Forall_impl; [| exact Hqs]. intros q. apply Bouncer.rule_relays.
    + rewrite Er, <- list_fmap_compose. done.
    + split; [by apply (Bouncer.opened_inv (0 + Z.to_nat 31489)) | done].
    + intros b l' [Hw Es]. cbv zeta. rewrite (Bouncer.inv_sizes _ Hw), Es, (Bouncer.opened_sockets _ _ Hl).
      assert (E2 : (2 * (0 + Z.to_nat 31489))%nat = Z.to_nat 62978) by lia.
      split; [exact E2 |]. split; [exact E2 |]. intros n x y Hp.
      destruct (Bouncer.inv_relay _ Hw n x y Hp) as (? & ? & _ & _ & ->). done.
Qed.
