(* ===== verification/tcp_sponge_socket.v ===== *)
(** * tcp_helpers/tcp_sponge_socket: a TCP connection behind a Unix socket

    A [TCPSpongeSocket] runs a [TCPConnection] in an event loop: datagrams come from
    and go to an adapter, the application's bytes come from and go to one end of a
    local socket pair ([_thread_data]), whose other end is the socket itself.

    The owner's thread touches the other end of the pair, which is in the kernel, and
    the flag [_abort]: both are part of the environment, so an arbitrary [Kernel]
    accounts for every interleaving with it.  The text of debugging output is not
    modelled; that printing an address may throw is. *)

From S2P Require Import prelude buffer parser wrapping_integers tcp_segment byte_stream stream_reassembler tcp_receiver tcp_sender tcp_state tcp_connection address ethernet ipv4 network_interface file_descriptor tun fd_adapter eventloop.

(** [timestamp_ms()], a [uint64_t] *)
Definition timestamp_ms {K} `{Kernel K} : M (Sys.t K) Z := let* now := Sys.call sys_clock in pure (u64 now).

(** The flag the owner's thread may set at any time. *)
Class Owner (K : Type) : Type := _abort : K -> bool.

Module TCPSpongeSocket.

Section state.
Context {K A : Type}.
Record t : Type := mk {
  sys : Sys.t K;
  self : nat;                   (** the base class: the owner's end of the pair *)
  _thread_data : nat;
  _datagram_adapter : A;
  _tcp : option TCPConnection.t;
  _tcp_thread : bool;           (** is there a thread to join? *)
  _inbound_shutdown : bool;
  _outbound_shutdown : bool;
  _fully_acked : bool
}.
Definition eta (w : t) : t :=
  mk (sys w) (self w) (_thread_data w) (_datagram_adapter w) (_tcp w) (_tcp_thread w) (_inbound_shutdown w)
     (_outbound_shutdown w) (_fully_acked w).
#[global] Instance set_sys : Setter sys := ltac:(derive_setter eta sys).
#[global] Instance set_adapter : Setter _datagram_adapter := ltac:(derive_setter eta _datagram_adapter).
#[global] Instance set_tcp : Setter _tcp := ltac:(derive_setter eta _tcp).
#[global] Instance set_tcp_thread : Setter _tcp_thread := ltac:(derive_setter eta _tcp_thread).
#[global] Instance set_inbound_shutdown : Setter _inbound_shutdown := ltac:(derive_setter eta _inbound_shutdown).
#[global] Instance set_outbound_shutdown : Setter _outbound_shutdown := ltac:(derive_setter eta _outbound_shutdown).
#[global] Instance set_fully_acked : Setter _fully_acked := ltac:(derive_setter eta _fully_acked).

#[global, refine] Instance socket_has_sys : HasSys K t := {| the_sys := sys |}.
Proof. - by intros []. - done. Defined.
End state.
Arguments t K A : clear implicits.

Section socket.
Context {K A : Type} `{Kernel K} `{FdAdapter K A} `{Address.Netdb} `{Owner K}.
Notation W := (TCPSpongeSocket.t K A).
(** The whole object: the members above, and [_eventloop]. *)
Notation L := (EventLoop.t W).

Definition TCP_TICK_MS : Z := 10.

(** A call of the adapter. *)
Definition with_adapter {B} (m : M (World.t K A) B) : M W B := fun w =>
  let '(o, w') := m (World.mk (sys w) (_datagram_adapter w)) in
  (o, setf sys (World.sys w') (setf _datagram_adapter (World.obj w') w)).

(** [_tcp->]: undefined when there is no connection.  [_tcp.value()]: an exception. *)
Definition on_tcp_or {B} (none : exn) (m : M TCPConnection.t B) : M W B := fun w =>
  match _tcp w with
  | None => (Throw none, w)
  | Some c => let '(o, c') := m c in (o, setf _tcp (Some c') w)
  end.
Definition on_tcp {B} : M TCPConnection.t B -> M W B := on_tcp_or UndefinedBehavior.
Definition tcp_value {B} : M TCPConnection.t B -> M W B := on_tcp_or Bad_optional_access.

(** [_datagram_adapter.config().destination.to_string()], for the debugging output *)
Definition destination_to_string : M W string :=
  let* cfg := asks (fun w => adapter_config (_datagram_adapter w)) in
  of_outcome (Address.to_string (FdAdapterConfig.destination cfg)).

(** *** Rule 1: from the datagrams into the connection *)

Definition rule1_callback : M W unit :=
  let* seg := with_adapter adapter_read in
  (match seg with Some seg => on_tcp (TCPConnection.segment_received seg) | None => pure tt end) ;;
  let* td := asks _thread_data in
  let* eof := on_sys (FileDescriptor.eof td) in
  let* in_flight := (if eof then tcp_value (asks TCPConnection.bytes_in_flight) else pure 1) in
  let* fully_acked := asks _fully_acked in
  when (eof && (in_flight =? 0) && negb fully_acked)
    (let* _ := destination_to_string in
     _fully_acked ::= true).
Definition rule1_interest : M W bool := on_tcp (asks TCPConnection.active).

(** *** Rule 2: from the application into the connection *)

Definition rule2_callback : M W unit :=
  let* td := asks _thread_data in
  let* capacity := on_tcp (asks TCPConnection.remaining_outbound_capacity) in
  let* data := on_sys (FileDescriptor.read td capacity) in
  let* amount_written := on_tcp (TCPConnection.write data) in
  if negb (amount_written =? len data) then
    throw (Runtime_error "TCPConnection::write() accepted less than advertised length")
  else
    let* eof := on_sys (FileDescriptor.eof td) in
    when eof
      (on_tcp TCPConnection.end_input_stream ;;
       _outbound_shutdown ::= true ;;
       let* _ := destination_to_string in
       let* _ := tcp_value (asks TCPConnection.bytes_in_flight) in
       pure tt).
Definition rule2_interest : M W bool :=
  let* active := on_tcp (asks TCPConnection.active) in
  let* outbound_shutdown := asks _outbound_shutdown in
  let* capacity := on_tcp (asks TCPConnection.remaining_outbound_capacity) in
  pure (active && negb outbound_shutdown && (0 <? capacity)).
Definition rule2_cancel : M W unit :=
  on_tcp TCPConnection.end_input_stream ;;
  _outbound_shutdown ::= true.

(** *** Rule 3: from the connection to the application *)

(** [_tcp->inbound_stream()] *)
Definition on_inbound {B} (m : M ByteStream.t B) : M W B :=
  on_tcp (zoom TCPConnection._receiver (zoom TCPReceiver._reassembler (zoom StreamReassembler._output m))).

Definition rule3_callback : M W unit :=
  let* td := asks _thread_data in
  let* size := on_inbound (asks ByteStream.buffer_size) in
  let amount_to_write := Z.min 65536 size in
  let* buffer := on_inbound (asks (ByteStream.peek_output amount_to_write)) in
  let* bytes_written := on_sys (FileDescriptor.write td (BufferViewList.of_string_view buffer) false) in
  on_inbound (ByteStream.pop_output bytes_written) ;;
  let* eof := on_inbound (asks ByteStream.eof) in
  let* error := on_inbound (asks ByteStream.error) in
  when (eof || error)
    (on_sys (Socket.shutdown td Socket.SHUT_WR) ;;
     _inbound_shutdown ::= true ;;
     let* _ := destination_to_string in
     let* _ := tcp_value (asks TCPConnection.state) in
     pure tt).
Definition rule3_interest : M W bool :=
  let* empty := on_inbound (asks ByteStream.buffer_empty) in
  let* eof := on_inbound (asks ByteStream.eof) in
  let* error := on_inbound (asks ByteStream.error) in
  let* inbound_shutdown := asks _inbound_shutdown in
  pure (negb empty || ((eof || error) && negb inbound_shutdown)).

(** *** Rule 4: from the connection to the datagrams *)

(** [segments_out().pop()]: undefined on an empty queue *)
Definition pop_segment : M TCPConnection.t unit :=
  let* q := asks TCPConnection._segments_out in
  match q with
  | [] => throw UndefinedBehavior
  | _ :: q => TCPConnection._segments_out ::= q
  end.

(** [while (not _tcp->segments_out().empty())]: one segment leaves at every turn.
    [write] fills in the ports of the segment at the front, just before it goes. *)
Fixpoint rule4_loop (fuel : nat) : M W unit :=
  let* q := on_tcp (asks TCPConnection._segments_out) in
  match q with
  | [] => pure tt
  | front :: rest =>
      match fuel with
      | O => throw OutOfFuel
      | S fuel =>
          let* front := with_adapter (adapter_write front) in
          on_tcp (TCPConnection._segments_out ::= (front :: rest)) ;;
          on_tcp pop_segment ;;
          rule4_loop fuel
      end
  end.
Definition rule4_callback : M W unit :=
  let* q := on_tcp (asks TCPConnection._segments_out) in
  rule4_loop (length q).
Definition rule4_interest : M W bool :=
  let* q := on_tcp (asks TCPConnection._segments_out) in
  pure (negb (match q with [] => true | _ => false end)).

(** ** Construction *)

Definition socket_pair_helper (type : Z) : M (Sys.t K) (nat * nat) :=
  let* (r, (fd0, fd1)) := Sys.call (sys_socketpair Socket.AF_UNIX type) in
  let* _ := of_outcome (SystemCall "socketpair" r 0) in
  let* h0 := FileDescriptor.new fd0 in
  let* h1 := FileDescriptor.new fd1 in
  pure (h0, h1).

(** The constructor; it runs on the system and makes the socket. *)
Definition new (datagram_interface : A) : M (Sys.t K) (Sys.t K -> L) :=
  let* (h0, h1) := socket_pair_helper Socket.SOCK_STREAM in
  let* self := LocalStreamSocket.of_fd h0 in
  let* thread_data := LocalStreamSocket.of_fd h1 in
  FileDescriptor.set_blocking thread_data false ;;
  pure (fun s => EventLoop.mk [] (mk s self thread_data datagram_interface None false false false false)).

(** [_initialize_TCP], with the number the connection's sender draws *)
Definition _initialize_TCP (config : TCPConfig.t) (random_isn : Z) : M L unit :=
  zoom EventLoop.world (_tcp ::= Some (TCPConnection.new config random_isn)) ;;
  let* dev := asks (fun l => adapter_fd (_datagram_adapter (EventLoop.world l))) in
  let* td := asks (fun l => _thread_data (EventLoop.world l)) in
  EventLoop.add_rule dev EventLoop.In rule1_callback rule1_interest EventLoop.no_cancel ;;
  EventLoop.add_rule td EventLoop.In rule2_callback rule2_interest rule2_cancel ;;
  EventLoop.add_rule td EventLoop.Out rule3_callback rule3_interest EventLoop.no_cancel ;;
  EventLoop.add_rule dev EventLoop.Out rule4_callback rule4_interest EventLoop.no_cancel.

(** ** The loop *)

(** The rest of a turn, after the events: the time that has passed. *)
Definition pass_time (base_time : Z) : M W Z :=
  let* active := tcp_value (asks TCPConnection.active) in
  if active then
    let* next_time := on_sys timestamp_ms in
    let ms := u64 (next_time - base_time) in
    tcp_value (TCPConnection.tick ms) ;;
    with_adapter (adapter_tick ms) ;;
    pure next_time
  else pure base_time.

(** Nothing bounds the number of turns: [fuel] of them are run. *)
Fixpoint tcp_loop (fuel : nat) (condition : M W bool) (base_time : Z) : M L unit :=
  let* continue := zoom EventLoop.world condition in
  if negb continue then pure tt
  else
    match fuel with
    | O => throw OutOfFuel
    | S fuel =>
        let* ret := EventLoop.wait_next_event TCP_TICK_MS in
        let* abort := asks (fun l => _abort (Sys.kernel (sys (EventLoop.world l)))) in
        if bool_decide (ret = EventLoop.Exit) || abort then pure tt
        else
          let* base_time := zoom EventLoop.world (pass_time base_time) in
          tcp_loop fuel condition base_time
    end.
Definition _tcp_loop (fuel : nat) (condition : M W bool) : M L unit :=
  let* base_time := zoom EventLoop.world (on_sys timestamp_ms) in
  tcp_loop fuel condition base_time.

Definition state_is (states : list TCPState.State) : M W bool :=
  let* s := on_tcp (asks TCPConnection.state) in
  pure (existsb (fun st => TCPState.eqb s (TCPState.of_state st)) states).

Definition connect (fuel : nat) (c_tcp : TCPConfig.t) (c_ad : FdAdapterConfig.t) (random_isn : Z) : M L unit :=
  let* tcp := asks (fun l => _tcp (EventLoop.world l)) in
  match tcp with
  | Some _ => throw (Runtime_error "connect() with TCPConnection already initialized")
  | None =>
      _initialize_TCP c_tcp random_isn ;;
      zoom EventLoop.world (_datagram_adapter %= adapter_set_config c_ad) ;;
      let* _ := of_outcome (Address.to_string (FdAdapterConfig.destination c_ad)) in
      zoom EventLoop.world (on_tcp TCPConnection.connect) ;;
      let expected_state := TCPState.of_state TCPState.SYN_SENT in
      let* state := zoom EventLoop.world (on_tcp (asks TCPConnection.state)) in
      if negb (TCPState.eqb state expected_state) then
        throw (Runtime_error ("After TCPConnection::connect(), state was " +:+ TCPState.name state +:+
          " but expected " +:+ TCPState.name expected_state))
      else
        _tcp_loop fuel (state_is [TCPState.SYN_SENT]) ;;
        let* _ := of_outcome (Address.to_string (FdAdapterConfig.destination c_ad)) in
        zoom EventLoop.world (_tcp_thread ::= true)
  end.

Definition listen_and_accept (fuel : nat) (c_tcp : TCPConfig.t) (c_ad : FdAdapterConfig.t) (random_isn : Z) : M L unit :=
  let* tcp := asks (fun l => _tcp (EventLoop.world l)) in
  match tcp with
  | Some _ => throw (Runtime_error "listen_and_accept() with TCPConnection already initialized")
  | None =>
      _initialize_TCP c_tcp random_isn ;;
      zoom EventLoop.world (_datagram_adapter %= adapter_set_config c_ad) ;;
      zoom EventLoop.world (_datagram_adapter %= adapter_set_listening true) ;;
      _tcp_loop fuel (state_is [TCPState.LISTEN; TCPState.SYN_RCVD; TCPState.SYN_SENT]) ;;
      let* _ := zoom EventLoop.world destination_to_string in
      zoom EventLoop.world (_tcp_thread ::= true)
  end.

(** The end of the thread, after its loop.  [reset()] destroys the connection, with the
    segments it leaves in its queue. *)
Definition tcp_main_end : M W unit :=
  let* self := asks self in
  on_sys (Socket.shutdown self Socket.SHUT_RDWR) ;;
  let* active := tcp_value (asks TCPConnection.active) in
  when (negb active) (let* _ := tcp_value (asks TCPConnection.state) in pure tt) ;;
  on_tcp TCPConnection.destroy ;;
  _tcp ::= None.

(** The thread; an exception is printed and thrown again. *)
Definition _tcp_main (fuel : nat) : M L unit :=
  let* tcp := asks (fun l => _tcp (EventLoop.world l)) in
  match tcp with
  | None => throw (Runtime_error "no TCP")
  | Some _ =>
      _tcp_loop fuel (pure true) ;;
      zoom EventLoop.world tcp_main_end
  end.

(** *** What the owner's thread calls *)

(** [wait_until_closed]: the thread is joined, so that there is none any more; what it does
    until then is [_tcp_main], in its own thread. *)
Definition wait_until_closed : M W unit :=
  let* self := asks self in
  on_sys (Socket.shutdown self Socket.SHUT_RDWR) ;;
  let* joinable := asks _tcp_thread in
  when joinable (_tcp_thread ::= false).
End socket.

(** From the store of the owner on, the flag is set. *)
Definition aborted {K} : Owner K := fun _ => true.

(** The destructor.  A thread that was not waited for is told to stop and joined: it is
    somewhere in its loop, where it last read the clock at [base_time], and runs to its end, or
    it has come to its end (and has no connection any more). *)
Definition destructor {K A} `{Kernel K} `{FdAdapter K A} `{Address.Netdb} (fuel : nat) (base_time : Z)
    : M (EventLoop.t (TCPSpongeSocket.t K A)) unit :=
  let* joinable := asks (fun l => _tcp_thread (EventLoop.world l)) in
  when joinable (
    let* tcp := asks (fun l => _tcp (EventLoop.world l)) in
    when (bool_decide (is_Some tcp)) (
      let _ := aborted (K := K) in
      tcp_loop fuel (pure true) base_time ;;
      zoom EventLoop.world tcp_main_end) ;;
    zoom EventLoop.world (_tcp_thread ::= false)).

(** ** The connection behind the socket

    What the socket does to its connection is a sequence of the connection's own
    events; the bytes written are those read from [_thread_data], and the bytes read
    are those written to it. *)

Section connection.
Import TCPConnection ConnectionTrace.
Context (cfg : TCPConfig.t) (random N : Z).
Hypothesis cfg_good : config_ok cfg.
Hypothesis N_events : N + 2 < 2 ^ 43.
Hypothesis N_bytes : (N + 3) * TCPConfig.recv_capacity cfg < 2 ^ 64.
Notation reached := (reach (TCPConnection.new cfg random)).

Lemma reached_range n out_bytes out in_bytes c : reached n out_bytes out in_bytes c -> n <= N ->
  0 <= n /\ n + 1 < 2 ^ 47 /\ (n + 3) * TCPConfig.recv_capacity cfg < 2 ^ 64.
Proof.
  intros Hr Hn. destruct (reach_live _ _ _ _ _ _ _ cfg_good Hr) as [H0 _]. pose proof (cfg_recv _ cfg_good).
  split_and!; [done | lia | nia].
Qed.

(** A call that is an event. *)
Lemma event_wp {B} n out_bytes out in_bytes c ev (m : M TCPConnection.t B) (Q : B -> TCPConnection.t -> Prop)
    (E : exn -> TCPConnection.t -> Prop) :
  reached n out_bytes out in_bytes c -> allowed c ev -> n <= N ->
  exec_event ev c = bind m (fun _ => pure ([], [])) c ->
  (forall b c', m c = (Ok b, c') -> reached (n + cost ev) (out_bytes ++ accepted c ev) out in_bytes c' -> Q b c') ->
  (forall e c', TCPReceiver.benign e -> E e c') -> wpe m Q E c.
Proof.
  intros Hr Hev Hn Em HQ HE. destruct (reached_range _ _ _ _ _ Hr Hn) as (? & ? & ?).
  pose proof (event_safe _ _ _ _ _ _ _ _ cfg_good Hr Hev ltac:(lia) ltac:(lia)) as Hsafe. rewrite Em in Hsafe.
  unfold wpe, bind in *. destruct (m c) as [[b|e] c'] eqn:Emc; [| by apply HE].
  apply HQ; [done |]. pose proof (reach_step _ _ _ _ _ _ _ _ _ Hr Hev Em) as Hr'. by rewrite !app_nil_r in Hr'.
Qed.

Lemma inbound_wf n out_bytes out in_bytes c : reached n out_bytes out in_bytes c -> n <= N -> ByteStream.wf (inbound_stream c).
Proof.
  intros Hr Hn. destruct (reached_range _ _ _ _ _ Hr Hn) as (? & ? & ?). pose proof (cfg_recv _ cfg_good).
  destruct (reach_live _ _ _ _ _ _ _ cfg_good Hr) as [_ Hl]. destruct Hl as (_ & Hs & _); [lia | nia |].
  destruct Hs as [(L & rd & _ & Ho & _) _]. destruct Ho. by eapply ref_wf.
Qed.

(** Taking bytes out of the inbound stream. *)
Lemma pop_wp n out_bytes out in_bytes c k (Q : unit -> TCPConnection.t -> Prop) (E : exn -> TCPConnection.t -> Prop) :
  reached n out_bytes out in_bytes c -> n <= N -> 0 <= k ->
  (forall c', reached (n + 1) out_bytes out (in_bytes ++ ztake k (ByteStream.contents (inbound_stream c))) c' ->
     outbound_ended c' = outbound_ended c -> Q tt c') ->
  wpe (zoom _receiver (zoom TCPReceiver._reassembler (zoom StreamReassembler._output (ByteStream.pop_output k)))) Q E c.
Proof.
  intros Hr Hn Hk HQ. pose proof (inbound_wf _ _ _ _ _ Hr Hn) as Hwf.
  assert (Hpop : wp (ByteStream.pop_output k) (fun _ _ => True) (inbound_stream c)) by (by apply ByteStream.pop_output_wp).
  apply wp_run in Hpop as ([] & s' & Epop & _).
  assert (Er : exec_event (Read_inbound k) c = (Ok (ztake k (ByteStream.contents (inbound_stream c)), []),
    upd _receiver (upd TCPReceiver._reassembler (setf StreamReassembler._output s')) c)).
  { rewrite <- ByteStream.peek_output_eq by done. apply wp_result. unfold exec_event, TCPReceiver.read, ByteStream.read.
    wp_step. do 3 wp_step. wp_step. wp_step. wp_step. eapply wp_eq; [exact Epop |]. wp_steps. done. }
  pose proof (reach_step _ _ _ _ _ _ _ _ _ Hr (Hk : allowed c (Read_inbound k)) Er) as Hr'.
  do 3 wp_step. eapply wp_eq; [exact Epop |]. simpl in Hr'. rewrite !app_nil_r in Hr'. by apply HQ.
Qed.

End connection.

(** ** The rules

    [inv k]: the connection is in a reachable state, with room for [2 * k] further
    events among the [N] that are counted; the socket's two descriptors are there,
    and the adapter is in order. *)

Section rules.
Context {K A : Type} `{LinuxIO K} `{FdAdapterLaws K A} `{Address.Netdb} `{Owner K}.
Context (cfg : TCPConfig.t) (random N : Z) (td dev own count : nat) (start : list io).
Hypothesis cfg_good : ConnectionTrace.config_ok cfg.
Hypothesis N_events : N + 2 < 2 ^ 43.
Hypothesis N_bytes : (N + 3) * TCPConfig.recv_capacity cfg < 2 ^ 64.
Hypothesis td_dev : dev <> td.
Notation W := (TCPSpongeSocket.t K A).

(** The connection [c], when [tr] has happened, with room for [b] events. *)
Definition carried (b : Z) (tr : list io) (shut : bool) (c : TCPConnection.t) : Prop :=
  exists n out,
    ConnectionTrace.reach (TCPConnection.new cfg random) n (FileDescriptor.delivered td tr) out
      (FileDescriptor.accepted td tr) c /\
    n + b <= N /\ len (FileDescriptor.delivered td tr) <= FileDescriptor.BUFFER_SIZE * n /\
    (shut = false -> TCPConnection.outbound_ended c = false).

(** The socket's own end is [own], the number of descriptors stays [count], and all the
    traffic is on the other end and on the device. *)
Definition framed (h : nat) (s : Sys.t K) : Prop :=
  h = own /\ length (Sys.wrappers s) = count /\
  exists tr, Sys.trace s = start ++ tr /\ Forall (fun e => io_handle e = dev \/ io_handle e = td) tr.

Lemma framed_step h s ws k new :
  framed h s -> length ws = length (Sys.wrappers s) -> Forall (fun e => io_handle e = dev \/ io_handle e = td) new ->
  framed h (Sys.mk ws k (Sys.trace s ++ new)).
Proof.
  intros (Eh & El & tr & Etr & Htr) Ews Hnew. split; [done |]. split; [simpl; lia |]. exists (tr ++ new). split.
  - simpl. by rewrite Etr, <- app_assoc.
  - by apply list.Forall_app.
Qed.

Record inv (k : nat) (w : W) : Prop := {
  inv_td : _thread_data w = td;
  inv_dev : adapter_fd (_datagram_adapter w) = dev;
  inv_adapter : adapter_ok (_datagram_adapter w);
  inv_td_fd : is_Some (Sys.wrappers (sys w) !! td);
  inv_dev_fd : is_Some (Sys.wrappers (sys w) !! dev);
  inv_tcp : exists c tr, _tcp w = Some c /\ Sys.trace (sys w) = start ++ tr /\
    carried (2 * Z.of_nat k) tr (_outbound_shutdown w) c;
  inv_self : is_Some (Sys.wrappers (sys w) !! self w);
  inv_frame : framed (self w) (sys w)
}.

Definition failure (e : exn) (_ : W) : Prop := FileDescriptor.io_error e \/ TCPReceiver.benign e.

Lemma carried_le b b' tr shut c : carried b tr shut c -> b' <= b -> carried b' tr shut c.
Proof. intros (n & out & ? & ? & ? & ?) ?. exists n, out. split_and!; try done. lia. Qed.

Lemma inv_mono k w : inv (S k) w -> inv k w.
Proof.
  intros [? ? ? ? ? (c & tr & ? & ? & Hc)]. split; try done. exists c, tr. split_and!; try done.
  eapply carried_le; [exact Hc | lia].
Qed.

Lemma inv_kernel k w ker : inv k w -> inv k (EventLoop.set_kernel ker w).
Proof. by intros []. Qed.

Lemma on_tcp_wp {B} none (m : M TCPConnection.t B) (Q : B -> W -> Prop) (E : exn -> W -> Prop) c w :
  _tcp w = Some c ->
  wpe m (fun b c' => Q b (setf _tcp (Some c') w)) (fun e c' => E e (setf _tcp (Some c') w)) c ->
  wpe (on_tcp_or none m) Q E w.
Proof. intros Ec. unfold wpe, on_tcp_or. rewrite Ec. by destruct (m c) as [[] ?]. Qed.

(** A question to the connection changes nothing. *)
Lemma ask_tcp_eq {B} none (f : TCPConnection.t -> B) c (w : W) : _tcp w = Some c -> on_tcp_or none (asks f) w = (Ok (f c), w).
Proof. intros Ec. unfold on_tcp_or. rewrite Ec. destruct w. simpl in *. by subst. Qed.

Lemma ask_tcp_wp {B} none (f : TCPConnection.t -> B) c (Q : B -> W -> Prop) E w :
  _tcp w = Some c -> Q (f c) w -> wpe (on_tcp_or none (asks f)) Q E w.
Proof. intros Ec HQ. by eapply wp_eq; [apply ask_tcp_eq |]. Qed.

Lemma destination_wp (Q : string -> W -> Prop) w :
  (forall s, Q s w) -> wpe destination_to_string Q failure w.
Proof.
  intros HQ. unfold destination_to_string. wp_step. wp_step. unfold wpe, of_outcome, Address.to_string.
  destruct (FdAdapterConfig.destination _) as [size st]. 
  pose proof (address_result (Address.mk size st)). destruct (Address.ip_port _); simpl; [apply HQ | by left].
Qed.
Lemma with_adapter_wp {B} (m : M (World.t K A) B) (Q : B -> W -> Prop) (E : exn -> Prop) w :
  wpe m (fun b w' => Q b (setf sys (World.sys w') (setf _datagram_adapter (World.obj w') w)))
    (fun e _ => E e) (World.mk (sys w) (_datagram_adapter w)) ->
  wpe (with_adapter m) Q (fun e _ => E e) w.
Proof. unfold wpe, with_adapter. by destruct (m _) as [[] ?]. Qed.

(** What the adapter does is not seen on [_thread_data]. *)
Lemma adapter_inv k w w' :
  inv k w -> adapter_step adapter_ok (World.mk (sys w) (_datagram_adapter w)) w' ->
  inv k (setf sys (World.sys w') (setf _datagram_adapter (World.obj w') w)) /\
  Sys.wrappers (World.sys w') !! td = Sys.wrappers (sys w) !! td.
Proof.
  intros [Htd Hdev Hok Htdf Hdevf (c & tr & Ec & Etr & Hc) Hself Hframe] [Hok' Hfd Ht]. simpl in *. rewrite Hdev in *.
  pose proof (FileDescriptor.touches_length _ _ _ Ht Hdevf) as Elen.
  destruct Ht as [Hoth Hown (tr' & Etr' & Hall)].
  destruct (FileDescriptor.others_silent td dev tr' td_dev Hall) as [Ea Ed].
  split; [| by apply Hoth]. split; simpl; try done.
  - by rewrite Hoth.
  - by apply Hown.
  - exists c, (tr ++ tr'). split_and!; [done | by rewrite Etr', Etr, <- app_assoc |].
    unfold carried in *. by rewrite FileDescriptor.delivered_app, FileDescriptor.accepted_app, Ea, Ed, !app_nil_r.
  - destruct (decide (self w = dev)) as [Es |]; [rewrite Es; by apply Hown | by rewrite Hoth].
  - destruct (World.sys w') as [ws ker tr2]. simpl in *. subst tr2. apply framed_step; [done | done |].
    eapply Forall_impl; [| exact Hall]. by left.
Qed.

(** An event that adds nothing to the outbound stream. *)
Lemma carried_event_wp {B} b tr shut shut' c ev (m : M TCPConnection.t B) (Q : B -> TCPConnection.t -> Prop)
    (E : exn -> TCPConnection.t -> Prop) :
  carried (b + 1) tr shut c -> 0 <= b -> ConnectionTrace.allowed c ev -> ConnectionTrace.accepted c ev = [] ->
  ConnectionTrace.exec_event ev c = bind m (fun _ => pure ([], [])) c ->
  (shut' = false -> shut = false /\ keeps TCPConnection.outbound_ended m) ->
  (forall r c', carried b tr shut' c' -> Q r c') -> (forall e c', TCPReceiver.benign e -> E e c') -> wpe m Q E c.
Proof.
  intros (n & out & Hr & Hn & Hlen & Hsh) Hb Hev Hacc Em Hkeep HQ HE.
  eapply (event_wp cfg random N); [done | done | done | exact Hr | done | lia | exact Em | | done].
  intros r c' Ec Hr'. apply HQ. rewrite Hacc, app_nil_r in Hr'. assert (Hcost : 0 <= ConnectionTrace.cost ev <= 1) by (by destruct ev).
  exists (n + ConnectionTrace.cost ev), out. split_and!; [done | lia | unfold FileDescriptor.BUFFER_SIZE in *; lia |].
  intros Hs. destruct (Hkeep Hs) as [Hs' Hk]. specialize (Hk c). rewrite Ec in Hk. simpl in Hk. rewrite Hk. auto.
Qed.

Lemma inv_event_wp k w ev (m : M TCPConnection.t unit) none (Q : unit -> W -> Prop) :
  inv (S k) w -> (forall c, ConnectionTrace.allowed c ev) -> (forall c, ConnectionTrace.accepted c ev = []) ->
  (forall c, ConnectionTrace.exec_event ev c = bind m (fun _ => pure ([], [])) c) -> keeps TCPConnection.outbound_ended m ->
  (forall c, inv k (setf _tcp (Some c) w) -> Q tt (setf _tcp (Some c) w)) -> wpe (on_tcp_or none m) Q failure w.
Proof.
  intros [? ? ? ? ? (c & tr & Ec & Etr & Hc)] Hev Hacc Em Hkeep HQ. eapply on_tcp_wp; [exact Ec |].
  eapply (carried_event_wp (2 * Z.of_nat k) tr (_outbound_shutdown w) (_outbound_shutdown w) c ev);
    [eapply carried_le; [exact Hc | lia] | lia | done | done | done | done | | by right].
  intros [] c' Hc'. apply HQ. split; try done. by exists c', tr.
Qed.

Definition read_serviced (h : nat) (w w' : W) : Prop :=
  exists f f', FileDescriptor.at_fd (sys w) h f /\ FileDescriptor.at_fd (sys w') h f' /\
    FDWrapper._read_count f <> FDWrapper._read_count f'.
Definition write_serviced (h : nat) (w w' : W) : Prop :=
  exists f f', FileDescriptor.at_fd (sys w) h f /\ FileDescriptor.at_fd (sys w') h f' /\
    FDWrapper._write_count f <> FDWrapper._write_count f'.

(** *** Rule 1 *)

Lemma rule1_wp k w : inv (S k) w ->
  wpe rule1_callback (fun _ w' => inv k w' /\ read_serviced dev w w') failure w.
Proof.
  intros Hinv. pose proof Hinv as [Htd Hdev Hok Htdf [f Hf] _]. unfold rule1_callback. wp_step.
  apply (wp_mono_exn _ (fun seg w1 => inv (S k) w1 /\
    match seg with Some seg => TCPSegment.ranges UINT64_MAX seg | None => True end /\
    exists f', FileDescriptor.at_fd (sys w1) dev f' /\ FDWrapper._read_count f' = u32 (FDWrapper._read_count f + 1)) _
    (fun e _ => FileDescriptor.io_error e)); [| | by intros e w' He; left].
  { apply (with_adapter_wp _ _ FileDescriptor.io_error). eapply wp_mono; [eapply (adapter_read_wp (World.mk (sys w) (_datagram_adapter w)) f); [done |] |].
    - simpl. by rewrite Hdev.
    - simpl. rewrite Hdev. intros seg w' (Hstep & (f' & Hf' & Ecnt) & Hseg).
      destruct (adapter_inv _ _ _ Hinv Hstep) as [Hinv' _]. split_and!; [done | done |]. by exists f'. }
  intros seg w1 (Hinv1 & Hseg & f' & Hf' & Ecnt). wp_step.
  apply (wp_mono _ (fun _ w' => inv k w' /\ sys w' = sys w1)).
  { destruct seg as [seg|]; [| wp_step; split; [by apply inv_mono | done]].
    destruct Hseg. eapply (inv_event_wp k w1 (ConnectionTrace.Segment seg)); [done | | done | done | apply TCPConnection.segment_keeps_ended | done].
    intros c. split; [done |]. unfold UINT64_MAX, TCPSegment.payload in *. lia. }
  intros [] w2 [Hinv2 Esys]. pose proof Hinv2 as [Htd2 _ _ [g Hg] _ (c & tr & Ec & _)].
  assert (Hdone : forall w', inv k w' -> sys w' = sys w2 -> inv k w' /\ read_serviced dev w w').
  { intros w' Hi E. split; [done |]. exists f, f'. rewrite E, Esys. split_and!; [done | done |].
    rewrite Ecnt. intros E'. by apply (u32_succ_ne (FDWrapper._read_count f)). }
  wp_step. wp_step. rewrite Htd2. wp_step. unfold on_sys. wp_step.
  eapply wp_eq; [by apply (EventLoop.eof_query td g w2) |]. replace (setf the_sys (the_sys w2) w2) with w2 by (by destruct w2).
  wp_step. apply (wp_mono _ (fun _ w' => w' = w2)).
  { apply wp_if; intros _; [by eapply ask_tcp_wp | by wp_step]. }
  intros fl w3 ->. wp_step. wp_step. apply wp_when; intros _; [| by apply Hdone].
  wp_step. apply destination_wp. intros _. wp_step. apply Hdone; [| done]. by destruct Hinv2.
Qed.

(** *** Rule 2 *)

Lemma carried_write_wp b tr c data (Q : Z -> TCPConnection.t -> Prop) (E : exn -> TCPConnection.t -> Prop) :
  carried (b + 1) tr false c -> 0 <= b ->
  len data <= Z.min FileDescriptor.BUFFER_SIZE (TCPConnection.remaining_outbound_capacity c) ->
  (forall c', carried b (tr ++ [Got td data]) false c' -> Q (len data) c') ->
  (forall e c', TCPReceiver.benign e -> E e c') -> wpe (TCPConnection.write data) Q E c.
Proof.
  intros (n & out & Hr & Hn & Hlen & Hsh) Hb Hdata HQ HE. specialize (Hsh eq_refl).
  destruct (reached_range cfg random N cfg_good N_events N_bytes _ _ _ _ _ Hr) as (Hn0 & ? & Hcap); [lia |].
  pose proof (ConnectionTrace.cfg_recv _ cfg_good).
  assert (Hbw : ByteStream.bytes_written (TCPSender.stream_in (TCPConnection._sender c)) = len (FileDescriptor.delivered td tr)).
  { destruct (ConnectionTrace.reach_live _ _ _ _ _ _ _ cfg_good Hr) as [_ Hl].
    destruct Hl as ([(una & rd & Hs) _ _ _ _] & _); [lia | nia |]. by eapply SenderTrace.sender_bytes_written. }
  unfold FileDescriptor.BUFFER_SIZE in *.
  eapply (event_wp cfg random N cfg_good N_events N_bytes n _ _ _ _ (ConnectionTrace.Write data));
    [exact Hr | | lia | done | | done].
  { split; [done |]. rewrite Hbw. lia. }
  intros r c' Ew Hr'. rewrite (TCPConnection.write_returns _ _ _ _ Ew), Z.min_l by lia. apply HQ.
  simpl in Hr'. rewrite ztake_ge in Hr' by lia.
  exists (n + 1), out. rewrite FileDescriptor.delivered_app, FileDescriptor.accepted_app, FileDescriptor.delivered_got.
  change (FileDescriptor.accepted td [Got td data]) with (@nil byte). rewrite app_nil_r, len_app.
  split_and!; [done | lia | unfold FileDescriptor.BUFFER_SIZE; lia |]. intros _.
  pose proof (TCPConnection.write_keeps_ended data c) as Hk. rewrite Ew in Hk. simpl in Hk. by rewrite Hk.
Qed.

Lemma rule2_wp k w : inv (S k) w -> _outbound_shutdown w = false ->
  wpe rule2_callback (fun _ w' => inv k w' /\ read_serviced td w w') failure w.
Proof.
  intros [Htd Hdev Hok [f Hf] Hdevf (c & tr & Ec & Etr & Hc) Hself Hframe] Hshut. unfold rule2_callback.
  rewrite Hshut in Hc. wp_step. wp_step. rewrite Htd. wp_step. eapply ask_tcp_wp; [exact Ec |].
  wp_step. unfold on_sys. wp_step.
  eapply FileDescriptor.fd_read_wp; [exact Hf | apply u64_range | | by intros; left].
  intros data ker Hlen. set (s1 := Sys.mk _ ker _).
  set (f1 := FileDescriptor.after_read f (TCPConnection.remaining_outbound_capacity c) data) in *.
  assert (Hf1 : FileDescriptor.at_fd s1 td f1) by (by eapply FileDescriptor.at_fd_step).
  assert (Hd1 : is_Some (Sys.wrappers s1 !! dev)) by (simpl; by rewrite list_lookup_insert_ne).
  wp_step. eapply on_tcp_wp; [exact Ec |].
  eapply (carried_write_wp (2 * Z.of_nat k + 1)); [eapply carried_le; [exact Hc | lia] | lia | exact Hlen | | by right].
  intros c1 Hc1. rewrite Z.eqb_refl. cbn [negb]. set (w1 := setf _tcp (Some c1) (setf the_sys s1 w)).
  assert (Htr1 : Sys.trace (sys w1) = start ++ tr ++ [Got td data]) by (simpl; by rewrite Etr, <- app_assoc).
  assert (Hframe1 : framed (self w) s1).
  { apply framed_step; [done | apply length_insert |]. apply list.Forall_singleton. by right. }
  assert (Hserv : forall w', sys w' = s1 -> read_serviced td w w').
  { intros w' E. exists f, f1. rewrite E. split_and!; [done | done |]. simpl. intros E'.
    by apply (u32_succ_ne (FDWrapper._read_count f)). }
  wp_step. wp_step. eapply wp_eq; [by apply (EventLoop.eof_query td f1 w1) |]. change (setf the_sys (the_sys w1) w1) with w1.
  apply wp_when; intros _.
  - wp_step. eapply on_tcp_wp; [done |].
    eapply (carried_event_wp (2 * Z.of_nat k) _ false true _ ConnectionTrace.End_input_stream); [exact Hc1 | lia | done.. | | by right].
    intros [] c2 Hc2. wp_step. wp_step. wp_step. apply destination_wp. intros _. wp_step. eapply ask_tcp_wp; [done |].
    wp_step. split; [| by apply Hserv].
    split; try done; [by exists c2, (tr ++ [Got td data]) | by apply FileDescriptor.is_Some_insert].
  - split; [| by apply Hserv]. split; try done; [| by apply FileDescriptor.is_Some_insert].
    exists c1, (tr ++ [Got td data]). split_and!; [done | done |].
    simpl. rewrite Hshut. eapply carried_le; [exact Hc1 | lia].
Qed.

Lemma rule2_cancel_wp k w : inv (S k) w -> wpe rule2_cancel (fun _ => inv k) failure w.
Proof.
  intros [Htd Hdev Hok Htdf Hdevf (c & tr & Ec & Etr & Hc)]. unfold rule2_cancel. wp_step. eapply on_tcp_wp; [exact Ec |].
  eapply (carried_event_wp (2 * Z.of_nat k) _ (_outbound_shutdown w) true _ ConnectionTrace.End_input_stream);
    [eapply carried_le; [exact Hc | lia] | lia | done.. | | by right].
  intros [] c2 Hc2. wp_step. split; try done. by exists c2, tr.
Qed.

(** *** Rule 3 *)

Lemma ask_inbound_eq {B} (f : ByteStream.t -> B) c (w : W) :
  _tcp w = Some c -> on_inbound (asks f) w = (Ok (f (TCPConnection.inbound_stream c)), w).
Proof.
  intros Ec. unfold on_inbound, on_tcp, on_tcp_or. rewrite Ec. destruct w. simpl in *. subst.
  destruct c as [? [] ? ? ? ? ?]. by match goal with q : StreamReassembler.t |- _ => destruct q end.
Qed.

Lemma ask_inbound_wp {B} (f : ByteStream.t -> B) c (Q : B -> W -> Prop) E w :
  _tcp w = Some c -> Q (f (TCPConnection.inbound_stream c)) w -> wpe (on_inbound (asks f)) Q E w.
Proof. intros Ec HQ. by eapply wp_eq; [apply ask_inbound_eq |]. Qed.

(** What the kernel accepts leaves the inbound stream. *)
Lemma carried_pop_wp b tr shut c n d (Q : unit -> TCPConnection.t -> Prop) (E : exn -> TCPConnection.t -> Prop) :
  carried (b + 1) tr shut c -> 0 <= b -> 0 <= n ->
  mjoin d = ztake n (ByteStream.contents (TCPConnection.inbound_stream c)) ->
  (forall c', carried b (tr ++ (Put td <$> d)) shut c' -> Q tt c') ->
  wpe (zoom TCPConnection._receiver (zoom TCPReceiver._reassembler (zoom StreamReassembler._output (ByteStream.pop_output n)))) Q E c.
Proof.
  intros (m & out & Hr & Hm & Hlen & Hsh) Hb Hn Ed HQ.
  eapply (pop_wp cfg random N cfg_good N_events N_bytes); [exact Hr | lia | done |].
  intros c' Hr' Hended. apply HQ. exists (m + 1), out.
  rewrite FileDescriptor.delivered_app, FileDescriptor.accepted_app, FileDescriptor.accepted_puts,
    FileDescriptor.delivered_puts, app_nil_r, Ed.
  split_and!; [done | lia | unfold FileDescriptor.BUFFER_SIZE in *; lia | rewrite Hended; done].
Qed.

Lemma rule3_wp k w : inv (S k) w ->
  wpe rule3_callback (fun _ w' => inv k w' /\ write_serviced td w w') failure w.
Proof.
  intros [Htd Hdev Hok [f Hf] Hdevf (c & tr & Ec & Etr & Hc) Hself Hframe].
  assert (Hwf : ByteStream.wf (TCPConnection.inbound_stream c)).
  { destruct Hc as (n & out & Hr & Hn & _). eapply (inbound_wf cfg random N); [done | done | done | exact Hr | lia]. }
  set (inb := TCPConnection.inbound_stream c) in *. pose proof (len_nonneg (ByteStream.contents inb)).
  unfold rule3_callback. wp_step. wp_step. rewrite Htd. wp_step. eapply ask_inbound_wp; [exact Ec |]. fold inb. cbv zeta.
  rewrite (ByteStream.wf_size _ Hwf). set (amount := Z.min 65536 _).
  wp_step. eapply ask_inbound_wp; [exact Ec |]. fold inb. rewrite ByteStream.peek_output_eq by (try done; lia).
  set (buffer := ztake amount (ByteStream.contents inb)).
  assert (Hbuf : len buffer = amount) by (unfold buffer; rewrite len_ztake; lia).
  assert (Ebuf : mjoin (BufferViewList.of_string_view buffer) = buffer) by apply app_nil_r.
  wp_step. unfold on_sys. wp_step.
  eapply FileDescriptor.write_loop_wp; [exact Hf | rewrite Ebuf; lia | lia | rewrite Ebuf; lia | lia | | by intros; left].
  rewrite Ebuf. intros n cnt ker new Hn _ _ (d & -> & Ed) Ecnt. rewrite Z.add_0_l, (Ecnt eq_refl). clear Ecnt.
  set (f1 := setf _ _ f). set (s1 := Sys.mk _ ker _).
  assert (Hf1 : FileDescriptor.at_fd s1 td f1) by (by eapply FileDescriptor.at_fd_step).
  assert (Hd1 : is_Some (Sys.wrappers s1 !! dev)) by (simpl; by rewrite list_lookup_insert_ne).
  assert (Ed' : mjoin d = ztake n (ByteStream.contents inb)).
  { rewrite Ed. unfold buffer. rewrite ztake_ztake. f_equal. lia. }
  wp_step. unfold on_inbound. eapply on_tcp_wp; [exact Ec |].
  eapply (carried_pop_wp (2 * Z.of_nat k) tr); [eapply carried_le; [exact Hc | lia] | lia | lia | exact Ed' |].
  intros c1 Hc1. set (w1 := setf _tcp (Some c1) (setf the_sys s1 w)).
  assert (Htr1 : Sys.trace (sys w1) = start ++ tr ++ (Put td <$> d)) by (simpl; by rewrite Etr, <- app_assoc).
  assert (Hframe1 : framed (self w) s1).
  { apply framed_step; [done | apply length_insert |]. apply Forall_fmap, Forall_forall. by right. }
  wp_step. eapply ask_inbound_wp; [done |]. wp_step. eapply ask_inbound_wp; [done |]. apply wp_when; intros _.
  - wp_step. wp_step. eapply Socket.shutdown_wr_wp; [exact Hf1 | | by left]. intros ker2. set (f2 := upd _ _ f1). set (s2 := Sys.mk _ ker2 _).
    assert (Hf2 : FileDescriptor.at_fd s2 td f2) by (by eapply (FileDescriptor.at_fd_step td f1)).
    do 3 wp_step. apply destination_wp. intros _. wp_step. eapply ask_tcp_wp; [done |]. wp_step. split.
    + split; try done; [simpl; by rewrite list_lookup_insert_ne | | by do 2 apply FileDescriptor.is_Some_insert |].
      2:{ apply (framed_step _ s1 _ ker2 [Shut td Socket.SHUT_WR]); [done | apply length_insert |].
          apply list.Forall_singleton. by right. }
      exists c1, (tr ++ (Put td <$> d) ++ [Shut td Socket.SHUT_WR]).
      split_and!; [done | change (Sys.trace (sys w1) ++ [Shut td Socket.SHUT_WR] = start ++ tr ++ (Put td <$> d) ++ [Shut td Socket.SHUT_WR]);
        by rewrite Htr1, <- !app_assoc |].
      unfold carried in *. rewrite app_assoc, FileDescriptor.delivered_app, FileDescriptor.accepted_app.
      change (FileDescriptor.delivered td [Shut td Socket.SHUT_WR]) with (@nil byte).
      change (FileDescriptor.accepted td [Shut td Socket.SHUT_WR]) with (@nil byte). by rewrite !app_nil_r.
    + exists f, f2. split_and!; [done | done |]. simpl. intros E. by apply (u32_succ2_ne (FDWrapper._write_count f)).
  - split; [split; try done; [by exists c1, (tr ++ (Put td <$> d)) | by apply FileDescriptor.is_Some_insert] |].
    exists f, f1. split_and!; [done | done |]. simpl. intros E. by apply (u32_succ_ne (FDWrapper._write_count f)).
Qed.

(** *** Rule 4 *)

Lemma carried_pop_segment b tr shut c front rest :
  carried b tr shut c -> 0 <= b -> TCPConnection._segments_out c = front :: rest ->
  TCPSegment.sendable front /\ carried b tr shut (setf TCPConnection._segments_out rest c).
Proof.
  intros (n & out & Hr & Hn & Hlen & Hsh) Hb Eq.
  destruct (reached_range cfg random N cfg_good N_events N_bytes _ _ _ _ _ Hr) as (Hn0 & ? & Hcap); [lia |]. split.
  - pose proof (ConnectionTrace.cfg_recv _ cfg_good).
    pose proof (reach_emits _ _ _ _ _ _ _ cfg_good Hr ltac:(right; lia)) as Hall.
    rewrite Eq, list.Forall_app, list.Forall_cons in Hall. apply Hall.
  - assert (Ep : ConnectionTrace.exec_event ConnectionTrace.Pop_segment c =
      (Ok ([], [front]), setf TCPConnection._segments_out rest c)).
    { unfold ConnectionTrace.exec_event, bind, asks. by rewrite Eq. }
    pose proof (ConnectionTrace.reach_step _ _ _ _ _ _ _ _ _ Hr (I : ConnectionTrace.allowed c ConnectionTrace.Pop_segment) Ep) as Hr'.
    exists n, (out ++ [front]). simpl in Hr'. rewrite Z.add_0_r, !app_nil_r in Hr'. by split_and!.
Qed.

Definition queue_empty (w : W) : Prop := exists c, _tcp w = Some c /\ TCPConnection._segments_out c = [].

Lemma rule4_loop_wp k fuel : forall w c,
  inv k w -> _tcp w = Some c -> length (TCPConnection._segments_out c) = fuel ->
  wpe (rule4_loop fuel) (fun _ w' => inv k w' /\ queue_empty w') failure w.
Proof.
  induction fuel as [|fuel IH]; intros w c Hinv Ec Hlen; cbn [rule4_loop]; wp_step; (eapply ask_tcp_wp; [exact Ec |]);
    destruct (TCPConnection._segments_out c) as [|front rest] eqn:Eq; try done.
  - wp_step. split; [done |]. by exists c.
  - pose proof Hinv as [Htd Hdev Hok Htdf Hdevf (c' & tr & Ec' & Etr & Hc)]. rewrite Ec in Ec'. injection Ec' as <-.
    destruct (carried_pop_segment _ _ _ _ _ _ Hc ltac:(lia) Eq) as [Hsend Hpop].
    wp_step. apply (wp_mono_exn _ (fun _ w1 => inv k w1 /\ _tcp w1 = Some c) _ (fun e _ => FileDescriptor.io_error e));
      [| | by left].
    { apply (with_adapter_wp _ _ FileDescriptor.io_error).
      eapply wp_mono; [eapply (adapter_write_wp (World.mk (sys w) (_datagram_adapter w))); [| exact Hsend] |].
      - split; simpl; [done | by rewrite Hdev].
      - intros ? w' Hstep. destruct (adapter_inv _ _ _ Hinv Hstep) as [Hinv' _]. done. }
    intros front' w1 [Hinv1 Ec1]. wp_step. eapply on_tcp_wp; [exact Ec1 |]. wp_step. wp_step.
    eapply on_tcp_wp; [done |]. unfold pop_segment. wp_step. wp_step.
    change (TCPConnection._segments_out _) with (front' :: rest). cbv iota. wp_step.
    destruct Hinv1 as [? ? ? ? ? (c1 & tr1 & Ec1' & Etr1 & Hc1)]. rewrite Ec1 in Ec1'. injection Ec1' as <-.
    eapply (IH _ (setf TCPConnection._segments_out rest c)); [| done | by injection Hlen].
    split; try done. exists (setf TCPConnection._segments_out rest c), tr1. split_and!; [done | done |].
    by eapply carried_pop_segment; [exact Hc1 | lia | exact Eq].
Qed.

Lemma rule4_wp k w : inv k w -> wpe rule4_callback (fun _ w' => inv k w' /\ rule4_interest w' = (Ok false, w')) failure w.
Proof.
  intros Hinv. destruct (inv_tcp _ _ Hinv) as (c & tr & Ec & _). unfold rule4_callback. wp_step.
  eapply ask_tcp_wp; [exact Ec |]. eapply wp_mono; [by eapply rule4_loop_wp |].
  intros [] w' [Hinv' (c' & Ec' & Eq)]. split; [done |]. apply wp_result. unfold rule4_interest. wp_step.
  eapply ask_tcp_wp; [exact Ec' |]. by rewrite Eq.
Qed.

(** *** The rules together *)

Definition rules (dev td : nat) : list (EventLoop.Rule W) :=
  [EventLoop.mk_rule dev EventLoop.In rule1_callback rule1_interest EventLoop.no_cancel;
   EventLoop.mk_rule td EventLoop.In rule2_callback rule2_interest rule2_cancel;
   EventLoop.mk_rule td EventLoop.Out rule3_callback rule3_interest EventLoop.no_cancel;
   EventLoop.mk_rule dev EventLoop.Out rule4_callback rule4_interest EventLoop.no_cancel].

(** What the interest of each establishes: rule 2 does not run after the end of the
    outbound stream. *)
Definition specs : list (EventLoop.Rule W * (W -> Prop)) :=
  zip (rules dev td) [fun _ => True; fun w => _outbound_shutdown w = false; fun _ => True; fun _ => True].

Lemma no_cancel_ok k w : inv (S k) w -> wpe EventLoop.no_cancel (fun _ => inv k) failure w.
Proof. intros Hinv. unfold EventLoop.no_cancel. wp_step. by apply inv_mono. Qed.

Lemma socket_rules_ok : Forall (EventLoop.rule_ok inv failure) specs.
Proof.
  repeat apply list.Forall_cons_2; [| | | | apply Forall_nil_2]; split; simpl.
  - intros w [? ? ? ? [f Hf] _]. by exists f.
  - intros w [? ? ? ? ? (c & tr & Ec & _)]. exists (TCPConnection.active c). split; [by apply ask_tcp_eq | done].
  - intros k w Hinv _. eapply wp_mono; [by apply rule1_wp |]. intros [] w' [? ?]. by split; [| left].
  - apply no_cancel_ok.
  - done.
  - intros w [? ? ? [f Hf] ? _]. by exists f.
  - intros w [? ? ? ? ? (c & tr & Ec & _)]. eexists. split.
    + apply wp_result. unfold rule2_interest. wp_step. eapply ask_tcp_wp; [exact Ec |]. wp_step. wp_step. wp_step.
      eapply ask_tcp_wp; [exact Ec |]. wp_step. done.
    + intros Hb. apply andb_true_iff in Hb as [Hb _]. apply andb_true_iff in Hb as [_ Hb]. by apply negb_true_iff in Hb.
  - intros k w Hinv HP. eapply wp_mono; [by apply rule2_wp |]. intros [] w' [? ?]. by split; [| left].
  - apply rule2_cancel_wp.
  - done.
  - intros w [? ? ? [f Hf] ? _]. by exists f.
  - intros w [? ? ? ? ? (c & tr & Ec & _)]. eexists. split; [| done].
    apply wp_result. unfold rule3_interest. do 3 (wp_step; eapply ask_inbound_wp; [exact Ec |]). wp_steps. done.
  - intros k w Hinv _. eapply wp_mono; [by apply rule3_wp |]. intros [] w' [? ?]. by split; [| left].
  - apply no_cancel_ok.
  - done.
  - intros w [? ? ? ? [f Hf] _]. by exists f.
  - intros w [? ? ? ? ? (c & tr & Ec & _)]. eexists. split; [| done].
    apply wp_result. unfold rule4_interest. wp_step. eapply ask_tcp_wp; [exact Ec |]. wp_step. done.
  - intros k w Hinv _. eapply wp_mono; [apply rule4_wp, inv_mono; exact Hinv |]. intros [] w' [? ?]. by split; [| right].
  - apply no_cancel_ok.
  - done.
Qed.

(** The other rules leave [_outbound_shutdown] alone. *)
Lemma with_adapter_keeps {B} (m : M (World.t K A) B) : keeps _outbound_shutdown (with_adapter m).
Proof. intros w. unfold with_adapter. by destruct (m _) as [? []]. Qed.
Lemma on_tcp_keeps {B} none (m : M TCPConnection.t B) : keeps (S := W) _outbound_shutdown (on_tcp_or none m).
Proof. intros w. unfold on_tcp_or. destruct (_tcp w); [| done]. by destruct (m _). Qed.
Lemma on_sys_keeps {B} (m : M (Sys.t K) B) : keeps (S := W) _outbound_shutdown (on_sys m).
Proof. by apply keeps_zoom. Qed.

Lemma destination_keeps : keeps (S := W) _outbound_shutdown destination_to_string.
Proof. unfold destination_to_string. keeps_tac. Qed.

Ltac keeps_shutdown :=
  keeps_tac; try first [apply with_adapter_keeps | apply on_tcp_keeps | apply on_sys_keeps | apply destination_keeps].

Lemma rule1_keeps : keeps (S := W) _outbound_shutdown rule1_callback.
Proof. unfold rule1_callback. keeps_shutdown. Qed.
Lemma rule3_keeps : keeps (S := W) _outbound_shutdown rule3_callback.
Proof. unfold rule3_callback. keeps_shutdown. Qed.
Lemma rule4_keeps : keeps (S := W) _outbound_shutdown rule4_callback.
Proof.
  unfold rule4_callback. keeps_shutdown. generalize (length a). intros fuel.
  induction fuel as [|fuel IH]; cbn [rule4_loop]; keeps_shutdown. exact IH.
Qed.

Lemma socket_rules_compatible : EventLoop.compatible inv specs.
Proof.
  repeat constructor; simpl; intros w _;
    first [intros _; intros _; apply wp_true | intros _; apply wp_true | intros _ E | intros E];
    apply keeps_value; try exact E;
    first [apply rule1_keeps | apply rule3_keeps | apply rule4_keeps | unfold EventLoop.no_cancel; keeps_tac].
Qed.

(** ** The loop *)

Lemma inv_le j k w : (j <= k)%nat -> inv k w -> inv j w.
Proof. apply EventLoop.I_le, inv_mono. Qed.

Lemma pass_time_wp k w base : inv (S k) w -> wpe (pass_time base) (fun _ => inv k) failure w.
Proof.
  intros Hinv. destruct (inv_tcp _ _ Hinv) as (c & tr & Ec & _). unfold pass_time. wp_step.
  eapply ask_tcp_wp; [exact Ec |]. apply wp_if; intros _; [| wp_step; by apply inv_mono].
  wp_step. unfold on_sys, timestamp_ms. wp_step. wp_step. apply FileDescriptor.call_wp. intros ker _. wp_step.
  set (w1 := setf the_sys _ w). assert (Hinv1 : inv (S k) w1) by (by destruct Hinv).
  set (ms := u64 (_ - base)). wp_step.
  eapply (inv_event_wp k w1 (ConnectionTrace.Tick ms)); [done | done | done | done | apply TCPConnection.tick_keeps_outbound |].
  intros c2 Hinv2. set (w2 := setf _tcp (Some c2) w1) in *. wp_step.
  apply (wp_mono_exn _ (fun _ => inv k) _ (fun e _ => FileDescriptor.io_error e)); [| by intros [] w3 Hinv3; wp_step | by left].
  apply (with_adapter_wp _ _ FileDescriptor.io_error).
  eapply wp_mono; [apply (adapter_tick_wp (World.mk (sys w2) (_datagram_adapter w2))) |].
  - destruct Hinv2 as [? Hd ? ? ?]. split; [done |]. simpl in *. by rewrite Hd.
  - apply u64_range.
  - intros [] w' Hstep. by apply (adapter_inv _ _ _ Hinv2 Hstep).
Qed.

(** The rules that are left, and the invariant. *)
Definition serving (k : nat) (l : EventLoop.t W) : Prop :=
  inv k (EventLoop.world l) /\ exists left, left `sublist_of` specs /\ EventLoop._rules l = left.*1.

(** What may stop the loop, apart from its condition: an error of the system or of the
    peer's, or (in the model) the end of the fuel. *)
Definition stopped (m : nat) (e : exn) (l : EventLoop.t W) : Prop :=
  failure e (EventLoop.world l) \/ e = EventLoop.poll_failed \/ (e = OutOfFuel /\ inv m (EventLoop.world l)).

Lemma tcp_loop_wp condition m fuel : forall base l,
  (forall k w, inv k w -> exists b, condition w = (Ok b, w)) -> serving (9 * fuel + m) l ->
  wpe (tcp_loop fuel condition base) (fun _ => serving m) (stopped m) l.
Proof.
  induction fuel as [|fuel IH]; intros base l Hcond [Hinv (left & Hsub & Hrules)]; cbn [tcp_loop];
    destruct (Hcond _ _ Hinv) as [go Ego]; wp_step; wp_step; (eapply wp_eq; [exact Ego |]);
    replace (setf EventLoop.world (EventLoop.world l) l) with l by (by destruct l);
    (apply wp_if; intros _; [wp_step; split; [eapply inv_le; [| exact Hinv]; lia | by exists left] |]).
  - wp_step. right. right. done.
  - assert (Hlen : (length left <= 4)%nat) by (apply sublist_length in Hsub; exact Hsub).
    wp_step. eapply wp_mono_exn; [apply (EventLoop.wait_next_event_wp inv failure inv_mono (S (9 * fuel + m)) left) | |].
    + eapply EventLoop.compatible_sublist; [exact Hsub | apply socket_rules_compatible].
    + eapply EventLoop.sublist_keeps; [exact Hsub | apply socket_rules_ok].
    + intros. by apply inv_kernel.
    + done.
    + eapply inv_le; [| exact Hinv]. lia.
    + intros ret l1 (left1 & Hsub1 & Hrules1 & Hinv1). wp_step. wp_step.
      assert (Hsub2 : left1 `sublist_of` specs) by (by etrans).
      apply wp_if; intros _; [wp_step; split; [eapply inv_le; [| exact Hinv1]; lia | by exists left1] |].
      wp_step. wp_step. eapply wp_mono_exn; [by apply pass_time_wp | | by left].
      intros base' w2 Hinv2. apply IH; [done |]. split; [done |]. by exists left1.
    + intros e l1 [He | [He _]]; [by left | right; by left].
Qed.

Lemma tcp_loop_wp' condition m fuel l :
  (forall k w, inv k w -> exists b, condition w = (Ok b, w)) -> serving (9 * fuel + m) l ->
  wpe (_tcp_loop fuel condition) (fun _ => serving m) (stopped m) l.
Proof.
  intros Hcond [Hinv Hleft]. unfold _tcp_loop. wp_step. wp_step. unfold on_sys, timestamp_ms. wp_step. wp_step.
  apply FileDescriptor.call_wp. intros ker _. wp_step. apply tcp_loop_wp; [done |]. split; [by destruct Hinv | done].
Qed.

Lemma state_is_query states k w : inv k w -> exists b, state_is states w = (Ok b, w).
Proof.
  intros Hinv. destruct (inv_tcp _ _ Hinv) as (c & tr & Ec & _). eexists. apply wp_result. unfold state_is. wp_step.
  eapply ask_tcp_wp; [exact Ec |]. wp_step. done.
Qed.

(** The connection is one the socket's traffic explains. *)
Definition explained (l : EventLoop.t W) : Prop :=
  exists n out c tr, Sys.trace (sys (EventLoop.world l)) = start ++ tr /\
    ConnectionTrace.reach (TCPConnection.new cfg random) n (FileDescriptor.delivered td tr) out
      (FileDescriptor.accepted td tr) c /\
    (_tcp (EventLoop.world l) = Some c \/ _tcp (EventLoop.world l) = None).

Lemma inv_explained m l : inv m (EventLoop.world l) -> explained l.
Proof. intros [? ? ? ? ? (c & tr & Ec & Etr & n & out & Hr & _)]. exists n, out, c, tr. auto. Qed.

Lemma tcp_main_end_wp m (l : EventLoop.t W) : inv m (EventLoop.world l) ->
  wpe (zoom EventLoop.world tcp_main_end) (fun _ l' => explained l' /\ _tcp (EventLoop.world l') = None) (fun e l' => failure e (EventLoop.world l')) l.
Proof.
  intros [Htd Hdev Hok Htdf Hdevf (c & tr & Ec & Etr & n & out & Hr & _) [f Hf]]. unfold tcp_main_end. wp_step. wp_step. wp_step. wp_step. unfold on_sys. wp_step.
  eapply Socket.shutdown_rdwr_wp; [exact Hf | | by intros e s' He; left]. intros ws ker.
  wp_step. eapply ask_tcp_wp; [exact Ec |]. wp_step. set (w1 := setf the_sys _ _).
  apply (wp_mono _ (fun _ w' => w' = w1)).
  { apply wp_when; intros _; [| done]. wp_step. eapply ask_tcp_wp; [exact Ec |]. by wp_step. }
  intros [] w2 ->. wp_step. eapply on_tcp_wp; [exact Ec |]. unfold TCPConnection.destroy. wp_step. wp_step.
  apply (wp_mono _ (fun _ _ => True)). { apply wp_when; intros _; [by apply TCPConnection.set_rst_state_wp | done]. }
  intros [] c' _. wp_step. split; [| done]. exists n, out, c, (tr ++ [Shut (self (EventLoop.world l)) Socket.SHUT_RDWR]).
  split_and!; [| | by right].
  - change (Sys.trace (sys (EventLoop.world l)) ++ [Shut (self (EventLoop.world l)) Socket.SHUT_RDWR] =
      start ++ tr ++ [Shut (self (EventLoop.world l)) Socket.SHUT_RDWR]). by rewrite Etr, <- app_assoc.
  - rewrite FileDescriptor.delivered_app, FileDescriptor.accepted_app.
    change (FileDescriptor.delivered td [Shut _ _]) with (@nil byte).
    change (FileDescriptor.accepted td [Shut _ _]) with (@nil byte). by rewrite !app_nil_r.
Qed.

Lemma tcp_main_wp m fuel l :
  serving (9 * fuel + m) l -> wpe (_tcp_main fuel) (fun _ l' => explained l' /\ _tcp (EventLoop.world l') = None) (stopped m) l.
Proof.
  intros Hserv. destruct (inv_tcp _ _ (proj1 Hserv)) as (c0 & ? & Ec0 & _). unfold _tcp_main. wp_step. wp_step.
  rewrite Ec0. wp_step. eapply wp_mono; [apply (tcp_loop_wp' (pure true) m fuel); [intros; by eexists | done] |].
  intros [] l' [Hinv _]. eapply wp_mono_exn; [by eapply tcp_main_end_wp | done | by left].
Qed.

(** *** The end of a socket that was not waited for *)

(** When the flag is set, the loop ends with the turn it is in. *)
Lemma tcp_loop_aborted m fuel base l : serving (8 + m) l -> (1 <= fuel)%nat ->
  wpe (let _ := aborted (K := K) in tcp_loop fuel (pure true) base) (fun _ => serving m)
    (fun e l' => failure e (EventLoop.world l') \/ e = EventLoop.poll_failed) l.
Proof.
  intros [Hinv (left & Hsub & Hrules)] Hfuel. destruct fuel as [|fuel]; [lia |]. cbv zeta. cbn [tcp_loop]. wp_step. wp_step. wp_step.
  assert (Hlen : (length left <= 4)%nat) by (apply sublist_length in Hsub; exact Hsub).
  cbn [negb]. replace (setf EventLoop.world (EventLoop.world l) l) with l by (by destruct l).
  wp_step. eapply wp_mono_exn; [apply (EventLoop.wait_next_event_wp inv failure inv_mono m left) | |].
  - eapply EventLoop.compatible_sublist; [exact Hsub | apply socket_rules_compatible].
  - eapply EventLoop.sublist_keeps; [exact Hsub | apply socket_rules_ok].
  - intros. by apply inv_kernel.
  - done.
  - eapply inv_le; [| exact Hinv]. lia.
  - intros ret l1 (left1 & Hsub1 & Hrules1 & Hinv1). wp_step. wp_step. unfold _abort, aborted. rewrite orb_true_r. wp_step.
    split; [done |]. exists left1. split; [by etrans | done].
  - intros e l1 [He | [He _]]; [by left | by right].
Qed.

(** Wherever the thread is, the destructor ends, joins it and leaves no connection; only an
    error that ends the thread (and with it the program) comes before. *)
Lemma destructor_wp m fuel base l : serving (8 + m) l -> (1 <= fuel)%nat ->
  wpe (destructor fuel base)
    (fun _ l' => _tcp_thread (EventLoop.world l') = false /\
       (_tcp_thread (EventLoop.world l) = true -> explained l' /\ _tcp (EventLoop.world l') = None))
    (fun e l' => failure e (EventLoop.world l') \/ e = EventLoop.poll_failed) l.
Proof.
  intros Hserv Hfuel. destruct (inv_tcp _ _ (proj1 Hserv)) as (c & ? & Ec & _). unfold destructor. wp_step. wp_step.
  destruct (_tcp_thread (EventLoop.world l)) eqn:Ej; [| done]. unfold when at 1. wp_step. wp_step. rewrite Ec, bool_decide_true by done.
  unfold when. wp_step. cbv zeta. wp_step. eapply wp_mono_exn; [by apply (tcp_loop_aborted m) | | done].
  intros [] l1 [Hinv _]. eapply wp_mono_exn; [by eapply tcp_main_end_wp | | by left].
  intros [] l2 [(n & out & c2 & tr & Etr & Hr & _) Enone]. wp_step. wp_step. split; [done |]. intros _. split; [| done].
  exists n, out, c2, tr. split; [done |]. split; [done | by right].
Qed.

(** *** Opening *)

(** A socket that has just been made, with its descriptors. *)
Record fresh (l : EventLoop.t W) : Prop := {
  fresh_rules : EventLoop._rules l = [];
  fresh_tcp : _tcp (EventLoop.world l) = None;
  fresh_td : _thread_data (EventLoop.world l) = td;
  fresh_dev : adapter_fd (_datagram_adapter (EventLoop.world l)) = dev;
  fresh_td_fd : is_Some (Sys.wrappers (sys (EventLoop.world l)) !! td);
  fresh_dev_fd : is_Some (Sys.wrappers (sys (EventLoop.world l)) !! dev);
  fresh_self : is_Some (Sys.wrappers (sys (EventLoop.world l)) !! self (EventLoop.world l));
  fresh_trace : Sys.trace (sys (EventLoop.world l)) = start;
  fresh_own : self (EventLoop.world l) = own;
  fresh_count : length (Sys.wrappers (sys (EventLoop.world l))) = count
}.

Lemma initialize_eq l : fresh l ->
  _initialize_TCP cfg random l =
    (Ok tt, EventLoop.mk (rules dev td) (setf _tcp (Some (TCPConnection.new cfg random)) (EventLoop.world l))).
Proof. destruct l as [rs w]. intros [Er _ Etd Edev]. simpl in *. subst rs. rewrite <- Etd, <- Edev. done. Qed.

(** The connection at its start, and an adapter in order. *)
Lemma inv_start k l a :
  fresh l -> 2 * Z.of_nat k <= N -> adapter_ok a -> adapter_fd a = dev ->
  inv k (setf _datagram_adapter a (setf _tcp (Some (TCPConnection.new cfg random)) (EventLoop.world l))).
Proof.
  intros [] Hk Ha Hd. split; try done.
  2:{ split; [done |]. split; [done |]. exists []. by rewrite app_nil_r. }
  exists (TCPConnection.new cfg random), []. rewrite app_nil_r. split_and!; [done | done |]. exists 0, []. split_and!; [constructor | lia | done | done].
Qed.

Lemma all_rules a w : EventLoop._rules (EventLoop.mk (rules dev td) (setf _datagram_adapter a w)) = specs.*1.
Proof. done. Qed.

(** [connect] on a new connection sends a SYN. *)
Lemma connect_state : exists c,
  TCPConnection.connect (TCPConnection.new cfg random) = (Ok tt, c) /\
  TCPState.eqb (TCPConnection.state c) (TCPState.of_state TCPState.SYN_SENT) = true.
Proof.
  assert (E : match TCPConnection.connect (TCPConnection.new cfg random) with
    | (Ok tt, c) => TCPState.eqb (TCPConnection.state c) (TCPState.of_state TCPState.SYN_SENT)
    | _ => false
    end = true) by (clear; destruct cfg as [? ? ? ? []]; vm_compute; reflexivity).
  destruct (TCPConnection.connect (TCPConnection.new cfg random)) as [[[]|e] c]; [by exists c | done].
Qed.

Lemma to_string_wp (Q : string -> EventLoop.t W -> Prop) m a l :
  (forall s, Q s l) -> wpe (of_outcome (Address.to_string a)) Q (stopped m) l.
Proof.
  intros HQ. unfold wpe, of_outcome, Address.to_string. pose proof (address_result a) as Hr.
  destruct (Address.ip_port a); simpl; [apply HQ | by left; left].
Qed.

Lemma socket_connect_wp m fuel c_ad l :
  fresh l -> adapter_ok (adapter_set_config c_ad (_datagram_adapter (EventLoop.world l))) ->
  2 * Z.of_nat (1 + 9 * fuel + m) <= N ->
  wpe (connect fuel cfg c_ad random) (fun _ => serving m) (stopped m) l.
Proof.
  intros Hl Ha HN. pose proof (fresh_dev _ Hl) as Hdev. unfold connect. wp_step. wp_step. rewrite (fresh_tcp _ Hl). wp_step.
  eapply wp_eq; [by apply initialize_eq |]. wp_step. wp_step. wp_step. wp_step. apply to_string_wp. intros _.
  pose (a := adapter_set_config c_ad (_datagram_adapter (EventLoop.world l))).
  assert (Hinv : inv (1 + 9 * fuel + m) (setf _datagram_adapter a (setf _tcp (Some (TCPConnection.new cfg random)) (EventLoop.world l)))).
  { apply inv_start; [done | done | done |]. unfold a. by rewrite adapter_config_fd. }
  destruct connect_state as (c1 & Ec1 & Est). wp_step. wp_step.
  apply (wp_mono_exn _ (fun _ w' => inv (9 * fuel + m) w' /\ _tcp w' = Some c1) _ failure); [| | by left].
  { eapply wp_mono; [apply wp_and; [eapply (inv_event_wp (9 * fuel + m) _ ConnectionTrace.Connect _ _ (fun _ => inv (9 * fuel + m)));
      [exact Hinv | done | done | done | apply TCPConnection.connect_keeps_ended | done] |] |].
    - instantiate (1 := fun _ w' => _tcp w' = Some c1). eapply on_tcp_wp; [done |]. by eapply wp_eq; [exact Ec1 |].
    - by intros [] w'. }
  intros [] w2 [Hinv2 Etcp]. wp_step. wp_step. eapply ask_tcp_wp; [exact Etcp |]. rewrite Est. cbn [negb]. wp_step.
  eapply wp_mono; [apply (tcp_loop_wp' _ m); [intros; by eapply state_is_query |] |].
  - split; [done |]. by exists specs.
  - intros [] l3 [Hinv3 Hleft]. wp_step. apply to_string_wp. intros _. wp_step. wp_step. split; [by destruct Hinv3 | done].
Qed.

Lemma socket_listen_wp m fuel c_ad l :
  fresh l -> adapter_ok (adapter_set_config c_ad (_datagram_adapter (EventLoop.world l))) ->
  2 * Z.of_nat (9 * fuel + m) <= N ->
  wpe (listen_and_accept fuel cfg c_ad random) (fun _ => serving m) (stopped m) l.
Proof.
  intros Hl Ha HN. pose proof (fresh_dev _ Hl) as Hdev. unfold listen_and_accept. wp_step. wp_step. rewrite (fresh_tcp _ Hl).
  wp_step. eapply wp_eq; [by apply initialize_eq |]. do 6 wp_step. wp_step.
  eapply wp_mono; [apply (tcp_loop_wp' _ m); [intros; by eapply state_is_query |] |].
  - split; [| by exists specs].
    apply (inv_start _ l (adapter_set_listening true (adapter_set_config c_ad (_datagram_adapter (EventLoop.world l)))));
      [done | done | by apply adapter_listen_ok | by rewrite adapter_listen_fd, adapter_config_fd].
  - intros [] l3 [Hinv3 Hleft]. wp_step. wp_step. eapply wp_mono_exn; [apply (destination_wp (fun _ w => w = EventLoop.world l3)); done | | by left].
    intros _ w ->. replace (setf EventLoop.world (EventLoop.world l3) l3) with l3 by (by destruct l3).
    wp_step. wp_step. split; [by destruct Hinv3 | done].
Qed.
End rules.
End TCPSpongeSocket.

(** ** Sockets with their configurations *)

(** [TCPConfig tcp_config; tcp_config.rt_timeout = 100;] *)
Definition quick_tcp_config : TCPConfig.t := setf TCPConfig.rt_timeout 100 TCPConfig.default.

(** The configuration [connect] makes: a random local port. *)
Definition multiplexer_config `{Address.Netdb} (local_ip : string) (random : Z) (address : Address.t)
    : outcome FdAdapterConfig.t :=
  cfg ← FdAdapterConfig.default;
  source ← Address.of_hostname local_ip (std_to_string (u16 random));
  Ok (setf FdAdapterConfig.destination address (setf FdAdapterConfig.source source cfg)).

Module CS144TCPSocket.
Section cs144.
Context {K : Type} `{Kernel K} `{Address.Netdb} `{Owner K}.

Definition new : M (Sys.t K) (Sys.t K -> EventLoop.t (TCPSpongeSocket.t K TCPOverIPv4OverTunFdAdapter.t)) :=
  let* tun := TunFD.new "tun144" in
  let* adapter := of_outcome (TCPOverIPv4OverTunFdAdapter.new tun) in
  TCPSpongeSocket.new adapter.

Definition connect (fuel : nat) (address : Address.t) (random random_isn : Z)
    : M (EventLoop.t (TCPSpongeSocket.t K TCPOverIPv4OverTunFdAdapter.t)) unit :=
  let* config := of_outcome (multiplexer_config "169.254.144.9" random address) in
  TCPSpongeSocket.connect fuel quick_tcp_config config random_isn.
End cs144.
End CS144TCPSocket.

(** The six numbers are what [random_device] returns. *)
Definition random_private_ethernet_address (r0 r1 r2 r3 r4 r5 : Z) : EthernetAddress :=
  [Z.land (Z.lor (u8 r0) 0x02) 0xfe; u8 r1; u8 r2; u8 r3; u8 r4; u8 r5].

Module FullStackSocket.
Section full_stack.
Context {K : Type} `{Kernel K} `{Address.Netdb} `{Owner K}.

Definition LOCAL_TAP_IP_ADDRESS : string := "169.254.10.9".
Definition LOCAL_TAP_NEXT_HOP_ADDRESS : string := "169.254.10.1".

(** The constructor.  C++ leaves the order in which the arguments are made open; here they are
    made from left to right.  [eth_address] is what [random_private_ethernet_address()] returns. *)
Definition new (eth_address : EthernetAddress)
    : M (Sys.t K) (Sys.t K -> EventLoop.t (TCPSpongeSocket.t K TCPOverIPv4OverEthernetAdapter.t)) :=
  let* tap := TapFD.new "tap10" in
  let* ip := of_outcome (Address.of_hostname LOCAL_TAP_IP_ADDRESS "0") in
  let* next_hop := of_outcome (Address.of_hostname LOCAL_TAP_NEXT_HOP_ADDRESS "0") in
  let* adapter := TCPOverIPv4OverEthernetAdapter.new tap eth_address ip next_hop in
  TCPSpongeSocket.new adapter.

Definition connect (fuel : nat) (address : Address.t) (random random_isn : Z)
    : M (EventLoop.t (TCPSpongeSocket.t K TCPOverIPv4OverEthernetAdapter.t)) unit :=
  let* config := of_outcome (multiplexer_config LOCAL_TAP_IP_ADDRESS random address) in
  TCPSpongeSocket.connect fuel quick_tcp_config config random_isn.
End full_stack.
End FullStackSocket.

(** ** Properties *)

Section properties.
Context {K A : Type} `{LinuxIO K} `{FdAdapterLaws K A} `{Address.Netdb} `{Owner K}.
Import TCPSpongeSocket.

Inductive opening : Type := Active | Passive.
(** The life of a socket: it connects or accepts, then its thread runs; [turns] and
    [turns'] turns of the two loops. *)
Definition session (o : opening) (turns turns' : nat) (c_tcp : TCPConfig.t) (c_ad : FdAdapterConfig.t) (random_isn : Z)
    : M (EventLoop.t (TCPSpongeSocket.t K A)) unit :=
  match o with
  | Active => connect turns c_tcp c_ad random_isn
  | Passive => listen_and_accept turns c_tcp c_ad random_isn
  end ;;
  _tcp_main turns'.

(** [C2] A socket, whatever the kernel, the network and the application do, refines the
    protocol: at the end of any number of turns its connection is in a state that
    some sequence of the connection's own events leads to, in which the bytes
    written to the connection are exactly those the application sent, and the bytes
    read from it exactly those the application was given.  The loop can only be
    stopped by an error the system reports or by a peer that contradicts itself: never by undefined
    behaviour, an empty optional, the "accepted less than advertised" check, the
    "busy wait" check or the check of the state after [connect]. *)
Theorem socket_refines_connection o turns turns' c_tcp c_ad random_isn dev td own count start l :
  fresh td dev own count start l -> dev <> td -> ConnectionTrace.config_ok c_tcp ->
  adapter_ok (adapter_set_config c_ad (_datagram_adapter (EventLoop.world l))) ->
  18 * Z.of_nat (turns + turns') + 5 < 2 ^ 43 ->
  (18 * Z.of_nat (turns + turns') + 5) * TCPConfig.recv_capacity c_tcp < 2 ^ 64 ->
  wpe (session o turns turns' c_tcp c_ad random_isn)
    (fun _ l' => explained c_tcp random_isn td start l' /\ _tcp (EventLoop.world l') = None)
    (fun e l' => FileDescriptor.io_error e \/ TCPReceiver.benign e \/ e = EventLoop.poll_failed \/
       (e = OutOfFuel /\ explained c_tcp random_isn td start l')) l.
Proof.
  intros Hl Hne Hcfg Ha He Hb. set (N := 18 * Z.of_nat (turns + turns') + 2).
  assert (Hstop : forall m e l', stopped c_tcp random_isn N td dev own count start m e l' ->
    FileDescriptor.io_error e \/ TCPReceiver.benign e \/ e = EventLoop.poll_failed \/
       (e = OutOfFuel /\ explained c_tcp random_isn td start l')).
  { intros m e l' [[He' | He'] | [He' | [He' Hi]]]; [by left | by right; left | by right; right; left |].
    do 3 right. split; [done |]. by eapply inv_explained. }
  unfold session. wp_step.
  eapply (wp_mono_exn _ (fun _ => serving c_tcp random_isn N td dev own count start (9 * turns' + 0)) _ (stopped c_tcp random_isn N td dev own count start (9 * turns' + 0)));
    [| | by apply Hstop].
  - destruct o; [apply (socket_connect_wp c_tcp random_isn N) | apply (socket_listen_wp c_tcp random_isn N)]; try done; unfold N; lia.
  - intros [] l1 Hserv. eapply wp_mono_exn; [apply (tcp_main_wp c_tcp random_isn N td dev own count start) with (m := 0%nat); try done; unfold N; lia | done | by apply Hstop].
Qed.
End properties.

(** ** Witness

    A server on a TUN device: it gets the SYN of a client and answers it. *)

Section witness.
#[local] Existing Instance Address.numeric_netdb.
#[local] Existing Instance Address.numeric_netdb_numeric.
#[local] Instance script_owner : Owner Script.t := fun _ => false.

Definition syn_packet : list byte :=
  let w := World.mk (Sys.mk [FDWrapper.mk 5 false false 0 0] (Script.mk [] 1000 [] [] 0) [])
    (TCPOverIPv4OverTunFdAdapter.mk sample_client 0) in
  FileDescriptor.accepted 0 (Sys.trace (World.sys (snd (TCPOverIPv4OverTunFdAdapter.write sample_syn w)))).

Definition server_socket : EventLoop.t (TCPSpongeSocket.t Script.t TCPOverIPv4OverTunFdAdapter.t) :=
  let wrapper fd := FDWrapper.mk fd false false 0 0 in
  let kernel := Script.mk [syn_packet] 1000 [] [[EventLoop.POLLIN; 0; 0; 0]; [0; 0; 0; EventLoop.POLLOUT]] 0 in
  EventLoop.mk [] (TCPSpongeSocket.mk (Sys.mk [wrapper 3; wrapper 4; wrapper 5] kernel []) 0 1
    (TCPOverIPv4OverTunFdAdapter.mk sample_server 2) None false false false false).

Definition server_config : FdAdapterConfig.t := FdAdapterBase.config sample_server.

Lemma server_outcome : fst (session Passive 2 0 demo_cfg server_config 0 server_socket) = Throw OutOfFuel.
Proof. vm_compute. reflexivity. Qed.

Lemma server_traffic :
  map io_handle (Sys.trace (TCPSpongeSocket.sys (EventLoop.world
    (snd (session Passive 2 0 demo_cfg server_config 0 server_socket))))) = [2; 2]%nat.
Proof. vm_compute. reflexivity. Qed.

Lemma server_fresh : TCPSpongeSocket.fresh 1 2 0 3 [] server_socket.
Proof. split; try reflexivity; eexists; reflexivity. Qed.

Lemma server_adapter :
  adapter_ok (adapter_set_config server_config (TCPSpongeSocket._datagram_adapter (EventLoop.world server_socket))).
Proof. exists 0, 80, 0, 0. by apply sample_endpoint. Qed.

Lemma socket_refines_connection_witness : exists l',
  session Passive 2 0 demo_cfg server_config 0 server_socket = (Throw OutOfFuel, l') /\
  TCPSpongeSocket.explained demo_cfg 0 1 [] l' /\
  map io_handle (Sys.trace (TCPSpongeSocket.sys (EventLoop.world l'))) = [2; 2]%nat.
Proof.
  pose proof (socket_refines_connection Passive 2 0 demo_cfg server_config 0 2 1 0 3 [] server_socket server_fresh
    ltac:(discriminate) demo_config server_adapter eq_refl eq_refl) as Hs.
  pose proof server_outcome as Eo. pose proof server_traffic as Et.
  destruct (session Passive 2 0 demo_cfg server_config 0 server_socket) as [o l'] eqn:Es. cbn [fst snd] in Eo, Et. subst o.
  exists l'. split; [reflexivity |]. split; [| exact Et].
  destruct (wp_throws _ _ _ _ _ _ Es Hs) as [[] | [[E | E] | [E | [_ He]]]];
    [discriminate E | discriminate E | discriminate E | exact He].
Defined.
End witness.
