(* ===== verification/lua_config.v ===== *)
(** * util/lua_config: reading a configuration from a Lua state

    [LuaConfig] runs a script and reads the table it returns through the stack of the Lua C
    API.  The interpreter is not part of the program: the class [Lua] has the functions of
    the API that the sources call (a function that may raise a Lua error is a computation,
    since an error outside a protected call aborts the program), and [LuaLaws] states what the
    reference manual says of them when the values are plain data, as in a topology file, and
    memory suffices.  [data] is such a value; a table is its entries, in the order in which
    [lua_next] visits them, which the manual leaves open.  [DataLua] is an interpreter for
    such values that satisfies the laws. *)

From Corelib Require Import SpecFloat.
From S2P Require Import prelude.

(** ** The API *)

Class Lua (L : Type) : Type := {
  luaL_newstate : option L;
  luaL_openlibs : L -> L;
  (** the status; a message or the results are pushed *)
  luaL_dofile : string -> L -> Z * L;
  lua_gettop : L -> Z;
  lua_absindex : Z -> L -> Z;
  lua_pushstring : string -> L -> L;
  lua_pushinteger : Z -> L -> L;
  lua_pushnil : L -> L;
  lua_pop : Z -> L -> L;
  lua_isnil : Z -> L -> bool;
  lua_istable : Z -> L -> bool;
  lua_isinteger : Z -> L -> bool;
  lua_isnumber : Z -> L -> bool;
  lua_isstring : Z -> L -> bool;
  lua_tointeger : Z -> L -> Z;
  lua_tonumber : Z -> L -> spec_float;
  (** a number on the stack becomes a string *)
  lua_tostring : Z -> M L (option string);
  lua_gettable : Z -> M L unit;
  lua_geti : Z -> Z -> M L unit;
  luaL_len : Z -> M L Z;
  lua_next : Z -> M L bool
}.
Definition LUA_OK : Z := 0.

(** A [const char *] as a [std::string]: up to the first NUL. *)
Fixpoint c_str (s : string) : string :=
  match s with
  | String c s => if (Ascii.nat_of_ascii c =? 0)%nat then EmptyString else String c (c_str s)
  | EmptyString => EmptyString
  end.

(** [static_cast<int>] of a [double]: undefined when the integral part does not fit. *)
Definition double_to_int (x : spec_float) : outcome Z :=
  match x with
  | S754_zero _ => Ok 0
  | S754_finite neg m e =>
      let v := if neg then - Z.shiftl (Zpos m) e else Z.shiftl (Zpos m) e in
      if (- 2 ^ 31 <=? v) && (v <? 2 ^ 31) then Ok v else Throw UndefinedBehavior
  | _ => Throw UndefinedBehavior
  end.

(** ** The class

    The static functions work on a [lua_State]; a callback may also change the caller's
    variables, of type [W]. *)

Module LuaConfig.
Section config.
Context {L : Type} `{Lua L}.

Record t : Type := mk { _L : option L; _owns_state : bool }.
Definition of_state (L : L) : t := mk (Some L) false.
Definition state (c : t) : option L := _L c.

(** A function of the API that cannot fail *)
Definition act (f : L -> L) : M L unit := fun l => (Ok tt, f l).

(** [LuaConfig(filename)], after [luaL_newstate]: the state, or the exception *)
Definition load (filename : string) : M L unit :=
  act luaL_openlibs ;;
  let* l := get in
  let '(status, l) := luaL_dofile filename l in
  put l ;;
  if negb (status =? LUA_OK) then
    let* lua_err := lua_tostring (-1) in
    let err := "LuaConfig: error loading " +:+ filename in
    throw (Runtime_error (match lua_err with Some e => err +:+ ": " +:+ c_str e | None => err end))
  else
    let* l := get in
    when ((lua_gettop l =? 0) || negb (lua_istable (-1) l))
      (throw (Runtime_error ("LuaConfig: " +:+ filename +:+ " did not return a table"))).

(** A state that fails to load is closed. *)
Definition new (filename : string) : outcome t :=
  match luaL_newstate with
  | None => Throw (Runtime_error "LuaConfig: failed to create lua_State")
  | Some l => let '(o, l) := load filename l in _ ← o; Ok (mk (Some l) true)
  end.

(** The destructor: is [lua_close] called? *)
Definition closes (c : t) : bool := _owns_state c && bool_decide (is_Some (_L c)).

(** What is left of [push_field] and [push_index], after the key was pushed *)
Definition push_value : M L bool :=
  lua_gettable (-2) ;;
  let* l := get in
  let present := negb (lua_isnil (-1) l) in
  when (negb present) (act (lua_pop 1)) ;;
  pure present.
Definition push_field (key : string) : M L bool :=
  act (lua_pushstring key) ;;
  push_value.
Definition push_index (index : Z) : M L bool :=
  act (lua_pushinteger index) ;;
  push_value.

Definition get_int (key : string) : M L (option Z) :=
  act (lua_pushstring key) ;;
  lua_gettable (-2) ;;
  let* l := get in
  let* result :=
    (if lua_isinteger (-1) l then pure (Some (i32 (lua_tointeger (-1) l)))
     else if lua_isnumber (-1) l then let* n := of_outcome (double_to_int (lua_tonumber (-1) l)) in pure (Some n)
     else pure None) in
  act (lua_pop 1) ;;
  pure result.

(** [std::string(lua_tostring(L, idx))]: a null pointer is undefined. *)
Definition to_std_string (idx : Z) : M L string :=
  let* s := lua_tostring idx in
  let* s := or_ub s in
  pure (c_str s).

Definition get_string (key : string) : M L (option string) :=
  act (lua_pushstring key) ;;
  lua_gettable (-2) ;;
  let* l := get in
  let* result := (if lua_isstring (-1) l then let* s := to_std_string (-1) in pure (Some s) else pure None) in
  act (lua_pop 1) ;;
  pure result.

Definition array_length : M L Z := let* n := luaL_len (-1) in pure (u64 n).

Definition peek_string (idx : Z) : M L string :=
  let* l := get in
  if lua_isstring idx l then to_std_string idx else pure EmptyString.

Section iteration.
Context {W : Type}.

(** On the state of the interpreter, beside the caller's variables *)
Definition lua {A} (m : M L A) : M (L * W) A := fun p => let '(o, l) := m p.1 in (o, (l, p.2)).

(** On the caller's variables *)
Definition caller {A} (m : M W A) : M (L * W) A := fun p => let '(o, w) := m p.2 in (o, (p.1, w)).

(** The call of a callback: what it left on the stack is popped. *)
Definition balanced (cb : M (L * W) unit) : M (L * W) unit :=
  let* depth_before := asks (fun p => lua_gettop p.1) in
  cb ;;
  let* depth_after := asks (fun p => lua_gettop p.1) in
  when (depth_before <? depth_after) (lua (act (lua_pop (depth_after - depth_before)))).

(** [for (int i = 1; i <= n; ++i)]: [turns] are left. *)
Fixpoint for_loop (base : Z) (cb : Z -> M (L * W) unit) (turns : nat) (i : Z) : M (L * W) unit :=
  match turns with
  | O => pure tt
  | S turns =>
      lua (lua_geti base i) ;;
      balanced (cb i) ;;
      lua (act (lua_pop 1)) ;;
      for_loop base cb turns (i + 1)
  end.
Definition for_each (cb : Z -> M (L * W) unit) : M (L * W) unit :=
  let* base := asks (fun p => lua_absindex (-1) p.1) in
  let* n := lua (luaL_len base) in
  for_loop base cb (Z.to_nat (i32 n)) 1.

(** [while (lua_next(L, base) != 0)]; nothing bounds the number of entries: [fuel] of them *)
Fixpoint next_loop (fuel : nat) (base : Z) (cb : string -> M (L * W) unit) : M (L * W) unit :=
  match fuel with
  | O => throw OutOfFuel
  | S fuel =>
      let* more := lua (lua_next base) in
      if negb more then pure tt
      else
        let* key := lua (lua_tostring (-2)) in
        match key with Some key => balanced (cb (c_str key)) | None => pure tt end ;;
        lua (act (lua_pop 1)) ;;
        next_loop fuel base cb
  end.
Definition for_each_pair (fuel : nat) (cb : string -> M (L * W) unit) : M (L * W) unit :=
  let* base := asks (fun p => lua_absindex (-1) p.1) in
  lua (act lua_pushnil) ;;
  next_loop fuel base cb.
End iteration.
End config.
Arguments t L : clear implicits.
End LuaConfig.

(** ** Plain data *)

Inductive key : Type := KInt (i : Z) | KStr (s : string).
#[global] Instance key_eq_dec : EqDecision key.
Proof. solve_decision. Defined.

Inductive data : Type :=
| DNil
| DBool (b : bool)
| DInt (i : Z)
| DFloat (x : spec_float)
| DStr (s : string)
| DTable (entries : list (key * data)).

Definition of_key (k : key) : data := match k with KInt i => DInt i | KStr s => DStr s end.
Definition is_nil (d : data) : bool := match d with DNil => true | _ => false end.
Definition is_table (d : data) : bool := match d with DTable _ => true | _ => false end.
(** A value that can be indexed and has a length: the libraries give strings a metatable. *)
Definition indexable (d : data) : bool := match d with DTable _ | DStr _ => true | _ => false end.

(** [t[k]] *)
Fixpoint field (k : key) (es : list (key * data)) : data :=
  match es with
  | [] => DNil
  | (k', d) :: es => if bool_decide (k = k') then d else field k es
  end.

(** [t[i]], [t[i + 1]], ... up to the first nil *)
Fixpoint elements_from (bound : nat) (i : Z) (es : list (key * data)) : list data :=
  match bound with
  | O => []
  | S bound => if is_nil (field (KInt i) es) then [] else field (KInt i) es :: elements_from bound (i + 1) es
  end.
Definition elements (es : list (key * data)) : list data := elements_from (length es) 1 es.
(** A sequence: its positive integer keys are 1 to [#t]. *)
Definition sequence (es : list (key * data)) : bool :=
  forallb (fun e => match e.1 with KInt i => i <=? len (elements es) | KStr _ => true end) es.

(** The entry after the one of [k]; [None] when [k] is no key of the table. *)
Fixpoint after (k : key) (es : list (key * data)) : option (list (key * data)) :=
  match es with
  | [] => None
  | (k', _) :: es => if bool_decide (k = k') then Some es else after k es
  end.
Definition following (d : data) (es : list (key * data)) : option (list (key * data)) :=
  match d with
  | DNil => Some es
  | DInt i => after (KInt i) es
  | DStr s => after (KStr s) es
  | _ => None
  end.

(** The value at an index of the stack, whose top comes first *)
Definition at_index (st : list data) (idx : Z) : option data :=
  if 0 <? idx then zlookup st (len st - idx) else zlookup st (- idx - 1).

(** An error outside a protected call: the program is aborted, nothing is thrown. *)
Definition stops {S A} (m : M S A) (s : S) : Prop :=
  match m s with (Throw e, _) => is_exception e = false | (Ok _, _) => False end.

(** ** What the manual says *)

Class LuaLaws (L : Type) `{Lua L} : Type := {
  (** the values on the stack, the top first *)
  holds : L -> list data -> Prop;
  (** the string a number is converted to, and the number a string is converted to *)
  number_text : data -> string;
  numeral : string -> option spec_float;

  law_gettop l st : holds l st -> lua_gettop l = len st;
  law_absindex l st i : holds l st -> - len st <= i < 0 -> lua_absindex i l = len st + i + 1;
  law_pushstring l st s : holds l st -> holds (lua_pushstring s l) (DStr (c_str s) :: st);
  law_pushinteger l st i : holds l st -> holds (lua_pushinteger i l) (DInt i :: st);
  law_pushnil l st : holds l st -> holds (lua_pushnil l) (DNil :: st);
  law_pop l top st : holds l (top ++ st) -> holds (lua_pop (len top) l) st;
  law_isnil l st i d : holds l st -> at_index st i = Some d -> lua_isnil i l = is_nil d;
  law_istable l st i d : holds l st -> at_index st i = Some d -> lua_istable i l = is_table d;
  law_isinteger l st i d : holds l st -> at_index st i = Some d ->
    lua_isinteger i l = match d with DInt _ => true | _ => false end;
  law_isnumber l st i d : holds l st -> at_index st i = Some d ->
    lua_isnumber i l = match d with DInt _ | DFloat _ => true | DStr s => bool_decide (is_Some (numeral s)) | _ => false end;
  law_isstring l st i d : holds l st -> at_index st i = Some d ->
    lua_isstring i l = match d with DInt _ | DFloat _ | DStr _ => true | _ => false end;
  law_tointeger l st i n : holds l st -> at_index st i = Some (DInt n) -> lua_tointeger i l = n;
  law_tonumber l st i d x : holds l st -> at_index st i = Some d ->
    match d with DFloat y => Some y | DStr s => numeral s | _ => None end = Some x -> lua_tonumber i l = x;
  (** a number is converted in place *)
  law_tostring l top d st : holds l (top ++ d :: st) ->
    wp (lua_tostring (- len top - 1)) (fun r l' =>
      match d with
      | DStr s => r = Some s /\ holds l' (top ++ d :: st)
      | DInt _ | DFloat _ => r = Some (number_text d) /\ holds l' (top ++ DStr (number_text d) :: st)
      | _ => r = None /\ holds l' (top ++ d :: st)
      end) l;
  law_gettable l st i k es : holds l (of_key k :: st) -> at_index (of_key k :: st) i = Some (DTable es) ->
    wp (lua_gettable i) (fun _ l' => holds l' (field k es :: st)) l;
  law_gettable_error l st i k d : holds l (k :: st) -> at_index (k :: st) i = Some d -> indexable d = false ->
    stops (lua_gettable i) l;
  law_geti l st i n es : holds l st -> at_index st i = Some (DTable es) ->
    wp (lua_geti i n) (fun _ l' => holds l' (field (KInt n) es :: st)) l;
  law_len l st i es : holds l st -> at_index st i = Some (DTable es) -> sequence es = true ->
    wp (luaL_len i) (fun n l' => n = len (elements es) /\ holds l' st) l;
  law_len_error l st i d : holds l st -> at_index st i = Some d -> indexable d = false -> stops (luaL_len i) l;
  law_next l st i k es : holds l (k :: st) -> at_index (k :: st) i = Some (DTable es) ->
    match following k es with
    | Some ((k', d) :: _) => wp (lua_next i) (fun more l' => more = true /\ holds l' (d :: of_key k' :: st)) l
    | Some [] => wp (lua_next i) (fun more l' => more = false /\ holds l' st) l
    | None => stops (lua_next i) l
    end
}.

(** ** The operations on plain data *)

(** A configuration that was made has a table on top of its stack, and owns its state. *)
Lemma new_table {L} `{Lua L} filename c : LuaConfig.new filename = Ok c ->
  exists l, LuaConfig.state c = Some l /\ LuaConfig.closes c = true /\ lua_gettop l <> 0 /\ lua_istable (-1) l = true.
Proof.
  unfold LuaConfig.new. destruct luaL_newstate as [l0|]; [| done].
  unfold LuaConfig.load, bind, LuaConfig.act, get, put, throw, when. simpl.
  destruct (luaL_dofile filename (luaL_openlibs l0)) as [status l]. destruct (status =? LUA_OK); simpl.
  - destruct (Z.eqb_spec (lua_gettop l) 0) as [|Ht]; simpl; [done |].
    destruct (lua_istable (-1) l) eqn:Et; simpl; [| done]. intros [= <-]. by exists l.
  - by destruct (lua_tostring (-1) l) as [[]].
Qed.

Section laws.
Context {L : Type} `{LuaLaws L}.
Implicit Types (st : list data) (es : list (key * data)).

(** The value of a field as [get_string] and [get_int] read it *)
Definition read_string (d : data) : option string :=
  match d with
  | DStr s => Some (c_str s)
  | DInt _ | DFloat _ => Some (c_str (number_text d))
  | _ => None
  end.
Definition read_number (d : data) : option (outcome Z) :=
  match d with
  | DInt i => Some (Ok (i32 i))
  | DFloat x => Some (double_to_int x)
  | DStr s => double_to_int <$> numeral s
  | _ => None
  end.
(** [None]: the conversion to [int] is undefined. *)
Definition read_int (d : data) : option (option Z) :=
  match read_number d with
  | None => Some None
  | Some (Ok n) => Some (Some n)
  | Some (Throw _) => None
  end.

(** From a stack [st], [m] returns [v] and leaves [st']. *)
Definition reads {A} st (m : M L A) (v : A) st' : Prop :=
  forall l, holds l st -> wp m (fun a l' => a = v /\ holds l' st') l.

Lemma at_top d st : at_index (d :: st) (-1) = Some d.
Proof. done. Qed.
Lemma at_second c d st : at_index (c :: d :: st) (-2) = Some d.
Proof. done. Qed.
Lemma at_base top d st : at_index (top ++ d :: st) (len (d :: st)) = Some d.
Proof.
  unfold at_index. rewrite len_app, (proj2 (Z.ltb_lt 0 _)) by (rewrite len_cons; pose proof (len_nonneg st); lia).
  rewrite zlookup_app_r by lia. replace (_ - _) with 0 by lia. apply zlookup_cons_0.
Qed.

Lemma act_pop l d st : holds l (d :: st) -> wp (LuaConfig.act (lua_pop 1)) (fun _ l' => holds l' st) l.
Proof. intros Hl. exact (law_pop l [d] st Hl). Qed.
Lemma pops d st : reads (d :: st) (LuaConfig.act (lua_pop 1)) tt st.
Proof. intros l Hl. split; [done |]. exact (law_pop l [d] st Hl). Qed.

Lemma tostring_top l d st : holds l (d :: st) -> match d with DStr _ | DInt _ | DFloat _ => True | _ => False end ->
  wp (LuaConfig.to_std_string (-1)) (fun r l' => Some r = read_string d /\ exists d', holds l' (d' :: st)) l.
Proof.
  intros Hl Hd. unfold LuaConfig.to_std_string. wp_step. eapply wp_mono; [apply (law_tostring l [] d st Hl) |].
  intros r l' Hr. destruct d; try done; destruct Hr as [-> Hl']; wp_steps; (split; [done | by eexists]).
Qed.

(** The key is on the stack, the table below it. *)
Lemma gettable_wp (k : key) l es st : holds l (of_key k :: DTable es :: st) ->
  wp (lua_gettable (-2)) (fun _ l' => holds l' (field k es :: DTable es :: st)) l.
Proof. intros Hl. by apply law_gettable. Qed.
Lemma key_pushed key l st : holds l st ->
  wp (LuaConfig.act (lua_pushstring key)) (fun _ l' => holds l' (of_key (KStr (c_str key)) :: st)) l.
Proof. apply law_pushstring. Qed.

Lemma get_string_reads key es st :
  reads (DTable es :: st) (LuaConfig.get_string key) (read_string (field (KStr (c_str key)) es)) (DTable es :: st).
Proof.
  intros l Hl. unfold LuaConfig.get_string. wp_step. eapply wp_mono; [by apply key_pushed |]. intros ? l1 H1.
  wp_step. eapply wp_mono; [exact (gettable_wp _ _ _ _ H1) |]. intros ? l2 H2. set (d := field _ es) in *. clearbody d.
  wp_steps. rewrite (law_isstring _ _ _ _ H2 (at_top _ _)).
  apply (wp_mono _ (fun r l' => r = read_string d /\ exists d', holds l' (d' :: DTable es :: st))).
  - destruct d eqn:Ed; cbv iota; try (split; [done | by eexists]);
      (wp_step; eapply wp_mono; [by apply tostring_top |]; intros r l3 [-> H3]; by split).
  - intros r l3 (-> & d' & H3). wp_step. eapply wp_mono; [by eapply act_pop |]. intros ? l4 H4. by wp_steps.
Qed.

Lemma get_int_reads key es st v : read_int (field (KStr (c_str key)) es) = Some v ->
  reads (DTable es :: st) (LuaConfig.get_int key) v (DTable es :: st).
Proof.
  intros Hv l Hl. unfold LuaConfig.get_int. wp_step. eapply wp_mono; [by apply key_pushed |]. intros ? l1 H1.
  wp_step. eapply wp_mono; [exact (gettable_wp _ _ _ _ H1) |]. intros ? l2 H2. set (d := field _ es) in *. clearbody d.
  wp_steps. rewrite (law_isinteger _ _ _ _ H2 (at_top _ _)), (law_isnumber _ _ _ _ H2 (at_top _ _)).
  apply (wp_mono _ (fun r l' => r = v /\ holds l' (d :: DTable es :: st))).
  - unfold read_int, read_number in Hv. destruct d eqn:Ed; cbv iota; try (by simplify_eq; wp_steps).
    + rewrite (law_tointeger _ _ _ _ H2 (at_top _ _)). by simplify_eq; wp_steps.
    + rewrite (law_tonumber _ _ _ _ x H2 (at_top _ _) eq_refl). destruct (double_to_int x) eqn:Ex; [| done].
      wp_step. eapply wp_of_outcome; [done |]. by simplify_eq; wp_steps.
    + destruct (numeral s) as [x|] eqn:Es; simpl in Hv; simplify_eq; [| by rewrite bool_decide_false by (by intros [])]. rewrite bool_decide_true by done. cbv iota.
      rewrite (law_tonumber _ _ _ _ x H2 (at_top _ _) Es). destruct (double_to_int x) eqn:Ex; [| done].
      wp_step. eapply wp_of_outcome; [done |]. by simplify_eq; wp_steps.
  - intros r l3 (-> & H3). wp_step. eapply wp_mono; [by eapply act_pop |]. intros ? l4 H4. by wp_steps.
Qed.

(** A missing field is popped: what is pushed is never nil. *)
Definition pushed (d : data) : list data := if is_nil d then [] else [d].

Lemma push_value_reads (k : key) es st : let d := field k es in
  reads (of_key k :: DTable es :: st) LuaConfig.push_value (negb (is_nil d)) (pushed d ++ DTable es :: st).
Proof.
  intros d l Hl. unfold LuaConfig.push_value. wp_step. eapply wp_mono; [exact (gettable_wp _ _ _ _ Hl) |]. intros ? l2 H2. fold d in H2.
  wp_steps. rewrite (law_isnil _ _ _ _ H2 (at_top _ _)). unfold pushed. destruct (is_nil d); cbn [negb when].
  - eapply wp_mono; [exact (act_pop _ _ _ H2) |]. intros ? l3 H3. by wp_steps.
  - by wp_steps.
Qed.

Lemma push_field_reads key es st : let d := field (KStr (c_str key)) es in
  reads (DTable es :: st) (LuaConfig.push_field key) (negb (is_nil d)) (pushed d ++ DTable es :: st).
Proof.
  intros d l Hl. unfold LuaConfig.push_field. wp_step. eapply wp_mono; [by apply key_pushed |]. intros ? l1 H1. by apply push_value_reads.
Qed.

Lemma push_index_reads i es st : let d := field (KInt i) es in
  reads (DTable es :: st) (LuaConfig.push_index i) (negb (is_nil d)) (pushed d ++ DTable es :: st).
Proof.
  intros d l Hl. unfold LuaConfig.push_index. wp_step.
  apply (wp_mono _ (fun _ l' => holds l' (of_key (KInt i) :: DTable es :: st))); [by apply law_pushinteger |].
  intros ? l1 H1. by apply push_value_reads.
Qed.

Lemma array_length_reads es st : sequence es = true ->
  reads (DTable es :: st) LuaConfig.array_length (u64 (len (elements es))) (DTable es :: st).
Proof.
  intros Hs l Hl. unfold LuaConfig.array_length. wp_step. eapply wp_mono; [by eapply law_len |]. intros n l' [-> Hl']. by wp_steps.
Qed.

Lemma peek_string_wp l d st : holds l (d :: st) ->
  wp (LuaConfig.peek_string (-1)) (fun r l' => r = default EmptyString (read_string d) /\ exists d', holds l' (d' :: st)) l.
Proof.
  intros Hl. unfold LuaConfig.peek_string. wp_steps. rewrite (law_isstring _ _ _ _ Hl (at_top _ _)).
  destruct d eqn:Ed; try (wp_steps; split; [done | by eexists]);
    (eapply wp_mono; [by apply tostring_top |]; intros r l' [E H']; rewrite <- E; by split).
Qed.
End laws.

(** ** Iteration, and what a client computes

    [sim st m n Q]: on a stack [st], the computation [m] over the interpreter and the
    caller's variables does to the variables what [n] does, which does not know the
    interpreter, with the same result or the same exception; when it returns, the stack
    satisfies [Q]. *)

(** [f] on each element in order *)
Fixpoint each {S B} (l : list B) (f : B -> M S unit) : M S unit :=
  match l with
  | [] => pure tt
  | x :: l => f x ;; each l f
  end.

Lemma each_map {S B C} (g : B -> C) (l : list B) (f : C -> M S unit) : each (map g l) f = each l (fun x => f (g x)).
Proof. induction l as [|x l IH]; [done |]. simpl. by rewrite IH. Qed.

Section simulation.
Context {L W : Type} `{LuaLaws L}.
Implicit Types (st : list data) (es : list (key * data)) (Q : list data -> Prop).

Definition sim {A} st (m : M (L * W) A) (n : M W A) Q : Prop :=
  forall l w, holds l st ->
    match m (l, w) with
    | (Ok a, (l', w')) => n w = (Ok a, w') /\ exists st', holds l' st' /\ Q st'
    | (Throw e, (_, w')) => n w = (Throw e, w')
    end.

Lemma sim_pure {A} st (a : A) Q : Q st -> sim st (pure a) (pure a) Q.
Proof. intros HQ l w Hl. split; [done | by exists st]. Qed.

Lemma sim_mono {A} st (m : M (L * W) A) n (P Q : list data -> Prop) : sim st m n P -> (forall s, P s -> Q s) -> sim st m n Q.
Proof.
  intros Hm HPQ l w Hl. specialize (Hm l w Hl). destruct (m (l, w)) as [[a|e] [l' w']]; [| done].
  destruct Hm as (E & s & Hs & HP). eauto.
Qed.

Lemma sim_caller {A} st (n : M W A) Q : Q st -> sim st (LuaConfig.caller n) n Q.
Proof. intros HQ l w Hl. unfold LuaConfig.caller. simpl. destruct (n w) as [[a|e] w']; [| done]. split; [done | by exists st]. Qed.

Lemma sim_bind {A B} st (m : M (L * W) A) (k : A -> M (L * W) B) n n' P Q :
  sim st m n P -> (forall a st', P st' -> sim st' (k a) (n' a) Q) -> sim st (bind m k) (bind n n') Q.
Proof.
  intros Hm Hk l w Hl. specialize (Hm l w Hl). unfold bind at 1. destruct (m (l, w)) as [[a|e] [l' w']].
  - destruct Hm as (E & s & Hs & HP). specialize (Hk a s HP l' w' Hs).
    assert (Eb : bind n n' w = n' a w') by (unfold bind; by rewrite E).
    destruct (k a (l', w')) as [[b|e] [l2 w2]]; by rewrite Eb.
  - unfold bind. by rewrite Hm.
Qed.

Lemma sim_wp {A B} st (m : M L A) (k : A -> M (L * W) B) n (R : A -> list data -> Prop) Q :
  (forall l, holds l st -> wp m (fun a l' => exists s, R a s /\ holds l' s) l) ->
  (forall a s, R a s -> sim s (k a) n Q) -> sim st (bind (LuaConfig.lua m) k) n Q.
Proof.
  intros Hm Hk l w Hl. specialize (Hm l Hl). unfold wpe in Hm. unfold bind, LuaConfig.lua. simpl.
  destruct (m l) as [[a|e] l']; [| done]. destruct Hm as (s & HR & Hs). by apply Hk with s.
Qed.

Lemma sim_reads {A B} st (m : M L A) v (k : A -> M (L * W) B) n st' Q :
  reads st m v st' -> sim st' (k v) n Q -> sim st (bind (LuaConfig.lua m) k) n Q.
Proof.
  intros Hm Hk. apply (sim_wp st m k n (fun a s => a = v /\ s = st')).
  - intros l Hl. eapply wp_mono; [by apply Hm |]. intros a l' [-> Hl']. by exists st'.
  - by intros a s [-> ->].
Qed.

Lemma sim_asks {A B} st (f : L -> A) v (k : A -> M (L * W) B) n Q :
  (forall l, holds l st -> f l = v) -> sim st (k v) n Q -> sim st (bind (asks (fun p => f p.1)) k) n Q.
Proof. intros Hf Hk l w Hl. unfold bind, asks. simpl fst. rewrite (Hf l Hl). by apply Hk. Qed.

Lemma sim_reads_last st (m : M L unit) st' Q : reads st m tt st' -> Q st' -> sim st (LuaConfig.lua m) (pure tt) Q.
Proof.
  intros Hm HQ l w Hl. specialize (Hm l Hl). unfold wpe in Hm. unfold LuaConfig.lua. simpl.
  destruct (m l) as [[[]|e] l']; [| done]. destruct Hm as [_ Hs]. split; [done | by exists st'].
Qed.

(** The code after a call that only works on the interpreter *)
Lemma bind_tt (n : M W unit) : forall w, bind n (fun _ => pure tt) w = n w.
Proof. intros w. unfold bind. by destruct (n w) as [[[]|e] w']. Qed.
Lemma sim_then st (m : M (L * W) unit) k (n : M W unit) P Q :
  sim st m n P -> (forall s, P s -> sim s k (pure tt) Q) -> sim st (m ;; k) n Q.
Proof.
  intros Hm Hk l w Hl. rewrite <- bind_tt. revert l w Hl. change (sim st (m ;; k) (n ;; pure tt) Q).
  apply sim_bind with P; [done |]. intros _ s. apply Hk.
Qed.

(** A callback may leave values above the element, and convert the element. *)
Definition left_over st (s : list data) : Prop := exists more d, s = more ++ d :: st.
Lemma left_over_nil d st : left_over st (d :: st).
Proof. by exists [], d. Qed.

Lemma balanced_sim d st (cb : M (L * W) unit) n : sim (d :: st) cb n (left_over st) ->
  sim (d :: st) (LuaConfig.balanced cb) n (fun s => exists d', s = d' :: st).
Proof.
  intros Hcb. unfold LuaConfig.balanced. apply sim_asks with (len (d :: st)); [intros l; apply law_gettop |].
  apply sim_then with (left_over st); [done |]. intros s (more & d' & ->).
  apply sim_asks with (len more + len (d :: st)); [intros l Hl; by rewrite (law_gettop _ _ Hl), len_app, !len_cons |].
  intros l w Hl. destruct (Z.ltb_spec (len (d :: st)) (len more + len (d :: st))) as [Hlt | Hge]; simpl.
  - split; [done |]. exists (d' :: st). split; [| by exists d']. replace (_ - _) with (len more) by lia. by apply law_pop.
  - assert (more = []) as -> by (apply len_nil_inv; pose proof (len_nonneg more); lia).
    split; [done |]. exists (d' :: st). split; [done | by exists d'].
Qed.

(** *** [for_each] *)

Lemma elements_from_field bound : forall i es k d, elements_from bound i es !! k = Some d -> field (KInt (i + Z.of_nat k)) es = d.
Proof.
  induction bound as [|bound IH]; intros i es k d; [done |]. cbn [elements_from]. destruct (is_nil _); [done |].
  destruct k as [|k]; cbn [lookup list_lookup].
  - intros [= <-]. by rewrite Z.add_0_r.
  - intros E. replace (i + Z.of_nat (S k)) with (i + 1 + Z.of_nat k) by lia. by apply IH.
Qed.

Lemma for_loop_sim es st (cb : Z -> M (L * W) unit) (f : data -> M W unit) rest : forall i,
  (forall k d, rest !! k = Some d -> field (KInt (i + Z.of_nat k)) es = d) ->
  (forall d j, d ∈ rest -> sim (d :: DTable es :: st) (cb j) (f d) (left_over (DTable es :: st))) ->
  sim (DTable es :: st) (LuaConfig.for_loop (len (DTable es :: st)) cb (length rest) i) (each rest f) (eq (DTable es :: st)).
Proof.
  induction rest as [|d rest IH]; intros i Hf Hcb; [by apply sim_pure |]. cbn [LuaConfig.for_loop length each].
  apply sim_reads with tt (d :: DTable es :: st).
  { intros l Hl. pose proof (Hf 0%nat d eq_refl) as Ed. rewrite Z.add_0_r in Ed. subst d.
    eapply wp_mono; [exact (law_geti _ _ _ i es Hl (at_base [] _ _)) |]. by intros [] l' Hl'. }
  apply sim_bind with (fun s => exists d', s = d' :: DTable es :: st).
  { apply balanced_sim. apply Hcb. by left. }
  intros _ s (d' & ->). apply sim_reads with tt (DTable es :: st); [apply pops |]. apply IH.
  - intros k x Ex. rewrite <- (Hf (S k) x Ex). f_equal. f_equal. lia.
  - intros x j Hx. apply Hcb. by right.
Qed.

Lemma for_each_sim es st (cb : Z -> M (L * W) unit) (f : data -> M W unit) :
  sequence es = true -> len (elements es) < 2 ^ 31 ->
  (forall d j, d ∈ elements es -> sim (d :: DTable es :: st) (cb j) (f d) (left_over (DTable es :: st))) ->
  sim (DTable es :: st) (LuaConfig.for_each cb) (each (elements es) f) (eq (DTable es :: st)).
Proof.
  intros Hs Hn Hcb. unfold LuaConfig.for_each. apply sim_asks with (len (DTable es :: st)).
  { intros l Hl. rewrite (law_absindex _ _ (-1) Hl) by (rewrite len_cons; pose proof (len_nonneg st); lia). lia. }
  apply sim_reads with (len (elements es)) (DTable es :: st).
  { intros l Hl. exact (law_len _ _ _ es Hl (at_base [] _ _) Hs). }
  replace (Z.to_nat (i32 (len (elements es)))) with (length (elements es)) by (pose proof (len_nonneg (elements es)); unfold len in *; solve_wrap).
  apply for_loop_sim; [| done]. intros k d. apply elements_from_field.
Qed.

(** *** [for_each_pair] *)

Lemma after_app pre k d rest : NoDup (pre ++ (k, d) :: rest).*1 -> after k (pre ++ (k, d) :: rest) = Some rest.
Proof.
  induction pre as [|[k' d'] pre IH]; simpl; intros Hn.
  - by rewrite bool_decide_true.
  - apply list.NoDup_cons in Hn as [Hk Hn]. rewrite bool_decide_false; [by apply IH |]. intros <-. apply Hk.
    rewrite fmap_app, elem_of_app. right. by left.
Qed.

(** The key below the value *)
Lemma next_reads es st k k' d rest : following k es = Some ((k', d) :: rest) ->
  reads (k :: DTable es :: st) (lua_next (len (DTable es :: st))) true (d :: of_key k' :: DTable es :: st).
Proof.
  intros E l Hl. pose proof (law_next l _ _ k es Hl (at_base [k] _ _)) as Hn. by rewrite E in Hn.
Qed.

Lemma next_loop_sim es st (cb : string -> M (L * W) unit) (f : key * data -> M W unit) :
  NoDup es.*1 ->
  (forall (k : key) (d : data), (k, d) ∈ es -> exists s, k = KStr s /\ sim (d :: DStr s :: DTable es :: st) (cb (c_str s)) (f (k, d)) (left_over (DStr s :: DTable es :: st))) ->
  forall rest fuel pre k, es = pre ++ rest -> following k es = Some rest -> (length rest < fuel)%nat ->
  sim (k :: DTable es :: st) (LuaConfig.next_loop fuel (len (DTable es :: st)) cb) (each rest f) (eq (DTable es :: st)).
Proof.
  intros Hnd Hcb rest. induction rest as [|[k' d] rest IH]; intros fuel pre k Ees Ek Hfuel;
    (destruct fuel as [|fuel]; [simpl in Hfuel; lia |]); cbn [LuaConfig.next_loop each].
  { apply sim_reads with false (DTable es :: st); [| by apply sim_pure].
    intros l Hl. pose proof (law_next l _ _ k es Hl (at_base [k] _ _)) as Hn. by rewrite Ek in Hn. }
  apply sim_reads with true (d :: of_key k' :: DTable es :: st); [by eapply next_reads |]. cbn [negb].
  destruct (Hcb k' d) as (s & -> & Hs); [rewrite Ees, elem_of_app; right; by left |].
  apply sim_reads with (Some s) (d :: DStr s :: DTable es :: st).
  { intros l Hl. exact (law_tostring l [d] (DStr s) _ Hl). }
  apply sim_bind with (fun st' => exists d', st' = d' :: DStr s :: DTable es :: st); [by apply balanced_sim |].
  intros _ st' (d' & ->). apply sim_reads with tt (DStr s :: DTable es :: st); [apply pops |].
  apply IH with (pre ++ [(KStr s, d)]); [by rewrite <- app_assoc | | simpl in Hfuel; lia].
  simpl. rewrite Ees. apply after_app. by rewrite <- Ees.
Qed.

Lemma for_each_pair_sim es st fuel (cb : string -> M (L * W) unit) (f : key * data -> M W unit) :
  NoDup es.*1 -> (length es < fuel)%nat ->
  (forall (k : key) (d : data), (k, d) ∈ es -> exists s, k = KStr s /\ sim (d :: DStr s :: DTable es :: st) (cb (c_str s)) (f (k, d)) (left_over (DStr s :: DTable es :: st))) ->
  sim (DTable es :: st) (LuaConfig.for_each_pair fuel cb) (each es f) (eq (DTable es :: st)).
Proof.
  intros Hnd Hfuel Hcb. unfold LuaConfig.for_each_pair. apply sim_asks with (len (DTable es :: st)).
  { intros l Hl. rewrite (law_absindex _ _ (-1) Hl) by (rewrite len_cons; pose proof (len_nonneg st); lia). lia. }
  apply sim_reads with tt (DNil :: DTable es :: st).
  { intros l Hl. split; [done |]. by apply law_pushnil. }
  by apply next_loop_sim with [].
Qed.
End simulation.

(** *** A key that is a number

    [lua_tostring] converts the key on the stack, which then is no key of the table: the next
    [lua_next] fails, and the error is not caught. *)

Lemma stops_bind {S A B} (m : M S A) (k : A -> M S B) s : wp m (fun a s' => stops (k a) s') s -> stops (bind m k) s.
Proof. unfold wpe, stops, bind. by destruct (m s) as [[a|e] s']. Qed.
Lemma stops_now {S A B} (m : M S A) (k : A -> M S B) s : stops m s -> stops (bind m k) s.
Proof. unfold stops, bind. by destruct (m s) as [[a|e] s']. Qed.

Section number_key.
Context {L W : Type} `{LuaLaws L}.

Lemma wp_lua {A} (m : M L A) Q E l (w : W) : wpe m (fun a l' => Q a (l', w)) (fun e l' => E e (l', w)) l -> wpe (LuaConfig.lua m) Q E (l, w).
Proof. unfold wpe, LuaConfig.lua. simpl. by destruct (m l) as [[a|e] l']. Qed.

Lemma balanced_wp d st cb l (w : W) : holds l (d :: st) ->
  wp cb (fun _ p => exists s, holds p.1 s /\ left_over st s) (l, w) ->
  wp (LuaConfig.balanced cb) (fun _ p => exists d', holds p.1 (d' :: st)) (l, w).
Proof.
  intros Hl Hcb. unfold LuaConfig.balanced. wp_steps. eapply wp_mono; [exact Hcb |]. intros [] [l' w'] (s & Hs & more & d' & ->).
  simpl fst in Hs. wp_steps. simpl fst. rewrite (law_gettop _ _ Hl), (law_gettop _ _ Hs).
  assert (El : len (more ++ d' :: st) = len more + len (d :: st)) by by rewrite len_app, !len_cons. rewrite El.
  destruct (Z.ltb_spec (len (d :: st)) (len more + len (d :: st))) as [Hlt | Hge]; cbn [when].
  - apply wp_lua. exists d'. simpl. replace (_ - _) with (len more) by lia. by apply law_pop.
  - assert (more = []) as -> by (apply len_nil_inv; pose proof (len_nonneg more); lia). by exists d'.
Qed.

Lemma for_each_pair_number_key fuel (cb : string -> M (L * W) unit) i d es st l w :
  let t := DTable ((KInt i, d) :: es) in
  let key := number_text (DInt i) in
  holds l (t :: st) -> KStr key ∉ es.*1 -> (2 <= fuel)%nat ->
  (forall l', holds l' (d :: DStr key :: t :: st) ->
     wp (cb (c_str key)) (fun _ p => exists s, holds p.1 s /\ left_over (DStr key :: t :: st) s) (l', w)) ->
  stops (LuaConfig.for_each_pair fuel cb) (l, w).
Proof.
  intros t key Hl Hkey Hfuel Hcb. unfold LuaConfig.for_each_pair. apply stops_bind. wp_steps. simpl fst.
  rewrite (law_absindex _ _ (-1) Hl) by (rewrite len_cons; pose proof (len_nonneg st); lia).
  replace (len (t :: st) + -1 + 1) with (len (t :: st)) by lia.
  destruct fuel as [|[|fuel]]; [lia | lia |]. apply stops_bind, wp_lua.
  apply (wp_mono _ (fun _ l1 => holds l1 (DNil :: t :: st))); [by apply law_pushnil |]. intros _ l1 H1.
  cbn [LuaConfig.next_loop]. apply stops_bind, wp_lua.
  eapply wp_mono; [exact (next_reads ((KInt i, d) :: es) st DNil (KInt i) d es eq_refl l1 H1) |].
  intros more l2 [-> H2]. cbn [negb]. apply stops_bind, wp_lua.
  eapply wp_mono; [exact (law_tostring l2 [d] (DInt i) _ H2) |]. intros r l3 [-> H3]. fold key in H3 |- *.
  apply stops_bind. eapply wp_mono; [by eapply (balanced_wp d); [| apply Hcb] |]. intros _ [l4 w4] (d' & H4).
  apply stops_bind, wp_lua. eapply wp_mono; [exact (act_pop l4 d' _ H4) |]. intros ? l5 H5.
  cbn [LuaConfig.next_loop]. apply stops_now. unfold stops, LuaConfig.lua. simpl fst.
  pose proof (law_next l5 _ _ (DStr key) ((KInt i, d) :: es) H5 (at_base [_] _ _)) as Hn.
  assert (Ea : forall es', KStr key ∉ es'.*1 -> after (KStr key) es' = None).
  { clear. induction es' as [|[k' x] es' IH]; [done |]. simpl. rewrite elem_of_cons. intros Hn. rewrite bool_decide_false by tauto. by apply IH; tauto. }
  cbn [following after] in Hn. rewrite bool_decide_false, Ea in Hn by done. unfold stops in Hn.
  change (len (DTable ((KInt i, d) :: es) :: st)) with (len (t :: st)) in Hn.
  by destruct (lua_next (len (t :: st)) l5) as [[b|e] l6].
Qed.
End number_key.

(** ** An interpreter for plain data

    Its state is its stack; [scripts] are the files, each the value its script returns.  A
    float is never written as text, and only decimal digits are read as a number. *)

Module DataLua.
Definition abort {S A} : M S A := throw (Program_exit 134).
Definition position (st : list data) (idx : Z) : Z := if 0 <? idx then len st - idx else - idx - 1.
Definition int_text (i : Z) : string := if i <? 0 then "-" +:+ std_to_string (- i) else std_to_string i.
Definition number_text (d : data) : string := match d with DInt i => int_text i | _ => "(float)" end.
Definition numeral (s : string) : option spec_float :=
  (fun n => match n with Zpos p => S754_finite false p 0 | _ => S754_zero false end) <$> dec_value s.
Definition nth (st : list data) (idx : Z) : data := default DNil (at_index st idx).
Definition index (d k : data) : outcome data :=
  match d, k with
  | DTable es, DInt i => Ok (field (KInt i) es)
  | DTable es, DStr s => Ok (field (KStr s) es)
  | DTable _, _ | DStr _, _ => Ok DNil
  | _, _ => Throw (Program_exit 134)
  end.

Definition data_lua (scripts : string -> option data) : Lua (list data) := {|
  luaL_newstate := Some [];
  luaL_openlibs := id;
  luaL_dofile filename st :=
    match scripts filename with
    | Some d => (LUA_OK, d :: st)
    | None => (1, DStr ("cannot open " +:+ filename) :: st)
    end;
  lua_gettop := len;
  lua_absindex i st := if 0 <? i then i else len st + i + 1;
  lua_pushstring s st := DStr (c_str s) :: st;
  lua_pushinteger i st := DInt i :: st;
  lua_pushnil st := DNil :: st;
  lua_pop n st := zdrop n st;
  lua_isnil i st := is_nil (nth st i);
  lua_istable i st := is_table (nth st i);
  lua_isinteger i st := match nth st i with DInt _ => true | _ => false end;
  lua_isnumber i st := match nth st i with DInt _ | DFloat _ => true | DStr s => bool_decide (is_Some (numeral s)) | _ => false end;
  lua_isstring i st := match nth st i with DInt _ | DFloat _ | DStr _ => true | _ => false end;
  lua_tointeger i st := match nth st i with DInt n => n | _ => 0 end;
  lua_tonumber i st :=
    default (S754_zero false) match nth st i with DFloat x => Some x | DStr s => numeral s | _ => None end;
  lua_tostring i st :=
    match nth st i with
    | DStr s => (Ok (Some s), st)
    | DInt _ | DFloat _ => (Ok (Some (number_text (nth st i))), zinsert (position st i) (DStr (number_text (nth st i))) st)
    | _ => (Ok None, st)
    end;
  lua_gettable i st :=
    match st with
    | k :: rest => match index (nth st i) k with Ok v => (Ok tt, v :: rest) | Throw e => (Throw e, st) end
    | [] => abort st
    end;
  lua_geti i n st := match index (nth st i) (DInt n) with Ok v => (Ok tt, v :: st) | Throw e => (Throw e, st) end;
  luaL_len i st :=
    match nth st i with
    | DTable es => (Ok (len (elements es)), st)
    | DStr s => (Ok (Z.of_nat (String.length s)), st)
    | _ => abort st
    end;
  lua_next i st :=
    match st, nth st i with
    | k :: rest, DTable es =>
        match following k es with
        | Some ((k', d) :: _) => (Ok true, d :: of_key k' :: rest)
        | Some [] => (Ok false, rest)
        | None => abort st
        end
    | _, _ => abort st
    end
|}.

Lemma nth_at st i d : at_index st i = Some d -> nth st i = d.
Proof. unfold nth. by intros ->. Qed.

Lemma nth_middle top d st : nth (top ++ d :: st) (- len top - 1) = d.
Proof.
  unfold nth, at_index. pose proof (len_nonneg top). rewrite (proj2 (Z.ltb_ge 0 _)) by lia. rewrite zlookup_app_r by lia.
  replace (_ - _ - _) with 0 by lia. by rewrite zlookup_cons_0.
Qed.

Lemma insert_middle top d d' st : zinsert (position (top ++ d :: st) (- len top - 1)) d' (top ++ d :: st) = top ++ d' :: st.
Proof.
  unfold position, zinsert. pose proof (len_nonneg top). rewrite (proj2 (Z.ltb_ge 0 _)) by lia.
  replace (Z.to_nat _) with (length top + 0)%nat by (unfold len in *; lia). by rewrite insert_app_r.
Qed.

Definition data_laws (scripts : string -> option data) : @LuaLaws (list data) (data_lua scripts).
Proof.
  unshelve eapply (@Build_LuaLaws _ (data_lua scripts) eq number_text numeral);
    intros; subst; cbn [lua_gettop lua_absindex lua_pushstring lua_pushinteger lua_pushnil lua_pop lua_isnil lua_istable
      lua_isinteger lua_isnumber lua_isstring lua_tointeger lua_tonumber lua_tostring lua_gettable lua_geti luaL_len lua_next data_lua];
    unfold wpe, stops; repeat match goal with E : at_index _ _ = Some _ |- _ => rewrite (nth_at _ _ _ E); clear E end; try done.
  - by rewrite (proj2 (Z.ltb_ge 0 _)) by lia.
  - rewrite zdrop_app_ge, Z.sub_diag by lia. by rewrite zdrop_nonpos by lia.
  - match goal with E : _ = Some ?x |- _ => by rewrite E end.
  - rewrite !nth_middle. destruct d; try done; by rewrite insert_middle.
  - by destruct k.
  - by destruct d.
  - by destruct d.
  - destruct (following k es) as [[|[k' d] rest]|]; done.
Defined.
End DataLua.
