(* ===== verification/network_simulator.v ===== *)
(** * apps/network_simulator: hosts around a router

    The simulator that drives [Router] and [AsyncNetworkInterface]: hosts with
    expectations, physical links that exchange Ethernet frames, the built-in topology
    with its script of tests, and the topology and the tests from the fields of a Lua
    table ([lua_network] reads the fields from the interpreter).

    [rd], the global generator, is a field of the network.  What is printed is not
    modelled, nor is the text of a datagram in an error message. *)

From S2P Require Import prelude buffer parser wire_format ethernet arp_message ipv4 icmp_message address network_interface router fd_adapter lua_config.

#[global] Instance set_fst {A B} : Setter (@fst A B) := fun f p => (f p.1, p.2).
#[global] Instance set_snd {A B} : Setter (@snd A B) := fun f p => (p.1, f p.2).

Section random.
Context {G : Type} `{Rng G}.

(** [rd()], a [uint32_t] *)
Definition draw : M G Z := fun g => let '(x, g) := next g in (Ok (u32 x), g).

(** [for (auto &byte : addr) { byte = rd(); }] *)
Fixpoint random_bytes (n : nat) : M G (list Z) :=
  match n with
  | O => pure []
  | S n => let* b := draw in let* bs := random_bytes n in pure (u8 b :: bs)
  end.

Definition random_host_ethernet_address : M G EthernetAddress :=
  let* addr := random_bytes 6 in
  match addr with
  | b0 :: rest => pure (Z.land (Z.lor b0 0x02) 0xfe :: rest)
  | [] => throw (Out_of_range "array::at")
  end.

Definition random_router_ethernet_address : M G EthernetAddress :=
  let* addr := random_bytes 6 in
  match addr with
  | _ :: _ :: _ :: rest => pure (0x02 :: 0 :: 0 :: rest)
  | _ => throw (Out_of_range "array::at")
  end.
End random.

Section names.
Context `{Address.Netdb}.
(** [Address{str}] *)
Definition address_of (str : string) : outcome Address.t := Address.of_ip_port str 0.
Definition ip (str : string) : outcome Z := a ← address_of str; Address.ipv4_numeric a.
End names.

(** [dgram.serialize().concatenate()] *)
Definition image (d : IPv4Datagram.t) : outcome (list byte) :=
  bl ← IPv4Datagram.serialize d; Ok (BufferList.concatenate bl).

(** ** Hosts *)

Module Host.
Record t : Type := mk {
  _name : string;
  _my_address : Address.t;
  _interface : AsyncNetworkInterface.t;
  _next_hop : Address.t;
  _expecting_to_receive : list IPv4Datagram.t
}.
Definition eta (h : t) : t := mk (_name h) (_my_address h) (_interface h) (_next_hop h) (_expecting_to_receive h).
#[global] Instance set_interface : Setter _interface := ltac:(derive_setter eta _interface).
#[global] Instance set_expecting : Setter _expecting_to_receive := ltac:(derive_setter eta _expecting_to_receive).

(** The constructor, with the address the interface drew. *)
Definition new (name : string) (my_address next_hop : Address.t) (ethernet_address : EthernetAddress) : t :=
  mk name my_address (AsyncNetworkInterface.of_interface (NetworkInterface.new ethernet_address my_address)) next_hop [].

Fixpoint expecting_in (l : list IPv4Datagram.t) (expected : IPv4Datagram.t) : outcome bool :=
  match l with
  | [] => Ok false
  | x :: l =>
      a ← image x;
      b ← image expected;
      if bool_decide (a = b) then Ok true else expecting_in l expected
  end.
Definition expecting (expected : IPv4Datagram.t) (h : t) : outcome bool := expecting_in (_expecting_to_receive h) expected.

Fixpoint remove_from (l : list IPv4Datagram.t) (expected : IPv4Datagram.t) : outcome (list IPv4Datagram.t) :=
  match l with
  | [] => Ok []
  | x :: l =>
      a ← image x;
      b ← image expected;
      if bool_decide (a = b) then Ok l else l' ← remove_from l expected; Ok (x :: l')
  end.
Definition remove_expectation (expected : IPv4Datagram.t) : M t unit :=
  let* l := asks _expecting_to_receive in
  let* l' := of_outcome (remove_from l expected) in
  _expecting_to_receive ::= l'.

(** The datagram [send_to] makes; [x] is what [rd()] returned. *)
Definition payload_text (x : Z) : list byte :=
  String.list_byte_of_string ("random payload: {" +:+ std_to_string x +:+ "}").
Definition make_datagram (src dst ttl x : Z) : IPv4Datagram.t :=
  let h := setf IPv4Header.dst dst (setf IPv4Header.src src IPv4Header.default) in
  let payload := BufferList.of_string (payload_text x) in
  let h := setf IPv4Header.len (u16 (IPv4Header.hlen h * 4 + BufferList.size payload)) h in
  IPv4Datagram.mk (setf IPv4Header.ttl ttl h) payload.

(** It draws from the global generator, the first component. *)
Definition send_to {G} `{Rng G} `{Address.Netdb} (destination : Address.t) (ttl : Z) : M (G * t) IPv4Datagram.t :=
  let* me := asks (fun p => _my_address p.2) in
  let* src := of_outcome (Address.ipv4_numeric me) in
  let* dst := of_outcome (Address.ipv4_numeric destination) in
  let* x := zoom fst draw in
  let dgram := make_datagram src dst ttl x in
  let* next_hop := asks (fun p => _next_hop p.2) in
  zoom snd (zoom _interface (AsyncNetworkInterface.send_datagram dgram next_hop)) ;;
  let* _ := of_outcome (Address.ip next_hop) in
  pure dgram.

Definition address (h : t) : Address.t := _my_address h.
Definition interface (h : t) : AsyncNetworkInterface.t := _interface h.
Definition expect (expected : IPv4Datagram.t) : M t unit := _expecting_to_receive %= (fun l => l ++ [expected]).
Definition name (h : t) : string := _name h.

Definition unexpected (name : string) : exn := Runtime_error ("Host " +:+ name +:+ " received unexpected Internet datagram").
Definition missing (name : string) : exn := Runtime_error ("Host " +:+ name +:+ " did NOT receive an expected Internet datagram").

(** The loop of [check] over the queue of received datagrams. *)
Fixpoint check_loop (q : list IPv4Datagram.t) : M t unit :=
  match q with
  | [] => pure tt
  | dgram_received :: q =>
      let* h := get in
      let* ok := of_outcome (expecting dgram_received h) in
      if negb ok then throw (unexpected (_name h))
      else
        remove_expectation dgram_received ;;
        zoom _interface (AsyncNetworkInterface._datagrams_out ::= q) ;;
        check_loop q
  end.

Definition check : M t unit :=
  let* q := asks (fun h => AsyncNetworkInterface.datagrams_out (_interface h)) in
  check_loop q ;;
  let* h := get in
  match _expecting_to_receive h with
  | [] => pure tt
  | _ :: _ => throw (missing (_name h))
  end.
End Host.

(** ** Physical links *)

Notation interface := AsyncNetworkInterface.t.

Definition frames_of (a : interface) : list EthernetFrame.t := NetworkInterface.frames_out (AsyncNetworkInterface.base a).

(** [deliver]: every frame, its payload in one buffer. *)
Fixpoint deliver (src : list EthernetFrame.t) : M interface unit :=
  match src with
  | [] => pure tt
  | frame :: src =>
      let frame := EthernetFrame.mk (EthernetFrame.header frame)
        (BufferList.of_string (BufferList.concatenate (EthernetFrame.payload frame))) in
      AsyncNetworkInterface.recv_frame frame ;;
      deliver src
  end.

(** [clear(queue1, queue2)]: [queue1] is emptied, and as many are taken from [queue2];
    [pop] of an empty queue is undefined. *)
Fixpoint clear {A} (queue1 queue2 : list A) : outcome (list A) :=
  match queue1, queue2 with
  | [], _ => Ok queue2
  | _ :: queue1, _ :: queue2 => clear queue1 queue2
  | _ :: _, [] => Throw UndefinedBehavior
  end.

Definition clear_frames (frames : list EthernetFrame.t) : M interface unit :=
  let* q := asks frames_of in
  let* q' := of_outcome (clear frames q) in
  zoom AsyncNetworkInterface.base (NetworkInterface._frames_out ::= q').

Definition exchange_frames : M (interface * interface) unit :=
  let* x_frames := asks (fun p => frames_of p.1) in
  let* y_frames := asks (fun p => frames_of p.2) in
  zoom snd (deliver x_frames) ;;
  zoom fst (deliver y_frames) ;;
  zoom fst (clear_frames x_frames) ;;
  zoom snd (clear_frames y_frames).

Definition exchange_frames3 : M (interface * interface * interface) unit :=
  let* x_frames := asks (fun p => frames_of p.1.1) in
  let* y_frames := asks (fun p => frames_of p.1.2) in
  let* z_frames := asks (fun p => frames_of p.2) in
  zoom fst (zoom snd (deliver x_frames)) ;;
  zoom snd (deliver x_frames) ;;
  zoom fst (zoom fst (deliver y_frames)) ;;
  zoom snd (deliver y_frames) ;;
  zoom fst (zoom fst (deliver z_frames)) ;;
  zoom fst (zoom snd (deliver z_frames)) ;;
  zoom fst (zoom fst (clear_frames x_frames)) ;;
  zoom fst (zoom snd (clear_frames y_frames)) ;;
  zoom snd (clear_frames z_frames).

(** ** The network *)

Module Network.
Section network.
Context {G : Type} `{Rng G} `{Address.Netdb}.

Record t : Type := mk {
  rd : G;
  _router : Router.t;
  ids : list Z;                       (** [default_id] to [mit5_id], in their order *)
  _interface_ids : gmap string Z;
  _connections : list (string * string);   (** [iface_name], [host_name] *)
  _hosts : gmap string Host.t
}.
Definition eta (n : t) : t := mk (rd n) (_router n) (ids n) (_interface_ids n) (_connections n) (_hosts n).
#[global] Instance set_rd : Setter rd := ltac:(derive_setter eta rd).
#[global] Instance set_router : Setter _router := ltac:(derive_setter eta _router).
#[global] Instance set_ids : Setter ids := ltac:(derive_setter eta ids).
#[global] Instance set_interface_ids : Setter _interface_ids := ltac:(derive_setter eta _interface_ids).
#[global] Instance set_connections : Setter _connections := ltac:(derive_setter eta _connections).
#[global] Instance set_hosts : Setter _hosts := ltac:(derive_setter eta _hosts).

Definition empty (g : G) : t := mk g Router.new [] ∅ [] ∅.

(** The name of a host, or an exception. *)
Definition host (name : string) : M t Host.t :=
  let* hosts := asks _hosts in
  match hosts !! name with
  | None => throw (Runtime_error ("unknown host: " +:+ name))
  | Some h =>
      if negb (String.eqb (Host.name h) name) then throw (Runtime_error ("invalid host: " +:+ name)) else pure h
  end.

(** A member function of [host(name)]. *)
Definition at_host {B} (name : string) (m : M Host.t B) : M t B :=
  let* h := host name in
  let '(o, h') := m h in
  _hosts %= <[name := h']> ;;
  of_outcome o.

Definition host_exists (name : string) (n : t) : bool := bool_decide (is_Some (_hosts n !! name)).

(** [_router.add_interface({random_router_ethernet_address(), {str}})] *)
Definition add_interface (str : string) : M t Z :=
  let* mac := zoom rd random_router_ethernet_address in
  let* a := of_outcome (address_of str) in
  zoom _router (Router.add_interface (AsyncNetworkInterface.of_interface (NetworkInterface.new mac a))).

(** [_hosts.insert({name, {name, {my}, {hop}}})]: an existing host stays. *)
Definition add_host (name my hop : string) : M t unit :=
  let* my := of_outcome (address_of my) in
  let* hop := of_outcome (address_of hop) in
  let* mac := zoom rd random_host_ethernet_address in
  _hosts %= (fun hosts => if decide (is_Some (hosts !! name)) then hosts else <[name := Host.new name my hop mac]> hosts).

Definition add_route (prefix : string) (len : Z) (next_hop : option Address.t) (id : Z) : M t unit :=
  let* prefix := of_outcome (ip prefix) in
  zoom _router (Router.add_route prefix len next_hop id).

Definition host_address (name : string) : M t (option Address.t) :=
  let* h := host name in pure (Some (Host.address h)).

(** The built-in topology. *)
Definition build : M t unit :=
  let* default_id := add_interface "171.67.76.46" in
  let* eth0_id := add_interface "10.0.0.1" in
  let* eth1_id := add_interface "172.16.0.1" in
  let* eth2_id := add_interface "192.168.0.1" in
  let* uun3_id := add_interface "198.178.229.1" in
  let* hs4_id := add_interface "143.195.0.2" in
  let* mit5_id := add_interface "128.30.76.255" in
  ids ::= [default_id; eth0_id; eth1_id; eth2_id; uun3_id; hs4_id; mit5_id] ;;
  add_host "applesauce" "10.0.0.2" "10.0.0.1" ;;
  add_host "default_router" "171.67.76.1" "0" ;;
  add_host "cherrypie" "192.168.0.2" "192.168.0.1" ;;
  add_host "hs_router" "143.195.0.1" "0" ;;
  add_host "dm42" "198.178.229.42" "198.178.229.1" ;;
  add_host "dm43" "198.178.229.43" "198.178.229.1" ;;
  let* default_router := host_address "default_router" in
  let* hs_router := host_address "hs_router" in
  add_route "0.0.0.0" 0 default_router default_id ;;
  add_route "10.0.0.0" 8 None eth0_id ;;
  add_route "172.16.0.0" 16 None eth1_id ;;
  add_route "192.168.0.0" 24 None eth2_id ;;
  add_route "198.178.229.0" 24 None uun3_id ;;
  add_route "143.195.0.0" 17 hs_router hs4_id ;;
  add_route "143.195.128.0" 18 hs_router hs4_id ;;
  add_route "143.195.192.0" 19 hs_router hs4_id ;;
  let* mit := of_outcome (address_of "128.30.0.1") in
  add_route "128.30.76.255" 16 (Some mit) mit5_id.

(** [exchange_frames(..., _router.interface(id), ..., host(name).interface())]: the two
    objects are apart. *)
Definition link (id : Z) (name : string) : M t unit :=
  let* x := zoom _router (Router.at_interface id get) in
  let* y := host name in
  let '(o, (x', y')) := exchange_frames (x, Host.interface y) in
  zoom _router (Router.at_interface id (put x')) ;;
  _hosts %= <[name := setf Host._interface y' y]> ;;
  of_outcome o.

Definition link3 (id : Z) (y_name z_name : string) : M t unit :=
  let* x := zoom _router (Router.at_interface id get) in
  let* y := host y_name in
  let* z := host z_name in
  let '(o, (x', y', z')) := exchange_frames3 (x, Host.interface y, Host.interface z) in
  zoom _router (Router.at_interface id (put x')) ;;
  _hosts %= (fun m => <[z_name := setf Host._interface z' z]> (<[y_name := setf Host._interface y' y]> m)) ;;
  of_outcome o.

Fixpoint link_all (connections : list (string * string)) : M t unit :=
  match connections with
  | [] => pure tt
  | (iface_name, host_name) :: connections =>
      let* table := asks _interface_ids in
      let* iface_id := of_outcome (match table !! iface_name with Some i => Ok i | None => Throw (Out_of_range "_Map_base::at") end) in
      link iface_id host_name ;;
      link_all connections
  end.

Definition simulate_physical_connections : M t unit :=
  let* connections := asks _connections in
  match connections with
  | [] =>
      let* l := asks ids in
      let id (k : nat) := default 0 (l !! k) in
      link (id 0%nat) "default_router" ;;
      link (id 1%nat) "applesauce" ;;
      link (id 3%nat) "cherrypie" ;;
      link (id 5%nat) "hs_router" ;;
      link3 (id 4%nat) "dm42" "dm43"
  | _ :: _ => link_all connections
  end.

Fixpoint simulate_loop (rounds : nat) : M t unit :=
  match rounds with
  | O => pure tt
  | S rounds =>
      zoom _router Router.route ;;
      simulate_physical_connections ;;
      simulate_loop rounds
  end.

(** The hosts are checked in the order of the map. *)
Fixpoint check_all (hosts : list (string * Host.t)) : M t unit :=
  match hosts with
  | [] => pure tt
  | (name, h) :: hosts =>
      let '(o, h') := Host.check h in
      _hosts %= <[name := h']> ;;
      of_outcome o ;;
      check_all hosts
  end.

Definition simulate : M t unit :=
  simulate_loop 256 ;;
  let* hosts := asks _hosts in
  check_all (map_to_list hosts).

(** *** From a Lua table *)

(** An entry of a table has the fields that [get_string] and [get_int] find. *)
Record lua_route : Type := mk_route {
  r_prefix : option string; r_len : option Z; r_next_hop : option string; r_interface : option string
}.
Record lua_connection : Type := mk_connection {
  c_router : option string; c_host : option string; c_hosts : option (list string)
}.

Definition lua_interface (name ip_s : option string) : M t unit :=
  match name, ip_s with
  | Some name, Some ip_s => let* id := add_interface ip_s in _interface_ids %= <[name := id]>
  | _, _ => pure tt
  end.

Definition lua_host (name : string) (ip_s hop_s : option string) : M t unit :=
  match ip_s, hop_s with
  | Some ip_s, Some hop_s => add_host name ip_s hop_s
  | _, _ => pure tt
  end.

Definition lua_add_route (r : lua_route) : M t unit :=
  match r_prefix r, r_len r, r_interface r with
  | Some prefix_s, Some len_i, Some iface_s =>
      let* prefix := of_outcome (ip prefix_s) in
      let* table := asks _interface_ids in
      let* iface_id := of_outcome (match table !! iface_s with Some i => Ok i | None => Throw (Out_of_range "_Map_base::at") end) in
      let* n := get in
      let* next_hop :=
        (match r_next_hop r with
         | Some hop_s =>
             if negb (String.eqb hop_s EmptyString) && host_exists hop_s n then host_address hop_s
             else let* a := of_outcome (address_of hop_s) in pure (Some a)
         | None => pure None
         end) in
      zoom _router (Router.add_route prefix (u8 len_i) next_hop iface_id)
  | _, _, _ => pure tt
  end.

Definition lua_connect (c : lua_connection) : M t unit :=
  match c_router c, c_host c, c_hosts c with
  | Some iface_s, Some host_s, _ => _connections %= (fun l => l ++ [(iface_s, host_s)])
  | Some iface_s, None, Some hosts =>
      _connections %= (fun l => l ++ map (fun h => (iface_s, h)) (filter (fun h => h <> EmptyString) hosts))
  | _, _, _ => pure tt
  end.

Record lua_config : Type := mk_lua {
  l_interfaces : list (option string * option string);
  l_hosts : list (string * (option string * option string));
  l_routes : list lua_route;
  l_connections : list lua_connection
}.

Definition build_lua (c : lua_config) : M t unit :=
  each (l_interfaces c) (fun e => lua_interface e.1 e.2) ;;
  each (l_hosts c) (fun e => lua_host e.1 e.2.1 e.2.2) ;;
  each (l_routes c) lua_add_route ;;
  each (l_connections c) lua_connect.
End network.
Arguments t G : clear implicits.
End Network.

(** ** The tests *)

Section tests.
Context {G : Type} `{Rng G} `{Address.Netdb}.
Import Network.
Notation N := (Network.t G).

(** [network.host(from).send_to(destination, ttl)] *)
Definition send_to (from : string) (destination : Address.t) (ttl : Z) : M N IPv4Datagram.t :=
  let* h := host from in
  let* g := asks rd in
  let '(o, (g', h')) := Host.send_to destination ttl (g, h) in
  rd ::= g' ;;
  _hosts %= <[from := h']> ;;
  of_outcome o.

(** [dgram_sent.header().ttl--] *)
Definition decrement_ttl (d : IPv4Datagram.t) : IPv4Datagram.t :=
  upd IPv4Datagram._header (upd IPv4Header.ttl (fun n => u8 (n - 1))) d.

(** One test: [from] sends to [destination], [at] should get the datagram. *)
Definition test_delivery (from : string) (destination : Address.t) (at_ : string) : M N unit :=
  let* dgram_sent := send_to from destination 64 in
  at_host at_ (Host.expect (decrement_ttl dgram_sent)) ;;
  simulate.

Definition test_host (from to : string) : M N unit :=
  let* _ := host from in
  let* a := host to in
  test_delivery from (Host.address a) to.
Definition test_address (from to at_ : string) : M N unit :=
  let* _ := host from in
  let* a := of_outcome (address_of to) in
  test_delivery from a at_.
Definition test_expiry (from to : string) (ttl : Z) : M N unit :=
  let* _ := host from in
  let* a := of_outcome (address_of to) in
  let* _ := send_to from a ttl in
  simulate.

Definition network_simulator : M N unit :=
  build ;;
  test_host "applesauce" "cherrypie" ;;
  test_host "cherrypie" "applesauce" ;;
  test_address "applesauce" "1.2.3.4" "default_router" ;;
  test_address "applesauce" "143.195.131.17" "hs_router" ;;
  test_address "cherrypie" "143.195.193.52" "hs_router" ;;
  test_address "cherrypie" "143.195.223.255" "hs_router" ;;
  test_address "cherrypie" "143.195.224.0" "default_router" ;;
  test_host "dm42" "dm43" ;;
  test_expiry "applesauce" "1.2.3.4" 1 ;;
  test_expiry "applesauce" "1.2.3.4" 0.

(** A test of the Lua table. *)
Definition lua_test (from to : option string) (ttl_i : option Z) : M N unit :=
  match from, to with
  | Some from_s, Some to_s =>
      let ttl := match ttl_i with Some ttl => u8 ttl | None => 64 end in
      let* _ := host from_s in
      let* destination := of_outcome (address_of to_s) in
      let* dgram_sent := send_to from_s destination ttl in
      if match ttl_i with Some ttl => ttl <=? 1 | None => false end then simulate
      else
        let* n := get in
        when (host_exists to_s n) (at_host to_s (Host.expect (decrement_ttl dgram_sent))) ;;
        simulate
  | _, _ => pure tt
  end.
End tests.

(** ** What [check] decides *)

Definition images (l : list IPv4Datagram.t) (ims : list (list byte)) : Prop := Forall2 (fun d i => image d = Ok i) l ims.

Lemma expecting_in_eq l ims d i : images l ims -> image d = Ok i -> Host.expecting_in l d = Ok (bool_decide (i ∈ ims)).
Proof.
  intros Hl Hd. induction Hl as [|x a l ims Hx Hl IH]; [done |]. cbn [Host.expecting_in]. rewrite Hx, Hd. cbn [mbind outcome_bind].
  destruct (decide (a = i)) as [-> | Hne]; [by rewrite !bool_decide_true by (try done; apply elem_of_cons; by left) |].
  rewrite bool_decide_false, IH by done. f_equal. apply bool_decide_ext. rewrite elem_of_cons. intuition congruence.
Qed.

Lemma remove_from_eq l ims d i :
  images l ims -> image d = Ok i -> i ∈ ims ->
  exists l' ims', Host.remove_from l d = Ok l' /\ images l' ims' /\ ims ≡ₚ i :: ims'.
Proof.
  intros Hl Hd. induction Hl as [|x a l ims Hx Hl IH]; intros Hi; [by apply elem_of_nil in Hi |].
  cbn [Host.remove_from]. rewrite Hx, Hd. cbn [mbind outcome_bind]. case_bool_decide as Ea; [subst; by exists l, ims |].
  apply elem_of_cons in Hi as [-> | Hi]; [done |]. destruct (IH Hi) as (l' & ims' & -> & Hl' & Hp). cbn [mbind outcome_bind].
  exists (x :: l'), (a :: ims'). split; [done |]. split; [by constructor |]. rewrite Hp. apply Permutation_swap.
Qed.

Lemma check_loop_eq q : forall imgs h exps,
  images q imgs -> images (Host._expecting_to_receive h) exps ->
  (exists exps' h', exps ≡ₚ imgs ++ exps' /\ Host.check_loop q h = (Ok tt, h') /\
     images (Host._expecting_to_receive h') exps' /\ Host._name h' = Host._name h /\
     (AsyncNetworkInterface.datagrams_out (Host._interface h) = q -> AsyncNetworkInterface.datagrams_out (Host._interface h') = [])) \/
  ((forall exps', ~ exps ≡ₚ imgs ++ exps') /\ exists h', Host.check_loop q h = (Throw (Host.unexpected (Host._name h)), h')).
Proof.
  induction q as [|d q IH]; intros imgs h exps Hq Hexp; inversion Hq as [|? i ? ims Hd Hq']; subst; clear Hq.
  - left. by exists exps, h.
  - assert (Ee : Host.expecting d h = Ok (bool_decide (i ∈ exps))) by (by apply expecting_in_eq).
    destruct (decide (i ∈ exps)) as [Hi | Hi].
    + destruct (remove_from_eq _ _ _ _ Hexp Hd Hi) as (l' & ims' & Er & Hl' & Hp).
      set (h1 := upd Host._interface (setf AsyncNetworkInterface._datagrams_out q) (setf Host._expecting_to_receive l' h)).
      assert (Eq : Host.check_loop (d :: q) h = Host.check_loop q h1).
      { cbn [Host.check_loop]. unfold bind at 1, get. unfold bind at 1, of_outcome. rewrite Ee, bool_decide_true by done. cbn [negb].
        unfold Host.remove_expectation, bind, asks, of_outcome. rewrite Er. done. }
      rewrite Eq. destruct (IH ims h1 ims' Hq' Hl') as [(exps' & h' & Hp' & E & Hx & En & Hout) | [Hn [h' E]]].
      * left. exists exps', h'. split_and!; try done; [by rewrite Hp, Hp' | by intros; apply Hout].
      * right. split; [| by exists h']. intros exps' Hp2. apply (Hn exps'). apply (Permutation_cons_inv (a := i)).
        by rewrite <- Hp.
    + right. split.
      * intros exps' Hp. apply Hi. rewrite Hp. apply elem_of_cons. by left.
      * exists h. cbn [Host.check_loop]. unfold bind at 1, get. unfold bind at 1, of_outcome.
        by rewrite Ee, bool_decide_false by done.
Qed.

(** ** What a link does *)

(** [f] only ever gets longer. *)
Definition grows {S B A} (f : S -> list B) (m : M S A) : Prop := forall s, exists new, f (m s).2 = f s ++ new.

Lemma grows_bind {S B A C} (f : S -> list B) (m : M S A) (k : A -> M S C) :
  grows f m -> (forall a, grows f (k a)) -> grows f (bind m k).
Proof.
  intros Hm Hk s. unfold bind. destruct (Hm s) as [q1 E1]. destruct (m s) as [[a|e] s']; [| by exists q1].
  destruct (Hk a s') as [q2 E2]. exists (q1 ++ q2). simpl in *. by rewrite E2, E1, <- app_assoc.
Qed.

Lemma grows_keeps {S B A} (f : S -> list B) (m : M S A) : keeps f m -> grows f m.
Proof. intros Hm s. exists []. by rewrite app_nil_r. Qed.

Lemma send_grows dst type payload : grows NetworkInterface._frames_out (NetworkInterface._send dst type payload).
Proof. intros s. by eexists. Qed.

Lemma send_waiting_grows dst l : grows NetworkInterface._frames_out (NetworkInterface.send_waiting dst l).
Proof.
  induction l as [|[a d] l IH]; cbn [NetworkInterface.send_waiting]; [by apply grows_keeps |].
  apply grows_bind; [by apply grows_keeps |]. intros bl. apply grows_bind; [apply send_grows | done].
Qed.

Lemma recv_grows frame : grows NetworkInterface._frames_out (NetworkInterface.recv_frame frame).
Proof.
  unfold NetworkInterface.recv_frame.
  repeat lazymatch goal with
  | |- grows _ (bind _ _) => apply grows_bind; [| intros ?]
  | |- grows _ (match ?x with _ => _ end) => destruct x
  | |- grows _ (NetworkInterface.send_waiting _ _) => apply send_waiting_grows
  | |- grows _ (NetworkInterface._send _ _ _) => apply send_grows
  | |- grows _ (let _ := _ in _) => cbv zeta
  | |- grows _ _ => by apply grows_keeps
  end.
Qed.

Lemma deliver_grows fs : grows frames_of (deliver fs).
Proof.
  induction fs as [|fr fs IH]; cbn [deliver]; [by apply grows_keeps |]. cbv zeta. apply grows_bind; [| done].
  unfold AsyncNetworkInterface.recv_frame. apply grows_bind; [| intros [d|]; by apply grows_keeps].
  intros a. unfold zoom. destruct (recv_grows (EthernetFrame.mk (EthernetFrame.header fr)
    (BufferList.of_string (BufferList.concatenate (EthernetFrame.payload fr)))) (AsyncNetworkInterface.base a)) as [new E].
  exists new. by destruct (NetworkInterface.recv_frame _ _).
Qed.

Lemma clear_app {A} (q new : list A) : clear q (q ++ new) = Ok new.
Proof. by induction q. Qed.

Definition set_frames (q : list EthernetFrame.t) (a : interface) : interface :=
  upd AsyncNetworkInterface.base (setf NetworkInterface._frames_out q) a.

Lemma clear_frames_eq fs new a : frames_of a = fs ++ new -> clear_frames fs a = (Ok tt, set_frames new a).
Proof.
  intros E. apply wp_result. unfold clear_frames. wp_step. wp_step. rewrite E. wp_step.
  eapply wp_of_outcome; [apply clear_app |]. by wp_steps.
Qed.

(** ** Properties *)

(** A link carries every frame exactly once and loses none: each end receives, in
    order, the frames that the other had queued before the exchange, and what is
    queued afterwards is what the ends sent in answer; no frame is delivered again
    by the next exchange, and no queue is emptied too far. *)
Theorem exchange_delivers x y x1 y1 :
  deliver (frames_of x) y = (Ok tt, y1) -> deliver (frames_of y) x = (Ok tt, x1) ->
  exists new_x new_y,
    exchange_frames (x, y) = (Ok tt, (set_frames new_x x1, set_frames new_y y1)) /\
    frames_of x1 = frames_of x ++ new_x /\ frames_of y1 = frames_of y ++ new_y.
Proof.
  intros Ey Ex.
  destruct (deliver_grows (frames_of x) y) as [ny Eny]. rewrite Ey in Eny.
  destruct (deliver_grows (frames_of y) x) as [nx Enx]. rewrite Ex in Enx.
  exists nx, ny. split; [| done]. apply wp_result. unfold exchange_frames. do 4 wp_step.
  wp_step. wp_step. eapply wp_eq; [exact Ey |]. wp_step. wp_step. eapply wp_eq; [exact Ex |].
  wp_step. wp_step. eapply wp_eq; [by apply clear_frames_eq |]. wp_step. eapply wp_eq; [by apply clear_frames_eq |]. done.
Qed.

(** [check] is exact: it returns if and only if the datagrams a host received are,
    byte for byte and counted with their multiplicity, those it was told to expect;
    both lists are then used up.  Otherwise it throws one of its two errors. *)
Theorem check_decides h received expected :
  images (AsyncNetworkInterface.datagrams_out (Host._interface h)) received ->
  images (Host._expecting_to_receive h) expected ->
  (received ≡ₚ expected /\ exists h', Host.check h = (Ok tt, h') /\
     AsyncNetworkInterface.datagrams_out (Host._interface h') = [] /\ Host._expecting_to_receive h' = []) \/
  (~ received ≡ₚ expected /\ exists e h', Host.check h = (Throw e, h') /\
     (e = Host.unexpected (Host._name h) \/ e = Host.missing (Host._name h))).
Proof.
  intros Hr He. set (q := AsyncNetworkInterface.datagrams_out (Host._interface h)) in *.
  assert (Ec : forall o h', Host.check_loop q h = (o, h') -> Host.check h = match o, Host._expecting_to_receive h' with
    | Ok _, [] => (Ok tt, h')
    | Ok _, _ :: _ => (Throw (Host.missing (Host._name h')), h')
    | Throw e, _ => (Throw e, h')
    end).
  { intros o h' E. unfold Host.check, bind, asks, get. fold q. rewrite E. destruct o; [| done].
    by destruct (Host._expecting_to_receive h'). }
  destruct (check_loop_eq _ _ _ _ Hr He) as [(left & h' & Hp & E & Hl & En & Hout) | [Hn (h' & E)]]; rewrite (Ec _ _ E).
  - destruct (Host._expecting_to_receive h') as [|x l] eqn:El; inversion Hl; subst.
    + rewrite app_nil_r in Hp. left. split; [done |]. exists h'. split_and!; [done | by apply Hout | done].
    + right. split; [| exists (Host.missing (Host._name h')), h'; split; [done | right; by rewrite En]].
      intros Hp'. rewrite Hp' in Hp. apply Permutation_length in Hp. rewrite length_app in Hp. simpl in Hp. lia.
  - right. split; [| by eexists _, h'; split; [| left]]. intros Hp. apply (Hn []). by rewrite app_nil_r.
Qed.

(** The tables of a test that names its destination: the name is not looked up among the hosts. *)
Lemma lua_named_test {G} `{Rng G} `{Address.Netdb} from to ttl h (n : Network.t G) :
  Network._hosts n !! from = Some h -> Host.name h = from ->
  (Address.getaddrinfo to "0" Address.numeric_hints).1 <> 0 ->
  exists e, lua_test (Some from) (Some to) ttl n = (Throw e, n).
Proof.
  intros Eh En Hgai. unfold lua_test, bind at 1, Network.host, bind at 1, asks. rewrite Eh.
  rewrite En, String.eqb_refl. cbn [negb pure]. unfold bind at 1, of_outcome, address_of, Address.of_ip_port, Address.of_node.
  change (std_to_string 0) with "0". destruct (Address.getaddrinfo to "0" Address.numeric_hints) as [r l]. simpl in Hgai.
  apply Z.eqb_neq in Hgai. rewrite Hgai. by eexists.
Qed.

(** ** Runs *)

Section runs.
#[local] Existing Instance Address.numeric_netdb.
#[local] Instance lcg : Rng Z := fun g => let g' := (g * 1103515245 + 12345) mod 2 ^ 31 in (g', g').

(** The built-in script, all eleven tests of it, runs to its end. *)
Lemma simulator_succeeds : (network_simulator (Network.empty 1)).1 = Ok tt.
Proof. vm_compute. reflexivity. Qed.

(** etc/network.lua *)
Definition shipped : Network.lua_config :=
  let some (s : string) := Some s in
  let route prefix len hop iface := Network.mk_route (Some prefix) (Some len) hop (Some iface) in
  Network.mk_lua
    [(some "default", some "171.67.76.46"); (some "eth0", some "10.0.0.1"); (some "eth1", some "172.16.0.1");
     (some "eth2", some "192.168.0.1"); (some "uun3", some "198.178.229.1"); (some "hs4", some "143.195.0.2");
     (some "mit5", some "128.30.76.255")]
    [("applesauce", (some "10.0.0.2", some "10.0.0.1")); ("default_router", (some "171.67.76.1", some "0"));
     ("cherrypie", (some "192.168.0.2", some "192.168.0.1")); ("hs_router", (some "143.195.0.1", some "0"));
     ("dm42", (some "198.178.229.42", some "198.178.229.1")); ("dm43", (some "198.178.229.43", some "198.178.229.1"))]
    [route "0.0.0.0" 0 (Some "default_router") "default"; route "10.0.0.0" 8 None "eth0";
     route "172.16.0.0" 16 None "eth1"; route "192.168.0.0" 24 None "eth2"; route "198.178.229.0" 24 None "uun3";
     route "143.195.0.0" 17 (Some "hs_router") "hs4"; route "143.195.128.0" 18 (Some "hs_router") "hs4";
     route "143.195.192.0" 19 (Some "hs_router") "hs4"; route "128.30.76.255" 16 (Some "128.30.0.1") "mit5"]
    [Network.mk_connection (Some "default") (Some "default_router") None; Network.mk_connection (Some "eth0") (Some "applesauce") None;
     Network.mk_connection (Some "eth2") (Some "cherrypie") None; Network.mk_connection (Some "hs4") (Some "hs_router") None;
     Network.mk_connection (Some "uun3") None (Some ["dm42"; "dm43"])].

(** Of the shipped tests only the expiry test passes: a destination given by name is
    not a numeric address, and a datagram to the Internet is delivered to the default
    router, which was not told to expect it. *)
Lemma lua_tests_fail :
  let run from to ttl := (bind (Network.build_lua shipped) (fun _ => lua_test (Some from) (Some to) ttl) (Network.empty 1)).1 in
  run "applesauce" "cherrypie" None = Throw (Tagged_error "getaddrinfo(cherrypie, 0)" Address.EAI_NONAME) /\
  run "applesauce" "1.2.3.4" None = Throw (Host.unexpected "default_router") /\
  run "applesauce" "143.195.131.17" None = Throw (Host.unexpected "hs_router") /\
  run "applesauce" "1.2.3.4" (Some 1) = Ok tt.
Proof. vm_compute. auto. Qed.

(** Two hosts on one segment: each is a link of its own, the first link takes the
    router's frames, and the second host never hears of anything. *)
Lemma lua_segment_split :
  (bind (Network.build_lua shipped) (fun _ => test_host "dm42" "dm43") (Network.empty 1)).1 = Throw (Host.missing "dm43") /\
  (bind Network.build (fun _ => test_host "dm42" "dm43") (Network.empty 1)).1 = Ok tt.
Proof. vm_compute. auto. Qed.

(** *** Witnesses *)

(** A host that has just sent a datagram, with an ARP request in its queue, and the
    router's interface on the same link. *)
Definition sending_host : Host.t :=
  (Host.send_to (sample_address 0x01020304 0) 64
     (7, Host.new "a" (sample_address 0x0a000002 0) (sample_address 0x0a000001 0) [2; 1; 1; 1; 1; 1])).2.2.
Definition link_interface : interface :=
  AsyncNetworkInterface.of_interface (NetworkInterface.new [2; 0; 0; 1; 1; 1] (sample_address 0x0a000001 0)).

Lemma exchange_delivers_witness : exists new_x new_y x1 y1,
  exchange_frames (link_interface, Host._interface sending_host) =
    (Ok tt, (set_frames new_x x1, set_frames new_y y1)) /\ length new_x = 1%nat /\ new_y = [].
Proof.
  set (x1 := (deliver (frames_of (Host._interface sending_host)) link_interface).2).
  set (y1 := (deliver (frames_of link_interface) (Host._interface sending_host)).2).
  destruct (exchange_delivers link_interface (Host._interface sending_host) x1 y1) as (nx & ny & E & Ex & Ey).
  - vm_compute. reflexivity.
  - vm_compute. reflexivity.
  - exists nx, ny, x1, y1. split; [exact E |]. split.
    + apply (f_equal length) in Ex. rewrite length_app in Ex. vm_compute in Ex. symmetry. exact Ex.
    + apply (f_equal length) in Ey. rewrite length_app in Ey. destruct ny; [reflexivity | vm_compute in Ey; discriminate Ey].
Defined.

(** A host that received the two datagrams it expected, in the other order. *)
Definition datagram_n (n : Z) : IPv4Datagram.t := Host.make_datagram 0x0a000002 0x0a000001 64 n.
Definition image_n (n : Z) : list byte := match image (datagram_n n) with Ok i => i | Throw _ => [] end.
Definition checked_host : Host.t :=
  Host.mk "a" (sample_address 0x0a000001 0) (setf AsyncNetworkInterface._datagrams_out [datagram_n 1; datagram_n 2] link_interface)
    (sample_address 0 0) [datagram_n 2; datagram_n 1].

Lemma image_n_eq n : match image (datagram_n n) with Ok _ => true | Throw _ => false end = true ->
  image (datagram_n n) = Ok (image_n n).
Proof. unfold image_n. by destruct (image (datagram_n n)). Qed.

Lemma check_decides_witness : exists h', Host.check checked_host = (Ok tt, h') /\ Host._expecting_to_receive h' = [].
Proof.
  assert (E1 : image (datagram_n 1) = Ok (image_n 1)) by (apply image_n_eq; vm_compute; reflexivity).
  assert (E2 : image (datagram_n 2) = Ok (image_n 2)) by (apply image_n_eq; vm_compute; reflexivity).
  destruct (check_decides checked_host [image_n 1; image_n 2] [image_n 2; image_n 1]) as [(_ & h' & E & _ & He) | [Hn _]].
  - constructor; [exact E1 | constructor; [exact E2 | constructor]].
  - constructor; [exact E2 | constructor; [exact E1 | constructor]].
  - exists h'. split; [exact E | exact He].
  - exfalso. apply Hn. apply Permutation_swap.
Defined.
End runs.
