(* ===== verification/lua_network.v ===== *)
(** * apps/network_simulator with a Lua file

    The constructor of [Network] that reads a topology from the interpreter, the tests of
    [network_simulator_lua], and [main].  The state is the interpreter beside the network.

    [decode] and [decode_tests] are what a well-formed table means, in the terms of
    network_simulator.v; the constructor and the tests do on the interpreter what the decoded
    table says, with the same exceptions, and leave the stack as it was.  What is printed is
    not modelled. *)

From Corelib Require Import SpecFloat.
From S2P Require Import prelude address fd_adapter lua_config network_simulator.

Module LuaNetwork.
Section program.
Context {L : Type} `{Lua L} {G : Type} `{Rng G} `{Address.Netdb}.
Notation N := (Network.t G).
Notation St := (L * N)%type.
Notation lua m := (LuaConfig.lua m).

Definition pop : M St unit := lua (LuaConfig.act (lua_pop 1)).

(** A section of the topology: the field [key], when it is there *)
Definition in_section (key : string) (body : M St unit) : M St unit :=
  let* found := lua (LuaConfig.push_field key) in
  when found (
    body ;;
    pop).

Definition interface_entry : M St unit :=
  let* name := lua (LuaConfig.get_string "name") in
  let* ip_s := lua (LuaConfig.get_string "ip") in
  LuaConfig.caller (Network.lua_interface name ip_s).

Definition host_entry (host_name : string) : M St unit :=
  let* ip_s := lua (LuaConfig.get_string "ip") in
  let* hop_s := lua (LuaConfig.get_string "next_hop") in
  LuaConfig.caller (Network.lua_host host_name ip_s hop_s).

Definition route_entry : M St unit :=
  let* prefix_s := lua (LuaConfig.get_string "prefix") in
  let* len_i := lua (LuaConfig.get_int "len") in
  let* hop_s := lua (LuaConfig.get_string "next_hop") in
  let* iface_s := lua (LuaConfig.get_string "interface") in
  LuaConfig.caller (Network.lua_add_route (Network.mk_route prefix_s len_i hop_s iface_s)).

Definition connect (iface host : string) : M N unit := Network._connections %= (fun l => l ++ [(iface, host)]).

(** An element of a list of hosts *)
Definition segment_host (iface : string) : M St unit :=
  let* h := lua (LuaConfig.peek_string (-1)) in
  when (negb (String.eqb h EmptyString)) (LuaConfig.caller (connect iface h)).

Definition connection_entry : M St unit :=
  let* iface_s := lua (LuaConfig.get_string "router") in
  let* host_s := lua (LuaConfig.get_string "host") in
  match iface_s, host_s with
  | Some iface, Some host => LuaConfig.caller (connect iface host)
  | Some iface, None => in_section "hosts" (LuaConfig.for_each (fun _ => segment_host iface))
  | None, _ => pure tt
  end.

(** [Network(LuaConfig &)]; the table of hosts has fewer than [fuel] entries. *)
Definition construct (fuel : nat) : M St unit :=
  in_section "interfaces" (LuaConfig.for_each (fun _ => interface_entry)) ;;
  in_section "hosts" (LuaConfig.for_each_pair fuel host_entry) ;;
  in_section "routes" (LuaConfig.for_each (fun _ => route_entry)) ;;
  in_section "connections" (LuaConfig.for_each (fun _ => connection_entry)).

Definition test_entry : M St unit :=
  let* from_s := lua (LuaConfig.get_string "from") in
  let* to_s := lua (LuaConfig.get_string "to") in
  let* desc_s := lua (LuaConfig.get_string "desc") in
  let* ttl_i := lua (LuaConfig.get_int "ttl") in
  LuaConfig.caller (lua_test from_s to_s ttl_i).

(** [network_simulator_lua], after the file was loaded *)
Definition run (fuel : nat) : M St Z :=
  construct fuel ;;
  let* found := lua (LuaConfig.push_field "tests") in
  if negb found then pure 0
  else
    LuaConfig.for_each (fun _ => test_entry) ;;
    pop ;;
    pure 0.

(** The generator is global; the network and the interpreter are local variables. *)
Definition network_simulator_lua (fuel : nat) (filename : string) : M G Z :=
  let* config := of_outcome (LuaConfig.new filename) in
  let* l := or_ub (LuaConfig.state config) in
  let* g := get in
  let '(o, (_, network)) := run fuel (l, Network.empty g) in
  put (Network.rd network) ;;
  of_outcome o.

Definition simulator : M G unit :=
  let* g := get in
  let '(o, network) := network_simulator (Network.empty g) in
  put (Network.rd network) ;;
  of_outcome o.

(** The exit status *)
Definition main (fuel : nat) (argv : list string) : M G Z :=
  try_catch
    (match argv with
     | _ :: filename :: _ => network_simulator_lua fuel filename
     | _ => simulator ;; pure 0
     end)
    (fun _ => pure 1).
End program.
End LuaNetwork.

(** ** What a table means *)

Notation entries := (list (key * data)).

Section decoding.
Context {L : Type} `{LuaLaws L}.

Definition text (key : string) (es : entries) : option string := read_string (field (KStr key) es).

(** The elements of a sequence of tables *)
Definition as_table (d : data) : option entries := match d with DTable es => Some es | _ => None end.
Definition as_list (d : data) : option (list data) :=
  es ← as_table d;
  if sequence es && (len (elements es) <? 2 ^ 31) then Some (elements es) else None.

(** The entries of a section: none when the section is missing *)
Definition section {B} (key : string) (entry : entries -> option B) (es : entries) : option (list B) :=
  match field (KStr key) es with
  | DNil => Some []
  | d => l ← as_list d; mapM (fun d => es ← as_table d; entry es) l
  end.

Definition decode_interface (es : entries) : option (option string * option string) :=
  Some (text "name" es, text "ip" es).

Definition decode_host (e : key * data) : option (string * (option string * option string)) :=
  match e.1 with
  | KStr name => es ← as_table e.2; Some (c_str name, (text "ip" es, text "next_hop" es))
  | KInt _ => None
  end.
Definition decode_hosts (es : entries) : option (list (string * (option string * option string))) :=
  match field (KStr "hosts") es with
  | DNil => Some []
  | d => es ← as_table d; if decide (NoDup es.*1) then mapM decode_host es else None
  end.

Definition decode_route (es : entries) : option Network.lua_route :=
  len ← read_int (field (KStr "len") es);
  Some (Network.mk_route (text "prefix" es) len (text "next_hop" es) (text "interface" es)).

(** The list of hosts is read when there is no single host. *)
Definition decode_connection (es : entries) : option Network.lua_connection :=
  match text "router" es, text "host" es, field (KStr "hosts") es with
  | Some _, None, DNil => Some (Network.mk_connection (text "router" es) None None)
  | Some _, None, d =>
      l ← as_list d; Some (Network.mk_connection (text "router" es) None (Some (map (fun d => default EmptyString (read_string d)) l)))
  | _, _, _ => Some (Network.mk_connection (text "router" es) (text "host" es) None)
  end.

Definition decode (es : entries) : option Network.lua_config :=
  interfaces ← section "interfaces" decode_interface es;
  hosts ← decode_hosts es;
  routes ← section "routes" decode_route es;
  connections ← section "connections" decode_connection es;
  Some (Network.mk_lua interfaces hosts routes connections).

Definition decode_test (es : entries) : option (option string * option string * option Z) :=
  ttl ← read_int (field (KStr "ttl") es);
  Some (text "from" es, text "to" es, ttl).
Definition decode_tests (es : entries) : option (list (option string * option string * option Z)) :=
  section "tests" decode_test es.

(** A bound on the entries of the table of hosts *)
Definition host_count (es : entries) : nat := match field (KStr "hosts") es with DTable hosts => length hosts | _ => O end.
End decoding.

(** The program on a decoded table *)
Definition run_decoded {G} `{Rng G} `{Address.Netdb} (c : Network.lua_config)
    (tests : list (option string * option string * option Z)) : M (Network.t G) Z :=
  Network.build_lua c ;;
  each tests (fun t => lua_test t.1.1 t.1.2 t.2) ;;
  pure 0.

(** ** The program does what the table means *)

Lemma each_mapM {S B C} (g : B -> option C) (f : C -> M S unit) (ds : list B) : forall l, mapM g ds = Some l ->
  each ds (fun d => match g d with Some b => f b | None => pure tt end) = each l f.
Proof.
  induction ds as [|d ds IH]; intros l El.
  - by injection El as <-.
  - apply mapM_Some in El. inversion El as [|? b ? l' Eb El']; subst. cbn [each]. rewrite Eb, (IH l'); [done |]. by apply mapM_Some.
Qed.

Lemma mapM_each_Some {B C} (g : B -> option C) ds l d : mapM g ds = Some l -> d ∈ ds -> exists b, g d = Some b.
Proof.
  intros El (i & Hi)%list_elem_of_lookup. apply mapM_Some in El. destruct (Forall2_lookup_l _ _ _ _ _ El Hi) as (b & _ & Hb). by exists b.
Qed.

Lemma as_list_Some d l : as_list d = Some l -> exists es, d = DTable es /\ l = elements es /\ sequence es = true /\ len l < 2 ^ 31.
Proof.
  destruct d as [| | | | |es]; try done. unfold as_list. simpl. destruct (sequence es && _) eqn:E; [| done]. intros [= <-].
  apply andb_true_iff in E as [E1 E2%Z.ltb_lt]. by exists es.
Qed.

Section refinement.
Context {L : Type} `{LuaLaws L} {G : Type} `{Rng G} `{Address.Netdb}.
Notation N := (Network.t G).
Implicit Types (es : entries) (st : list data).

Lemma pop_sim d st : sim (d :: st) LuaNetwork.pop (pure tt : M N unit) (eq st).
Proof. apply sim_reads_last with st; [apply pops | done]. Qed.

(** A field that is there: [body] runs on it. *)
Lemma in_section_sim key es st body (n : M N unit) : c_str key = key ->
  (field (KStr key) es = DNil -> n = pure tt) ->
  (let d := field (KStr key) es in is_nil d = false -> sim (d :: DTable es :: st) body n (eq (d :: DTable es :: st))) ->
  sim (DTable es :: st) (LuaNetwork.in_section key body) n (eq (DTable es :: st)).
Proof.
  intros Ekey Hnil Hd. unfold LuaNetwork.in_section. pose proof (push_field_reads key es st) as Hp. cbv zeta in Hp, Hd. rewrite Ekey in Hp.
  eapply sim_reads; [exact Hp |]. unfold pushed. destruct (is_nil (field (KStr key) es)) eqn:En; cbn [negb when].
  - rewrite Hnil by by destruct (field (KStr key) es). by apply sim_pure.
  - eapply sim_then; [by apply Hd |]. intros s <-. apply pop_sim.
Qed.

(** The elements of a list, each read by [cb] *)
Lemma list_sim {B} (g : data -> option B) (f : B -> M N unit) tes st cb l :
  sequence tes = true -> len (elements tes) < 2 ^ 31 -> mapM g (elements tes) = Some l ->
  (forall d b st', g d = Some b -> sim (d :: st') cb (f b) (left_over st')) ->
  sim (DTable tes :: st) (LuaConfig.for_each (fun _ => cb)) (each l f) (eq (DTable tes :: st)).
Proof.
  intros Hs Hn El Hcb. rewrite <- (each_mapM g f _ _ El). apply for_each_sim; [done | done |]. intros d _ Hd.
  destruct (mapM_each_Some g _ l d El Hd) as (b & Eb). rewrite Eb. by apply Hcb.
Qed.

Lemma section_sim {B} key (entry : entries -> option B) (f : B -> M N unit) es st cb l : c_str key = key ->
  section key entry es = Some l ->
  (forall es' b st', entry es' = Some b -> sim (DTable es' :: st') cb (f b) (eq (DTable es' :: st'))) ->
  sim (DTable es :: st) (LuaNetwork.in_section key (LuaConfig.for_each (fun _ => cb))) (each l f) (eq (DTable es :: st)).
Proof.
  intros Ekey El Hcb. apply in_section_sim; [done | |]; unfold section in El.
  - intros E. rewrite E in El. by injection El as <-.
  - cbv zeta. intros Hd. set (d := field (KStr key) es) in *. clearbody d.
    assert (exists ds, as_list d = Some ds /\ mapM (fun d => es ← as_table d; entry es) ds = Some l) as (ds & Eds & Em).
    { destruct d; try done. destruct (as_list _) as [ds|]; [by exists ds | done]. }
    apply as_list_Some in Eds as (tes & -> & -> & Hs & Hn). apply (list_sim _ f _ _ _ _ Hs Hn Em).
    intros d b st' Eb. destruct d as [| | | | |es']; try done. eapply sim_mono; [by apply Hcb |]. intros s <-. apply left_over_nil.
Qed.

(** *** The entries *)

Lemma get_text key es st : c_str key = key -> reads (DTable es :: st) (LuaConfig.get_string key) (text key es) (DTable es :: st).
Proof. intros E. pose proof (get_string_reads key es st) as Hr. by rewrite E in Hr. Qed.

Ltac sim_text := eapply sim_reads; [by apply get_text |].

Lemma interface_entry_sim es st b : decode_interface es = Some b ->
  sim (DTable es :: st) LuaNetwork.interface_entry (Network.lua_interface b.1 b.2 : M N unit) (eq (DTable es :: st)).
Proof. intros [= <-]. unfold LuaNetwork.interface_entry. do 2 sim_text. by apply sim_caller. Qed.

Lemma route_entry_sim es st b : decode_route es = Some b ->
  sim (DTable es :: st) LuaNetwork.route_entry (Network.lua_add_route b : M N unit) (eq (DTable es :: st)).
Proof.
  unfold decode_route. destruct (read_int _) as [v|] eqn:Ev; [| done]. intros [= <-]. unfold LuaNetwork.route_entry. sim_text.
  eapply sim_reads; [exact (get_int_reads "len" es st v Ev) |]. do 2 sim_text. by apply sim_caller.
Qed.

Lemma test_entry_sim es st b : decode_test es = Some b ->
  sim (DTable es :: st) LuaNetwork.test_entry (lua_test b.1.1 b.1.2 b.2 : M N unit) (eq (DTable es :: st)).
Proof.
  unfold decode_test. destruct (read_int _) as [v|] eqn:Ev; [| done]. intros [= <-]. unfold LuaNetwork.test_entry. do 3 sim_text.
  eapply sim_reads; [exact (get_int_reads "ttl" es st v Ev) |]. by apply sim_caller.
Qed.

Lemma host_entry_sim es name st :
  sim (DTable es :: st) (LuaNetwork.host_entry name) (Network.lua_host name (text "ip" es) (text "next_hop" es) : M N unit) (eq (DTable es :: st)).
Proof. unfold LuaNetwork.host_entry. do 2 sim_text. by apply sim_caller. Qed.

(** The hosts of a segment, one connection each *)
Definition segment_connections (iface : string) (hosts : list string) : M N unit :=
  each hosts (fun h => when (negb (String.eqb h EmptyString)) (LuaNetwork.connect iface h)).

Lemma segment_connections_eq iface hosts n :
  segment_connections iface hosts n = (Network.lua_connect (Network.mk_connection (Some iface) None (Some hosts)) : M N unit) n.
Proof.
  change (segment_connections iface hosts n =
    (Network._connections %= (fun l => l ++ map (fun h => (iface, h)) (filter (fun h => h <> EmptyString) hosts))) n).
  revert n. induction hosts as [|h hosts IH]; intros n; unfold segment_connections; cbn [each].
  - unfold modify, pure. destruct n as [? ? ? ? c ?]; cbn. unfold Network.set_connections. cbn. by rewrite app_nil_r.
  - fold (segment_connections iface hosts). unfold bind. destruct (String.eqb_spec h EmptyString) as [-> | Hne]; cbn [negb when].
    + unfold pure. rewrite IH. rewrite filter_cons_False by (intros Hx; by apply Hx). done.
    + unfold LuaNetwork.connect. unfold modify at 1. rewrite IH. rewrite filter_cons_True by done.
      unfold modify, upd, Network.set_connections. destruct n; cbn. by rewrite <- app_assoc.
Qed.

Lemma sim_ext {A} st (m : M (L * N) A) n n' Q : (forall w, n w = n' w) -> sim st m n Q -> sim st m n' Q.
Proof. intros E Hm l w Hl. specialize (Hm l w Hl). by rewrite E in Hm. Qed.

Lemma segment_host_sim iface d st :
  sim (d :: st) (LuaNetwork.segment_host iface)
    (let h := default EmptyString (read_string d) in when (negb (String.eqb h EmptyString)) (LuaNetwork.connect iface h) : M N unit) (left_over st).
Proof.
  cbv zeta. unfold LuaNetwork.segment_host.
  apply sim_wp with (fun r s => r = default EmptyString (read_string d) /\ exists d', s = d' :: st).
  - intros l Hl. eapply wp_mono; [by apply peek_string_wp |]. intros r l' (-> & d' & Hl'). exists (d' :: st). eauto.
  - intros r s (-> & d' & ->). destruct (negb _); cbn [when]; [apply sim_caller | apply sim_pure]; apply left_over_nil.
Qed.

Lemma segment_sim iface d l es st : field (KStr "hosts") es = d -> as_list d = Some l ->
  sim (DTable es :: st) (LuaNetwork.in_section "hosts" (LuaConfig.for_each (fun _ => LuaNetwork.segment_host iface)))
    (Network.lua_connect (Network.mk_connection (Some iface) None (Some (map (fun d => default EmptyString (read_string d)) l))) : M N unit)
    (eq (DTable es :: st)).
Proof.
  intros Ed El. apply sim_ext with (segment_connections iface (map (fun d => default EmptyString (read_string d)) l)).
  { apply segment_connections_eq. }
  apply as_list_Some in El as (tes & -> & -> & Hs & Hn). apply in_section_sim; [done | by rewrite Ed |]. cbv zeta. rewrite Ed. intros _.
  unfold segment_connections. rewrite each_map. apply for_each_sim; [done | done |]. intros d _ _. apply segment_host_sim.
Qed.

Lemma connection_entry_sim es st b : decode_connection es = Some b ->
  sim (DTable es :: st) LuaNetwork.connection_entry (Network.lua_connect b : M N unit) (eq (DTable es :: st)).
Proof.
  intros Eb. unfold LuaNetwork.connection_entry. do 2 sim_text. unfold decode_connection in Eb.
  destruct (text "router" es) as [iface|]; [| injection Eb as <-; by apply sim_pure].
  destruct (text "host" es) as [host|]; [injection Eb as <-; by apply sim_caller |].
  destruct (is_nil (field (KStr "hosts") es)) eqn:En.
  - destruct (field (KStr "hosts") es) eqn:Ed; try done. injection Eb as <-. apply in_section_sim; [done | done |].
    cbv zeta. by rewrite Ed.
  - assert (exists l, as_list (field (KStr "hosts") es) = Some l /\
      b = Network.mk_connection (Some iface) None (Some (map (fun d => default EmptyString (read_string d)) l))) as (l & El & ->).
    { destruct (field (KStr "hosts") es); try done; destruct (as_list _) as [l|] eqn:El; try done. injection Eb as <-. by exists l. }
    by eapply segment_sim.
Qed.

(** *** The sections *)

Lemma hosts_sim es st fuel l : decode_hosts es = Some l -> (host_count es < fuel)%nat ->
  sim (DTable es :: st) (LuaNetwork.in_section "hosts" (LuaConfig.for_each_pair fuel LuaNetwork.host_entry))
    (each l (fun e => Network.lua_host e.1 e.2.1 e.2.2) : M N unit) (eq (DTable es :: st)).
Proof.
  unfold decode_hosts, host_count. intros El Hfuel. apply in_section_sim; [done | |]; destruct (field (KStr "hosts") es) as [| | | | |hs] eqn:Ed; try done.
  - injection El as <-. by intros _.
  - cbv zeta. intros _. simpl in El. destruct (decide (NoDup hs.*1)) as [Hnd|]; [| done]. rewrite <- (each_mapM decode_host _ _ _ El).
    apply for_each_pair_sim; [done | done |]. intros k d Hd. destruct (mapM_each_Some decode_host _ l (k, d) El Hd) as (b & Eb).
    rewrite Eb. unfold decode_host in Eb. simpl in Eb. destruct k as [i|s]; [done |]. exists s. split; [done |].
    destruct d as [| | | | |es']; try done. injection Eb as <-. eapply sim_mono; [apply host_entry_sim |]. intros s' <-. apply left_over_nil.
Qed.

Lemma construct_sim es st fuel c : decode es = Some c -> (host_count es < fuel)%nat ->
  sim (DTable es :: st) (LuaNetwork.construct fuel) (Network.build_lua c : M N unit) (eq (DTable es :: st)).
Proof.
  unfold decode. intros Ec Hfuel. destruct (section "interfaces" _ es) as [li|] eqn:Ei; [| done].
  destruct (decode_hosts es) as [lh|] eqn:Eh; [| done]. destruct (section "routes" _ es) as [lr|] eqn:Er; [| done].
  destruct (section "connections" _ es) as [lc|] eqn:Eo; [| done]. injection Ec as <-.
  unfold LuaNetwork.construct, Network.build_lua. cbn [Network.l_interfaces Network.l_hosts Network.l_routes Network.l_connections].
  eapply sim_bind; [eapply section_sim; [done | exact Ei |]; intros; by apply interface_entry_sim | intros _ s <-].
  eapply sim_bind; [by apply hosts_sim | intros _ s <-].
  eapply sim_bind; [eapply section_sim; [done | exact Er |]; intros; by apply route_entry_sim | intros _ s <-].
  eapply section_sim; [done | exact Eo |]. intros. by apply connection_entry_sim.
Qed.

(** The tests, as [run] reads them *)
Lemma run_sim es st fuel c tests : decode es = Some c -> decode_tests es = Some tests -> (host_count es < fuel)%nat ->
  sim (DTable es :: st) (LuaNetwork.run fuel) (run_decoded c tests : M N Z) (eq (DTable es :: st)).
Proof.
  intros Ec Et Hfuel. unfold LuaNetwork.run, run_decoded. eapply sim_bind; [by apply construct_sim | intros _ s <-].
  unfold decode_tests, section in Et. pose proof (push_field_reads "tests" es st) as Hp. cbv zeta in Hp. change (c_str "tests") with "tests" in Hp.
  eapply sim_reads; [exact Hp |]. unfold pushed. destruct (is_nil (field (KStr "tests") es)) eqn:En; cbn [negb].
  - destruct (field (KStr "tests") es); try done. injection Et as <-. by apply sim_pure.
  - set (d := field (KStr "tests") es) in *. clearbody d.
    assert (exists ds, as_list d = Some ds /\ mapM (fun d => es ← as_table d; decode_test es) ds = Some tests) as (ds & Eds & Em).
    { destruct d; try done. destruct (as_list _) as [ds|]; [by exists ds | done]. }
    apply as_list_Some in Eds as (tes & -> & -> & Hs & Hn).
    eapply sim_bind.
    + apply (list_sim _ (fun t => lua_test t.1.1 t.1.2 t.2) _ _ _ _ Hs Hn Em). intros d b st' Eb. destruct d as [| | | | |es']; try done.
      eapply sim_mono; [by apply test_entry_sim |]. intros s <-. apply left_over_nil.
    + intros _ s <-. eapply sim_reads; [apply pops |]. by apply sim_pure.
Qed.

(** [run] returns [EXIT_SUCCESS]. *)
Lemma run_decoded_status c tests (n : N) : match (run_decoded c tests n).1 with Ok z => z = 0 | Throw _ => True end.
Proof.
  unfold run_decoded, bind. destruct (Network.build_lua c n) as [[|e] n1]; [| done]. by destruct (each tests _ n1) as [[|e] n2].
Qed.

(** The program on a file, when its table is well-formed *)
Lemma network_simulator_lua_eq fuel filename config l es st c tests (g : G) :
  LuaConfig.new filename = Ok config -> LuaConfig.state config = Some l -> holds l (DTable es :: st) ->
  decode es = Some c -> decode_tests es = Some tests -> (host_count es < fuel)%nat ->
  LuaNetwork.network_simulator_lua fuel filename g =
    let '(o, network) := run_decoded c tests (Network.empty g) in (o, Network.rd network).
Proof.
  intros Enew Estate Hl Ec Et Hfuel. pose proof (run_sim es st fuel c tests Ec Et Hfuel l (Network.empty g) Hl) as Hr.
  unfold LuaNetwork.network_simulator_lua, bind, of_outcome, get. rewrite Enew, Estate. cbn [or_ub pure].
  destruct (LuaNetwork.run fuel (l, Network.empty g)) as [[o|e] [l' n]]; [destruct Hr as [Hr _] |]; by rewrite Hr.
Qed.
End refinement.

(** ** What is not reported

    [main] reports exceptions; an error of the interpreter is none. *)

Section malformed.
Context {L : Type} `{LuaLaws L} {G : Type} `{Rng G} `{Address.Netdb}.
Notation N := (Network.t G).

(** A section that is neither a table nor a string has no length. *)
Lemma for_each_stops (cb : Z -> M (L * N) unit) d st l n : holds l (d :: st) -> indexable d = false ->
  stops (LuaConfig.for_each cb) (l, n).
Proof.
  intros Hl Hd. unfold LuaConfig.for_each. apply stops_bind. wp_step. simpl fst.
  rewrite (law_absindex _ _ (-1) Hl) by (rewrite len_cons; pose proof (len_nonneg st); lia).
  replace (_ + _ + _) with (len (d :: st)) by lia. apply stops_now. unfold stops, LuaConfig.lua. simpl fst.
  pose proof (law_len_error l _ _ d Hl (at_base [] _ _) Hd) as Hs. unfold stops in Hs. by destruct (luaL_len _ l) as [[]].
Qed.

Lemma construct_stops fuel es st l n : holds l (DTable es :: st) ->
  let d := field (KStr "interfaces") es in is_nil d = false -> indexable d = false ->
  stops (LuaNetwork.construct fuel) (l, n).
Proof.
  intros Hl d Hn Hd. unfold LuaNetwork.construct. apply stops_now. unfold LuaNetwork.in_section. apply stops_bind, wp_lua.
  eapply wp_mono; [by apply push_field_reads |]. intros found l' [-> Hl']. change (c_str "interfaces") with "interfaces" in *. fold d in Hl' |- *.
  unfold pushed in Hl'. rewrite Hn in Hl' |- *. cbn [negb when]. apply stops_now. by eapply for_each_stops.
Qed.

Lemma main_stops fuel program filename rest config l es st (g : G) :
  LuaConfig.new filename = Ok config -> LuaConfig.state config = Some l -> holds l (DTable es :: st) ->
  let d := field (KStr "interfaces") es in is_nil d = false -> indexable d = false ->
  stops (LuaNetwork.main fuel (program :: filename :: rest)) g.
Proof.
  intros Enew Estate Hl d Hn Hd. pose proof (construct_stops fuel es st l (Network.empty g) Hl Hn Hd) as Hs. unfold stops in Hs |- *.
  unfold LuaNetwork.main, try_catch, LuaNetwork.network_simulator_lua, bind at 1 2 3, of_outcome, get. rewrite Enew, Estate. cbn [or_ub pure].
  unfold LuaNetwork.run, bind at 1. destruct (LuaNetwork.construct fuel (l, Network.empty g)) as [[|e] [l' n]]; [done |].
  unfold bind, put. by rewrite Hs.
Qed.

(** A file that cannot be loaded is reported. *)
Lemma main_reports fuel program filename rest e (g : G) :
  LuaConfig.new filename = Throw e -> is_exception e = true ->
  LuaNetwork.main fuel (program :: filename :: rest) g = (Ok 1, g).
Proof.
  intros E He. unfold LuaNetwork.main, try_catch, LuaNetwork.network_simulator_lua, bind at 1, of_outcome. by rewrite E, He.
Qed.
End malformed.

(** ** The file that is shipped *)

Section shipped.
#[local] Existing Instance Address.numeric_netdb.
#[local] Existing Instance lcg.

Definition lua_table (fields : list (string * data)) : data := DTable (map (fun e => (KStr e.1, e.2)) fields).
Definition lua_array (l : list data) : data := DTable (imap (fun i d => (KInt (Z.of_nat i + 1), d)) l).
Definition strings (fields : list (string * string)) : data := lua_table (map (fun e => (e.1, DStr e.2)) fields).

(** etc/network.lua *)
Definition network_lua : entries :=
  let interface name ip := strings [("name", name); ("ip", ip)] in
  let host (name ip hop : string) := (name, strings [("ip", ip); ("next_hop", hop)]) in
  let route prefix len (hop : list (string * data)) iface :=
    lua_table ([("prefix", DStr prefix); ("len", DInt len)] ++ hop ++ [("interface", DStr iface)]) in
  let via hop := [("next_hop", DStr hop)] in
  let test from to desc := [("from", DStr from); ("to", DStr to); ("desc", DStr desc)] in
  match lua_table
    [("interfaces", lua_array
       [interface "default" "171.67.76.46"; interface "eth0" "10.0.0.1"; interface "eth1" "172.16.0.1"; interface "eth2" "192.168.0.1";
        interface "uun3" "198.178.229.1"; interface "hs4" "143.195.0.2"; interface "mit5" "128.30.76.255"]);
     ("hosts", lua_table
       [host "applesauce" "10.0.0.2" "10.0.0.1"; host "default_router" "171.67.76.1" "0"; host "cherrypie" "192.168.0.2" "192.168.0.1";
        host "hs_router" "143.195.0.1" "0"; host "dm42" "198.178.229.42" "198.178.229.1"; host "dm43" "198.178.229.43" "198.178.229.1"]);
     ("routes", lua_array
       [route "0.0.0.0" 0 (via "default_router") "default"; route "10.0.0.0" 8 [] "eth0"; route "172.16.0.0" 16 [] "eth1";
        route "192.168.0.0" 24 [] "eth2"; route "198.178.229.0" 24 [] "uun3"; route "143.195.0.0" 17 (via "hs_router") "hs4";
        route "143.195.128.0" 18 (via "hs_router") "hs4"; route "143.195.192.0" 19 (via "hs_router") "hs4";
        route "128.30.76.255" 16 (via "128.30.0.1") "mit5"]);
     ("connections", lua_array
       [strings [("router", "default"); ("host", "default_router")]; strings [("router", "eth0"); ("host", "applesauce")];
        strings [("router", "eth2"); ("host", "cherrypie")]; strings [("router", "hs4"); ("host", "hs_router")];
        lua_table [("router", DStr "uun3"); ("hosts", lua_array [DStr "dm42"; DStr "dm43"])]]);
     ("tests", lua_array
       [lua_table (test "applesauce" "cherrypie" "ordinary hosts"); lua_table (test "cherrypie" "applesauce" "reverse direction");
        lua_table (test "applesauce" "1.2.3.4" "to the Internet"); lua_table (test "applesauce" "143.195.131.17" "HS network");
        lua_table (test "applesauce" "1.2.3.4" "TTL expiration" ++ [("ttl", DInt 1)])])]
  with DTable es => es | _ => [] end.

Definition shipped_tests : list (option string * option string * option Z) :=
  [(Some "applesauce", Some "cherrypie", None); (Some "cherrypie", Some "applesauce", None); (Some "applesauce", Some "1.2.3.4", None);
   (Some "applesauce", Some "143.195.131.17", None); (Some "applesauce", Some "1.2.3.4", Some 1)].

(** Its hosts as a list, which Lua numbers *)
Definition numbered_hosts : entries :=
  [(KStr "hosts", lua_array [strings [("ip", "10.0.0.2"); ("next_hop", "10.0.0.1")]])].
Definition scripts (filename : string) : option data :=
  if String.eqb filename "etc/network.lua" then Some (DTable network_lua)
  else if String.eqb filename "numbered.lua" then Some (DTable numbered_hosts)
  else if String.eqb filename "number.lua" then Some (DTable [(KStr "interfaces", DInt 5)])
  else None.
#[local] Instance scripts_lua : Lua (list data) := DataLua.data_lua scripts.
#[local] Instance scripts_laws : LuaLaws (list data) := DataLua.data_laws scripts.

Lemma shipped_decodes : decode network_lua = Some shipped /\ decode_tests network_lua = Some shipped_tests.
Proof. vm_compute. auto. Qed.

(** The first test of the file fails, and the program says so. *)
Lemma shipped_run : (run_decoded shipped shipped_tests (Network.empty 1)).1 = Throw (Tagged_error "getaddrinfo(cherrypie, 0)" Address.EAI_NONAME).
Proof. vm_compute. reflexivity. Qed.

(** Hosts that are numbered abort the program: nothing is reported. *)
Lemma numbered_hosts_abort :
  (LuaNetwork.main 10 ["network_simulator"; "numbered.lua"] 1).1 = Throw (Program_exit 134) /\
  (LuaNetwork.main 10 ["network_simulator"; "absent.lua"] 1).1 = Ok 1.
Proof. vm_compute. auto. Qed.

Lemma scripts_new : exists config, LuaConfig.new "etc/network.lua" = Ok config /\ LuaConfig.state config = Some [DTable network_lua].
Proof. eexists. vm_compute. auto. Qed.
End shipped.

(** ** The simulator refines the meaning of the table *)

(** [C28] [network_simulator <file>] refines the meaning of the file: when the script returns a
    well-formed table (sections that are sequences of tables, hosts with names, numbers that fit
    an [int]), the constructor and the tests, which read it through the stack of the
    interpreter, do what the decoded topology and the decoded tests say, whatever the
    interpreter does in the order of its tables; the exit status is 0 when they all pass, 1 when
    one of them throws an exception. *)
Theorem lua_simulator_refines {L G} `{LuaLaws L} `{Rng G} `{Address.Netdb} fuel program filename rest config l es st c tests (g : G) :
  LuaConfig.new filename = Ok config -> LuaConfig.state config = Some l -> holds l (DTable es :: st) ->
  decode es = Some c -> decode_tests es = Some tests -> (host_count es < fuel)%nat ->
  let '(o, network) := run_decoded c tests (Network.empty g) in
  LuaNetwork.main fuel (program :: filename :: rest) g =
    (match o with Ok _ => Ok 0 | Throw e => if is_exception e then Ok 1 else Throw e end, Network.rd network).
Proof.
  intros Enew Estate Hl Ec Et Hfuel. pose proof (network_simulator_lua_eq fuel filename config l es st c tests g Enew Estate Hl Ec Et Hfuel) as E.
  pose proof (run_decoded_status c tests (Network.empty g)) as Hz.
  unfold LuaNetwork.main, try_catch. rewrite E. destruct (run_decoded c tests (Network.empty g)) as [[z|e] n]; simpl in Hz |- *.
  - by rewrite Hz.
  - by destruct (is_exception e).
Qed.

Section witnesses.
#[local] Existing Instance Address.numeric_netdb.
#[local] Existing Instance lcg.
#[local] Existing Instance scripts_lua.
#[local] Existing Instance scripts_laws.

Lemma lua_simulator_refines_witness :
  (LuaNetwork.main 100 ["network_simulator"; "etc/network.lua"] 1).1 = Ok 1.
Proof.
  destruct scripts_new as (config & Enew & Estate).
  assert (Hf : (host_count network_lua < 100)%nat) by (vm_compute; lia).
  pose proof (lua_simulator_refines 100 "network_simulator" "etc/network.lua" [] config _ network_lua [] shipped shipped_tests 1
    Enew Estate eq_refl (proj1 shipped_decodes) (proj2 shipped_decodes) Hf) as Hr.
  pose proof shipped_run as Er. destruct (run_decoded shipped shipped_tests (Network.empty 1)) as [o n]. simpl in Er. subst o.
  rewrite Hr. reflexivity.
Defined.
End witnesses.
