(* ===== verification/router_safety.v ===== *)
(** * router: any frames

    What arrives at a router need not be well formed: a datagram of another IP version is
    accepted by the parser and cannot be written.  Here the interfaces and the router are fed
    with arbitrary frames.  A weaker invariant than [NetworkInterface.wf] and [Router.wf] holds
    throughout, queues of frames only grow, and what goes wrong is one of the two exceptions
    of [IPv4Header::serialize]. *)

From S2P Require Import prelude buffer parser checksum ethernet arp_message ipv4 icmp_message address network_interface router ethernet_adapter.

(** ** Datagrams *)

(** A datagram as it comes out of a frame. *)
Definition arrived (d : IPv4Datagram.t) : Prop :=
  IPv4Datagram.accepted d /\ exists b, IPv4Datagram._payload d = [b] /\ Buffer.wf b.

(** It can be written and is small, or [serialize] throws one of its two errors. *)
Definition deliverable (d : IPv4Datagram.t) : Prop :=
  match IPv4Datagram.serialize d with Ok bl => small bl | Throw e => IPv4Datagram.unwritable e end.

Lemma arrived_size d : arrived d -> len (BufferList.bytes (IPv4Datagram.payload d)) < 2 ^ 16.
Proof.
  intros [[_ Es] (b & Eb & Hb)]. unfold IPv4Datagram.payload. rewrite Eb in *.
  assert (Hl : len (BufferList.bytes [b]) < 2 ^ 64).
  { rewrite BufferList.bytes_cons, app_nil_r. by apply Buffer.wf_len. }
  rewrite BufferList.size_bytes in Es by lia. rewrite Es. unfold IPv4Header.payload_length, u16. zarith.
Qed.

Lemma accepted_deliverable d :
  IPv4Datagram.accepted d -> len (BufferList.bytes (IPv4Datagram.payload d)) < 2 ^ 16 -> deliverable d.
Proof.
  intros Ha Hs. unfold deliverable.
  destruct (decide (IPv4Header.ver (IPv4Datagram._header d) = 4 /\ 5 <= IPv4Header.hlen (IPv4Datagram._header d))) as [[Hv Hh]|Hbad].
  - destruct (IPv4Datagram.serialize_returns d Ha Hv Hh) as (bl & ck & -> & _ & Eb). unfold small. rewrite Eb, len_app.
    rewrite IPv4Header.len_ip_image by done. unfold IPv4Datagram.payload in Hs. simpl.
    pose proof (IPv4Header.range_hlen _ (IPv4Datagram.accepted_ranges _ Ha)). lia.
  - destruct (IPv4Datagram.serialize_throws d (IPv4Datagram.accepted_size _ Ha)) as (e & -> & He); [lia | done].
Qed.

Lemma arrived_deliverable d : arrived d -> deliverable d.
Proof. intros Hd. apply accepted_deliverable; [apply Hd | by apply arrived_size]. Qed.

(** ** Interfaces *)

(** A frame that can be written to a device and printed. *)
Record good_frame (f : EthernetFrame.t) : Prop := {
  good_header : EthernetHeader.wf (EthernetFrame.header f);
  good_small : small_frame f;
  good_arp : EthernetHeader.type (EthernetFrame.header f) = EthernetHeader.TYPE_ARP ->
    exists b, BufferList.to_Buffer (EthernetFrame.payload f) = Ok b /\ Buffer.wf b
}.

Record sound (n : NetworkInterface.t) : Prop := {
  sound_mac : address_wf (NetworkInterface._ethernet_address n);
  sound_ip : exists ip, Address.ipv4_numeric (NetworkInterface._ip_address n) = Ok ip;
  sound_table : map_Forall (fun _ e => address_wf (NetworkInterface.eth_addr e)) (NetworkInterface._arp_table n);
  sound_waiting : map_Forall (fun _ l => Forall (fun p => deliverable p.2) l) (NetworkInterface._waiting_internet_datagrams n);
  sound_frames : Forall good_frame (NetworkInterface._frames_out n)
}.

(** The owner finds the frames it has not taken, and more. *)
Definition grown (n n' : NetworkInterface.t) : Prop :=
  NetworkInterface._frames_out n `prefix_of` NetworkInterface._frames_out n'.

#[global] Instance grown_preorder : PreOrder grown.
Proof. unfold grown. split; [intros n; reflexivity |]. intros n1 n2 n3 H12 H23. by etrans. Qed.

Lemma new_sound mac a ip : address_wf mac -> Address.ipv4_numeric a = Ok ip -> sound (NetworkInterface.new mac a).
Proof. intros Hm Ha. split; [done | by exists ip | apply map_Forall_empty | apply map_Forall_empty | constructor]. Qed.

Section interface.
Import NetworkInterface.
Notation failing := (fun (e : exn) (_ : NetworkInterface.t) => IPv4Datagram.unwritable e).

Lemma send_sound n dst type payload (Q : unit -> NetworkInterface.t -> Prop) E :
  sound n -> good_frame (frame_to n dst type payload) -> (forall n', sound n' -> grown n n' -> Q tt n') ->
  wpe (_send dst type payload) Q E n.
Proof.
  intros Hn Hf HQ. eapply wp_eq; [apply send_eq |]. destruct Hn. apply HQ; [split; try done; by apply Forall_app_2; [| constructor] |].
  by apply prefix_app_r.
Qed.

Lemma good_ipv4 n dst payload : sound n -> address_wf dst -> small payload -> good_frame (frame_to n dst EthernetHeader.TYPE_IPv4 payload).
Proof. intros Hn Hd Hp. split; [split; [done | apply Hn | done] | done | done]. Qed.

Lemma good_arp_frame n dst m : sound n -> address_wf dst -> ARPMessage.wf m ->
  good_frame (frame_to n dst EthernetHeader.TYPE_ARP (BufferList.of_string (ARPMessage.image m))).
Proof.
  intros Hn Hd Hm. split; [split; [done | apply Hn | done] | |].
  - unfold small_frame, small. simpl. by rewrite small_arp, ARPMessage.len_arp_image.
  - intros _. exists (Buffer.of_string (ARPMessage.image m)). split; [done |]. apply Buffer.wf_of_string.
    by rewrite ARPMessage.len_arp_image.
Qed.

Lemma request_supported n ip my_ip : sound n -> is_ip ip -> Address.ipv4_numeric (_ip_address n) = Ok my_ip ->
  ARPMessage.wf (arp_request (_ethernet_address n) my_ip ip).
Proof. intros Hn Hip Hmy%Address.ipv4_numeric_range. split; simpl; try done; [apply Hn | apply address_wf_zero]. Qed.
Lemma reply_supported n m my_ip : sound n -> ARPMessage.wf m -> Address.ipv4_numeric (_ip_address n) = Ok my_ip ->
  ARPMessage.wf (arp_reply (_ethernet_address n) (ARPMessage.sender_ethernet_address m) my_ip (ARPMessage.sender_ip_address m)).
Proof. intros Hn Hm Hmy%Address.ipv4_numeric_range. split; simpl; try done; [apply Hn | apply Hm | apply Hm]. Qed.

Lemma send_datagram_any n d hop ip :
  sound n -> Address.ipv4_numeric hop = Ok ip -> deliverable d ->
  wpe (send_datagram d hop) (fun _ n' => sound n' /\ grown n n') failing n.
Proof.
  intros Hn Hip Hd. unfold send_datagram. wp_step. eapply wp_of_outcome; [exact Hip |]. wp_step. wp_step.
  destruct (_arp_table n !! ip) as [e|] eqn:Ee.
  { wp_step. apply wp_outcome. unfold deliverable in Hd. destruct (IPv4Datagram.serialize d) as [bl|]; [| done].
    apply send_sound; [done | apply good_ipv4; [done | exact (sound_table n Hn _ _ Ee) | done] | done]. }
  wp_step. wp_step. wp_step. apply wp_mono with (P := fun _ n' => sound n' /\ grown n n').
  - destruct (_waiting_arp_response_ip_addr n !! ip); [by wp_step |]. wp_step. wp_step. wp_step. wp_step.
    destruct (sound_ip n Hn) as [my_ip Hmy]. wp_step. eapply wp_of_outcome; [exact Hmy |].
    pose proof (request_supported n ip my_ip Hn (Address.ipv4_numeric_range _ _ Hip) Hmy) as Hreq.
    wp_step. eapply wp_of_outcome; [by apply ARPMessage.arp_serialize_eq, Hreq |]. wp_step.
    apply send_sound; [done | apply good_arp_frame; [done | apply address_wf_broadcast | done] |].
    intros n' [] Hg. wp_step. by split.
  - intros [] n' [[] Hg]. wp_step. split; [| done]. split; try done. simpl. apply map_Forall_insert_2; [| done].
    apply Forall_app_2; [| by constructor]. destruct (_waiting_internet_datagrams n' !! ip) as [l|] eqn:El; [| constructor].
    match goal with Hw : map_Forall _ (_waiting_internet_datagrams n') |- _ => exact (Hw _ _ El) end.
Qed.

Lemma send_waiting_any dst l : Forall (fun p => deliverable p.2) l -> address_wf dst -> forall n, sound n ->
  wpe (send_waiting dst l) (fun _ n' => sound n' /\ grown n n') failing n.
Proof.
  intros Hl Hdst. induction Hl as [|[a d] l Hd _ IH]; intros n Hn; cbn [send_waiting]; [by wp_step |].
  wp_step. apply wp_outcome. unfold deliverable in Hd. simpl in Hd. destruct (IPv4Datagram.serialize d) as [bl|]; [| done].
  wp_step. apply send_sound; [done | by apply good_ipv4 |]. intros n1 Hn1 Hg1.
  eapply wp_mono; [by apply IH |]. intros [] n2 [Hn2 Hg2]. split; [done | by etrans].
Qed.

(** An ARP message: its sender is learned, answered and sent what waited for it. *)
Lemma recv_arp_any n f b :
  sound n -> for_us n f = true -> EthernetHeader.type (EthernetFrame.header f) = EthernetHeader.TYPE_ARP -> received f b ->
  wpe (recv_frame f) (fun o n' => o = None /\ sound n' /\ grown n n') failing n.
Proof.
  intros Hn Hu Ht [Eb Hb]. destruct (ARPMessage.parse_total b ARPMessage.default Hb) as (r & m & Em).
  destruct (sound_ip n Hn) as [my_ip Hmy]. unfold recv_frame, for_us in *. wp_step. wp_step. rewrite <- negb_orb, Hu, Ht. cbn [negb].
  change (EthernetHeader.TYPE_ARP =? EthernetHeader.TYPE_IPv4) with false. rewrite Z.eqb_refl.
  wp_step. eapply wp_of_outcome; [exact Eb |]. wp_step. eapply wp_of_outcome; [exact Em |]. cbv beta iota.
  destruct (decide (r = NoError)) as [-> | Hr]; [rewrite bool_decide_false by (by intros []) | by rewrite bool_decide_true; [wp_step |]].
  pose proof (ARPMessage.parse_accepts b _ m Hb Em) as Hm. wp_step. wp_step. wp_step. eapply wp_of_outcome; [exact Hmy |].
  wp_step. apply wp_mono with (P := fun _ n' => sound n' /\ grown n n').
  { apply wp_if; intros _; [| by wp_step]. wp_step.
    eapply wp_of_outcome; [by apply ARPMessage.arp_serialize_eq, reply_supported |].
    apply send_sound; [done | apply good_arp_frame; [done | apply Hm | by apply reply_supported] | done]. }
  intros [] n1 [Hn1 Hg1]. wp_step. wp_step. set (n2 := upd _arp_table _ n1).
  assert (Hn2 : sound n2) by (destruct Hn1; split; try done; by apply map_Forall_insert_2; [apply Hm |]).
  wp_step. wp_step. wp_step.
  destruct (_waiting_internet_datagrams n2 !! ARPMessage.sender_ip_address m) as [l|] eqn:El; [| by wp_step; wp_step].
  wp_step. eapply wp_mono; [apply send_waiting_any; [exact (sound_waiting n2 Hn2 _ _ El) | apply Hm | done] |].
  intros [] n3 [[] Hg3]. wp_step. wp_step. split; [done |]. split; [split; try done; by apply map_Forall_delete |].
  transitivity n1; [done | exact Hg3].
Qed.

Lemma recv_frame_any n f b :
  sound n -> received f b ->
  wpe (recv_frame f) (fun o n' => sound n' /\ grown n n' /\ match o with Some d => arrived d | None => True end) failing n.
Proof.
  intros Hn Hb. destruct (for_us n f) eqn:Hu; [| by eapply wp_eq; [apply recv_frame_not_for_us |]].
  destruct (decide (EthernetHeader.type (EthernetFrame.header f) = EthernetHeader.TYPE_IPv4)) as [Ht|Ht].
  { destruct (recv_frame_ipv4 n f b Hu Ht Hb) as (r & d & Ep & E). eapply wp_eq; [exact E |]. split; [done |]. split; [done |].
    destruct (IPv4Datagram.parse_fresh_buffer b (proj2 Hb)) as (r0 & d0 & pl & Ep0 & Epl & Hpl & Hacc).
    rewrite Ep in Ep0. injection Ep0 as <- <-. case_bool_decide; [| done]. split; [by apply Hacc | by exists pl]. }
  destruct (decide (EthernetHeader.type (EthernetFrame.header f) = EthernetHeader.TYPE_ARP)) as [Ha|Ha].
  - eapply wp_mono; [by apply (recv_arp_any n f b) |]. by intros o n' (-> & ? & ?).
  - by eapply wp_eq; [apply recv_frame_other |].
Qed.

Lemma tick_any n ms (Q : unit -> NetworkInterface.t -> Prop) E :
  sound n -> (forall n', sound n' -> grown n n' -> Q tt n') -> wpe (tick ms) Q E n.
Proof.
  intros [? ? Ht Hw Hf] HQ. eapply wp_eq; [apply tick_eq |]. apply HQ; [| unfold grown; simpl; reflexivity]. split; simpl; try done.
  - intros ip e He. apply lookup_omap_Some in He as (e0 & Ha & He0). unfold age_entry in Ha.
    destruct (_ <=? _); [done |]. injection Ha as <-. exact (Ht ip e0 He0).
  - intros ip l. rewrite tick_datagrams. intros Hl. apply (Hw ip).
    destruct (_waiting_arp_response_ip_addr n !! ip) as [w|]; [by destruct (w <=? ms) | done].
Qed.
End interface.

(** ** Routers *)

Module AnyRouter.
Import Router.

Definition sound_async (a : AsyncNetworkInterface.t) : Prop :=
  sound (AsyncNetworkInterface.base a) /\ Forall arrived (AsyncNetworkInterface._datagrams_out a).

Record sound_router (routes : list RouteEntry.t) (r : Router.t) : Prop := {
  sr_interfaces : Forall sound_async (_interfaces r);
  sr_nonempty : 0 < len (_interfaces r);
  sr_table : RoutingTrie.represents routes (_route_table r);
  sr_routes : Forall (route_wf (len (_interfaces r))) routes
}.

Definition all_grown (r r' : Router.t) : Prop :=
  Forall2 (fun a a' => grown (AsyncNetworkInterface.base a) (AsyncNetworkInterface.base a')) (_interfaces r) (_interfaces r').

#[global] Instance all_grown_preorder : PreOrder all_grown.
Proof.
  unfold all_grown. split.
  - intros r. induction (_interfaces r); constructor; [reflexivity | done].
  - intros r1 r2 r3. generalize (_interfaces r1), (_interfaces r2), (_interfaces r3). intros l1 l2 l3 H12. revert l3.
    induction H12 as [|a b l1 l2 Hab _ IH]; intros l3 H23; inversion H23; subst; constructor; [by etrans | auto].
Qed.

(** What a step of routing leaves: a sound router, its queues as long as they were. *)
Record stepped (routes : list RouteEntry.t) (r r' : Router.t) : Prop := {
  st_sound : sound_router routes r';
  st_grown : all_grown r r';
  st_lens : lens r' = lens r
}.

Lemma stepped_refl routes r : sound_router routes r -> stepped routes r r.
Proof. by split. Qed.

Lemma stepped_trans routes r1 r2 r3 : stepped routes r1 r2 -> stepped routes r2 r3 -> stepped routes r1 r3.
Proof. intros [_ ? ?] [? ? ?]. split; [done | by etrans | congruence]. Qed.

Section routing.
Context (routes : list RouteEntry.t).
Notation failing := (fun (e : exn) (_ : Router.t) => IPv4Datagram.unwritable e).

Lemma at_interface_wp {A} r i a (m : M AsyncNetworkInterface.t A) (Q : A -> Router.t -> Prop) (E : exn -> Prop) :
  zlookup (_interfaces r) i = Some a ->
  wpe m (fun x a' => Q x (set_interface i a' r)) (fun e _ => E e) a -> wpe (at_interface i m) Q (fun e _ => E e) r.
Proof. intros Ha. unfold wpe, at_interface. rewrite Ha. by destruct (m a) as [[] a']. Qed.

(** One interface goes on, the others stay. *)
Lemma set_interface_sound r i a a' :
  sound_router routes r -> zlookup (_interfaces r) i = Some a -> sound_async a' ->
  grown (AsyncNetworkInterface.base a) (AsyncNetworkInterface.base a') ->
  sound_router routes (set_interface i a' r) /\ all_grown r (set_interface i a' r).
Proof.
  intros [Hi Hne Ht Hr] Ha Ha' Hg. split.
  - split; simpl; rewrite ?len_zinsert; try done. by apply Forall_insert.
  - unfold all_grown. simpl. unfold zlookup in Ha. case_decide; [| done]. unfold zinsert.
    rewrite <- (list_insert_id (_interfaces r) (Z.to_nat i) a) at 1 by done. apply Forall2_insert; [| done].
    apply (reflexivity (R := all_grown)).
Qed.

(** The same when the queue of the interface keeps its length. *)
Lemma set_interface_stepped r i a a' :
  sound_router routes r -> zlookup (_interfaces r) i = Some a -> sound_async a' ->
  grown (AsyncNetworkInterface.base a) (AsyncNetworkInterface.base a') ->
  len (AsyncNetworkInterface._datagrams_out a') = len (AsyncNetworkInterface._datagrams_out a) ->
  stepped routes r (set_interface i a' r).
Proof.
  intros Hr Ha Ha' Hg Hl. destruct (set_interface_sound r i a a') as [? ?]; [done | done | done | done |]. split; [done | done |].
  rewrite lens_set_interface, Hl. apply zlookup_insert_id. unfold lens, queues.
  by erewrite zlookup_map; [| eapply zlookup_map, Ha].
Qed.

Lemma sound_at r i : sound_router routes r -> 0 <= i < len (_interfaces r) ->
  exists a, zlookup (_interfaces r) i = Some a /\ sound_async a.
Proof.
  intros Hr Hi. destruct (zlookup_lt_is_Some _ _ Hi) as [a Ha]. exists a. split; [done |].
  by eapply zlookup_Forall; [apply Hr |].
Qed.

Lemma send_any r i d hop ip :
  sound_router routes r -> 0 <= i < len (_interfaces r) -> deliverable d -> Address.ipv4_numeric hop = Ok ip ->
  wpe (at_interface i (AsyncNetworkInterface.send_datagram d hop)) (fun _ => stepped routes r) failing r.
Proof.
  intros Hr Hi Hd Hip. destruct (sound_at r i Hr Hi) as (a & Ha & Hs & Hq).
  apply (at_interface_wp r i a _ _ _ Ha). unfold AsyncNetworkInterface.send_datagram. wp_step.
  eapply wp_mono; [by eapply send_datagram_any |]. intros [] n' [Hn' Hg].
  by apply (set_interface_stepped r i a).
Qed.

Lemma icmp_deliverable src dst bs : NetworkInterface.is_ip src -> NetworkInterface.is_ip dst -> len bs < 2 ^ 16 -> deliverable (icmp_datagram src dst bs).
Proof.
  intros Hs Hd Hl. pose proof (len_nonneg bs).
  assert (Hsize : len (BufferList.bytes (IPv4Datagram.payload (icmp_datagram src dst bs))) = len bs).
  { exact (small_arp bs). }
  apply accepted_deliverable; [| rewrite Hsize; lia]. split.
  - split; simpl; try done; try lia. unfold u16. zarith.
  - unfold IPv4Datagram.payload in Hsize. rewrite BufferList.size_bytes, Hsize by (rewrite Hsize; lia).
    unfold IPv4Header.payload_length. simpl. unfold IPv4Header.LENGTH. change (4 * 5) with 20. unfold u16. zarith.
Qed.

(** *** One datagram *)

Section one_datagram.
Context (r : Router.t) (d : IPv4Datagram.t).
Hypothesis Hr : sound_router routes r.
Hypothesis Hd : arrived d.
Notation h := (IPv4Datagram.header d).

Lemma arrived_ranges : IPv4Header.ranges h.
Proof. apply Hd. Qed.

Lemma source_address : Address.ipv4_numeric (Address.of_ip (IPv4Header.src h)) = Ok (IPv4Header.src h).
Proof. apply Address.ipv4_numeric_of_ip, arrived_ranges. Qed.

Lemma handle_icmp_any i : 0 <= i < len (_interfaces r) -> wpe (handle_icmp i d) (fun _ => stepped routes r) failing r.
Proof.
  intros Hi. pose proof (arrived_size d Hd) as Hs. set (pl := BufferList.bytes (IPv4Datagram.payload d)) in *.
  destruct (ICMPMessage.parse_any_buffer (Buffer.of_string pl) ICMPMessage.default) as (res & m & E & Hm).
  { apply Buffer.wf_of_string. lia. }
  unfold handle_icmp. wp_step. rewrite BufferList.concatenate_bytes. fold pl. eapply wp_of_outcome; [exact E |]. cbv beta iota.
  destruct (decide (res = NoError)) as [-> | Hne];
    [rewrite bool_decide_false by (by intros []) | rewrite bool_decide_true by done; wp_step; by apply stepped_refl].
  apply wp_if; intros Et; [| wp_step; by apply stepped_refl].
  destruct (ICMPMessage.serialize_total (echo_reply m)) as (ck & Es & _). wp_step. eapply wp_of_outcome; [exact Es |].
  wp_step. rewrite Address.from_ipv4_numeric_eq. eapply wp_of_outcome; [done |].
  eapply send_any; [done | done | | apply source_address]. apply icmp_deliverable; [apply arrived_ranges | apply arrived_ranges |].
  rewrite ICMPMessage.len_write. simpl. destruct (Hm eq_refl) as (_ & _ & _ & _ & _ & Hl). rewrite Buffer.str_of_string in Hl.
  rewrite Hl by (unfold ICMPMessage.is_echo; by rewrite Et). lia.
Qed.

Lemma send_icmp_any type i : 0 <= i < len (_interfaces r) ->
  wpe (send_icmp type 0 d i (Address.of_ip (IPv4Header.src h))) (fun _ => stepped routes r) failing r.
Proof.
  intros Hi. destruct (sound_at r i Hr Hi) as (a & Ha & Hs & _). destruct (sound_ip _ Hs) as [my_ip Hmy].
  unfold send_icmp. wp_step. apply wp_outcome. pose proof (arrived_deliverable d Hd) as Hdel. unfold deliverable in Hdel.
  destruct (IPv4Datagram.serialize d) as [bl|]; [| done]. wp_step. wp_step. rewrite (proj2 (Z.ltb_lt _ _)) by lia. wp_step. wp_step.
  eapply wp_eq; [by apply (at_interface_asks _ i a) |]. eapply wp_of_outcome; [exact Hmy |].
  match goal with |- context [ICMPMessage.serialize ?m] => destruct (ICMPMessage.serialize_total m) as (ck & Es & _) end.
  wp_step. eapply wp_of_outcome; [exact Es |]. cbv beta.
  eapply send_any; [done | done | | apply source_address]. apply icmp_deliverable; [by eapply Address.ipv4_numeric_range | apply arrived_ranges |].
  rewrite ICMPMessage.len_write. simpl. rewrite len_ztake. unfold IPv4Header.LENGTH. lia.
Qed.

Lemma one_hop_less_arrived : 1 < IPv4Header.ttl h -> arrived (one_hop_less d).
Proof.
  intros Hlive. destruct Hd as [[Hr' Es] Hp]. split; [| exact Hp]. split; [| exact Es]. destruct Hr'. split; try done. simpl.
  unfold IPv4Datagram.header in *. lia.
Qed.

Lemma forward_any q a rest :
  zlookup (_interfaces r) q = Some a -> AsyncNetworkInterface._datagrams_out a = d :: rest ->
  wpe (forward q d) (fun _ => stepped routes r) failing r.
Proof.
  intros Ha Hq. pose proof arrived_ranges as Hh. unfold forward. wp_step. wp_step. wp_step.
  eapply wp_of_outcome; [by apply (RoutingTrie.represents_match routes); [apply Hr | apply Hh] |]. wp_step. wp_step.
  destruct (RoutingTrie.scan routes (IPv4Header.dst h)) as [e|] eqn:Ee.
  2:{ apply wp_if; intros _; [| wp_step; by apply stepped_refl]. wp_step. rewrite Address.from_ipv4_numeric_eq.
      eapply wp_of_outcome; [done |]. apply send_icmp_any. pose proof (sr_nonempty _ _ Hr). lia. }
  assert (He : route_wf (len (_interfaces r)) e).
  { apply RoutingTrie.scan_elem in Ee. exact (proj1 (list.Forall_forall _ _) (sr_routes _ _ Hr) e Ee). }
  destruct He as [Hnum Hhop]. apply wp_if; intros Hlive.
  { apply wp_if; intros _; [| wp_step; by apply stepped_refl]. wp_step. rewrite Address.from_ipv4_numeric_eq.
    eapply wp_of_outcome; [done |]. by apply send_icmp_any. }
  apply Z.leb_gt in Hlive. cbv zeta. rewrite u8_small by (pose proof (IPv4Header.range_ttl _ Hh); lia).
  change (setf IPv4Datagram._header (setf IPv4Header.ttl (IPv4Header.ttl h - 1) h) d) with (one_hop_less d).
  destruct (zlookup_Forall _ _ _ _ (sr_interfaces _ _ Hr) Ha) as [Hs Hf]. rewrite Hq in Hf.
  wp_step. unfold set_front. eapply wp_eq; [by apply (at_interface_modify _ _ a) |]. set (r1 := set_interface q _ r).
  assert (Hr1 : stepped routes r r1).
  { apply (set_interface_stepped r q a); simpl; rewrite ?Hq; try done.
    split; [done |]. simpl. rewrite Hq. constructor; [by apply one_hop_less_arrived | by inversion Hf]. }
  assert (Hlen : len (_interfaces r1) = len (_interfaces r)) by (unfold r1; simpl; by rewrite len_zinsert).
  assert (Hsend : forall hop, (exists ip, Address.ipv4_numeric hop = Ok ip) ->
    wpe (at_interface (RouteEntry.interface_num e) (AsyncNetworkInterface.send_datagram (one_hop_less d) hop)) (fun _ => stepped routes r) failing r1).
  { intros hop [ip Hip]. eapply wp_mono; [eapply send_any; [apply Hr1 | by rewrite Hlen | | exact Hip] |].
    - by apply arrived_deliverable, one_hop_less_arrived.
    - intros [] r2 H2. by eapply stepped_trans. }
  destruct (RouteEntry.next_hop e) as [hop|] eqn:Eh; [by apply Hsend, Hhop |]. wp_step. rewrite Address.from_ipv4_numeric_eq.
  eapply wp_of_outcome; [done |]. apply Hsend. eexists. apply Address.ipv4_numeric_of_ip, Hh.
Qed.

Lemma find_interface_any l i ip : Forall sound_async l ->
  exists o, find_interface l i ip = Ok o /\ match o with Some j => i <= j < i + len l | None => True end.
Proof.
  intros Hl. revert i. induction Hl as [|a l [Hn _] _ IH]; intros i; simpl; [by exists None |].
  destruct (sound_ip _ Hn) as [ip0 E0]. unfold AsyncNetworkInterface.ip_address, NetworkInterface.ip_address. rewrite E0.
  cbn [mbind outcome_bind]. rewrite len_cons. pose proof (len_nonneg l). destruct (ip =? ip0); [exists (Some i); split; [done | lia] |].
  destruct (IH (i + 1)) as (o & -> & Ho). exists o. split; [done |]. destruct o; [lia | done].
Qed.

Lemma route_one_any q a rest :
  zlookup (_interfaces r) q = Some a -> AsyncNetworkInterface._datagrams_out a = d :: rest ->
  wpe (route_one_datagram q d) (fun _ => stepped routes r) failing r.
Proof.
  intros Ha Hq. unfold route_one_datagram. wp_step. wp_step. wp_step.
  destruct (find_interface_any (_interfaces r) 0 (IPv4Header.dst h) (sr_interfaces _ _ Hr)) as (o & Eo & Ho).
  apply (wp_mono _ (fun self r' => r' = r /\ match self with Some j => 0 <= j < len (_interfaces r) | None => True end)).
  { apply wp_if; intros _; [eapply wp_of_outcome; [exact Eo | by destruct o] | by wp_step]. }
  intros [i|] r' [-> Hi]; [by apply handle_icmp_any | by eapply forward_any].
Qed.
End one_datagram.

(** *** The queues *)

Lemma drain_any n q : forall r a, sound_router routes r -> zlookup (_interfaces r) q = Some a ->
  length (AsyncNetworkInterface._datagrams_out a) = n ->
  wpe (drain n q) (fun _ r' => sound_router routes r' /\ all_grown r r' /\ lens r' = zinsert q 0 (lens r)) failing r.
Proof.
  induction n as [|n IH]; intros r a Hr Ha En; cbn [drain]; wp_step; (eapply wp_eq; [by apply (at_interface_asks _ _ a) |]);
    change (AsyncNetworkInterface.datagrams_out a) with (AsyncNetworkInterface._datagrams_out a);
    destruct (AsyncNetworkInterface._datagrams_out a) as [|d rest] eqn:Eq; try done.
  { wp_step. split; [done |]. split; [done |]. symmetry. apply zlookup_insert_id.
    unfold lens, queues. erewrite zlookup_map; [| eapply zlookup_map, Ha]. by rewrite Eq. }
  destruct (zlookup_Forall _ _ _ _ (sr_interfaces _ _ Hr) Ha) as [_ Hf]. rewrite Eq in Hf. assert (Hd : arrived d) by (by inversion Hf).
  wp_step. eapply wp_mono; [by apply (route_one_any r d Hr Hd q a rest) |]. intros [] r1 [Hr1 Hg1 El1].
  destruct (sound_at r1 q Hr1) as (a1 & Ha1 & Hs1 & Hf1).
  { rewrite <- len_lens, El1, len_lens. by eapply zlookup_Some_range. }
  destruct (lens_lookup r r1 q a1 El1 Ha1) as (a0 & Ha0 & Hlen1). rewrite Ha in Ha0. injection Ha0 as <-.
  wp_step. eapply wp_eq; [by apply (at_interface_modify _ _ a1) |]. set (a2 := upd AsyncNetworkInterface._datagrams_out tail a1).
  destruct (set_interface_sound r1 q a1 a2) as [Hr2 Hg2]; [done | done | | done |].
  { split; [done |]. simpl. by destruct Hf1. }
  eapply wp_mono; [apply (IH _ a2); [done | | simpl] |].
  - simpl. apply zlookup_zinsert_eq. by eapply zlookup_Some_range.
  - rewrite Eq in Hlen1. unfold len in Hlen1. simpl in *. destruct (AsyncNetworkInterface._datagrams_out a1); simpl in *; lia.
  - intros [] r3 (Hr3 & Hg3 & El3). split; [done |]. split; [transitivity r1; [done | by transitivity (set_interface q a2 r1)] |].
    rewrite El3, lens_set_interface, El1. unfold zinsert. apply list_insert_insert_eq.
Qed.

Lemma all_grown_len r r' : all_grown r r' -> len (_interfaces r') = len (_interfaces r).
Proof. intros Hg. unfold len. by rewrite (Forall2_length Hg). Qed.

Lemma route_from_any k : forall q r, sound_router routes r -> 0 <= q -> q + Z.of_nat k = len (_interfaces r) ->
  wpe (route_from k q) (fun _ r' => sound_router routes r' /\ all_grown r r' /\
    lens r' = ztake q (lens r) ++ replicate k 0) failing r.
Proof.
  induction k as [|k IH]; intros q r Hr Hq Hk; cbn [route_from].
  { wp_step. split; [done |]. split; [done |]. rewrite ztake_ge by (rewrite len_lens; lia). by rewrite app_nil_r. }
  destruct (sound_at r q Hr) as (a & Ha & _); [lia |]. wp_step. eapply wp_eq; [by apply (at_interface_asks _ _ a) |]. wp_step.
  eapply wp_mono; [by apply (drain_any _ q r a) |]. intros [] r1 (Hr1 & Hg1 & El1).
  eapply wp_mono; [apply IH; [done | lia | rewrite (all_grown_len _ _ Hg1); lia] |].
  intros [] r2 (Hr2 & Hg2 & El2). split; [done |]. split; [by etrans |].
  rewrite El2, El1. apply drained_lens. rewrite len_lens. lia.
Qed.

Lemma route_any r : sound_router routes r ->
  wpe route (fun _ r' => sound_router routes r' /\ all_grown r r' /\
    Forall (fun a => AsyncNetworkInterface._datagrams_out a = []) (_interfaces r')) failing r.
Proof.
  intros Hr. unfold route. wp_step. wp_step. eapply wp_mono; [by apply route_from_any |].
  intros [] r' (Hr' & Hg & El). split; [done |]. split; [done |]. rewrite ztake_nonpos in El by lia. by eapply no_datagrams_left.
Qed.

Lemma recv_router_any r i f b :
  sound_router routes r -> 0 <= i < len (_interfaces r) -> NetworkInterface.received f b ->
  wpe (at_interface i (AsyncNetworkInterface.recv_frame f)) (fun _ r' => sound_router routes r' /\ all_grown r r') failing r.
Proof.
  intros Hr Hi Hb. destruct (sound_at r i Hr Hi) as (a & Ha & Hs & Hq).
  apply (at_interface_wp r i a _ _ _ Ha). unfold AsyncNetworkInterface.recv_frame. wp_step. wp_step.
  eapply wp_mono; [by eapply recv_frame_any |]. intros o n' (Hn' & Hg & Ho). destruct o as [d|]; wp_step.
  - apply (set_interface_sound r i a); try done. split; [done |]. simpl. by apply Forall_app_2; [| constructor].
  - by apply (set_interface_sound r i a).
Qed.

Lemma tick_router_any r i ms (Q : unit -> Router.t -> Prop) (E : exn -> Prop) :
  sound_router routes r -> 0 <= i < len (_interfaces r) ->
  (forall r', sound_router routes r' -> all_grown r r' -> Q tt r') ->
  wpe (at_interface i (zoom AsyncNetworkInterface.base (NetworkInterface.tick ms))) Q (fun e _ => E e) r.
Proof.
  intros Hr Hi HQ. destruct (sound_at r i Hr Hi) as (a & Ha & Hs & Hq). apply (at_interface_wp r i a _ _ _ Ha). wp_step.
  apply tick_any; [done |]. intros n' Hn' Hg. destruct (set_interface_sound r i a (setf AsyncNetworkInterface.base n' a)); auto.
  by split.
Qed.
End routing.
End AnyRouter.

(** ** Properties *)

(** [C27] [route] terminates and empties every queue.  With any number of datagrams
    waiting that the parser has accepted, whatever their headers say, it returns with a
    sound router and no datagram left, or it throws one of the two errors of
    [IPv4Header::serialize] (an IP version other than 4, a header of less than five
    words), and nothing else.  When all waiting datagrams can be written ([Router.wf]), it
    returns with no datagram left and they still can.  (A datagram that cannot be written
    may stop the router for good: [router_stuck].) *)
Theorem route_drains routes r :
  (AnyRouter.sound_router routes r ->
    wpe Router.route
      (fun _ r' => AnyRouter.sound_router routes r' /\
        Forall (fun a => AsyncNetworkInterface._datagrams_out a = []) (Router._interfaces r'))
      (fun e _ => IPv4Datagram.unwritable e) r) /\
  (Router.wf routes r ->
    exists r', Router.route r = (Ok tt, r') /\ Router.wf routes r' /\
      Forall (fun a => AsyncNetworkInterface._datagrams_out a = []) (Router._interfaces r')).
Proof.
  split; [| apply Router.route_returns]. intros Hr. eapply wp_mono; [by apply AnyRouter.route_any |].
  by intros [] r' (? & _ & ?).
Qed.

(** ** Witness *)

(** The sample router, with a datagram of IP version 6 waiting. *)
Definition poisoned_router : Router.t :=
  Router.mk [AsyncNetworkInterface.mk host_a [poison]; AsyncNetworkInterface.of_interface host_b] sample_root true.

Lemma poison_arrived : arrived poison.
Proof.
  split; [split; [split; by vm_compute | by vm_compute] |].
  eexists. split; [reflexivity |]. by split; vm_compute.
Qed.

Lemma poisoned_router_sound : AnyRouter.sound_router sample_routes poisoned_router.
Proof.
  destruct sample_router_wf as [_ _ Ht Hr]. split; [| done | exact Ht | exact Hr].
  constructor; [split; [by apply (new_sound _ _ 0x0a000001); [apply mac_a_wf |] | constructor; [apply poison_arrived | constructor]] |].
  constructor; [split; [by apply (new_sound _ _ 0x0a000002); [apply mac_b_wf |] | constructor] | constructor].
Qed.

Lemma route_drains_witness :
  (exists r', Router.route sample_router = (Ok tt, r') /\ Router.wf sample_routes r' /\
    Forall (fun a => AsyncNetworkInterface._datagrams_out a = []) (Router._interfaces r')) /\
  match fst (Router.route poisoned_router) with Ok _ => False | Throw e => IPv4Datagram.unwritable e end.
Proof.
  split; [apply (route_drains sample_routes sample_router); apply sample_router_wf |].
  destruct (route_drains sample_routes poisoned_router) as [Hany _].
  pose proof (wp_thrown _ _ _ _ (Runtime_error "wrong IP version") (Hany poisoned_router_sound)) as Hthrown.
  assert (Es : fst (Router.route poisoned_router) = Throw (Runtime_error "wrong IP version")) by (vm_compute; reflexivity).
  rewrite Es. exact (Hthrown Es).
Defined.
