(* ===== verification/lab7.v ===== *)
(** * apps/lab7: a host, its router, and a peer across the Internet

    Each of the two programs (client and server) has a host, whose TCP socket sends its
    frames into one end of a socket pair, and a router, which a second thread connects to
    the other end and, through a UDP socket and a relay, to the router of the peer.

    The two threads share no state but the kernel and [exit_flag]: the state of each has the
    system in it, and an arbitrary [Kernel] accounts for what the other does. *)

From S2P Require Import prelude printing buffer parser wire_format checksum wrapping_integers tcp_segment tcp_sender tcp_connection ethernet arp_message ipv4 icmp_message address header_text network_interface router file_descriptor fd_adapter ethernet_adapter eventloop bidirectional_stream_copy tcp_sponge_socket network_simulator router_safety.

(** ** The adapter *)

Module NetworkInterfaceAdapter.
Record t : Type := mk {
  base : FdAdapterBase.t;
  _interface : NetworkInterface.t;
  _next_hop : Address.t;
  _data_socket_pair : nat * nat
}.
Definition eta (a : t) : t := mk (base a) (_interface a) (_next_hop a) (_data_socket_pair a).
#[global] Instance set_base : Setter base := ltac:(derive_setter eta base).
#[global] Instance set_interface : Setter _interface := ltac:(derive_setter eta _interface).

(** [operator FileDescriptor &] and [frame_fd] *)
Definition fd (a : t) : nat := (_data_socket_pair a).1.
Definition frame_fd (a : t) : nat := (_data_socket_pair a).2.
Definition interface (a : t) : NetworkInterface.t := _interface a.
Definition frames_out (a : t) : list EthernetFrame.t := NetworkInterface.frames_out (_interface a).

Section adapter.
Context {K : Type} `{Kernel K} `{Address.Netdb}.
Notation W := (World.t K t).

Definition new {G} `{Rng G} (ip_address next_hop : Address.t) : M (G * Sys.t K) t :=
  let* b := of_outcome FdAdapterBase.new in
  let* mac := zoom fst random_host_ethernet_address in
  let* data_socket_pair := zoom snd (TCPSpongeSocket.socket_pair_helper Socket.SOCK_DGRAM) in
  pure (mk b (NetworkInterface.new mac ip_address) next_hop data_socket_pair).

(** [while (not _interface.frames_out().empty())] *)
Fixpoint send_loop (fuel : nat) : M W unit :=
  let* frames := asks (fun w => NetworkInterface.frames_out (_interface (World.obj w))) in
  match frames with
  | [] => pure tt
  | frame :: rest =>
      match fuel with
      | O => throw OutOfFuel
      | S fuel =>
          let* first := asks (fun w => fd (World.obj w)) in
          let* _ := zoom World.sys
            (FileDescriptor.write first (BufferViewList.of_BufferList (EthernetFrame.serialize frame)) true) in
          zoom World.obj (zoom _interface (NetworkInterface._frames_out ::= rest)) ;;
          send_loop fuel
      end
  end.

Definition send_pending : M W unit :=
  let* n := asks (fun w => length (NetworkInterface.frames_out (_interface (World.obj w)))) in
  send_loop n.

Definition read : M W (option TCPSegment.t) :=
  let* first := asks (fun w => fd (World.obj w)) in
  let* data := zoom World.sys (FileDescriptor.read first no_limit) in
  let* (r, frame) := of_outcome (EthernetFrame.parse (Buffer.of_string data) EthernetFrame.default) in
  if bool_decide (r <> NoError) then pure None
  else
    let* ip_dgram := zoom World.obj (zoom _interface (NetworkInterface.recv_frame frame)) in
    send_pending ;;
    match ip_dgram with
    | Some ip_dgram => zoom World.obj (zoom base (TCPOverIPv4Adapter.unwrap_tcp_in_ip ip_dgram))
    | None => pure None
    end.

Definition write (seg : TCPSegment.t) : M W TCPSegment.t :=
  let* b := asks (fun w => base (World.obj w)) in
  let* next_hop := asks (fun w => _next_hop (World.obj w)) in
  let* (seg, dgram) := of_outcome (TCPOverIPv4Adapter.wrap_tcp_in_ip seg b) in
  zoom World.obj (zoom _interface (NetworkInterface.send_datagram dgram next_hop)) ;;
  send_pending ;;
  pure seg.

Definition tick (ms_since_last_tick : Z) : M W unit :=
  zoom World.obj (zoom _interface (NetworkInterface.tick ms_since_last_tick)) ;;
  send_pending.

#[global] Instance lab7_fd_adapter : FdAdapter K t := {|
  adapter_fd := fd;
  adapter_read := read;
  adapter_write := write;
  adapter_tick := tick;
  adapter_config a := FdAdapterBase.config (base a);
  adapter_set_config c := upd base (FdAdapterBase.set_config c);
  adapter_set_listening l := upd base (FdAdapterBase.set_listening l)
|}.
End adapter.
End NetworkInterfaceAdapter.

(** ** The socket *)

Module TCPSocketLab7.
Section socket.
Context {K : Type} `{Kernel K} `{Address.Netdb} `{Owner K}.

Record t : Type := mk {
  socket : EventLoop.t (TCPSpongeSocket.t K NetworkInterfaceAdapter.t);
  _local_address : Address.t
}.
Definition eta (s : t) : t := mk (socket s) (_local_address s).
#[global] Instance set_socket : Setter socket := ltac:(derive_setter eta socket).
#[global] Instance set_local_address : Setter _local_address := ltac:(derive_setter eta _local_address).

Definition new {G} `{Rng G} (ip_address next_hop : Address.t) : M (G * Sys.t K) (Sys.t K -> t) :=
  let* adapter := NetworkInterfaceAdapter.new ip_address next_hop in
  let* sock := zoom snd (TCPSpongeSocket.new adapter) in
  pure (fun s => mk (sock s) ip_address).

(** [random] is what [random_device] returns. *)
Definition connect (turns : nat) (address : Address.t) (random random_isn : Z) : M t unit :=
  let* multiplexer_config := of_outcome FdAdapterConfig.default in
  let* local_address := asks _local_address in
  let* ip := of_outcome (Address.ip local_address) in
  let* local_address := of_outcome (Address.of_ip_port ip (u16 random)) in
  _local_address ::= local_address ;;
  let* _ := of_outcome (Address.to_string local_address) in
  let multiplexer_config :=
    setf FdAdapterConfig.destination address (setf FdAdapterConfig.source local_address multiplexer_config) in
  zoom socket (TCPSpongeSocket.connect turns TCPConfig.default multiplexer_config random_isn).

Definition bind (address : Address.t) : M t unit :=
  let* ip := of_outcome (Address.ip address) in
  let* local_address := asks _local_address in
  let* local_ip := of_outcome (Address.ip local_address) in
  if negb (String.eqb ip local_ip) then
    let* text := of_outcome (Address.to_string address) in
    throw (Runtime_error ("Cannot bind to " +:+ text))
  else
    let* port := of_outcome (Address.port address) in
    let* local_address := of_outcome (Address.of_ip_port local_ip port) in
    _local_address ::= local_address.

Definition listen_and_accept (turns : nat) (random_isn : Z) : M t unit :=
  let* multiplexer_config := of_outcome FdAdapterConfig.default in
  let* local_address := asks _local_address in
  let multiplexer_config := setf FdAdapterConfig.source local_address multiplexer_config in
  zoom socket (TCPSpongeSocket.listen_and_accept turns TCPConfig.default multiplexer_config random_isn).

Definition adapter (s : t) : NetworkInterfaceAdapter.t := TCPSpongeSocket._datagram_adapter (EventLoop.world (socket s)).
End socket.
Arguments t K : clear implicits.
End TCPSocketLab7.

(** ** The program *)

(** What is printed: text, or the message of an exception. *)
Inductive line : Type :=
| Text (s : string)
| What (before : string) (e : exn) (after : string).

(** The flag the main thread sets when it is done. *)
Class MainThread (K : Type) : Type := exit_flag : K -> bool.

Module Lab7.

(** *** The network thread *)

Section state.
Context {K : Type}.
Record t : Type := mk { sys : Sys.t K; router : Router.t; cerr : list line }.
Definition eta (w : t) : t := mk (sys w) (router w) (cerr w).
#[global] Instance set_sys : Setter sys := ltac:(derive_setter eta sys).
#[global] Instance set_router : Setter router := ltac:(derive_setter eta router).
#[global] Instance set_cerr : Setter cerr := ltac:(derive_setter eta cerr).

#[global, refine] Instance lab7_has_sys : HasSys K t := {| the_sys := sys |}.
Proof. - by intros []. - done. Defined.
End state.
Arguments t K : clear implicits.

Section thread.
Context {K : Type} `{Kernel K} `{Address.Netdb} `{MainThread K}.
Notation W := (Lab7.t K).

(** What the callbacks capture. *)
Record captured : Type := mk_captured {
  debug : bool;
  frame_fd : nat;
  internet_socket : nat;
  bounce_address : Address.t;
  host_side : Z;
  internet_side : Z
}.
Context (c : captured).

Definition log (l : line) : M W unit := cerr %= (fun o => o ++ [l]).
Definition log_frame (prefix : string) (frame : EthernetFrame.t) : M W unit :=
  when (debug c)
    (let* text := of_outcome (FrameText.summary_lab7 frame) in
     log (Text (prefix +:+ text +:+ newline))).

(** [router.interface(side)] *)
Definition at_side {A} (side : Z) (m : M AsyncNetworkInterface.t A) : M W A := zoom router (Router.at_interface side m).

(** [router.interface(side).frames_out()], its [front] and its [pop]: undefined when it is empty *)
Definition frames (side : Z) : M W (list EthernetFrame.t) :=
  at_side side (asks (fun a => NetworkInterface.frames_out (AsyncNetworkInterface.base a))).
Definition front (side : Z) : M W EthernetFrame.t :=
  let* f := frames side in
  match f with [] => throw UndefinedBehavior | frame :: _ => pure frame end.
Definition pop (side : Z) : M W unit :=
  let* f := frames side in
  match f with
  | [] => throw UndefinedBehavior
  | _ :: rest => at_side side (zoom AsyncNetworkInterface.base (NetworkInterface._frames_out ::= rest))
  end.

(** A frame has arrived at the router. *)
Definition arrive (prefix : string) (side : Z) (data : list byte) : M W unit :=
  let* (r, frame) := of_outcome (EthernetFrame.parse (Buffer.of_string data) EthernetFrame.default) in
  if bool_decide (r <> NoError) then pure tt
  else
    log_frame prefix frame ;;
    at_side side (AsyncNetworkInterface.recv_frame frame) ;;
    zoom router Router.route.

Definition from_host : M W unit :=
  let* data := on_sys (FileDescriptor.read (frame_fd c) no_limit) in
  arrive "     Host->router:     " (host_side c) data.

Definition to_host : M W unit :=
  let* frame := front (host_side c) in
  log_frame "     Router->host:     " frame ;;
  let* _ := on_sys (FileDescriptor.write (frame_fd c) (BufferViewList.of_BufferList (EthernetFrame.serialize frame)) true) in
  pop (host_side c).

Definition to_internet : M W unit :=
  let* frame := front (internet_side c) in
  log_frame "     Router->Internet: " frame ;;
  on_sys (UDPSocket.sendto (internet_socket c) (bounce_address c) (BufferViewList.of_BufferList (EthernetFrame.serialize frame))) ;;
  pop (internet_side c).

Definition from_internet : M W unit :=
  let* data := on_sys (FileDescriptor.read (internet_socket c) no_limit) in
  arrive "     Internet->router: " (internet_side c) data.

Definition has_frames (side : Z) : M W bool :=
  let* f := frames side in pure (negb (bool_decide (f = []))).

Definition add_rules : M (EventLoop.t W) unit :=
  EventLoop.add_rule (frame_fd c) EventLoop.In from_host EventLoop.always EventLoop.no_cancel ;;
  EventLoop.add_rule (frame_fd c) EventLoop.Out to_host (has_frames (host_side c)) EventLoop.no_cancel ;;
  EventLoop.add_rule (internet_socket c) EventLoop.Out to_internet (has_frames (internet_side c)) EventLoop.no_cancel ;;
  EventLoop.add_rule (internet_socket c) EventLoop.In from_internet EventLoop.always EventLoop.no_cancel.

(** [while (true)]: [turns] turns of it; [false] when the thread still runs. *)
Fixpoint thread_loop (turns : nat) : M (EventLoop.t W) bool :=
  match turns with
  | O => pure false
  | S turns =>
      let* result := EventLoop.wait_next_event 50 in
      if bool_decide (result = EventLoop.Exit) then zoom EventLoop.world (log (Text ("Exiting..." +:+ newline))) ;; pure true
      else
        zoom EventLoop.world (at_side (host_side c) (zoom AsyncNetworkInterface.base (NetworkInterface.tick 50))) ;;
        zoom EventLoop.world (at_side (internet_side c) (zoom AsyncNetworkInterface.base (NetworkInterface.tick 50))) ;;
        let* stop := asks (fun l => exit_flag (Sys.kernel (sys (EventLoop.world l)))) in
        if stop then pure true else thread_loop turns
  end.

(** The body of the thread's [try]. *)
Definition network_thread_body (turns : nat) : M (EventLoop.t W) bool := add_rules ;; thread_loop turns.

Definition network_thread (turns : nat) : M (EventLoop.t W) bool :=
  try_catch (network_thread_body turns)
    (fun e => zoom EventLoop.world (log (What "Thread ending from exception: " e newline)) ;; pure true).
End thread.

(** *** The set-up *)

Section program.
Context {K G : Type} `{Kernel K} `{Address.Netdb} `{Owner K} `{MainThread K} `{Rng G}.

(** [router.add_interface({random_router_ethernet_address(), {str}})] *)
Definition add_interface (str : string) : M (G * Router.t) Z :=
  let* mac := zoom fst random_router_ethernet_address in
  let* a := of_outcome (address_of str) in
  zoom snd (Router.add_interface (AsyncNetworkInterface.of_interface (NetworkInterface.new mac a))).

(** [router.add_route(Address{prefix}.ipv4_numeric(), len, next_hop, id)] *)
Definition add_route (prefix : string) (len : Z) (next_hop : option string) (id : Z) : M (G * Router.t) unit :=
  let* prefix := of_outcome (ip prefix) in
  let* hop :=
    match next_hop with
    | Some str => let* a := of_outcome (address_of str) in pure (Some a)
    | None => pure None
    end in
  zoom snd (Router.add_route prefix len hop id).

Definition set_up_router (is_client : bool) : M (G * Router.t) (Z * Z) :=
  if is_client then
    let* host_side := add_interface "192.168.0.1" in
    let* internet_side := add_interface "10.0.0.192" in
    add_route "192.168.0.0" 16 None host_side ;;
    add_route "10.0.0.0" 8 None internet_side ;;
    add_route "172.16.0.0" 12 (Some "10.0.0.172") internet_side ;;
    pure (host_side, internet_side)
  else
    let* host_side := add_interface "172.16.0.1" in
    let* internet_side := add_interface "10.0.0.172" in
    add_route "172.16.0.0" 12 None host_side ;;
    add_route "10.0.0.0" 8 None internet_side ;;
    add_route "192.168.0.0" 16 (Some "10.0.0.192") internet_side ;;
    pure (host_side, internet_side).

Definition set_up_socket (is_client : bool) : M (G * Sys.t K) (Sys.t K -> TCPSocketLab7.t K) :=
  let* ip_address := of_outcome (address_of (if is_client then "192.168.0.50" else "172.16.0.100")) in
  let* next_hop := of_outcome (address_of (if is_client then "192.168.0.1" else "172.16.0.1")) in
  TCPSocketLab7.new ip_address next_hop.

(** The UDP socket, and the three datagrams that let the relay know where it is. *)
Definition open_internet (bounce_host bounce_port : string) : M (Sys.t K) (nat * Address.t) :=
  let* internet_socket := UDPSocket.new in
  let* bounce_address := of_outcome (Address.of_hostname bounce_host bounce_port) in
  let empty := BufferViewList.of_string_view [] in
  UDPSocket.sendto internet_socket bounce_address empty ;;
  UDPSocket.sendto internet_socket bounce_address empty ;;
  UDPSocket.sendto internet_socket bounce_address empty ;;
  pure (internet_socket, bounce_address).

(** Everything up to the start of the thread: what the thread captures, its router, and the
    socket. *)
Definition set_up (is_client : bool) (bounce_host bounce_port : string) (debug : bool)
    : M (G * Sys.t K) (captured * Router.t * (Sys.t K -> TCPSocketLab7.t K)) :=
  let* (internet_socket, bounce_address) := zoom snd (open_internet bounce_host bounce_port) in
  let* g := asks fst in
  let '(o, (g, router)) := set_up_router is_client (g, Router.new) in
  fst ::= g ;;
  let* (host_side, internet_side) := of_outcome o in
  let* sock := set_up_socket is_client in
  let* s := asks snd in
  let frame_fd := NetworkInterfaceAdapter.frame_fd (TCPSocketLab7.adapter (sock s)) in
  pure (mk_captured debug frame_fd internet_socket bounce_address host_side internet_side, router, sock).

(** *** The main thread

    [random] and [random_isn] are the random numbers; the socket's own thread and the network
    thread run beside it. *)
Definition talk (turns : nat) (is_client : bool) (random random_isn : Z) : M (TCPSocketLab7.t K) unit :=
  let* peer := of_outcome (Address.of_ip_port "172.16.0.100" 1234) in
  (if is_client then TCPSocketLab7.connect turns peer random random_isn
   else TCPSocketLab7.bind peer ;; TCPSocketLab7.listen_and_accept turns random_isn) ;;
  let* self := asks (fun s => TCPSpongeSocket.self (EventLoop.world (TCPSocketLab7.socket s))) in
  zoom TCPSocketLab7.socket (zoom EventLoop.world
    (on_sys (StreamCopy.bidirectional_stream_copy turns self) ;;
     TCPSpongeSocket.wait_until_closed)).

(** [program_body], as the main thread sees it: an exception is printed. *)
Definition main_thread (turns : nat) (is_client : bool) (random random_isn : Z) : M (TCPSocketLab7.t K) (list line) :=
  let* caught := try_catch (talk turns is_client random random_isn ;; pure [])
    (fun e => pure [What "Exception: " e newline]) in
  pure (caught ++ [Text "Exiting... "; Text ("done." +:+ newline)]).
End program.

(** *** [main] *)

Definition print_usage (argv0 : string) : M console unit :=
  warn ("Usage: " +:+ argv0 +:+ " client HOST PORT [debug]" +:+ newline) ;;
  warn ("or     " +:+ argv0 +:+ " server HOST PORT [debug]" +:+ newline).

(** The call [main] makes, or the status it ends with; [abort()] is status 128 + SIGABRT. *)
Inductive start : Type :=
| Body (is_client : bool) (bounce_host bounce_port : string) (debug : bool)
| Status (code : Z).

Definition main (argv : list string) : M console start :=
  match argv with
  | [] => throw (Program_exit 134)
  | argv0 :: args =>
      if negb (len argv =? 4) && negb (len argv =? 5) then print_usage argv0 ;; pure (Status 1)
      else
        let* role := or_ub (args !! 0%nat) in
        if negb (String.eqb role "client") && negb (String.eqb role "server") then print_usage argv0 ;; pure (Status 1)
        else
          let* host := or_ub (args !! 1%nat) in
          let* port := or_ub (args !! 2%nat) in
          pure (Body (String.eqb role "client") host port (len argv =? 5))
  end.
End Lab7.

(** ** The adapter is the TAP adapter, on its end of the socket pair *)

Section adapter_laws.
Context {K : Type} `{LinuxIO K} `{!Address.Netdb, !Address.NetdbNumeric}.
Import NetworkInterfaceAdapter.
Notation Eth := TCPOverIPv4OverEthernetAdapter.t.

Definition as_ethernet (a : NetworkInterfaceAdapter.t) : Eth :=
  TCPOverIPv4OverEthernetAdapter.mk (base a) (fd a) (_interface a) (_next_hop a).

(** The adapter with another base and another interface. *)
Definition renewed (b : FdAdapterBase.t) (n : NetworkInterface.t) (a : NetworkInterfaceAdapter.t) : NetworkInterfaceAdapter.t :=
  setf base b (setf _interface n a).

(** The same result, the same calls of the system and the same change of the adapter. *)
Definition same_run {B} (m : M (World.t K NetworkInterfaceAdapter.t) B) (m' : M (World.t K Eth) B) : Prop :=
  forall s a, exists o s' b n, m (World.mk s a) = (o, World.mk s' (renewed b n a)) /\
    m' (World.mk s (as_ethernet a)) = (o, World.mk s' (as_ethernet (renewed b n a))).

Lemma renewed_id a : renewed (base a) (_interface a) a = a.
Proof. by destruct a. Qed.
Lemma renewed_twice b n b' n' a : renewed b n (renewed b' n' a) = renewed b n a.
Proof. done. Qed.

Lemma same_bind {B C} (m : M _ B) m' (k : B -> M _ C) k' :
  same_run m m' -> (forall x, same_run (k x) (k' x)) -> same_run (bind m k) (bind m' k').
Proof.
  intros Hm Hk s a. destruct (Hm s a) as ([x|e] & s1 & b1 & n1 & E & E'); unfold bind; rewrite E, E'; [| by eexists _, _, _, _].
  destruct (Hk x s1 (renewed b1 n1 a)) as (o & s2 & b2 & n2 & -> & ->). exists o, s2, b2, n2. by rewrite renewed_twice.
Qed.

Lemma same_here {B} (m : M _ B) m' :
  (forall s a, exists o, m (World.mk s a) = (o, World.mk s a) /\ m' (World.mk s (as_ethernet a)) = (o, World.mk s (as_ethernet a))) ->
  same_run m m'.
Proof. intros Hm s a. destruct (Hm s a) as (o & E & E'). exists o, s, (base a), (_interface a). by rewrite renewed_id. Qed.

Lemma same_asks {B} (f : World.t K NetworkInterfaceAdapter.t -> B) f' :
  (forall s a, f (World.mk s a) = f' (World.mk s (as_ethernet a))) -> same_run (asks f) (asks f').
Proof. intros Hf. apply same_here. intros s a. eexists. unfold asks. by rewrite Hf. Qed.
Lemma same_pure {B} (x : B) : same_run (pure x) (pure x).
Proof. apply same_here. by eexists. Qed.
Lemma same_throw {B} e : same_run (B := B) (throw e) (throw e).
Proof. apply same_here. by eexists. Qed.
Lemma same_outcome {B} (o : outcome B) : same_run (of_outcome o) (of_outcome o).
Proof. apply same_here. by eexists. Qed.

Lemma same_sys {B} (m : M (Sys.t K) B) : same_run (zoom World.sys m) (zoom World.sys m).
Proof.
  intros s a. destruct (m s) as [o s'] eqn:E. exists o, s', (base a), (_interface a). rewrite renewed_id.
  unfold zoom. simpl. by rewrite E.
Qed.
Lemma same_interface {B} (m : M NetworkInterface.t B) :
  same_run (zoom World.obj (zoom _interface m)) (zoom World.obj (zoom TCPOverIPv4OverEthernetAdapter._interface m)).
Proof.
  intros s a. destruct (m (_interface a)) as [o n] eqn:E. exists o, s, (base a), n.
  unfold zoom. simpl. rewrite E. by destruct a.
Qed.
Lemma same_base {B} (m : M FdAdapterBase.t B) :
  same_run (zoom World.obj (zoom base m)) (zoom World.obj (zoom TCPOverIPv4OverEthernetAdapter.base m)).
Proof.
  intros s a. destruct (m (base a)) as [o b] eqn:E. exists o, s, b, (_interface a).
  unfold zoom. simpl. rewrite E. by destruct a.
Qed.

Ltac same_step :=
  first [ apply same_bind; [| intros ?] | apply same_asks; reflexivity | apply same_pure | apply same_throw
        | apply same_outcome | apply same_sys | apply same_interface | apply same_base | done ].

Lemma same_send_loop fuel : same_run (send_loop fuel) (TCPOverIPv4OverEthernetAdapter.send_loop fuel).
Proof. induction fuel; cbn; (same_step; [by same_step |]); case_match; repeat same_step. Qed.

Lemma same_send_pending : same_run send_pending TCPOverIPv4OverEthernetAdapter.send_pending.
Proof. same_step; [by same_step |]. apply same_send_loop. Qed.

Lemma same_read : same_run read TCPOverIPv4OverEthernetAdapter.read.
Proof.
  unfold read, TCPOverIPv4OverEthernetAdapter.read. do 3 (same_step; [by same_step |]).
  match goal with x : (ParseResult * EthernetFrame.t)%type |- _ => destruct x end.
  case_bool_decide; [same_step |]. same_step; [same_step |]. same_step; [apply same_send_pending |]. case_match; same_step.
Qed.

Lemma same_write seg : same_run (write seg) (TCPOverIPv4OverEthernetAdapter.write seg).
Proof.
  unfold write, TCPOverIPv4OverEthernetAdapter.write. do 3 (same_step; [by same_step |]).
  match goal with x : (TCPSegment.t * IPv4Datagram.t)%type |- _ => destruct x end.
  same_step; [same_step |]. same_step; [apply same_send_pending |]. same_step.
Qed.

Lemma same_tick ms : same_run (tick ms) (TCPOverIPv4OverEthernetAdapter.tick ms).
Proof. same_step; [same_step | apply same_send_pending]. Qed.

(** What holds of the one holds of the other. *)
Lemma same_wp {B} (m : M _ B) m' (Q : B -> World.t K NetworkInterfaceAdapter.t -> Prop) (E : exn -> Prop) s a :
  same_run m m' ->
  wpe m' (fun r w' => forall a', World.obj w' = as_ethernet a' -> fd a' = fd a -> Q r (World.mk (World.sys w') a'))
    (fun e _ => E e) (World.mk s (as_ethernet a)) ->
  wpe m Q (fun e _ => E e) (World.mk s a).
Proof.
  intros Hm. destruct (Hm s a) as (o & s' & b & n & E1 & E2). unfold wpe. rewrite E1, E2.
  destruct o; [| done]. intros HQ. by apply (HQ (renewed b n a)).
Qed.

Definition lab7_ok (a : NetworkInterfaceAdapter.t) : Prop := eth_ok (as_ethernet a).

Lemma lab7_step s s' a a' :
  fd a' = fd a -> adapter_step eth_ok (World.mk s (as_ethernet a)) (World.mk s' (as_ethernet a')) ->
  adapter_step lab7_ok (World.mk s a) (World.mk s' a').
Proof. by intros E []. Qed.

#[export, refine] Instance lab7_laws : FdAdapterLaws K NetworkInterfaceAdapter.t := {| adapter_ok := lab7_ok |}.
Proof.
  - intros [s a] f Hok Hf. eapply same_wp; [apply same_read |]. eapply wp_mono; [by apply eth_read_wp |].
    intros r [s' e] (Hstep & Hcount & Hr) a' Ee Efd. simpl in Ee. subst e. split; [by apply lab7_step | done].
  - intros [s a] seg [Hok Hf] Hseg. eapply same_wp; [apply same_write |].
    eapply wp_mono; [exact (adapter_write_wp (A := Eth) (World.mk s (as_ethernet a)) seg (conj Hok Hf) Hseg) |].
    intros r [s' e] Hstep a' Ee Efd. simpl in Ee. subst e. by apply lab7_step.
  - intros [s a] ms [Hok Hf] Hms. eapply same_wp; [apply same_tick |].
    eapply wp_mono; [exact (adapter_tick_wp (A := Eth) (World.mk s (as_ethernet a)) ms (conj Hok Hf) Hms) |].
    intros r [s' e] Hstep a' Ee Efd. simpl in Ee. subst e. by apply lab7_step.
  - intros l a. exact (adapter_listen_ok l (as_ethernet a)).
  - done.
  - done.
Defined.
End adapter_laws.

(** ** The network thread *)

(** Frames can be printed. *)
Lemma summary_total `{Address.Netdb} f :
  len (BufferList.bytes (EthernetFrame.payload f)) < 2 ^ 64 ->
  (EthernetHeader.type (EthernetFrame.header f) = EthernetHeader.TYPE_ARP ->
     exists b, BufferList.to_Buffer (EthernetFrame.payload f) = Ok b /\ Buffer.wf b) ->
  exists s, FrameText.summary_lab7 f = Ok s.
Proof.
  intros Hlen Harp. unfold FrameText.summary_lab7. cbv zeta. rewrite BufferList.concatenate_bytes.
  destruct (Z.eqb_spec (EthernetHeader.type (EthernetFrame.header f)) EthernetHeader.TYPE_IPv4) as [_|_].
  - destruct (IPv4Datagram.parse_fresh_buffer (Buffer.of_string (BufferList.bytes (EthernetFrame.payload f))))
      as (r & d & b & -> & Eb & Hb & _); [by apply Buffer.wf_of_string |]. cbn [mbind outcome_bind].
    destruct (bool_decide _); [| by eexists]. unfold FrameText.summary_tcp.
    destruct (_ =? _); cbn [mbind outcome_bind fst snd]; [| by eexists].
    destruct (TCPSegment.segment_parse_total (Buffer.of_string (BufferList.concatenate (IPv4Datagram.payload d)))
      (IPv4Header.pseudo_cksum (IPv4Datagram.header d)) TCPSegment.default) as (r' & seg & -> & _); [| | by eexists].
    + apply Buffer.wf_of_string. unfold IPv4Datagram.payload. rewrite BufferList.concatenate_bytes, Eb, BufferList.bytes_cons.
      change (BufferList.bytes []) with (@nil byte). rewrite app_nil_r. by apply Buffer.wf_len.
    + apply TCPOverIPv4Adapter.pseudo_cksum_range.
  - destruct (Z.eqb_spec (EthernetHeader.type (EthernetFrame.header f)) EthernetHeader.TYPE_ARP) as [Ea|_]; [| by eexists].
    destruct (Harp Ea) as (b & Eb & Hb). unfold FrameText.summary_arp. rewrite Eb. cbn [mbind outcome_bind].
    destruct (ARPMessage.parse_total b ARPMessage.default Hb) as (r & m & ->). by eexists.
Qed.

Module ThreadSafety.
Import Lab7 AnyRouter.

Section safety.
Context {K : Type} `{LinuxIO K} `{Address.Netdb} `{MainThread K}.
Context (c : captured) (routes : list RouteEntry.t) (start : list io).
Notation W := (Lab7.t K).

(** What leaves for the Internet: frames, each in a datagram to the relay. *)
Definition to_relay (e : io) : Prop :=
  match e with
  | Sent h a data => h = internet_socket c /\ a = Some (bounce_address c) /\
      exists f, good_frame f /\ data = BufferList.bytes (EthernetFrame.serialize f)
  | _ => True
  end.
Definition relayed (w : W) : Prop := exists tr, Sys.trace (sys w) = start ++ tr /\ Forall to_relay tr.

Record inv (w : W) : Prop := {
  inv_router : sound_router routes (router w);
  inv_host : 0 <= host_side c < len (Router._interfaces (router w));
  inv_internet : 0 <= internet_side c < len (Router._interfaces (router w));
  inv_frame_fd : is_Some (Sys.wrappers (sys w) !! frame_fd c);
  inv_socket : is_Some (Sys.wrappers (sys w) !! internet_socket c);
  inv_relayed : relayed w;
  (** to the host: whole frames *)
  inv_frames : exists tr fs, Sys.trace (sys w) = start ++ tr /\ Forall good_frame fs /\
    FileDescriptor.accepted (frame_fd c) tr = frames_bytes fs
}.

(** What may come out of the loop: an error of the system, a descriptor that [poll] finds in
    error, a datagram that cannot be written.  No complaint of a busy wait, no frame that
    cannot be printed, no undefined behaviour and no loop that runs out of fuel. *)
Definition may_throw (e : exn) : Prop :=
  FileDescriptor.io_error e \/ e = EventLoop.poll_failed \/ IPv4Datagram.unwritable e.
Definition failed (e : exn) (w : W) : Prop := may_throw e /\ relayed w.

Lemma may_throw_exception e : may_throw e -> is_exception e = true.
Proof. by intros [He | [-> | [-> | ->]]]; [destruct e | | |]. Qed.

Definition pending (side : Z) (w : W) : Prop :=
  exists a, zlookup (Router._interfaces (router w)) side = Some a /\ NetworkInterface._frames_out (AsyncNetworkInterface.base a) <> [].

Lemma io_exception e : FileDescriptor.io_error e -> is_exception e = true.
Proof. by destruct e. Qed.

Lemma io_may_throw e : FileDescriptor.io_error e -> may_throw e.
Proof. by left. Qed.

(** The router goes on. *)
Lemma inv_router_step w r l : inv w -> sound_router routes r -> all_grown (router w) r -> inv (Lab7.mk (sys w) r l).
Proof. intros [] Hr Hg. split; simpl; rewrite ?(all_grown_len _ _ Hg); done. Qed.

(** The system goes on, with input only. *)
Lemma inv_sys_step w s tr :
  inv w -> (forall h, is_Some (Sys.wrappers (sys w) !! h) -> is_Some (Sys.wrappers s !! h)) ->
  Sys.trace s = Sys.trace (sys w) ++ tr -> Forall to_relay tr ->
  (exists fs, Forall good_frame fs /\ FileDescriptor.accepted (frame_fd c) tr = frames_bytes fs) ->
  inv (setf sys s w).
Proof.
  intros [? ? ? Hf Hs (tr0 & E0 & Htr0) (tr1 & fs1 & E1 & Hfs1 & Ea1)] Hw Et Htr (fs & Hfs & Ea). split; simpl; auto.
  - exists (tr0 ++ tr). simpl. rewrite Et, E0, app_assoc. split; [done |]. by apply Forall_app_2.
  - exists (tr1 ++ tr), (fs1 ++ fs). rewrite Et, E1, app_assoc. split; [done |]. split; [by apply Forall_app_2 |].
    rewrite FileDescriptor.accepted_app, Ea1, Ea. unfold frames_bytes. by rewrite fmap_app, join_app.
Qed.

Lemma relayed_step w s tr : relayed w -> Sys.trace s = Sys.trace (sys w) ++ tr -> Forall to_relay tr -> relayed (setf sys s w).
Proof.
  intros (tr0 & E0 & Htr0) Et Htr. exists (tr0 ++ tr). simpl. rewrite Et, E0, app_assoc. split; [done |]. by apply Forall_app_2.
Qed.

(** A frame is printed, or not: nothing else changes. *)
Lemma log_frame_wp prefix f (Q : unit -> W -> Prop) E w :
  len (BufferList.bytes (EthernetFrame.payload f)) < 2 ^ 64 ->
  (EthernetHeader.type (EthernetFrame.header f) = EthernetHeader.TYPE_ARP ->
     exists b, BufferList.to_Buffer (EthernetFrame.payload f) = Ok b /\ Buffer.wf b) ->
  (forall l, Q tt (setf cerr l w)) -> wpe (log_frame c prefix f) Q E w.
Proof.
  intros Hlen Harp HQ. unfold log_frame. apply wp_when; intros _; [| destruct w; apply HQ].
  destruct (summary_total f Hlen Harp) as [text Et]. wp_step. eapply wp_of_outcome; [exact Et |]. unfold log. wp_step. apply HQ.
Qed.

(** A frame at the router, whatever its bytes are. *)
Lemma arrive_wp prefix side data w :
  inv w -> 0 <= side < len (Router._interfaces (router w)) -> len data < 2 ^ 64 ->
  wpe (arrive c prefix side data) (fun _ w' => inv w' /\ sys w' = sys w /\ all_grown (router w) (router w'))
    (fun e w' => failed e w' /\ sys w' = sys w) w.
Proof.
  intros Hw Hside Hlen. unfold arrive.
  destruct (EthernetFrame.frame_parse_total (Buffer.of_string data) EthernetFrame.default) as (h & b & Ep & Hb);
    [by apply Buffer.wf_of_string |].
  wp_step. eapply wp_of_outcome; [exact Ep |]. cbv beta iota. rewrite bool_decide_false by (intros Hn; by apply Hn).
  wp_step. apply log_frame_wp.
  { simpl. rewrite BufferList.bytes_cons. change (BufferList.bytes []) with (@nil byte). rewrite app_nil_r. by apply Buffer.wf_len. }
  { intros _. by exists b. }
  intros l. assert (Hfail : forall e r', IPv4Datagram.unwritable e -> failed e (setf router r' (setf cerr l w)) /\ sys (setf router r' (setf cerr l w)) = sys w).
  { intros e r' He. split; [| done]. split; [by right; right | apply Hw]. }
  unfold at_side. wp_step. wp_step.
  eapply wp_mono_exn; [eapply (recv_router_any routes); [apply Hw | exact Hside | by split] | | by intros; apply Hfail].
  intros [] r1 [Hr1 Hg1]. wp_step. eapply wp_mono_exn; [by apply (route_any routes) | | by intros; apply Hfail].
  intros [] r2 (Hr2 & Hg2 & _). split; [| split; [done | by transitivity r1]].
  apply (inv_router_step w r2 l Hw Hr2). by transitivity r1.
Qed.

(** *** The rules *)

Lemma grown_pending side r w : all_grown (router w) (router r) -> pending side w -> pending side r.
Proof.
  intros Hg (a & Ha & Hne). unfold pending, zlookup in *. case_decide; [| done].
  destruct (Forall2_lookup_l _ _ _ _ _ Hg Ha) as (a' & Ha' & [new E]). exists a'. split; [done |]. rewrite E. by destruct (NetworkInterface._frames_out _).
Qed.

(** Reading a frame from one of the two descriptors. *)
Lemma from_wp prefix h side w :
  inv w -> 0 <= side < len (Router._interfaces (router w)) -> is_Some (Sys.wrappers (sys w) !! h) ->
  wpe (let* data := on_sys (FileDescriptor.read h no_limit) in arrive c prefix side data)
    (fun _ w' => inv w' /\ all_grown (router w) (router w') /\
       exists f f', FileDescriptor.at_fd (sys w) h f /\ FileDescriptor.at_fd (sys w') h f' /\
         FDWrapper._read_count f <> FDWrapper._read_count f') failed w.
Proof.
  intros Hw Hside [f Hf]. unfold on_sys. wp_step. wp_step. eapply FileDescriptor.fd_read_wp; [exact Hf | done | |].
  2:{ intros e s' He Et. split; [by apply io_may_throw |]. apply (relayed_step w s' []); [apply Hw | by rewrite app_nil_r | constructor]. }
  intros data k Hlen. unfold FileDescriptor.BUFFER_SIZE, no_limit in Hlen.
  set (s1 := Sys.mk _ k _). assert (Hf1 : FileDescriptor.at_fd s1 h (FileDescriptor.after_read f no_limit data))
    by (by apply (FileDescriptor.at_fd_step _ f)).
  assert (Hw1 : inv (setf sys s1 w)).
  { apply (inv_sys_step w s1 [Got h data]); [done | | done | by repeat constructor |].
    - intros h' Hh'. by apply FileDescriptor.is_Some_insert.
    - exists []. split; [constructor | done]. }
  eapply wp_mono_exn; [apply (arrive_wp prefix side data (setf sys s1 w)); [done | done | lia] | | by intros e w' []].
  intros [] w' (Hw' & Es & Hg). split; [done |]. split; [done |]. exists f, (FileDescriptor.after_read f no_limit data).
  rewrite Es. split; [done |]. split; [done |]. simpl. apply not_eq_sym, u32_succ_ne.
Qed.

(** Taking the front frame off a queue. *)
Lemma front_pop side w :
  inv w -> pending side w -> 0 <= side < len (Router._interfaces (router w)) ->
  exists f, good_frame f /\ front side w = (Ok f, w) /\
    forall (s : Sys.t K) l, exists r', pop side (Lab7.mk s (router w) l) = (Ok tt, Lab7.mk s r' l) /\ sound_router routes r' /\
      len (Router._interfaces r') = len (Router._interfaces (router w)) /\
      forall other, other <> side -> zlookup (Router._interfaces r') other = zlookup (Router._interfaces (router w)) other.
Proof.
  intros Hw (a & Ha & Hne) Hside. destruct (Router.zlookup_Forall _ _ _ _ (sr_interfaces _ _ (inv_router _ Hw)) Ha) as [Hs Hq].
  destruct (NetworkInterface._frames_out (AsyncNetworkInterface.base a)) as [|f rest] eqn:Ef; [done |].
  pose proof (sound_frames _ Hs) as Hgood. rewrite Ef in Hgood. apply list.Forall_cons in Hgood as [Hf Hrest]. exists f. split; [done |].
  assert (Eask : forall (s : Sys.t K) l, frames side (Lab7.mk s (router w) l) = (Ok (f :: rest), Lab7.mk s (router w) l)).
  { intros s l. unfold frames, at_side, zoom. simpl. rewrite (Router.at_interface_asks _ _ a) by done.
    unfold NetworkInterface.frames_out. by rewrite Ef. }
  split. { unfold front, bind. destruct w as [s r l]. rewrite Eask. done. }
  intros s l. set (a' := setf AsyncNetworkInterface.base (setf NetworkInterface._frames_out rest (AsyncNetworkInterface.base a)) a).
  exists (Router.set_interface side a' (router w)). split; [| split; [| split]].
  - unfold pop, bind. rewrite Eask. unfold at_side, zoom at 1, Router.at_interface. simpl. rewrite Ha. done.
  - destruct (inv_router _ Hw) as [Hi ? ? ?]. split; simpl; rewrite ?len_zinsert; try done. apply Forall_insert; [done |].
    split; [| done]. destruct Hs. by split.
  - simpl. by rewrite len_zinsert.
  - intros other Hother. simpl. unfold zlookup, zinsert. case_decide; [| done]. apply list_lookup_insert_ne. lia.
Qed.

Lemma good_frame_len f : good_frame f -> len (BufferList.bytes (EthernetFrame.serialize f)) < 2 ^ 18.
Proof. intros [Hh Hs _]. by apply can_send_len. Qed.

Lemma good_frame_printed f : good_frame f -> len (BufferList.bytes (EthernetFrame.payload f)) < 2 ^ 64.
Proof. intros [_ Hs _]. unfold small_frame, small in Hs. lia. Qed.

(** The state after a frame has gone. *)
Lemma inv_sent w s r l tr :
  inv w -> (forall h, is_Some (Sys.wrappers (sys w) !! h) -> is_Some (Sys.wrappers s !! h)) ->
  Sys.trace s = Sys.trace (sys w) ++ tr -> Forall to_relay tr ->
  (exists fs, Forall good_frame fs /\ FileDescriptor.accepted (frame_fd c) tr = frames_bytes fs) ->
  sound_router routes r -> len (Router._interfaces r) = len (Router._interfaces (router w)) -> inv (Lab7.mk s r l).
Proof. intros Hw Hs Et Htr Hfs Hr Hl. destruct (inv_sys_step w s tr Hw Hs Et Htr Hfs). split; simpl in *; rewrite ?Hl; done. Qed.

Definition kept (side : Z) (w w' : W) : Prop := forall other, other <> side ->
  zlookup (Router._interfaces (router w')) other = zlookup (Router._interfaces (router w)) other.

Lemma u32_add_ne x j : 1 <= j < 2 ^ 32 -> u32 (x + j) <> x.
Proof. intros Hj E. unfold u32 in E. zarith. Qed.

Lemma to_host_wp w : inv w -> pending (host_side c) w ->
  wpe (to_host c) (fun _ w' => inv w' /\ kept (host_side c) w w' /\
    exists f f', FileDescriptor.at_fd (sys w) (frame_fd c) f /\ FileDescriptor.at_fd (sys w') (frame_fd c) f' /\
      FDWrapper._write_count f <> FDWrapper._write_count f') failed w.
Proof.
  intros Hw Hp. destruct (front_pop _ w Hw Hp (inv_host _ Hw)) as (f & Hf & Efront & Hpop). pose proof (good_frame_len f Hf) as Hlen.
  destruct (inv_frame_fd _ Hw) as [g Hg]. unfold to_host. wp_step. eapply wp_eq; [exact Efront |].
  wp_step. apply log_frame_wp; [by apply good_frame_printed | apply Hf |]. intros l.
  assert (Eviews : mjoin (BufferViewList.of_BufferList (EthernetFrame.serialize f)) = BufferList.bytes (EthernetFrame.serialize f))
    by apply BufferViewList.views_bytes.
  unfold on_sys. wp_step. wp_step.
  eapply FileDescriptor.write_loop_count_wp; [exact Hg | rewrite Eviews; lia | lia | rewrite Eviews; lia | lia | |]; rewrite Eviews.
  2:{ intros e s' tr He Et (d & -> & _). split; [by apply io_may_throw |]. apply (relayed_step (setf cerr l w) s' (Put (frame_fd c) <$> d)); [apply Hw | done |].
      by apply Forall_fmap, Forall_forall. }
  intros n k0 k tr _ Hn _ (ds & -> & Hds) (j & Hj & -> & _). rewrite Hn, ztake_ge in Hds by done.
  set (s1 := Sys.mk _ k _). destruct (Hpop s1 l) as (r' & Er' & Hr' & Hlr & Hother). eapply wp_eq; [exact Er' |].
  split; [| split; [done |]].
  - apply (inv_sent w s1 r' l (Put (frame_fd c) <$> ds)); try done.
    + intros h Hh. by apply FileDescriptor.is_Some_insert.
    + by apply Forall_fmap, Forall_forall.
    + exists [f]. split; [by constructor |]. rewrite FileDescriptor.accepted_puts, Hds. unfold frames_bytes. simpl. by rewrite app_nil_r.
  - exists g, (setf FDWrapper._write_count (u32 (FDWrapper._write_count g + j)) g). split; [done |].
    split; [by apply (FileDescriptor.at_fd_step _ g) |]. simpl. apply not_eq_sym, u32_add_ne. lia.
Qed.

Lemma to_internet_wp w : inv w -> pending (internet_side c) w ->
  wpe (to_internet c) (fun _ w' => inv w' /\ kept (internet_side c) w w' /\
    exists f f', FileDescriptor.at_fd (sys w) (internet_socket c) f /\ FileDescriptor.at_fd (sys w') (internet_socket c) f' /\
      FDWrapper._write_count f <> FDWrapper._write_count f') failed w.
Proof.
  intros Hw Hp. destruct (front_pop _ w Hw Hp (inv_internet _ Hw)) as (f & Hf & Efront & Hpop).
  destruct (inv_socket _ Hw) as [g Hg]. unfold to_internet. wp_step. eapply wp_eq; [exact Efront |].
  wp_step. apply log_frame_wp; [by apply good_frame_printed | apply Hf |]. intros l.
  assert (Eviews : mjoin (BufferViewList.of_BufferList (EthernetFrame.serialize f)) = BufferList.bytes (EthernetFrame.serialize f))
    by apply BufferViewList.views_bytes.
  unfold on_sys. wp_step. wp_step. eapply UDPSocket.sendto_wp; [exact Hg | |]; rewrite ?Eviews.
  2:{ intros e s' He Et. split; [by apply io_may_throw |].
      apply (relayed_step (setf cerr l w) s' []); [apply Hw | by rewrite app_nil_r | constructor]. }
  intros k. set (s1 := Sys.mk _ k _). destruct (Hpop s1 l) as (r' & Er' & Hr' & Hlr & Hother). eapply wp_eq; [exact Er' |].
  split; [| split; [done |]].
  - eapply (inv_sent w s1 r' l); try done.
    + intros h Hh. by apply FileDescriptor.is_Some_insert.
    + constructor; [| constructor]. split; [done |]. split; [done |]. by exists f.
    + exists []. split; [constructor | done].
  - eexists g, _. split; [done |]. split; [by apply (FileDescriptor.at_fd_step _ g) |]. simpl. apply not_eq_sym, u32_succ_ne.
Qed.

(** *** The event loop *)

Hypothesis sides_differ : host_side c <> internet_side c.

Lemma has_frames_query side w : inv w -> 0 <= side < len (Router._interfaces (router w)) ->
  exists b, has_frames side w = (Ok b, w) /\ (b = true -> pending side w).
Proof.
  intros Hw Hside. destruct (zlookup_lt_is_Some _ _ Hside) as [a Ha].
  exists (negb (bool_decide (NetworkInterface._frames_out (AsyncNetworkInterface.base a) = []))). split.
  - unfold has_frames, frames, at_side, bind, zoom. rewrite (Router.at_interface_asks _ _ a) by done. by destruct w.
  - intros Hb. exists a. split; [done |]. intros E. by rewrite E, bool_decide_true in Hb.
Qed.

Definition thread_specs : list (EventLoop.Rule W * (W -> Prop)) :=
  [(EventLoop.mk_rule (frame_fd c) EventLoop.In (from_host c) EventLoop.always EventLoop.no_cancel, fun _ => True);
   (EventLoop.mk_rule (frame_fd c) EventLoop.Out (to_host c) (has_frames (host_side c)) EventLoop.no_cancel, pending (host_side c));
   (EventLoop.mk_rule (internet_socket c) EventLoop.Out (to_internet c) (has_frames (internet_side c)) EventLoop.no_cancel,
      pending (internet_side c));
   (EventLoop.mk_rule (internet_socket c) EventLoop.In (from_internet c) EventLoop.always EventLoop.no_cancel, fun _ => True)].

Lemma thread_rules_ok : Forall (EventLoop.rule_ok (fun _ => inv) failed) thread_specs.
Proof.
  unfold thread_specs. rewrite !list.Forall_cons. split_and!; [split; simpl .. | constructor];
    try done; try apply inv_frame_fd; try apply inv_socket; try (by intros w _; exists true).
  - intros k w Hw _. eapply wp_mono; [apply from_wp; [done | apply Hw | apply Hw] |].
    intros [] w' (Hw' & _ & Hs). split; [done | by left].
  - intros w Hw. apply has_frames_query; [done | apply Hw].
  - intros k w Hw Hp. eapply wp_mono; [by apply to_host_wp |]. intros [] w' (Hw' & _ & Hs). split; [done | by left].
  - intros w Hw. apply has_frames_query; [done | apply Hw].
  - intros k w Hw Hp. eapply wp_mono; [by apply to_internet_wp |]. intros [] w' (Hw' & _ & Hs). split; [done | by left].
  - intros k w Hw _. eapply wp_mono; [apply from_wp; [done | apply Hw | apply Hw] |].
    intros [] w' (Hw' & _ & Hs). split; [done | by left].
Qed.

(** Frames that wait are not taken by other rules. *)
Lemma from_keeps prefix h side other w : inv w -> 0 <= side < len (Router._interfaces (router w)) ->
  is_Some (Sys.wrappers (sys w) !! h) -> pending other w ->
  wpe (let* data := on_sys (FileDescriptor.read h no_limit) in arrive c prefix side data) (fun _ => pending other) (fun _ _ => True) w.
Proof.
  intros Hw Hs Hh Hp. eapply wp_mono_exn; [by apply from_wp | | done]. intros [] w' (_ & Hg & _). by eapply grown_pending.
Qed.

Lemma kept_pending side other w w' : kept side w w' -> other <> side -> pending other w -> pending other w'.
Proof. intros Hk Ho (a & Ha & Hne). exists a. by rewrite Hk. Qed.

Lemma thread_rules_compatible : EventLoop.compatible (fun _ => inv) thread_specs.
Proof.
  assert (Hhost : forall w, inv w -> pending (host_side c) w -> pending (internet_side c) w ->
    wpe (to_host c) (fun _ => pending (internet_side c)) (fun _ _ => True) w).
  { intros w Hw Hp Hq. eapply wp_mono_exn; [by apply to_host_wp | | done]. intros [] w' (_ & Hk & _). by eapply kept_pending. }
  assert (Hnet : forall w, inv w -> pending (internet_side c) w -> pending (host_side c) w ->
    wpe (to_internet c) (fun _ => pending (host_side c)) (fun _ _ => True) w).
  { intros w Hw Hp Hq. eapply wp_mono_exn; [by apply to_internet_wp | | done]. intros [] w' (_ & Hk & _). by eapply kept_pending. }
  unfold thread_specs. repeat first [apply FOP_cons | apply FOP_nil | apply List.Forall_cons; [split |] | apply List.Forall_nil];
    split; simpl; intros w Hw; intros; try done;
    first [by apply wp_true | by apply Hhost | by apply Hnet | by apply from_keeps; [| apply Hw | apply Hw |]].
Qed.

Lemma thread_inv_kernel w k : inv w -> inv (EventLoop.set_kernel k w).
Proof. by intros []. Qed.

Lemma inv_poll_failed w : inv w -> failed EventLoop.poll_failed w.
Proof. intros Hw. split; [by right; left | apply Hw]. Qed.

Lemma tick_side_wp side l (Q : unit -> EventLoop.t W -> Prop) E :
  inv (EventLoop.world l) -> 0 <= side < len (Router._interfaces (router (EventLoop.world l))) ->
  (forall w', inv w' -> len (Router._interfaces (router w')) = len (Router._interfaces (router (EventLoop.world l))) ->
     Q tt (setf EventLoop.world w' l)) ->
  wpe (zoom EventLoop.world (at_side side (zoom AsyncNetworkInterface.base (NetworkInterface.tick 50)))) Q E l.
Proof.
  intros Hw Hs HQ. unfold at_side. wp_step. wp_step.
  eapply wp_mono_exn; [apply (tick_router_any routes _ side 50 (fun _ r' => sound_router routes r' /\
    all_grown (router (EventLoop.world l)) r') (fun _ => False)); [apply Hw | done | done] | | done]. intros [] r' [Hr' Hg].
  apply HQ; [by apply inv_router_step | by apply (all_grown_len _ _ Hg)].
Qed.

Lemma thread_loop_wp turns : forall specs l,
  specs `sublist_of` thread_specs -> EventLoop._rules l = specs.*1 -> inv (EventLoop.world l) ->
  wpe (thread_loop c turns) (fun _ l' => inv (EventLoop.world l')) (fun e l' => failed e (EventLoop.world l')) l.
Proof.
  induction turns as [|turns IH]; intros specs l Hsub Hrules Hw; cbn [thread_loop]; [by wp_step |].
  wp_step. eapply wp_mono_exn; [apply (EventLoop.wait_next_event_wp (fun _ => inv) failed) with (m := 0%nat) (specs := specs) | |].
  - done.
  - eapply EventLoop.compatible_sublist; [exact Hsub | apply thread_rules_compatible].
  - eapply EventLoop.sublist_keeps; [exact Hsub | apply thread_rules_ok].
  - intros _ w k. apply thread_inv_kernel.
  - done.
  - done.
  - intros result l1 (left & Hleft & Hr1 & Hw1). apply wp_if; intros _; [unfold log; wp_step; wp_step; wp_step; wp_step; by destruct Hw1 |].
    wp_step. apply tick_side_wp; [done | apply Hw1 |]. intros w2 Hw2 _. wp_step. apply tick_side_wp; [exact Hw2 | apply Hw2 |].
    intros w3 Hw3 _. wp_step. wp_step. apply wp_if; intros _; [by wp_step |].
    apply (IH left); [by etrans | done | done].
  - intros e l1 [He | [-> Hw1]]; [done | by apply inv_poll_failed].
Qed.

(** The body of the [try]. *)
Lemma network_thread_body_wp turns w : inv w ->
  wpe (network_thread_body c turns) (fun _ l' => relayed (EventLoop.world l'))
    (fun e l' => failed e (EventLoop.world l')) (EventLoop.mk [] w).
Proof.
  intros Hw. unfold network_thread_body, add_rules. wp_step. unfold EventLoop.add_rule, FileDescriptor.duplicate.
  do 7 wp_step. eapply wp_mono; [by apply (thread_loop_wp turns thread_specs) |].
  intros b l' Hw'. apply Hw'.
Qed.

(** The whole thread: it returns. *)
Lemma network_thread_wp turns w : inv w ->
  wp (network_thread c turns) (fun _ l' => relayed (EventLoop.world l')) (EventLoop.mk [] w).
Proof.
  intros Hw. unfold network_thread. apply wp_try_catch.
  eapply wp_mono_exn; [by apply network_thread_body_wp | done |].
  intros e l' [He Hr]. rewrite (may_throw_exception e He). unfold log. do 4 wp_step. exact Hr.
Qed.
End safety.
End ThreadSafety.

(** ** The set-up *)

(** [inet_ntoa] prints four decimal numbers with dots between them. *)
Class DottedDecimal `{Address.Netdb} : Prop := inet_ntoa_quad bs : len bs = 4 -> Address.inet_ntoa bs = Address.quad bs.
#[export] Instance numeric_dotted : DottedDecimal (H := Address.numeric_netdb).
Proof. by intros bs _. Qed.

Module SetUp.
Import Lab7 AnyRouter.

Lemma of_node_exception `{Address.Netdb} node service hints e : Address.of_node node service hints = Throw e -> is_exception e = true.
Proof.
  unfold Address.of_node. destruct (Address.getaddrinfo _ _ _) as [r [|[a n] l]]; destruct (negb _); try (by intros [= <-]).
  unfold Address.of_sockaddr. destruct (_ <? n); [by intros [= <-] | done].
Qed.

Lemma base_new_exception `{Address.Netdb} e : FdAdapterBase.new = Throw e -> is_exception e = true.
Proof.
  unfold FdAdapterBase.new, FdAdapterConfig.default, Address.of_ip_port.
  destruct (Address.of_node _ _ _) as [a|e'] eqn:E; cbn [mbind outcome_bind]; [done |].
  intros [= <-]. by eapply of_node_exception.
Qed.

(** *** Descriptors *)

Section descriptors.
Context {K : Type} `{Kernel K}.
Notation failing := (fun (e : exn) (_ : Sys.t K) => is_exception e = true).

(** New descriptors, and no traffic. *)
Record opens (s s' : Sys.t K) : Prop := {
  op_wrappers : Sys.wrappers s `prefix_of` Sys.wrappers s';
  op_trace : Sys.trace s' = Sys.trace s
}.
#[global] Instance opens_preorder : PreOrder opens.
Proof. split; [by intros s; split | intros s1 s2 s3 [? ?] [? ?]; split; [by etrans | congruence]]. Qed.

Lemma opens_kernel s k : opens s (setf Sys.kernel k s).
Proof. by split. Qed.

Lemma opens_Some s s' h : opens s s' -> is_Some (Sys.wrappers s !! h) -> is_Some (Sys.wrappers s' !! h).
Proof. intros [Hp _] [f Hf]. exists f. by eapply prefix_lookup_Some. Qed.

Lemma new_opens fd s : wpe (FileDescriptor.new fd) (fun h s' => opens s s' /\ is_Some (Sys.wrappers s' !! h)) failing s.
Proof.
  unfold FileDescriptor.new. wp_step. unfold of_outcome, wpe, FDWrapper.new. destruct (_ <? 0); [done |]. simpl.
  split; [split; [by eexists | done] |]. exists (FDWrapper.mk fd false false 0 0). by apply list_lookup_middle.
Qed.

Lemma system_call_any attempt r mask s (Q : Z -> Sys.t K -> Prop) :
  (forall z, Q z s) -> wpe (of_outcome (SystemCall attempt r mask)) Q failing s.
Proof. intros HQ. apply FileDescriptor.system_call_wp; [by intros _ | done]. Qed.

Lemma pair_opens type s :
  wpe (TCPSpongeSocket.socket_pair_helper type) (fun p s' => opens s s' /\ is_Some (Sys.wrappers s' !! p.1) /\
    is_Some (Sys.wrappers s' !! p.2)) failing s.
Proof.
  unfold TCPSpongeSocket.socket_pair_helper. wp_step. apply FileDescriptor.call_wp. intros k _.
  destruct (sys_socketpair _ _ _).1 as [r [fd0 fd1]]. cbv beta iota. wp_step. apply system_call_any. intros _.
  wp_step. eapply wp_mono; [apply new_opens |]. intros h0 s1 [Ho1 Hs1]. wp_step. eapply wp_mono; [apply new_opens |].
  intros h1 s2 [Ho2 Hs2]. wp_step. split; [| split; [by eapply opens_Some | done]].
  transitivity s1; [| done]. by transitivity (setf Sys.kernel k s).
Qed.

Lemma of_fd_opens h domain type s : is_Some (Sys.wrappers s !! h) ->
  wpe (Socket.of_fd h domain type) (fun h' s' => h' = h /\ opens s s') failing s.
Proof.
  intros [f Hf]. unfold Socket.of_fd. wp_step. eapply FileDescriptor.fd_num_wp; [exact Hf |].
  wp_step. apply FileDescriptor.call_wp. intros k _. destruct (sys_getsockopt _ _ _ _).1 as [r [v l]]. cbv beta iota.
  wp_step. apply system_call_any. intros _. apply wp_if; intros _; [by wp_step |].
  wp_step. apply FileDescriptor.call_wp. intros k2 _. destruct (sys_getsockopt _ _ _ _).1 as [r2 [v2 l2]]. cbv beta iota.
  wp_step. apply system_call_any. intros _. apply wp_if; intros _; wp_step; by repeat split.
Qed.

Lemma socket_opens {A} `{FdAdapter K A} `{Address.Netdb} `{Owner K} (a : A) s :
  wpe (TCPSpongeSocket.new a) (fun sock s' => opens s s' /\
    forall s2, TCPSpongeSocket._datagram_adapter (EventLoop.world (sock s2)) = a) failing s.
Proof.
  unfold TCPSpongeSocket.new, LocalStreamSocket.of_fd. wp_step. eapply wp_mono; [apply pair_opens |].
  intros [h0 h1] s1 (Ho1 & Hs0 & Hs1). cbv beta iota. wp_step. eapply wp_mono; [by apply of_fd_opens |].
  intros h s2 [-> Ho2]. wp_step. eapply wp_mono; [by apply of_fd_opens; eapply opens_Some |].
  intros h' s3 [-> Ho3]. destruct (opens_Some s1 s3 h1) as [f Hf]; [by transitivity s2 | done |].
  wp_step. eapply FileDescriptor.set_blocking_wp; [exact Hf | | by intros e s' He _; apply ThreadSafety.io_exception].
  intros k. wp_step. split; [| done]. transitivity s1; [done |]. transitivity s2; [done |]. by transitivity s3.
Qed.
End descriptors.

(** *** Random addresses *)

Section random.
Context {G : Type} `{Rng G}.

Lemma random_bytes_wp n (g : G) : wp (random_bytes n) (fun bs _ => length bs = n /\ Forall is_u8 bs) g.
Proof.
  revert g. induction n as [|n IH]; intros g; cbn [random_bytes]; [by wp_step |].
  destruct (next g) as [x g1] eqn:Eg. wp_step. apply (wp_eq draw (u32 x) g g1); [unfold draw; by rewrite Eg |]. wp_step.
  eapply wp_mono; [apply IH |]. intros bs g2 [Hl Hbs]. wp_step. split; [by simpl; rewrite Hl |]. constructor; [apply u8_range | done].
Qed.

Lemma random_router_wp (g : G) : wp random_router_ethernet_address (fun mac _ => address_wf mac) g.
Proof.
  unfold random_router_ethernet_address. wp_step. eapply wp_mono; [apply random_bytes_wp |].
  intros [|b0 [|b1 [|b2 rest]]] g' [Hl Hb]; try done. wp_step. rewrite !list.Forall_cons in Hb.
  split; [done |]. rewrite !list.Forall_cons. unfold is_u8. split_and!; (done || apply Hb).
Qed.

Lemma random_host_wp (g : G) : wp random_host_ethernet_address (fun mac _ => address_wf mac) g.
Proof.
  unfold random_host_ethernet_address. wp_step. eapply wp_mono; [apply random_bytes_wp |].
  intros [|b0 rest] g' [Hl Hb]; try done. wp_step. apply list.Forall_cons in Hb as [_ Hb].
  split; [done |]. constructor; [| done]. unfold is_u8. change 0xfe with (Z.land 0xfe (Z.ones 8)).
  rewrite Z.land_assoc, Z.land_ones by lia. by apply Z.mod_pos_bound.
Qed.
End random.

(** *** The router *)

Definition ip4 (a b c d : Z) : Z := ((a * 256 + b) * 256 + c) * 256 + d.

(** The routes: the own network, the network between the routers, and the peer's network
    behind the peer's router. *)
Definition lab7_routes (is_client : bool) (hop : Address.t) : list RouteEntry.t :=
  if is_client then
    [RouteEntry.mk (ip4 192 168 0 0) 16 None 0; RouteEntry.mk (ip4 10 0 0 0) 8 None 1;
     RouteEntry.mk (ip4 172 16 0 0) 12 (Some hop) 1]
  else
    [RouteEntry.mk (ip4 172 16 0 0) 12 None 0; RouteEntry.mk (ip4 10 0 0 0) 8 None 1;
     RouteEntry.mk (ip4 192 168 0 0) 16 (Some hop) 1].

(** The addresses of the two sides of a router. *)
Definition host_ip (is_client : bool) : Z := if is_client then ip4 192 168 0 1 else ip4 172 16 0 1.
Definition internet_ip (is_client : bool) : Z := if is_client then ip4 10 0 0 192 else ip4 10 0 0 172.

Record router_ready (is_client : bool) (r : Router.t) : Prop := {
  ready_interfaces : exists mac1 mac2 a1 a2, address_wf mac1 /\ address_wf mac2 /\
    Address.inet a1 (host_ip is_client) 0 /\ Address.inet a2 (internet_ip is_client) 0 /\
    Router._interfaces r = [AsyncNetworkInterface.of_interface (NetworkInterface.new mac1 a1);
                            AsyncNetworkInterface.of_interface (NetworkInterface.new mac2 a2)];
  ready_routes : exists hop, Address.inet hop (internet_ip (negb is_client)) 0 /\
    RoutingTrie.represents (lab7_routes is_client hop) (Router._route_table r)
}.

Section router.
Context {G : Type} `{Rng G} `{Address.Netdb} `{!Address.NetdbNumeric, !DottedDecimal}.

Lemma address_literal str n : 0 <= n < 2 ^ 32 -> Address.quad (be_bytes 4 n) = str ->
  exists a, address_of str = Ok a /\ Address.inet a n 0.
Proof.
  intros Hn <-. rewrite <- inet_ntoa_quad by apply len_be_bytes. by apply Address.of_ip_port_numeric.
Qed.

Lemma add_interface_wp str n g r (Q : Z -> G * Router.t -> Prop) :
  0 <= n < 2 ^ 32 -> Address.quad (be_bytes 4 n) = str ->
  (forall mac a g', address_wf mac -> Address.inet a n 0 ->
     Q (len (Router._interfaces r)) (g', setf Router._interfaces
       (Router._interfaces r ++ [AsyncNetworkInterface.of_interface (NetworkInterface.new mac a)]) r)) ->
  wp (add_interface str) Q (g, r).
Proof.
  intros Hn Hs HQ. unfold add_interface. wp_step. wp_step. eapply wp_mono; [apply random_router_wp |]. intros mac g' Hm.
  destruct (address_literal str n Hn Hs) as (a & Ea & Ha). wp_step. eapply wp_of_outcome; [exact Ea |].
  wp_step. unfold Router.add_interface. do 4 wp_step. simpl. rewrite len_app. change (len [_]) with 1.
  rewrite Z.add_simpl_r. by apply HQ.
Qed.

Lemma add_route_wp prefix n l hop routes id g r (Q : unit -> G * Router.t -> Prop) :
  0 <= n < 2 ^ 32 -> Address.quad (be_bytes 4 n) = prefix -> 0 <= l <= 32 ->
  match hop with Some (str, m) => 0 <= m < 2 ^ 32 /\ Address.quad (be_bytes 4 m) = str | None => True end ->
  RoutingTrie.represents routes (Router._route_table r) ->
  (forall a root, match hop, a with Some (_, m), Some a => Address.inet a m 0 | None, None => True | _, _ => False end ->
     RoutingTrie.represents (routes ++ [RouteEntry.mk n l a id]) root -> Q tt (g, setf Router._route_table root r)) ->
  wp (add_route prefix l (fst <$> hop) id) Q (g, r).
Proof.
  intros Hn Hp Hl Hhop Hr HQ. unfold add_route. destruct (address_literal prefix n Hn Hp) as (a & Ea & Ha).
  wp_step. unfold ip. rewrite Ea. cbn [mbind outcome_bind]. eapply wp_of_outcome; [by apply (Address.inet_numeric a n 0) |].
  assert (Hins : forall h, match hop, h with Some (_, m), Some a => Address.inet a m 0 | None, None => True | _, _ => False end ->
    wp (zoom snd (Router.add_route n l h id)) Q (g, r)).
  { intros h Hh. destruct (RoutingTrie.represents_insert routes _ (RouteEntry.mk n l h id) Hr) as (root & Eroot & Hroot); [done |].
    wp_step. unfold Router.add_route. wp_step. wp_step. wp_step. eapply wp_of_outcome; [exact Eroot |]. wp_step. by apply (HQ h root). }
  destruct hop as [[str m]|]; wp_step; [| apply wp_pure; by apply Hins].
  destruct Hhop as [Hm Hs]. destruct (address_literal str m Hm Hs) as (b & Eb & Hb).
  cbn [fmap option_fmap option_map fst]. wp_step. eapply wp_of_outcome; [exact Eb |]. wp_step. by apply Hins.
Qed.

Lemma set_up_router_wp is_client (g : G) :
  wp (set_up_router is_client) (fun sides gr => sides = (0, 1) /\ router_ready is_client gr.2) (g, Router.new).
Proof.
  destruct is_client; unfold set_up_router; wp_step.
  - eapply (add_interface_wp _ (ip4 192 168 0 1)); [done | reflexivity |]. intros mac1 a1 g1 Hm1 Ha1.
    wp_step. eapply (add_interface_wp _ (ip4 10 0 0 192)); [done | reflexivity |]. intros mac2 a2 g2 Hm2 Ha2.
    wp_step. eapply (add_route_wp _ (ip4 192 168 0 0) 16 None); [done | reflexivity | lia | done | apply RoutingTrie.represents_new |].
    intros [] r1 Hh1 Hr1; [done |]. wp_step. eapply (add_route_wp _ (ip4 10 0 0 0) 8 None); [done | reflexivity | lia | done | exact Hr1 |].
    intros [] r2 Hh2 Hr2; [done |]. wp_step. eapply (add_route_wp _ (ip4 172 16 0 0) 12 (Some (_, ip4 10 0 0 172)));
      [done | reflexivity | lia | by split; [| reflexivity] | exact Hr2 |].
    intros [hop|] r3 Hh3 Hr3; [| done]. wp_step. split; [done |]. split.
    + exists mac1, mac2, a1, a2. done.
    + by exists hop.
  - eapply (add_interface_wp _ (ip4 172 16 0 1)); [done | reflexivity |]. intros mac1 a1 g1 Hm1 Ha1.
    wp_step. eapply (add_interface_wp _ (ip4 10 0 0 172)); [done | reflexivity |]. intros mac2 a2 g2 Hm2 Ha2.
    wp_step. eapply (add_route_wp _ (ip4 172 16 0 0) 12 None); [done | reflexivity | lia | done | apply RoutingTrie.represents_new |].
    intros [] r1 Hh1 Hr1; [done |]. wp_step. eapply (add_route_wp _ (ip4 10 0 0 0) 8 None); [done | reflexivity | lia | done | exact Hr1 |].
    intros [] r2 Hh2 Hr2; [done |]. wp_step. eapply (add_route_wp _ (ip4 192 168 0 0) 16 (Some (_, ip4 10 0 0 192)));
      [done | reflexivity | lia | by split; [| reflexivity] | exact Hr2 |].
    intros [hop|] r3 Hh3 Hr3; [| done]. wp_step. split; [done |]. split.
    + exists mac1, mac2, a1, a2. done.
    + by exists hop.
Qed.

Lemma lab7_routes_wf is_client hop n : Address.inet hop n 0 -> Forall (Router.route_wf 2) (lab7_routes is_client hop).
Proof.
  intros Hh. assert (Hip : exists ip, Address.ipv4_numeric hop = Ok ip) by (exists n; by apply (Address.inet_numeric hop n 0)).
  destruct is_client; unfold lab7_routes; rewrite !list.Forall_cons; split_and!; try (by split; [simpl; lia |]); try constructor;
    simpl; try lia; by intros ? [= <-].
Qed.

Lemma ready_sound is_client r : router_ready is_client r -> exists routes, sound_router routes r /\ len (Router._interfaces r) = 2.
Proof.
  intros [(mac1 & mac2 & a1 & a2 & Hm1 & Hm2 & Ha1 & Ha2 & Ei) (hop & Hhop & Ht)]. exists (lab7_routes is_client hop).
  split; [| by rewrite Ei]. split; rewrite ?Ei; try done.
  - rewrite !list.Forall_cons. split_and!; [split .. | done]; try constructor; simpl; try (by eapply new_sound; [| by eapply Address.inet_numeric]).
  - by eapply lab7_routes_wf.
Qed.
End router.

(** *** The whole set-up *)

Section set_up.
Context {K G : Type} `{LinuxIO K} `{Rng G} `{Address.Netdb} `{!Address.NetdbNumeric, !DottedDecimal} `{Owner K} `{MainThread K}.

Definition greeting (h : nat) (a : Address.t) : io := Sent h (Some a) [].

Lemma open_internet_wp host port (s : Sys.t K) :
  wpe (open_internet host port) (fun p s' => is_Some (Sys.wrappers s' !! p.1) /\
      Sys.trace s' = Sys.trace s ++ replicate 3 (greeting p.1 p.2))
    (fun e _ => is_exception e = true) s.
Proof.
  assert (Hsend : forall h a s1 (Q : unit -> Sys.t K -> Prop), is_Some (Sys.wrappers s1 !! h) ->
    (forall s2, is_Some (Sys.wrappers s2 !! h) -> Sys.trace s2 = Sys.trace s1 ++ [greeting h a] -> Q tt s2) ->
    wpe (UDPSocket.sendto h a (BufferViewList.of_string_view [])) Q (fun e _ => is_exception e = true) s1).
  { intros h a s1 Q [f Hf] HQ. eapply UDPSocket.sendto_wp; [exact Hf | | by intros e s' He _; apply ThreadSafety.io_exception].
    intros k. apply HQ; [| done]. eexists. by apply (FileDescriptor.at_fd_step _ f). }
  unfold open_internet, UDPSocket.new, Socket.new. wp_step. wp_step. apply FileDescriptor.call_wp. intros k _. wp_step.
  apply system_call_any. intros fd. eapply wp_mono; [apply new_opens |]. intros h s1 [[_ Et] Hh].
  wp_step. apply wp_outcome. destruct (Address.of_hostname host port) as [a|e] eqn:Ea; [| by eapply of_node_exception].
  wp_step. apply Hsend; [done |]. intros s2 Hh2 Et2. wp_step. apply Hsend; [done |]. intros s3 Hh3 Et3.
  wp_step. apply Hsend; [done |]. intros s4 Hh4 Et4. wp_step. split; [done |]. simpl in *.
  rewrite Et4, Et3, Et2, Et, <- !app_assoc. done.
Qed.

Lemma set_up_socket_wp is_client (g : G) (s : Sys.t K) :
  wpe (set_up_socket is_client) (fun sock gs => opens s gs.2 /\
      forall s2, is_Some (Sys.wrappers gs.2 !! NetworkInterfaceAdapter.frame_fd (TCPSocketLab7.adapter (sock s2))))
    (fun e _ => is_exception e = true) (g, s).
Proof.
  unfold set_up_socket, address_of, Address.of_ip_port. wp_step. apply wp_outcome.
  destruct (Address.of_node _ _ _) as [a|e] eqn:Ea; [| by eapply of_node_exception].
  wp_step. apply wp_outcome. destruct (Address.of_node (if is_client then "192.168.0.1" else _) _ _) as [hop|e] eqn:Eh; [| by eapply of_node_exception].
  unfold TCPSocketLab7.new, NetworkInterfaceAdapter.new. wp_step. wp_step. apply wp_outcome.
  destruct FdAdapterBase.new as [b|e] eqn:Eb; [| by eapply base_new_exception].
  wp_step. wp_step. eapply wp_mono_exn; [apply random_host_wp | | done]. intros mac g1 Hm.
  wp_step. wp_step. eapply wp_mono; [apply pair_opens |]. intros p s1 (Ho1 & _ & Hp). wp_step.
  wp_step. wp_step. eapply wp_mono; [apply socket_opens |]. intros sock s2 [Ho2 Ead]. wp_step.
  split; [by transitivity s1 |]. intros s3. unfold TCPSocketLab7.adapter. simpl. rewrite Ead. simpl. by eapply opens_Some.
Qed.

Lemma set_up_wp is_client host port debug (g : G) (s : Sys.t K) :
  wpe (set_up is_client host port debug) (fun '(c, r, _) gs =>
      Lab7.debug c = debug /\ host_side c = 0 /\ internet_side c = 1 /\ router_ready is_client r /\
      is_Some (Sys.wrappers gs.2 !! frame_fd c) /\ is_Some (Sys.wrappers gs.2 !! internet_socket c) /\
      Sys.trace gs.2 = Sys.trace s ++ replicate 3 (greeting (internet_socket c) (bounce_address c)))
    (fun e _ => is_exception e = true) (g, s).
Proof.
  unfold set_up. wp_step. wp_step. eapply wp_mono; [apply open_internet_wp |]. intros [h a] s1 [Hh Et]. cbv beta iota.
  wp_step. wp_step. pose proof (set_up_router_wp is_client g) as Hrouter. simpl fst. unfold wpe in Hrouter.
  destruct (set_up_router is_client (g, Router.new)) as [[[hs ins]|e] [g1 r]]; [| done]. destruct Hrouter as [[= -> ->] Hr].
  wp_step. wp_step. wp_step. eapply wp_of_outcome; [done |]. cbv beta iota.
  wp_step. eapply wp_mono; [apply set_up_socket_wp |]. intros sock [g2 s2] [Ho Hfd]. wp_step. wp_step. wp_step.
  split_and!; try done; [apply Hfd | by eapply opens_Some |]. simpl in *. destruct Ho as [_ ->]. exact Et.
Qed.
End set_up.
End SetUp.

(** ** Properties *)

Section properties.
Context {K G : Type} `{LinuxIO K} `{Rng G} `{Address.Netdb} `{!Address.NetdbNumeric, !DottedDecimal} `{Owner K} `{MainThread K}.

(** [C24] The network thread survives any traffic: whatever the host, the Internet and the kernel
    do, and with debugging output or without, the body of the thread's [try], in a program
    that has been set up, returns from any number of turns of its loop or throws an error of
    the system, the error of a polled descriptor, or one of the two errors of writing a
    datagram, and nothing else: no frame makes it take from an empty queue, print a frame
    that cannot be printed, trip the loop's check for busy waits, or run without end while it
    routes.  The thread itself catches and prints these exceptions and returns.  Either way,
    after the three greetings, all it ever sends are Ethernet frames that can be
    parsed, each in one datagram to the relay.  The set-up itself returns or throws. *)
Theorem network_thread_safe is_client host port debug turns (g : G) (s : Sys.t K) :
  wpe (Lab7.set_up is_client host port debug)
    (fun '(c, r, _) gs =>
       let l0 := EventLoop.mk [] (Lab7.mk gs.2 r []) in
       let relayed (l : EventLoop.t (Lab7.t K)) := exists tr, Sys.trace (Lab7.sys (EventLoop.world l)) =
              (Sys.trace s ++ replicate 3 (SetUp.greeting (Lab7.internet_socket c) (Lab7.bounce_address c))) ++ tr /\
            Forall (ThreadSafety.to_relay c) tr in
       wpe (Lab7.network_thread_body c turns) (fun _ l => relayed l)
         (fun e l => (FileDescriptor.io_error e \/ e = EventLoop.poll_failed \/ IPv4Datagram.unwritable e) /\ relayed l) l0 /\
       wp (Lab7.network_thread c turns) (fun _ l => relayed l) l0)
    (fun e _ => is_exception e = true) (g, s).
Proof.
  eapply wp_mono; [apply SetUp.set_up_wp |]. intros [[c r] sock] gs (_ & Eh & Ei & Hr & Hf & Hs & Et).
  destruct (SetUp.ready_sound is_client r Hr) as (routes & Hsound & Hlen).
  set (start := Sys.trace s ++ replicate 3 (SetUp.greeting (Lab7.internet_socket c) (Lab7.bounce_address c))).
  assert (Hinv : ThreadSafety.inv c routes start (Lab7.mk gs.2 r [])).
  { split; simpl; rewrite ?Eh, ?Ei, ?Hlen, ?Et; try done; exists []; rewrite app_nil_r; [done |]. exists []. done. }
  split; [apply (ThreadSafety.network_thread_body_wp c routes start) | apply (ThreadSafety.network_thread_wp c routes start)];
    try done; by rewrite Eh, Ei.
Qed.
End properties.

(** ** Witness

    The client; its host asks for the router's Ethernet address, and the router answers. *)

Section witness.
#[local] Existing Instance Address.numeric_netdb.
#[local] Existing Instance Address.numeric_netdb_numeric.
#[local] Instance lab7_lcg : Rng Z := fun g => let g' := (g * 1103515245 + 12345) mod 2 ^ 31 in (g', g').
#[local] Instance lab7_owner : Owner Script.t := fun _ => false.
#[local] Instance lab7_main_thread : MainThread Script.t := fun _ => false.

Definition host_request : list byte :=
  BufferList.bytes (EthernetFrame.serialize (EthernetFrame.mk
    (EthernetHeader.mk ETHERNET_BROADCAST mac_a EthernetHeader.TYPE_ARP)
    (BufferList.of_string (ARPMessage.image (NetworkInterface.arp_request mac_a (SetUp.ip4 192 168 0 50) (SetUp.ip4 192 168 0 1)))))).

Definition lab7_system : Sys.t Script.t :=
  Sys.mk [] (Script.mk [host_request] 2000 []
    [[EventLoop.POLLIN; 0; 0; 0]; [0; EventLoop.POLLOUT; 0; 0]] 0) [].

Local Notation lab7_run := (Lab7.set_up true "10.1.2.3" "5000" true (1, lab7_system)).

Lemma lab7_set_up : exists c r sock gs, lab7_run = (Ok (c, r, sock), gs).
Proof.
  assert (Eo : match fst lab7_run with Ok _ => true | _ => false end = true) by (vm_compute; reflexivity).
  destruct lab7_run as [[[[c r] sock]|e] gs]; [by eexists _, _, _, _ | discriminate Eo].
Qed.

Lemma wp_value {S A} (m : M S A) Q E s a s' : m s = (Ok a, s') -> wpe m Q E s -> Q a s'.
Proof. unfold wpe. by intros ->. Qed.

Lemma network_thread_safe_witness : exists c r sock gs, lab7_run = (Ok (c, r, sock), gs) /\
  let l0 := EventLoop.mk [] (Lab7.mk gs.2 r []) in
  let relayed (l : EventLoop.t (Lab7.t Script.t)) := exists tr, Sys.trace (Lab7.sys (EventLoop.world l)) =
         replicate 3 (SetUp.greeting (Lab7.internet_socket c) (Lab7.bounce_address c)) ++ tr /\
       Forall (ThreadSafety.to_relay c) tr in
  wpe (Lab7.network_thread_body c 2) (fun _ l => relayed l)
    (fun e l => (FileDescriptor.io_error e \/ e = EventLoop.poll_failed \/ IPv4Datagram.unwritable e) /\ relayed l) l0 /\
  wp (Lab7.network_thread c 2) (fun _ l => relayed l) l0.
Proof.
  destruct lab7_set_up as (c & r & sock & gs & Er). exists c, r, sock, gs. split; [exact Er |].
  exact (wp_value _ _ _ _ _ _ Er (network_thread_safe true "10.1.2.3" "5000" true 2 1 lab7_system)).
Defined.

(** What the host is given: the router's answer, in one frame. *)
Example router_answers : exists reply,
  match lab7_run with
  | (Ok (c, r, _), gs) =>
      let l := snd (Lab7.network_thread c 2 (EventLoop.mk [] (Lab7.mk gs.2 r []))) in
      FileDescriptor.accepted (Lab7.frame_fd c) (Sys.trace (Lab7.sys (EventLoop.world l)))
  | _ => []
  end = reply /\ len reply = 42.
Proof. eexists. vm_compute. split; reflexivity. Qed.
End witness.
