(* ===== verification/lab7_delivery.v ===== *)
(** * apps/lab7: from host to host

    A segment goes from one host through its router, across the relay and through the
    router of the peer to the peer's host: the adapters, both routers and the frames between
    them composed, in either direction. *)

From S2P Require Import prelude buffer parser wire_format checksum wrapping_integers tcp_segment ethernet arp_message ipv4 icmp_message address network_interface router file_descriptor fd_adapter ethernet_adapter eventloop network_simulator router_safety lab7.

(** ** A datagram in a frame *)

(** The bytes of the frame [f] are received by the interface [n] as the frame [fr], which has
    the datagram [d] in it. *)
Record carried (n : NetworkInterface.t) (f fr : EthernetFrame.t) (d : IPv4Datagram.t) : Prop := {
  ca_parse : EthernetFrame.parse (Buffer.of_string (BufferList.bytes (EthernetFrame.serialize f))) EthernetFrame.default = Ok (NoError, fr);
  ca_received : exists b, EthernetFrame.payload fr = [b] /\ Buffer.wf b;
  ca_recv : NetworkInterface.recv_frame fr n = (Ok (Some d), n);
  ca_payload : exists pl, IPv4Datagram._payload d = [pl] /\ Buffer.wf pl;
  ca_wf : IPv4Datagram.wf d
}.

(** The datagram [d] later: with the time to live [t], and another checksum. *)
Definition alike (d : IPv4Datagram.t) (t : Z) (d' : IPv4Datagram.t) : Prop :=
  (exists ck, IPv4Datagram.header d' = setf IPv4Header.cksum ck (setf IPv4Header.ttl t (IPv4Datagram.header d))) /\
  BufferList.bytes (IPv4Datagram.payload d') = BufferList.bytes (IPv4Datagram.payload d).

Lemma alike_refl d : alike d (IPv4Header.ttl (IPv4Datagram.header d)) d.
Proof. split; [| done]. exists (IPv4Header.cksum (IPv4Datagram.header d)). by destruct (IPv4Datagram.header d). Qed.

Lemma alike_hop d t d' : alike d t d' -> alike d (t - 1) (Router.one_hop_less d').
Proof. intros [[ck E] Ep]. split; [| done]. exists ck. destruct d' as [h p]. unfold IPv4Datagram.header in *. simpl in E. by subst h. Qed.

(** What one interface sends to another is what that one receives. *)
Lemma frame_carries s n d bl :
  NetworkInterface.wf s -> NetworkInterface.wf n -> IPv4Datagram.wf d -> IPv4Datagram.serialize d = Ok bl ->
  exists fr d', carried n (NetworkInterface.frame_to s (NetworkInterface._ethernet_address n) EthernetHeader.TYPE_IPv4 bl) fr d' /\
    forall d0 t, alike d0 t d -> alike d0 t d'.
Proof.
  intros Hs Hn Hd Ebl. destruct (IPv4Datagram.datagram_parse_serialized d Hd) as (bl' & ck & Ebl' & _ & Hlen & Hparse).
  rewrite Ebl in Ebl'. injection Ebl' as <-. set (f := NetworkInterface.frame_to _ _ _ _).
  assert (Hf : can_send f).
  { split; [split; [apply Hn | apply Hs | done] |]. unfold small_frame, small. simpl. lia. }
  destruct (transmit_frame s (NetworkInterface._ethernet_address n) EthernetHeader.TYPE_IPv4 bl) as (b & Et & Hb & Eb);
    [done | apply Hn | done | lia |]. set (fr := EthernetFrame.mk _ _) in Et.
  destruct (Hparse b IPv4Datagram.default Hb Eb) as (d' & Ed & Eh & Epl).
  destruct (IPv4Datagram.parse_fresh_buffer b Hb) as (r0 & d0 & pl & Ep0 & Epl0 & Hpl & Hacc). rewrite Ed in Ep0. injection Ep0 as <- <-.
  exists fr, d'. split; [split |].
  - by apply transmit_parse.
  - by exists b.
  - destruct (NetworkInterface.recv_frame_ipv4 n fr b) as (r & d1 & Ed1 & ->); [| done | by split |].
    + apply orb_true_iff. right. by apply bool_decide_eq_true_2.
    + rewrite Ed in Ed1. injection Ed1 as <- <-. by rewrite bool_decide_true.
  - by exists pl.
  - destruct Hd as [[Hr Hv Hh] Hl]. split; [split; [apply Hacc; done | |] |]; rewrite Eh; try done. rewrite Epl. exact Hl.
  - intros d0 t [[ck0 E0] Ep0]. unfold IPv4Datagram.header, IPv4Datagram.payload in *.
    split; [exists ck; unfold IPv4Datagram.header; by rewrite Eh, E0 | unfold IPv4Datagram.payload; congruence].
Qed.

Lemma one_hop_less_wf d : IPv4Datagram.wf d -> 1 < IPv4Header.ttl (IPv4Datagram.header d) -> IPv4Datagram.wf (Router.one_hop_less d).
Proof.
  intros [[[] ? ?] ?] Ht. split; [split; [split; try done | done | done] | done]. simpl. unfold IPv4Datagram.header in *. lia.
Qed.

Lemma wf_routable d : IPv4Datagram.wf d -> Router.routable d.
Proof.
  intros Hd. destruct (IPv4Datagram.datagram_parse_serialized d Hd) as (bl & _ & Ebl & _).
  pose proof (IPv4Datagram.wf_accepted d Hd) as [[] Es]. split; [by exists bl | done | done | done |].
  destruct (IPv4Datagram.payload_size d Hd) as [_ El]. unfold IPv4Datagram.payload. rewrite <- El.
  unfold IPv4Header.payload_length, u16. zarith.
Qed.

(** ** Through a router *)

Section forwarding.
Import Router.
Context (routes : list RouteEntry.t) (r : Router.t) (i j : Z) (ai aj : AsyncNetworkInterface.t).
Hypothesis Hr : wf routes r.
Hypothesis Hi : zlookup (_interfaces r) i = Some ai.
Hypothesis Hj : zlookup (_interfaces r) j = Some aj.
Hypothesis Hne : i <> j.
Hypothesis Hquiet : forall k b, zlookup (_interfaces r) k = Some b -> AsyncNetworkInterface._datagrams_out b = [].

(** A frame comes in at interface [i] with a datagram whose route leaves by [j], where the
    Ethernet address of the next hop is known: one frame goes out. *)
Lemma router_forwards d f e hip entry :
  IPv4Datagram.wf d -> IPv4Header.proto (IPv4Datagram.header d) <> IPv4Header.PROTO_ICMP ->
  1 < IPv4Header.ttl (IPv4Datagram.header d) ->
  RoutingTrie.scan routes (IPv4Header.dst (IPv4Datagram.header d)) = Some e -> RouteEntry.interface_num e = j ->
  Address.ipv4_numeric (hop_of e (IPv4Header.dst (IPv4Datagram.header d))) = Ok hip ->
  NetworkInterface._arp_table (AsyncNetworkInterface.base aj) !! hip = Some entry ->
  NetworkInterface.recv_frame f (AsyncNetworkInterface.base ai) = (Ok (Some d), AsyncNetworkInterface.base ai) ->
  exists r' aj' bl,
    (at_interface i (AsyncNetworkInterface.recv_frame f) ;; route) r = (Ok tt, r') /\
    IPv4Datagram.serialize (one_hop_less d) = Ok bl /\ zlookup (_interfaces r') j = Some aj' /\
    NetworkInterface._frames_out (AsyncNetworkInterface.base aj') = NetworkInterface._frames_out (AsyncNetworkInterface.base aj) ++
      [NetworkInterface.frame_to (AsyncNetworkInterface.base aj) (NetworkInterface.eth_addr entry) EthernetHeader.TYPE_IPv4 bl].
Proof.
  intros Hd Hproto Hlive Escan Enum Ehip Eentry Erecv.
  pose proof (zlookup_Some_range _ _ _ Hi) as Hirange. pose proof (zlookup_Some_range _ _ _ Hj) as Hjrange.
  set (a0 := AsyncNetworkInterface.mk (AsyncNetworkInterface.base ai) [d]). set (r0 := set_interface i a0 r).
  assert (E0 : at_interface i (AsyncNetworkInterface.recv_frame f) r = (Ok tt, r0)).
  { unfold at_interface, AsyncNetworkInterface.recv_frame, bind, zoom. rewrite Hi, Erecv.
    pose proof (Hquiet i ai Hi) as Eq. unfold r0, set_interface, a0. clear - Eq. destruct ai as [n q]. simpl in *. by subst q. }
  destruct (zlookup_Forall _ _ _ _ (wf_interfaces _ _ Hr) Hi) as [Hwi _].
  assert (Hr0 : wf routes r0) by (apply wf_set_interface; [done |]; split; [done | constructor; [by apply wf_routable | constructor]]).
  destruct (route_single routes r0 i a0 d) as (r1 & a1 & Hrouted & Ha1 & Eroute); [done | by apply zlookup_zinsert_eq | done | |].
  { intros k b Hk Hb. simpl in Hb. rewrite zlookup_zinsert_ne in Hb by lia. by eapply Hquiet. }
  destruct Hrouted as [(? & ? & ? & Hp & _) | [_ Hrouted]]; [done |]. rewrite Escan in Hrouted.
  rewrite (proj2 (Z.leb_gt _ _)) in Hrouted by done.
  destruct Hrouted as (r2 & (a2 & d2 & rest & Ha2 & _ & ->) & (aj0 & n' & ip & bl & Haj & Eip & Ebl & Hsends & ->)).
  rewrite Enum in *. simpl in Haj. rewrite !zlookup_zinsert_ne, Hj in Haj by lia. injection Haj as <-.
  rewrite Ehip in Eip. injection Eip as <-. unfold NetworkInterface.sends in Hsends. rewrite Eentry in Hsends. subst n'.
  eexists _, _, bl. split; [unfold bind; rewrite E0; exact Eroute |]. split; [done |]. simpl.
  split; [rewrite zlookup_zinsert_ne by lia; apply zlookup_zinsert_eq; by rewrite !len_zinsert | done].
Qed.
End forwarding.

(** The same in the thread. *)
Lemma arrive_forwards {K} `{Kernel K} `{Address.Netdb} c prefix side data (w : Lab7.t K) fr b r' :
  EthernetFrame.parse (Buffer.of_string data) EthernetFrame.default = Ok (NoError, fr) ->
  EthernetFrame.payload fr = [b] -> Buffer.wf b ->
  (Router.at_interface side (AsyncNetworkInterface.recv_frame fr) ;; Router.route) (Lab7.router w) = (Ok tt, r') ->
  wp (Lab7.arrive c prefix side data) (fun _ w' => Lab7.router w' = r' /\ Lab7.sys w' = Lab7.sys w) w.
Proof.
  intros Ep Epl Hb E. unfold Lab7.arrive. wp_step. eapply wp_of_outcome; [exact Ep |]. cbv beta iota.
  rewrite bool_decide_false by (intros Hn; by apply Hn). wp_step. apply ThreadSafety.log_frame_wp.
  { rewrite Epl, BufferList.bytes_cons. change (BufferList.bytes []) with (@nil byte). rewrite app_nil_r. by apply Buffer.wf_len. }
  { intros _. exists b. by rewrite Epl. }
  intros l. unfold bind in E. destruct (Router.at_interface side _ (Lab7.router w)) as [[[]|e] r1] eqn:E1; [| done].
  unfold Lab7.at_side. wp_step. wp_step. eapply wp_eq; [exact E1 |]. wp_step. eapply wp_eq; [exact E |]. done.
Qed.

(** ** From host to host *)

Section delivery.
Context {K : Type} `{LinuxIO K} `{!Address.Netdb, !Address.NetdbNumeric}.
Import NetworkInterfaceAdapter FdAdapterBase TCPOverIPv4Adapter.

Definition host_address (is_client : bool) : Z := if is_client then SetUp.ip4 192 168 0 50 else SetUp.ip4 172 16 0 100.

(** The way from the host [a] on one side to the host [b] on the other: the routers have the
    routes of the program, no datagram waits in them, and the Ethernet address of every next
    hop has been learned. *)
Record path (side : bool) (a b : NetworkInterfaceAdapter.t) (r1 r2 : Router.t) : Prop := {
  path_routes1 : exists hop, Address.inet hop (SetUp.internet_ip (negb side)) 0 /\ Router.wf (SetUp.lab7_routes side hop) r1;
  path_routes2 : exists hop, Address.inet hop (SetUp.internet_ip side) 0 /\ Router.wf (SetUp.lab7_routes (negb side) hop) r2;
  path_quiet1 k x : zlookup (Router._interfaces r1) k = Some x -> AsyncNetworkInterface._datagrams_out x = [];
  path_quiet2 k x : zlookup (Router._interfaces r2) k = Some x -> AsyncNetworkInterface._datagrams_out x = [];
  path_first : exists hop e x, Address.ipv4_numeric (_next_hop a) = Ok hop /\
    NetworkInterface._arp_table (_interface a) !! hop = Some e /\ zlookup (Router._interfaces r1) 0 = Some x /\
    NetworkInterface.eth_addr e = NetworkInterface._ethernet_address (AsyncNetworkInterface.base x);
  path_middle : exists x y e, zlookup (Router._interfaces r1) 1 = Some x /\ zlookup (Router._interfaces r2) 1 = Some y /\
    NetworkInterface._arp_table (AsyncNetworkInterface.base x) !! SetUp.internet_ip (negb side) = Some e /\
    NetworkInterface.eth_addr e = NetworkInterface._ethernet_address (AsyncNetworkInterface.base y);
  path_last : exists x e, zlookup (Router._interfaces r2) 0 = Some x /\
    NetworkInterface._arp_table (AsyncNetworkInterface.base x) !! host_address (negb side) = Some e /\
    NetworkInterface.eth_addr e = NetworkInterface._ethernet_address (_interface b)
}.

(** The frames that wait at an interface of the router. *)
Definition frames_at (i : Z) (w : Lab7.t K) : list EthernetFrame.t :=
  match zlookup (Router._interfaces (Lab7.router w)) i with
  | Some a => NetworkInterface._frames_out (AsyncNetworkInterface.base a)
  | None => []
  end.

(** The route to the peer's host, at the first router and at the second. *)
Lemma scan_first side hop : RoutingTrie.scan (SetUp.lab7_routes side hop) (host_address (negb side)) =
  Some (if side then RouteEntry.mk (SetUp.ip4 172 16 0 0) 12 (Some hop) 1 else RouteEntry.mk (SetUp.ip4 192 168 0 0) 16 (Some hop) 1).
Proof. by destruct side. Qed.
Lemma scan_last side hop : RoutingTrie.scan (SetUp.lab7_routes (negb side) hop) (host_address (negb side)) =
  Some (if side then RouteEntry.mk (SetUp.ip4 172 16 0 0) 12 None 0 else RouteEntry.mk (SetUp.ip4 192 168 0 0) 16 None 0).
Proof. by destruct side. Qed.

(** The frame that arrives at a router goes on from the other side, to the interface [n]. *)
Lemma crosses routes (w : Lab7.t K) c prefix i j ai aj n d t d1 f fr e hip entry :
  Router.wf routes (Lab7.router w) -> i <> j ->
  zlookup (Router._interfaces (Lab7.router w)) i = Some ai -> zlookup (Router._interfaces (Lab7.router w)) j = Some aj ->
  (forall k x, zlookup (Router._interfaces (Lab7.router w)) k = Some x -> AsyncNetworkInterface._datagrams_out x = []) ->
  carried (AsyncNetworkInterface.base ai) f fr d1 -> alike d t d1 -> 1 < t ->
  IPv4Header.proto (IPv4Datagram.header d) = IPv4Header.PROTO_TCP ->
  RoutingTrie.scan routes (IPv4Header.dst (IPv4Datagram.header d)) = Some e -> RouteEntry.interface_num e = j ->
  Address.ipv4_numeric (Router.hop_of e (IPv4Header.dst (IPv4Datagram.header d))) = Ok hip ->
  NetworkInterface._arp_table (AsyncNetworkInterface.base aj) !! hip = Some entry ->
  NetworkInterface.wf n -> NetworkInterface.eth_addr entry = NetworkInterface._ethernet_address n ->
  wp (Lab7.arrive c prefix i (BufferList.bytes (EthernetFrame.serialize f)))
    (fun _ w' => exists f2 fr2 d2, frames_at j w' = frames_at j w ++ [f2] /\ carried n f2 fr2 d2 /\ alike d (t - 1) d2) w.
Proof.
  intros Hr Hne Hi Hj Hq [Ep (b & Epl & Hb) Erecv _ Hd1] Hal Hlive Hproto Escan Enum Ehip Eentry Hn Emac.
  pose proof Hal as [[ck Eh] _].
  assert (Hlive1 : 1 < IPv4Header.ttl (IPv4Datagram.header d1)) by (by rewrite Eh).
  destruct (router_forwards routes _ i j ai aj Hr Hi Hj Hne Hq d1 fr e hip entry) as (r' & aj' & bl & E & Ebl & Haj' & Efr);
    try done; [by rewrite Eh; simpl; rewrite Hproto | by rewrite Eh | by rewrite Eh |].
  destruct (Router.zlookup_Forall _ _ _ _ (Router.wf_interfaces _ _ Hr) Hj) as [Hwj _].
  destruct (frame_carries (AsyncNetworkInterface.base aj) n _ bl Hwj Hn (one_hop_less_wf d1 Hd1 Hlive1) Ebl) as (fr2 & d2 & Hc2 & Hal2).
  eapply wp_mono; [by apply (arrive_forwards c prefix i _ w fr b r') |]. intros [] w' [Er' _]. eexists _, fr2, d2.
  split; [| split; [exact Hc2 | by apply Hal2, alike_hop]]. unfold frames_at. by rewrite Er', Haj', Hj, Efr, Emac.
Qed.

(** The host's write, when the address of its router is known: one frame. *)
Lemma lab7_write_wp a aip ap bip bp seg d hop e (s : Sys.t K) f (Q : TCPSegment.t -> World.t K NetworkInterfaceAdapter.t -> Prop) :
  lab7_ok a -> frames_out a = [] -> endpoint (base a) aip ap bip bp -> TCPSegment.sendable seg ->
  wrap_tcp_in_ip seg (base a) = Ok (addressed ap bp seg, d) ->
  Address.ipv4_numeric (_next_hop a) = Ok hop -> NetworkInterface._arp_table (_interface a) !! hop = Some e ->
  FileDescriptor.at_fd s (fd a) f ->
  (forall bl r wa, IPv4Datagram.serialize d = Ok bl -> puts (fd a) s (World.sys wa) (BufferList.bytes (EthernetFrame.serialize
     (NetworkInterface.frame_to (_interface a) (NetworkInterface.eth_addr e) EthernetHeader.TYPE_IPv4 bl))) -> Q r wa) ->
  wpe (write seg) Q (fun e _ => FileDescriptor.io_error e) (World.mk s a).
Proof.
  intros Hok Efr Ha Hseg Ewrap Ehop Ee Hf HQ. eapply same_wp; [apply same_write |].
  eapply eth_write_wp; [exact Hok | exact Ha | exact Hseg | exact Hf |].
  intros d0 bl ip n' w' Ewrap0 Ebl Eip Esend _ Hsp a' Ea' _. simpl in Ewrap0, Eip, Esend. rewrite Ewrap in Ewrap0. injection Ewrap0 as <-.
  rewrite Ehop in Eip. injection Eip as <-. eapply HQ; [exact Ebl |].
  destruct (NetworkInterface.send_datagram_sends (_interface a) d (_next_hop a) hop bl) as (n2 & Es2 & Hs2); [apply Hok | done | done |].
  rewrite Esend in Es2. injection Es2 as <-. unfold NetworkInterface.sends in Hs2. rewrite Ee in Hs2.
  unfold frames_out, NetworkInterface.frames_out in Efr. rewrite Efr in Hs2.
  destruct (sent_one _ _ _ (NetworkInterface.frame_to (_interface a) (NetworkInterface.eth_addr e) EthernetHeader.TYPE_IPv4 bl) Hsp)
    as [Hputs _]; [simpl; by rewrite Hs2 | exact Hputs].
Qed.

(** The host's read of a frame with a segment for it. *)
Lemma lab7_read_eq b d f fr got b' (s s1 : Sys.t K) :
  frames_out b = [] -> carried (_interface b) f fr d -> unwrap_tcp_in_ip d (base b) = (Ok (Some got), b') ->
  FileDescriptor.read (fd b) no_limit s = (Ok (BufferList.bytes (EthernetFrame.serialize f)), s1) ->
  exists b2, read (World.mk s b) = (Ok (Some got), World.mk s1 b2) /\ base b2 = b'.
Proof.
  intros Efr [Ep _ Erecv _ _] Eu Er. destruct (same_read s b) as (o & s' & b1 & n & E & E').
  rewrite (eth_read_quiet s s1 (as_ethernet b) _ fr (Some got) b' d) in E' by done. injection E' as <- <- Eb En.
  exists (renewed b1 n b). split; [exact E |]. by rewrite Eb.
Qed.
End delivery.

(** ** Properties *)

Section properties.
Context {K : Type} `{LinuxIO K} `{!Address.Netdb, !Address.NetdbNumeric}.
Import NetworkInterfaceAdapter FdAdapterBase TCPOverIPv4Adapter.

(** [C23] From host to host, in either direction: a host writes a segment for the host behind the
    other router, and the addresses on the way are known.  Its end of the socket pair is given
    one frame; when that frame arrives at its router, the router has one frame more for the
    Internet; when those bytes, as the relay passes them on, arrive at the other router, that
    one has one frame more for its host; and from that frame the peer, connected or listening
    for the segment's SYN, reads the same segment (ports filled in, the checksum computed) and is
    connected to the sender.  The routers always return; the host's write returns or fails
    with an error of the system. *)
Theorem lab7_delivers side a b r1 r2 aip ap bp x y z seg c1 c2 text1 text2 (s : Sys.t K) f :
  lab7_ok a -> lab7_ok b -> frames_out a = [] -> frames_out b = [] ->
  endpoint (base a) aip ap (host_address (negb side)) bp -> TCPSegment.sendable seg -> endpoint (base b) x bp y z ->
  (if listening (base b)
   then TCPHeader.syn (TCPSegment.header seg) = true /\ TCPHeader.rst (TCPSegment.header seg) = false
   else x = host_address (negb side) /\ y = aip /\ z = ap) ->
  path side a b r1 r2 -> FileDescriptor.at_fd s (fd a) f ->
  wpe (write seg) (fun _ wa => exists packet, puts (fd a) s (World.sys wa) packet /\
    forall w1 : Lab7.t K, Lab7.router w1 = r1 ->
    wp (Lab7.arrive c1 text1 0 packet) (fun _ w1' => exists f2, frames_at 1 w1' = frames_at 1 w1 ++ [f2] /\
      forall w2 : Lab7.t K, Lab7.router w2 = r2 ->
      wp (Lab7.arrive c2 text2 1 (BufferList.bytes (EthernetFrame.serialize f2)))
        (fun _ w2' => exists f3, frames_at 0 w2' = frames_at 0 w2 ++ [f3] /\
          forall sb sb1 : Sys.t K,
          FileDescriptor.read (fd b) no_limit sb = (Ok (BufferList.bytes (EthernetFrame.serialize f3)), sb1) ->
          exists got b', read (World.mk sb b) = (Ok (Some got), World.mk sb1 b') /\
            same_segment (addressed ap bp seg) got /\ endpoint (base b') (host_address (negb side)) bp aip ap /\
            listening (base b') = false) w2) w1)
    (fun e _ => FileDescriptor.io_error e) (World.mk s a).
Proof.
  intros Hoka Hokb Efa Efb Ha Hseg Hb Hfor [(hop1 & Hhop1 & Hr1) (hop2 & Hhop2 & Hr2) Hq1 Hq2
    (hop & e0 & h1 & Ehop & Ee0 & Hh1 & Em0) (i1 & i2 & e1 & Hi1 & Hi2 & Ee1 & Em1) (h2 & e2 & Hh2 & Ee2 & Em2)] Hf.
  destruct (wrapped_unwrapped _ _ _ _ _ _ _ _ _ _ Ha Hseg Hb Hfor) as (d & Ewrap & Hd & Edst & Eproto & Ettl & Hun).
  destruct (Router.zlookup_Forall _ _ _ _ (Router.wf_interfaces _ _ Hr1) Hh1) as [Hwh1 _].
  destruct (Router.zlookup_Forall _ _ _ _ (Router.wf_interfaces _ _ Hr2) Hi2) as [Hwi2 _].
  pose proof (scan_first side hop1) as Escan1. pose proof (scan_last side hop2) as Escan2. rewrite <- Edst in Escan1, Escan2, Ee2.
  eapply lab7_write_wp; [exact Hoka | exact Efa | exact Ha | exact Hseg | exact Ewrap | exact Ehop | exact Ee0 | exact Hf |].
  intros bl r wa Ebl Hputs. rewrite Em0 in Hputs. eexists. split; [exact Hputs |]. intros w1 <-.
  destruct (frame_carries (_interface a) (AsyncNetworkInterface.base h1) d bl) as (fr1 & d1 & Hc1 & Hal1); [apply Hoka | done | done | done |].
  specialize (Hal1 d _ (alike_refl d)). rewrite Ettl in Hal1.
  eapply wp_mono; [eapply (crosses _ w1 c1 text1 0 1); [exact Hr1 | done | exact Hh1 | exact Hi1 | exact Hq1 | exact Hc1 | exact Hal1
    | done | exact Eproto | exact Escan1 | by destruct side | | exact Ee1 | exact Hwi2 | exact Em1] |].
  { destruct side; by apply (Address.inet_numeric hop1 _ 0). }
  intros [] w1' (f2 & fr2 & d2 & Ef2 & Hc2 & Hal2). exists f2. split; [exact Ef2 |]. intros w2 <-.
  eapply wp_mono; [eapply (crosses _ w2 c2 text2 1 0); [exact Hr2 | done | exact Hi2 | exact Hh2 | exact Hq2 | exact Hc2 | exact Hal2
    | done | exact Eproto | exact Escan2 | by destruct side | | exact Ee2 | apply Hokb | exact Em2] |].
  { rewrite Edst. destruct side; by apply Address.ipv4_numeric_of_ip. }
  intros [] w2' (f3 & fr3 & d3 & Ef3 & Hc3 & [[ck Eh3] Ep3]). exists f3. split; [exact Ef3 |]. intros sb sb1 Eread.
  destruct (ca_payload _ _ _ _ Hc3) as (pl & Epl & Hpl).
  destruct (Hun d3 ck _ pl Eh3) as (got & b' & Eu & Hsame & Hend & Hl); [apply Hc3 | done | done | |].
  { rewrite <- Ep3. unfold IPv4Datagram.payload. rewrite Epl, BufferList.bytes_cons.
    change (BufferList.bytes []) with (@nil byte). by rewrite app_nil_r. }
  destruct (lab7_read_eq b _ _ fr3 got b' sb sb1 Efb Hc3 Eu Eread) as (b2 & Erd & Eb2). exists got, b2. by rewrite Eb2.
Qed.
End properties.

(** ** Witness: the client's SYN, on its way to the server *)

Section witness.
#[local] Existing Instance Address.numeric_netdb.
#[local] Existing Instance Address.numeric_netdb_numeric.
Import NetworkInterfaceAdapter.

Definition mac_n (n : Z) : EthernetAddress := [2; 0; 0; 0; 0; n].

(** An interface that knows one neighbour, or none. *)
Definition knowing (mac : EthernetAddress) (my_ip : Z) (neighbour : option (Z * EthernetAddress)) : NetworkInterface.t :=
  NetworkInterface.mk mac (Address.of_ip my_ip) []
    (match neighbour with Some (ip, m) => {[ip := NetworkInterface.mk_entry m 30000]} | None => ∅ end) ∅ ∅.

Lemma mac_n_wf n : is_u8 n -> address_wf (mac_n n).
Proof. intros Hn. split; [done |]. unfold mac_n. rewrite !list.Forall_cons. unfold is_u8 in *. split_and!; (lia || constructor). Qed.

Lemma knowing_wf mac my_ip neighbour : address_wf mac -> NetworkInterface.is_ip my_ip ->
  match neighbour with Some (ip, m) => NetworkInterface.is_ip ip /\ address_wf m | None => True end ->
  NetworkInterface.wf (knowing mac my_ip neighbour).
Proof.
  intros Hm Hip Hn. split; simpl; try done; try apply map_Forall_empty.
  - exists my_ip. by apply Address.ipv4_numeric_of_ip.
  - destruct neighbour as [[ip m]|]; [| apply map_Forall_empty]. apply map_Forall_singleton. destruct Hn.
    split; [done |]. split; [done |]. simpl. unfold NetworkInterface.ARP_ENTRY_TTL_MS. lia.
Qed.

Definition router_of (is_client : bool) (l : list NetworkInterface.t) : Router.t :=
  Router.mk (map AsyncNetworkInterface.of_interface l)
    (match add_routes (SetUp.lab7_routes is_client (Address.of_ip (SetUp.internet_ip (negb is_client)))) RoutingTrie.new with
     | Ok root => root
     | Throw _ => RoutingTrie.Null
     end) false.

Lemma router_of_wf is_client n1 n2 : NetworkInterface.wf n1 -> NetworkInterface.wf n2 ->
  Router.wf (SetUp.lab7_routes is_client (Address.of_ip (SetUp.internet_ip (negb is_client)))) (router_of is_client [n1; n2]).
Proof.
  intros H1 H2. split; [| done | |].
  - simpl. rewrite !list.Forall_cons. split_and!; [split; [done | constructor] .. | constructor].
  - unfold router_of. simpl. destruct (add_routes_represents (SetUp.lab7_routes is_client (Address.of_ip (SetUp.internet_ip (negb is_client))))
      [] RoutingTrie.new) as (root & -> & Hroot); [by destruct is_client; repeat constructor | apply RoutingTrie.represents_new | exact Hroot].
  - apply (SetUp.lab7_routes_wf _ _ (SetUp.internet_ip (negb is_client))). apply Address.inet_of_ip. by destruct is_client.
Qed.

Definition lab7_client : NetworkInterfaceAdapter.t :=
  mk (sample_base (host_address true) 1000 (host_address false) 1234 false)
    (knowing (mac_n 1) (host_address true) (Some (SetUp.host_ip true, mac_n 2))) (Address.of_ip (SetUp.host_ip true)) (0, 1)%nat.
Definition lab7_server : NetworkInterfaceAdapter.t :=
  mk (sample_base (host_address false) 1234 0 0 true) (knowing (mac_n 6) (host_address false) None)
    (Address.of_ip (SetUp.host_ip false)) (0, 1)%nat.
Definition client_router : Router.t :=
  router_of true [knowing (mac_n 2) (SetUp.host_ip true) None;
                  knowing (mac_n 3) (SetUp.internet_ip true) (Some (SetUp.internet_ip false, mac_n 4))].
Definition server_router : Router.t :=
  router_of false [knowing (mac_n 5) (SetUp.host_ip false) (Some (host_address false, mac_n 6));
                   knowing (mac_n 4) (SetUp.internet_ip false) None].

Lemma fits_knowing mac my_ip neighbour : fits (knowing mac my_ip neighbour).
Proof. split; [constructor | apply map_Forall_empty]. Qed.

Lemma lab7_client_ok : lab7_ok lab7_client.
Proof.
  split; simpl.
  - eexists _, _, _, _. by apply sample_endpoint.
  - apply knowing_wf; [by apply mac_n_wf | done | by split; [| apply mac_n_wf]].
  - apply fits_knowing.
  - eexists. by apply Address.ipv4_numeric_of_ip.
Qed.

Lemma lab7_server_ok : lab7_ok lab7_server.
Proof.
  split; simpl.
  - eexists _, _, _, _. by apply sample_endpoint.
  - apply knowing_wf; [by apply mac_n_wf | done | done].
  - apply fits_knowing.
  - eexists. by apply Address.ipv4_numeric_of_ip.
Qed.

Lemma lab7_path : path true lab7_client lab7_server client_router server_router.
Proof.
  assert (Hquiet : forall side n1 n2 k x, zlookup (Router._interfaces (router_of side [n1; n2])) k = Some x ->
    AsyncNetworkInterface._datagrams_out x = []).
  { intros side n1 n2 k x. unfold zlookup. case_decide; [| done]. simpl.
    destruct (Z.to_nat k) as [|[|]]; simpl; [by intros [= <-] | by intros [= <-] | done]. }
  split.
  - eexists. split; [by apply Address.inet_of_ip |]. apply router_of_wf; apply knowing_wf; try done; try (by apply mac_n_wf).
    by split; [| apply mac_n_wf].
  - eexists. split; [by apply Address.inet_of_ip |]. apply router_of_wf; apply knowing_wf; try done; try (by apply mac_n_wf).
    by split; [| apply mac_n_wf].
  - apply Hquiet.
  - apply Hquiet.
  - eexists (SetUp.host_ip true), (NetworkInterface.mk_entry (mac_n 2) 30000), _.
    split; [by apply Address.ipv4_numeric_of_ip |]. by split; [apply lookup_singleton_eq |].
  - eexists _, _, (NetworkInterface.mk_entry (mac_n 4) 30000). do 2 (split; [reflexivity |]). split; [apply lookup_singleton_eq | done].
  - eexists _, (NetworkInterface.mk_entry (mac_n 6) 30000). split; [reflexivity |]. split; [apply lookup_singleton_eq | done].
Qed.

Definition quiet_thread (r : Router.t) : Lab7.t Script.t := Lab7.mk (device []) r [].
Definition lab7_captured : Lab7.captured := Lab7.mk_captured true 1 0 (Address.of_ip 0) 0 1.

(** The client writes, and its router has one frame for the Internet. *)
Lemma lab7_delivers_witness :
  wpe (write sample_syn) (fun _ wa => exists packet, puts 0 (device []) (World.sys wa) packet /\
      wp (Lab7.arrive lab7_captured "" 0 packet)
        (fun _ w1' => exists f2, frames_at 1 w1' = frames_at 1 (quiet_thread client_router) ++ [f2]) (quiet_thread client_router))
    (fun e _ => FileDescriptor.io_error e) (World.mk (device []) lab7_client).
Proof.
  pose proof (lab7_delivers (K := Script.t) true lab7_client lab7_server client_router server_router (host_address true) 1000 1234
    (host_address false) 0 0 sample_syn lab7_captured lab7_captured "" "" (device []) (FDWrapper.mk 5 false false 0 0)
    lab7_client_ok lab7_server_ok eq_refl eq_refl
    (sample_endpoint (host_address true) 1000 (host_address false) 1234 false ltac:(done) ltac:(done) ltac:(done) ltac:(done))
    sample_syn_sendable (sample_endpoint (host_address false) 1234 0 0 true ltac:(done) ltac:(done) ltac:(done) ltac:(done))
    (conj eq_refl eq_refl) lab7_path eq_refl) as Hd.
  eapply wp_mono; [exact Hd |]. intros r wa (packet & Hputs & Hroute). exists packet. split; [exact Hputs |].
  eapply wp_mono; [exact (Hroute (quiet_thread client_router) eq_refl) |]. intros u w1 (f2 & Ef2 & _). exists f2. exact Ef2.
Defined.
End witness.
