(* ===== verification/udp_tcpdump.v ===== *)
(** * apps/udp_tcpdump: a packet dump of TCP in UDP

    The program captures packets with libpcap, finds the UDP payload behind the link
    layer and the IPv4 or IPv6 header, and prints it as a TCP segment.  libpcap is a
    parameter: what it answers to each call, and the list of its packets.  Reading beyond
    the captured bytes is undefined behaviour here, since libpcap promises no more bytes. *)

From S2P Require Import prelude printing buffer parser wire_format checksum wrapping_integers tcp_segment ipv4.

Module UdpTcpdump.

(** ** Arguments *)

Definition usage_text : string :=
  " [-i <intf>] [-F <file>] [-h|--help] <expression>" +:+ newline +:+ newline +:+
  "  -i <intf>    only capture packets from <intf> (default: all)" +:+ newline +:+ newline +:+
  "  -F <file>    reads in a filter expression from <file>" +:+ newline +:+
  "               <expression> is ignored if -F is supplied." +:+ newline +:+ newline +:+
  "  -h, --help   show this message" +:+ newline +:+ newline +:+
  "  <expression> a filter expression in pcap-filter(7) syntax" +:+ newline.

Definition show_usage (arg0 : string) (errmsg : option string) : M console unit :=
  print ("Usage: " +:+ arg0 +:+ usage_text) ;;
  match errmsg with Some msg => print (newline +:+ msg) | None => pure tt end ;;
  print newline.

(** [argv[i]]: the null pointer and what is behind it must not be read as a string. *)
Definition arg (argv : list string) (i : Z) : M console string := or_ub (zlookup argv i).

Definition check_arg (argv : list string) (curr : Z) (errmsg : string) : M console unit :=
  when (len argv <=? curr + 1) (let* a := arg argv 0 in show_usage a (Some errmsg) ;; throw (Program_exit 1)).

(** The loop of [parse_arguments]: [curr] is returned, and [*dev_ptr]. *)
Fixpoint parse_loop (fuel : nat) (argv : list string) (curr : Z) (dev : option string) : M console (Z * option string) :=
  match fuel with
  | O => throw OutOfFuel
  | S fuel =>
      if curr <? len argv then
        let* a := arg argv curr in
        if String.eqb a "-i" then
          check_arg argv curr "ERROR: -i requires an argument" ;;
          let* d := arg argv (curr + 1) in
          parse_loop fuel argv (curr + 2) (Some d)
        else if String.eqb a "-h" || String.eqb a "--help" then
          let* a0 := arg argv 0 in show_usage a0 None ;; throw (Program_exit 0)
        else pure (curr, dev)
      else pure (curr, dev)
  end.
Definition parse_arguments (argv : list string) : M console (Z * option string) :=
  parse_loop (S (length argv)) argv 1 None.

(** ** The network layer *)

Section dump.
(** [inet_ntop]: the text of an address of four or of sixteen bytes, if it succeeds *)
Context (inet_ntop4 inet_ntop6 : list byte -> option string).

(** [data[i]], and [n] bytes from [data + i] *)
Definition data_at (data : list byte) (i : Z) : M console Z :=
  let* b := or_ub (zlookup data i) in pure (Z_of_byte b).
Definition bytes_at (data : list byte) (i n : Z) : M console (list byte) :=
  if (0 <=? i) && (i + n <=? len data) then pure (slice i (i + n) data) else throw UndefinedBehavior.

(** An [int] that must not overflow. *)
Definition int_of (x : Z) : M console Z :=
  if (- 2 ^ 31 <=? x) && (x <? 2 ^ 31) then pure x else throw UndefinedBehavior.

Definition inet4_addr (data : list byte) (off : Z) : M console string :=
  let* a := bytes_at data off 4 in pure (default "unknown" (inet_ntop4 a)).
Definition inet6_addr (data : list byte) (off : Z) : M console string :=
  let* a := bytes_at data off 16 in pure (default "unknown" (inet_ntop6 a)).

(** The loop over IPv6 extension headers: [None] for [return -1]. *)
Fixpoint skip_extensions (fuel : nat) (length : Z) (data : list byte) (nxt data_offset : Z) : M console (option Z) :=
  match fuel with
  | O => throw OutOfFuel
  | S fuel =>
      if nxt =? 0x11 then pure (Some data_offset)
      else if negb (nxt =? 0) && negb (nxt =? 43) && negb (nxt =? 60) then
        warn "Not UDP or fragmented; " ;; pure None
      else
        let* nxt := data_at data data_offset in
        let* hdr_len := data_at data (data_offset + 1) in
        let* data_offset := int_of (data_offset + 8 * (1 + hdr_len)) in
        let* need := int_of (data_offset + 2) in
        if length <? need then pure None
        else skip_extensions fuel length data nxt data_offset
  end.

(** [process_ipv4_ipv6]: the offset of the UDP payload and the two addresses; [None] for
    a negative result. *)
Definition process_ipv4_ipv6 (length : Z) (data : list byte) : M console (option (Z * string * string)) :=
  if length <? 1 then pure None
  else
    let* b0 := data_at data 0 in
    let pt := Z.land b0 0xf0 in
    if pt =? 0x40 then
      let data_offset := Z.land b0 0x0f * 4 in
      if length <? data_offset then pure None
      else
        let* proto := data_at data 9 in
        if negb (proto =? 0x11) then warn "Not UDP; " ;; pure None
        else
          let* src_addr := inet4_addr data 12 in
          let* dst_addr := inet4_addr data 16 in
          pure (Some (data_offset + 8, src_addr, dst_addr))
    else if pt =? 0x60 then
      if length <? 42 then pure None
      else
        let* nxt := data_at data 6 in
        let* found := skip_extensions (S (Z.to_nat length)) length data nxt 40 in
        match found with
        | None => pure None
        | Some data_offset =>
            let* src_addr := inet6_addr data 8 in
            let* dst_addr := inet6_addr data 24 in
            let* payload := int_of (data_offset + 8) in
            pure (Some (payload, src_addr, dst_addr))
        end
    else pure None.

(** ** The link layer *)

Definition DLT_NULL : Z := 0.
Definition DLT_EN10MB : Z := 1.
Definition DLT_RAW : Z := 12.
Definition DLT_LINUX_SLL : Z := 113.
Definition DLT_LINUX_SLL2 : Z := 276.

Inductive link : Type :=
| Skip                  (** [continue] *)
| GiveUp                (** [return EXIT_FAILURE] *)
| At (hdr_off : Z).

(** A 16-bit field of the link header. *)
Definition field16 (pkt : list byte) (i : Z) : M console Z :=
  let* hi := data_at pkt i in
  let* lo := data_at pkt (i + 1) in
  pure (u16 (Z.lor (Z.shiftl hi 8) lo)).

Definition malformed : M console link := warn ("[INFO] Skipping malformed packet." +:+ newline) ;; pure Skip.
Definition non_ip : M console link := warn ("[INFO] Skipping non-IP packet." +:+ newline) ;; pure Skip.

(** A link header of [hdr_off] bytes with the type of the payload at [field]. *)
Definition typed_link (hdr_off field : Z) (pkt : list byte) : M console link :=
  if len pkt <? hdr_off then malformed
  else
    let* pt := field16 pkt field in
    if negb (pt =? 0x0800) && negb (pt =? 0x86dd) then non_ip else pure (At hdr_off).

Definition link_layer (dl_type : Z) (pkt : list byte) : M console link :=
  if dl_type =? DLT_NULL then
    if len pkt <? 4 then malformed
    else
      let* pt := data_at pkt 3 in
      if negb (pt =? 2) && negb (pt =? 24) && negb (pt =? 28) && negb (pt =? 30) then non_ip else pure (At 4)
  else if dl_type =? DLT_EN10MB then typed_link 14 12 pkt
  else if dl_type =? DLT_LINUX_SLL then typed_link 16 14 pkt
  else if dl_type =? DLT_LINUX_SLL2 then typed_link 20 0 pkt
  else if negb (dl_type =? DLT_RAW) then warn "Mysterious datalink type. Giving up." ;; pure GiveUp
  else pure (At 0).

(** ** The payload *)

(** [string(payload)]: a length no string can have is refused. *)
Definition MAX_STRING : Z := 2 ^ 63 - 1.
Definition copy_payload (pkt : list byte) (payload_off payload_len : Z) : M console (list byte) :=
  if MAX_STRING <? payload_len then throw Length_error else bytes_at pkt payload_off payload_len.

Definition flags_text (h : TCPHeader.t) : string :=
  (if TCPHeader.urg h then "U" else "") +:+ (if TCPHeader.psh h then "P" else "") +:+
  (if TCPHeader.rst h then "R" else "") +:+ (if TCPHeader.syn h then "S" else "") +:+
  (if TCPHeader.fin h then "F" else "") +:+ (if TCPHeader.ack h then "." else "").

Definition segment_text (src dst : string) (res : ParseResult) (seg : TCPSegment.t) (payload_len : Z) : string :=
  let tcp_hdr := TCPSegment.header seg in
  let seqlen := u32 (TCPSegment.length_in_sequence_space seg) in
  src +:+ ":" +:+ std_to_string (TCPHeader.sport tcp_hdr) +:+ " > " +:+
  dst +:+ ":" +:+ std_to_string (TCPHeader.dport tcp_hdr) +:+ newline +:+ "    Flags [" +:+ flags_text tcp_hdr +:+
  "] cksum 0x" +:+ setw 4 zero_char (hex_string (TCPHeader.cksum tcp_hdr)) +:+
  (if bool_decide (res = NoError) then " (correct)" else " (incorrect!)") +:+
  " seq " +:+ std_to_string (WrappingInt32.raw_value (TCPHeader.seqno tcp_hdr)) +:+
  (if 0 <? seqlen then
     ":" +:+ std_to_string (WrappingInt32.raw_value (WrappingInt32.add (TCPHeader.seqno tcp_hdr) seqlen))
   else "") +:+
  " ack " +:+ std_to_string (WrappingInt32.raw_value (TCPHeader.ackno tcp_hdr)) +:+
  " win " +:+ std_to_string (TCPHeader.win tcp_hdr) +:+ " length " +:+ std_to_string payload_len +:+ newline.

(** The UDP payload printed as a segment, and its bytes. *)
Definition show_payload (src dst : string) (payload : list byte) : M console unit :=
  let* (res, seg) := of_outcome (TCPSegment.parse (Buffer.of_string payload) 0 TCPSegment.default) in
  (if ParseResult_index BadChecksum <? ParseResult_index res then
     print ("(did not recognize TCP header) src: " +:+ src +:+ " dst: " +:+ dst +:+ newline)
   else print (segment_text src dst res seg (len payload))) ;;
  let* dump := of_outcome (Hexdump.hexdump payload 8) in
  print dump.

(** The body of the loop on one packet; [false]: [main] returns [EXIT_FAILURE].
    [hdr_off] and [payload_off] are of type [size_t]. *)
Definition process_packet (dl_type : Z) (pkt : list byte) : M console bool :=
  let* l := link_layer dl_type pkt in
  match l with
  | Skip => pure true
  | GiveUp => pure false
  | At hdr_off =>
      let* found := process_ipv4_ipv6 (i32 (len pkt - hdr_off)) (zdrop hdr_off pkt) in
      match found with
      | None => warn ("Error parsing IPv4/IPv6 packet. Skipping." +:+ newline) ;; pure true
      | Some (start_off, src, dst) =>
          let payload_off := u64 (hdr_off + start_off) in
          let payload_len := u64 (len pkt - payload_off) in
          let* payload := copy_payload pkt payload_off payload_len in
          show_payload src dst payload ;;
          pure true
      end
  end.

(** ** The program *)

(** The answers of libpcap to the calls before the loop: the data link type of the
    handle or the error text, descriptions of types, the results of compiling and setting the
    filter, and [pcap_geterr]. *)
Record pcap : Type := {
  pcap_open_live : option string -> string + Z;
  pcap_description : Z -> string;
  pcap_compile : string -> Z;
  pcap_setfilter : string -> Z;
  pcap_geterr : string
}.

(** [argv] from [exp_start] on, each followed by a space. *)
Definition filter_expression (argv : list string) (exp_start : Z) : string :=
  foldr (fun a s => a +:+ " " +:+ s) EmptyString (zdrop exp_start argv).

Definition supported_link (dlt : Z) : bool :=
  (dlt =? DLT_RAW) || (dlt =? DLT_NULL) || (dlt =? DLT_EN10MB) || (dlt =? DLT_LINUX_SLL) || (dlt =? DLT_LINUX_SLL2).

Definition open_capture (p : pcap) (dev : option string) : M console Z :=
  print (match dev with Some d => "Capturing on interface " +:+ d | None => "Capturing on all interfaces" end) ;;
  match pcap_open_live p dev with
  | inl errbuf => print (newline +:+ "Error initiating capture: " +:+ errbuf +:+ newline) ;; throw (Program_exit 1)
  | inr dlt =>
      if negb (supported_link dlt) then
        print (newline +:+ "Error: unsupported datalink type " +:+ pcap_description p dlt +:+ newline) ;;
        throw (Program_exit 1)
      else print (" (type: " +:+ pcap_description p dlt +:+ ")" +:+ newline) ;; pure dlt
  end.

(** The results of [pcap_next_ex], in order, with the bytes of each packet.  The list is
    what happens during a run: [None] when it ends and the program still listens. *)
Fixpoint capture_loop (p : pcap) (dl_type : Z) (events : list (Z * list byte)) : M console (option Z) :=
  match events with
  | [] => pure None
  | (next_ret, pkt) :: events =>
      if next_ret <? 0 then
        if next_ret =? -1 then print ("Error listening for packet: " +:+ pcap_geterr p +:+ newline) ;; pure (Some 1)
        else pure (Some 0)
      else if next_ret =? 0 then capture_loop p dl_type events
      else
        let* go_on := process_packet dl_type pkt in
        if go_on then capture_loop p dl_type events else pure (Some 1)
  end.

Definition main (p : pcap) (argv : list string) (events : list (Z * list byte)) : M console (option Z) :=
  let* (exp_start, dev) := parse_arguments argv in
  let* dl_type := open_capture p dev in
  let filter := filter_expression argv exp_start in
  print ("Using filter expression: " +:+ filter +:+ newline) ;;
  if negb (pcap_compile p filter =? 0) then
    print ("Error compiling filter expression: " +:+ pcap_geterr p +:+ newline) ;; pure (Some 1)
  else if negb (pcap_setfilter p filter =? 0) then
    print ("Error configuring packet filter: " +:+ pcap_geterr p +:+ newline) ;; pure (Some 1)
  else capture_loop p dl_type events.
End dump.

(** ** Packets *)

(** Extension headers before UDP: hop-by-hop options, routing, destination options. *)
Inductive ext_chain : Z -> list byte -> Prop :=
| chain_udp : ext_chain 0x11 []
| chain_ext nxt nxt' hdr_len body rest :
    nxt = 0 \/ nxt = 43 \/ nxt = 60 ->
    len body = 8 * (1 + Z_of_byte hdr_len) - 2 ->
    ext_chain (Z_of_byte nxt') rest ->
    ext_chain nxt (nxt' :: hdr_len :: body ++ rest).

(** A datagram that carries UDP: [payload] behind a UDP header of eight bytes; the
    addresses as bytes, [text] the function that prints them. *)
Inductive carries (ntop4 ntop6 : list byte -> option string) : list byte -> string -> string -> list byte -> Prop :=
| carries_v4 h udp payload :
    IPv4Header.wf h -> IPv4Header.proto h = 0x11 -> len udp = 8 ->
    carries ntop4 ntop6 (IPv4Header.image h ++ udp ++ payload)
      (default "unknown" (ntop4 (be_bytes 4 (IPv4Header.src h))))
      (default "unknown" (ntop4 (be_bytes 4 (IPv4Header.dst h)))) payload
| carries_v6 b0 flow nxt hop src dst exts udp payload :
    Z.land (Z_of_byte b0) 0xf0 = 0x60 -> len flow = 5 -> len src = 16 -> len dst = 16 ->
    ext_chain (Z_of_byte nxt) exts -> len udp = 8 ->
    carries ntop4 ntop6 ((b0 :: flow ++ [nxt; hop]) ++ src ++ dst ++ exts ++ udp ++ payload)
      (default "unknown" (ntop6 src)) (default "unknown" (ntop6 dst)) payload.

(** The headers of the link types that announce IPv4 or IPv6. *)
Definition ip_type (t : Z) : Prop := t = 0x0800 \/ t = 0x86dd.
Inductive link_header : Z -> list byte -> Prop :=
| link_null a b c pt : Z_of_byte pt ∈ [2; 24; 28; 30] -> link_header DLT_NULL [a; b; c; pt]
| link_ethernet macs t : len macs = 12 -> ip_type t -> link_header DLT_EN10MB (macs ++ be_bytes 2 t)
| link_sll cooked t : len cooked = 14 -> ip_type t -> link_header DLT_LINUX_SLL (cooked ++ be_bytes 2 t)
| link_sll2 t cooked : ip_type t -> len cooked = 18 -> link_header DLT_LINUX_SLL2 (be_bytes 2 t ++ cooked)
| link_raw : link_header DLT_RAW [].

(** Reads within the packet. *)
Lemma data_at_wp data i b (Q : Z -> console -> Prop) E c :
  zlookup data i = Some b -> Q (Z_of_byte b) c -> wpe (data_at data i) Q E c.
Proof. intros Hb HQ. unfold data_at. wp_step. eapply wp_or_ub; [done |]. by wp_step. Qed.

Lemma data_at_any data i (Q : Z -> console -> Prop) E c :
  0 <= i < len data -> (forall v, 0 <= v < 2 ^ 8 -> Q v c) -> wpe (data_at data i) Q E c.
Proof.
  intros Hi HQ. destruct (zlookup_lt_is_Some data i Hi) as [b Hb].
  eapply data_at_wp; [done |]. apply HQ, Z_of_byte_range.
Qed.

Lemma bytes_at_wp data i n (Q : list byte -> console -> Prop) E c :
  0 <= i -> i + n <= len data -> Q (slice i (i + n) data) c -> wpe (bytes_at data i n) Q E c.
Proof.
  intros Hi Hn HQ. unfold bytes_at. rewrite (proj2 (Z.leb_le 0 i)), (proj2 (Z.leb_le (i + n) _)) by done. done.
Qed.

Lemma int_of_wp x (Q : Z -> console -> Prop) E c : - 2 ^ 31 <= x < 2 ^ 31 -> Q x c -> wpe (int_of x) Q E c.
Proof.
  intros Hx HQ. unfold int_of. rewrite (proj2 (Z.leb_le _ _)), (proj2 (Z.ltb_lt _ _)) by lia. done.
Qed.

Lemma slice_middle {A} (a b c : list A) : slice (len a) (len a + len b) (a ++ b ++ c) = b.
Proof.
  unfold slice. rewrite zdrop_app_ge, Z.sub_diag, zdrop_nonpos by lia.
  rewrite ztake_app_le, ztake_ge by lia. done.
Qed.

(** ** The network layer *)

Lemma skip_chain nxt exts :
  ext_chain nxt exts -> forall fuel pre tail (Q : option Z -> console -> Prop) E c,
  (length exts < fuel)%nat -> 2 <= len tail -> len (pre ++ exts ++ tail) < 2 ^ 30 ->
  Q (Some (len pre + len exts)) c ->
  wpe (skip_extensions fuel (len (pre ++ exts ++ tail)) (pre ++ exts ++ tail) nxt (len pre)) Q E c.
Proof.
  induction 1 as [|nxt nxt' hl body rest Hnxt Hbody _ IH]; intros fuel pre tail Q E c Hfuel Htail Hmax HQ;
    (destruct fuel as [|fuel]; [lia |]); cbn [skip_extensions].
  - rewrite Z.eqb_refl. wp_step. rewrite len_nil, Z.add_0_r in HQ. done.
  - assert (Hn : (nxt =? 17) = false /\ negb (nxt =? 0) && negb (nxt =? 43) && negb (nxt =? 60) = false).
    { by destruct Hnxt as [-> | [-> | ->]]. }
    destruct Hn as [-> ->].
    pose proof (Z_of_byte_range hl). pose proof (len_nonneg pre). pose proof (len_nonneg rest). pose proof (len_nonneg body).
    assert (El : len (pre ++ (nxt' :: hl :: body ++ rest) ++ tail) = len pre + 2 + len body + len rest + len tail).
    { rewrite !len_app. cbn [app]. rewrite !len_cons, len_app. lia. }
    wp_step. eapply data_at_wp; [rewrite zlookup_app_r, Z.sub_diag by lia; done |].
    wp_step. eapply data_at_wp; [rewrite zlookup_app_r by lia; replace (len pre + 1 - len pre) with 1 by lia; done |].
    wp_step. apply int_of_wp; [lia |]. wp_step. apply int_of_wp; [lia |].
    rewrite (proj2 (Z.ltb_ge _ _)) by lia.
    assert (Esplit : pre ++ (nxt' :: hl :: body ++ rest) ++ tail = (pre ++ nxt' :: hl :: body) ++ rest ++ tail).
    { rewrite <- !app_assoc. cbn [app]. by rewrite <- app_assoc. }
    assert (Epre : len pre + 8 * (1 + Z_of_byte hl) = len (pre ++ nxt' :: hl :: body)) by (rewrite len_app, !len_cons; lia).
    rewrite Epre, Esplit. rewrite Esplit in Hmax. apply IH; [| done | done |].
    + cbn [length] in Hfuel. rewrite length_app in Hfuel. lia.
    + rewrite <- Epre. rewrite !len_cons, len_app in HQ. replace (len pre + _ + _) with (len pre + (1 + (1 + (len body + len rest)))) by lia.
      done.
Qed.

Lemma skip_any data : len data < 2 ^ 30 -> forall fuel nxt off (Q : option Z -> console -> Prop) E c,
  0 <= off -> off + 2 <= len data -> (Z.to_nat (len data - off) < fuel)%nat ->
  (forall c', Q None c') -> (forall o, off <= o -> o + 2 <= len data -> Q (Some o) c) ->
  wpe (skip_extensions fuel (len data) data nxt off) Q E c.
Proof.
  intros Hmax. induction fuel as [|fuel IH]; intros nxt off Q E c Hoff Hlen Hfuel Hnone Hsome; [lia |].
  cbn [skip_extensions]. apply wp_if; intros _; [wp_step; apply Hsome; lia |].
  apply wp_if; intros _; [wp_step; apply warn_wp; wp_step; apply Hnone |].
  wp_step. apply data_at_any; [lia |]. intros v Hv. wp_step. apply data_at_any; [lia |]. intros hl Hhl.
  wp_step. apply int_of_wp; [lia |]. wp_step. apply int_of_wp; [lia |].
  apply wp_if; intros C; [wp_step; apply Hnone |]. apply Z.ltb_ge in C.
  apply IH; [lia | lia | lia | done |]. intros o Ho Ho2. apply Hsome; lia.
Qed.

Section network_layer.
Context (ntop4 ntop6 : list byte -> option string).
Local Abbreviation process := (process_ipv4_ipv6 ntop4 ntop6).

(** Any bytes: an IPv4 header must have its five words, IPv6 is always safe. *)
Definition ip_header_whole (data : list byte) : Prop :=
  forall b0, zlookup data 0 = Some b0 -> Z.land (Z_of_byte b0) 0xf0 = 0x40 -> 5 <= Z.land (Z_of_byte b0) 0x0f.

Lemma process_safe data (Q : option (Z * string * string) -> console -> Prop) E c :
  len data < 2 ^ 30 -> ip_header_whole data ->
  (forall c', Q None c') -> (forall off s d, 8 <= off <= len data + 8 -> Q (Some (off, s, d)) c) ->
  wpe (process (len data) data) Q E c.
Proof.
  intros Hmax Hwhole Hnone Hsome. unfold process_ipv4_ipv6.
  apply wp_if; intros C0; [wp_step; apply Hnone |]. apply Z.ltb_ge in C0.
  destruct (zlookup_lt_is_Some data 0) as [b0 Hb0]; [lia |]. specialize (Hwhole b0 Hb0).
  wp_step. eapply data_at_wp; [done |]. cbv zeta. apply wp_if; intros C1.
  - apply Z.eqb_eq in C1. specialize (Hwhole C1). apply wp_if; intros C2; [wp_step; apply Hnone |]. apply Z.ltb_ge in C2.
    wp_step. apply data_at_any; [lia |]. intros v _.
    apply wp_if; intros _; [wp_step; apply warn_wp; wp_step; apply Hnone |].
    wp_step. unfold inet4_addr. wp_step. apply bytes_at_wp; [lia | lia |]. wp_step. wp_step. wp_step.
    apply bytes_at_wp; [lia | lia |]. wp_step. wp_step. apply Hsome. lia.
  - apply wp_if; intros _; [| wp_step; apply Hnone]. apply wp_if; intros C2; [wp_step; apply Hnone |]. apply Z.ltb_ge in C2.
    wp_step. apply data_at_any; [lia |]. intros nxt _. wp_step. apply skip_any; [lia | lia | lia | lia | |].
    + intros c'. wp_step. apply Hnone.
    + intros o Ho Ho2. unfold inet6_addr. wp_step. wp_step. apply bytes_at_wp; [lia | lia |]. wp_step. wp_step. wp_step.
      apply bytes_at_wp; [lia | lia |]. wp_step. wp_step. apply int_of_wp; [lia |]. wp_step. apply Hsome. lia.
Qed.

(** The fields of an IPv4 header on the wire. *)
Lemma v4_fields h rest :
  IPv4Header.wf h ->
  exists b0 b9, zlookup (IPv4Header.image h ++ rest) 0 = Some b0 /\ zlookup (IPv4Header.image h ++ rest) 9 = Some b9 /\
    Z_of_byte b9 = IPv4Header.proto h /\
    Z.land (Z_of_byte b0) 0xf0 = 0x40 /\ Z.land (Z_of_byte b0) 0x0f = IPv4Header.hlen h /\
    slice 12 (12 + 4) (IPv4Header.image h ++ rest) = be_bytes 4 (IPv4Header.src h) /\
    slice 16 (16 + 4) (IPv4Header.image h ++ rest) = be_bytes 4 (IPv4Header.dst h).
Proof.
  intros [Hr Hv Hh]. exists (byte_of_Z (IPv4Header.first_byte h / 2 ^ (8 * 0))), (byte_of_Z (IPv4Header.proto h / 2 ^ (8 * 0))).
  split; [done |]. split; [done |]. rewrite !Z_of_byte_of_Z, IPv4Header.first_byte_eq by done. destruct Hr. rewrite Hv.
  change (2 ^ (8 * 0)) with 1. rewrite !Z.div_1_r, !u8_small by lia. split; [done |].
  assert (Hc : Z.land (4 * 2 ^ 4 + IPv4Header.hlen h) 240 = 64 /\ Z.land (4 * 2 ^ 4 + IPv4Header.hlen h) 15 = IPv4Header.hlen h).
  { generalize dependent (IPv4Header.hlen h). intros x Hx1 Hx2.
    assert (Hx : x ∈ seqZ 5 11) by (apply elem_of_seqZ; lia). cbn in Hx.
    repeat (apply elem_of_cons in Hx as [-> | Hx]; [done |]). by apply not_elem_of_nil in Hx. }
  destruct Hc as [-> ->]. done.
Qed.

Lemma process_v4 h udp pl (Q : option (Z * string * string) -> console -> Prop) E c :
  IPv4Header.wf h -> IPv4Header.proto h = 0x11 -> len udp = 8 ->
  let bs := IPv4Header.image h ++ udp ++ pl in
  Q (Some (len bs - len pl, default "unknown" (ntop4 (be_bytes 4 (IPv4Header.src h))),
           default "unknown" (ntop4 (be_bytes 4 (IPv4Header.dst h))))) c ->
  wpe (process (len bs) bs) Q E c.
Proof.
  intros Hh Hproto Hudp bs HQ. unfold bs in *. clear bs. pose proof (len_nonneg pl). unfold process_ipv4_ipv6.
  destruct (v4_fields h (udp ++ pl) Hh) as (b0 & b9 & E0 & E9 & Ep & Epf & Ehl & Es & Ed).
  pose proof (IPv4Header.wf_hlen _ Hh) as Hhl.
  assert (El : len (IPv4Header.image h ++ udp ++ pl) = 4 * IPv4Header.hlen h + 8 + len pl).
  { rewrite !len_app, IPv4Header.len_ip_image by done. lia. }
  rewrite (proj2 (Z.ltb_ge _ _)) by lia. wp_step. eapply data_at_wp; [exact E0 |]. cbv zeta.
  rewrite Epf, Ehl, Z.eqb_refl. rewrite (proj2 (Z.ltb_ge _ _)) by lia.
  wp_step. eapply data_at_wp; [exact E9 |]. rewrite Ep, Hproto. cbn [Z.eqb Pos.eqb negb].
  unfold inet4_addr. wp_step. wp_step. apply bytes_at_wp; [lia | lia |]. rewrite Es. wp_step. wp_step. wp_step.
  apply bytes_at_wp; [lia | lia |]. rewrite Ed. wp_step. wp_step.
  replace (IPv4Header.hlen h * 4 + 8) with (len (IPv4Header.image h ++ udp ++ pl) - len pl) by lia. done.
Qed.

Lemma process_v6 b0 flow nxt hop src' dst' exts udp pl (Q : option (Z * string * string) -> console -> Prop) E c :
  Z.land (Z_of_byte b0) 0xf0 = 0x60 -> len flow = 5 -> len src' = 16 -> len dst' = 16 ->
  ext_chain (Z_of_byte nxt) exts -> len udp = 8 ->
  let bs := (b0 :: flow ++ [nxt; hop]) ++ src' ++ dst' ++ exts ++ udp ++ pl in
  len bs < 2 ^ 30 ->
  Q (Some (len bs - len pl, default "unknown" (ntop6 src'), default "unknown" (ntop6 dst'))) c ->
  wpe (process (len bs) bs) Q E c.
Proof.
  intros Hb0 Hflow Hsrc Hdst Hext Hudp bs Hmax HQ. pose proof (len_nonneg pl). unfold process_ipv4_ipv6.
  set (pre := b0 :: flow ++ [nxt; hop]) in *.
  assert (Epre : len pre = 8) by (unfold pre; rewrite len_cons, len_app; change (len [nxt; hop]) with 2; lia).
  fold pre in bs.
  assert (El : len bs = 48 + len exts + len pl) by (unfold bs; rewrite !len_app; lia).
  pose proof (len_nonneg exts). rewrite !(proj2 (Z.ltb_ge _ _)) by lia.
  wp_step. eapply data_at_wp; [done |]. cbv zeta. rewrite Hb0. cbn [Z.eqb Pos.eqb].
  wp_step. eapply data_at_wp.
  { unfold bs. rewrite zlookup_app_l by lia. unfold pre. rewrite zlookup_cons_pos, zlookup_app_r by lia. rewrite Hflow. done. }
  wp_step.
  assert (Ed : bs = (pre ++ src' ++ dst') ++ exts ++ (udp ++ pl)) by (unfold bs; by rewrite <- !app_assoc).
  assert (E40 : len (pre ++ src' ++ dst') = 40) by (rewrite !len_app; lia).
  pose proof (skip_chain _ _ Hext (S (Z.to_nat (len bs))) (pre ++ src' ++ dst') (udp ++ pl)) as Hskip.
  rewrite <- Ed, E40 in Hskip. apply Hskip; [unfold len in *; lia | rewrite len_app; lia | lia |]. clear Hskip.
  unfold inet6_addr. wp_step. wp_step. apply bytes_at_wp; [lia | lia |].
  pose proof (slice_middle pre src' (dst' ++ exts ++ udp ++ pl)) as E1. rewrite Epre, Hsrc in E1. fold bs in E1. rewrite E1.
  wp_step. wp_step. wp_step. apply bytes_at_wp; [lia | lia |].
  pose proof (slice_middle (pre ++ src') dst' (exts ++ udp ++ pl)) as E2. rewrite len_app, Epre, Hsrc, Hdst in E2.
  rewrite <- app_assoc in E2. fold bs in E2. change (8 + 16) with 24 in E2. rewrite E2. wp_step. wp_step. apply int_of_wp; [lia |]. wp_step.
  replace (40 + len exts + 8) with (len bs - len pl) by lia. done.
Qed.

Lemma process_carries data src dst payload (Q : option (Z * string * string) -> console -> Prop) E c :
  carries ntop4 ntop6 data src dst payload -> len data < 2 ^ 30 ->
  Q (Some (len data - len payload, src, dst)) c -> wpe (process (len data) data) Q E c.
Proof. intros [] Hmax HQ; [by apply process_v4 | by apply process_v6]. Qed.
End network_layer.

(** ** The link layer *)

Lemma field16_wp pre t rest (Q : Z -> console -> Prop) E c :
  0 <= t < 2 ^ 16 -> Q t c -> wpe (field16 (pre ++ be_bytes 2 t ++ rest) (len pre)) Q E c.
Proof.
  intros Ht HQ. unfold field16. pose proof (len_nonneg pre).
  wp_step. eapply data_at_wp; [rewrite zlookup_app_r, Z.sub_diag by lia; done |].
  wp_step. eapply data_at_wp; [rewrite zlookup_app_r by lia; replace (len pre + 1 - len pre) with 1 by lia; done |].
  wp_step. rewrite !Z_of_byte_of_Z. change (2 ^ (8 * Z.of_nat 0)) with 1. change (2 ^ (8 * Z.of_nat 1)) with (2 ^ 8).
  rewrite Z.div_1_r. rewrite lor_shiftl_low by (first [lia | apply u8_range]).
  replace (u8 (t / 2 ^ 8) * 2 ^ 8 + u8 t) with t by solve_wrap. by rewrite u16_small.
Qed.

Lemma typed_link_wp pre t rest n (Q : link -> console -> Prop) E c :
  ip_type t -> n <= len (pre ++ be_bytes 2 t ++ rest) -> Q (At n) c ->
  wpe (typed_link n (len pre) (pre ++ be_bytes 2 t ++ rest)) Q E c.
Proof.
  intros Ht Hn HQ. unfold typed_link. rewrite (proj2 (Z.ltb_ge _ _)) by lia. wp_step.
  apply field16_wp; [destruct Ht as [-> | ->]; lia |]. by destruct Ht as [-> | ->].
Qed.

Lemma link_header_wp dl hdr data (Q : link -> console -> Prop) E c :
  link_header dl hdr -> Q (At (len hdr)) c -> wpe (link_layer dl (hdr ++ data)) Q E c.
Proof.
  intros Hl HQ. pose proof (len_nonneg data).
  destruct Hl as [a b d pt Hpt | macs t Hm Ht | cooked t Hm Ht | t cooked Ht Hm |]; unfold link_layer; cbn [Z.eqb Pos.eqb negb DLT_NULL DLT_EN10MB DLT_LINUX_SLL DLT_LINUX_SLL2 DLT_RAW].
  - rewrite (proj2 (Z.ltb_ge _ _)) by (rewrite len_app; change (len [a; b; d; pt]) with 4; lia).
    wp_step. eapply data_at_wp; [done |].
    repeat (apply elem_of_cons in Hpt as [-> | Hpt]; [exact HQ |]). by apply not_elem_of_nil in Hpt.
  - rewrite <- app_assoc, <- Hm. rewrite len_app, len_be_bytes, Hm in HQ. apply typed_link_wp; [done | | done].
    rewrite !len_app, len_be_bytes. lia.
  - rewrite <- app_assoc, <- Hm. rewrite len_app, len_be_bytes, Hm in HQ. apply typed_link_wp; [done | | done].
    rewrite !len_app, len_be_bytes. lia.
  - rewrite <- app_assoc. rewrite len_app, len_be_bytes, Hm in HQ. apply (typed_link_wp []); [done | | done].
    rewrite !len_app, len_be_bytes, len_nil. lia.
  - exact HQ.
Qed.

(** Any packet: what follows the link header is within it. *)
Lemma link_layer_any dl pkt (Q : link -> console -> Prop) E c :
  supported_link dl = true ->
  (forall r c', r <> GiveUp -> (forall off, r = At off -> 0 <= off <= len pkt /\ off <= 20) -> Q r c') ->
  wpe (link_layer dl pkt) Q E c.
Proof.
  intros Hdl HQ. pose proof (len_nonneg pkt).
  assert (Hmal : forall c', wpe malformed Q E c') by (intros c'; apply HQ; done).
  assert (Hnon : forall c', wpe non_ip Q E c') by (intros c'; apply HQ; done).
  assert (Htyped : forall n f c', 0 <= f -> f + 2 <= n -> n <= 20 -> wpe (typed_link n f pkt) Q E c').
  { intros n f c' Hf Hfn Hn. unfold typed_link. apply wp_if; intros C; [apply Hmal |]. apply Z.ltb_ge in C.
    wp_step. unfold field16. wp_step. apply data_at_any; [lia |]. intros hi _. wp_step. apply data_at_any; [lia |]. intros lo _.
    wp_step. apply wp_if; intros _; [apply Hnon |]. wp_step. apply HQ; [done |]. intros off [= <-]. lia. }
  unfold link_layer. unfold supported_link in Hdl. apply wp_if; intros C0.
  { apply wp_if; intros C; [apply Hmal |]. apply Z.ltb_ge in C. wp_step. apply data_at_any; [lia |]. intros pt _.
    apply wp_if; intros _; [apply Hnon |]. wp_step. apply HQ; [done |]. intros off [= <-]. lia. }
  apply wp_if; intros C1; [apply Htyped; lia |]. apply wp_if; intros C2; [apply Htyped; lia |].
  apply wp_if; intros C3; [apply Htyped; lia |]. rewrite C0, C1, C2, C3 in Hdl.
  apply wp_if; intros C4; [by destruct (dl =? DLT_RAW) |]. wp_step. apply HQ; [done |]. intros off [= <-]. lia.
Qed.

(** ** The payload *)

Lemma show_payload_any src dst payload (Q : unit -> console -> Prop) E c :
  len payload < 2 ^ 31 -> (forall c', Q tt c') -> wpe (show_payload src dst payload) Q E c.
Proof.
  intros Hl HQ. unfold show_payload.
  destruct (TCPSegment.segment_parse_total (Buffer.of_string payload) 0 TCPSegment.default) as (r & seg & Ep & _);
    [apply Buffer.wf_of_string; lia | done |].
  destruct (Hexdump.hexdump_total payload 8 Hl) as [dump Ed].
  wp_step. eapply wp_of_outcome; [exact Ep |]. cbv beta iota. wp_step.
  apply wp_if; intros _; apply print_wp; wp_step; (eapply wp_of_outcome; [exact Ed |]); apply print_wp, HQ.
Qed.

(** A segment as it is sent: the line shows its header, and that its checksum is correct. *)
Lemma show_payload_segment src dst seg bl :
  TCPSegment.sendable seg -> TCPSegment.serialize 0 seg = Ok bl ->
  exists ck dump, 0 <= ck < 2 ^ 16 /\ Hexdump.hexdump (BufferList.concatenate bl) 8 = Ok dump /\
    forall (Q : unit -> console -> Prop) E c,
    Q tt (mk_console ((cout c +:+ segment_text src dst NoError
            (TCPSegment.mk (setf TCPHeader.cksum ck (TCPSegment.header seg)) (TCPSegment.payload seg))
            (len (BufferList.concatenate bl))) +:+ dump) (cerr c)) ->
    wpe (show_payload src dst (BufferList.concatenate bl)) Q E c.
Proof.
  intros [Hh Hs] Ebl.
  destruct (TCPSegment.segment_serialize_eq 0 seg) as (ck & bl' & Ebl' & Hck & Ebs & Hlen & Hz); [done | lia | done |].
  rewrite Ebl in Ebl'. injection Ebl' as <-. cbv zeta in Ebs, Hz, Hlen. rewrite <- Ebs in Hlen, Hz.
  destruct (Hexdump.hexdump_total (BufferList.concatenate bl) 8) as [dump Ed]; [lia |].
  destruct (TCPSegment.segment_parse_stored 0 (setf TCPHeader.cksum ck (TCPSegment._header seg)) (Buffer.str (TCPSegment._payload seg))
    (Buffer.of_string (BufferList.concatenate bl)) TCPSegment.default) as (s' & Ep & Eh & Epl).
  { destruct Hh. by split. } { apply Buffer.wf_of_string. lia. } { by rewrite Buffer.str_of_string, Ebs. }
  { by rewrite Buffer.str_of_string. }
  exists ck, dump. split; [done |]. split; [done |]. intros Q E c HQ. unfold show_payload.
  wp_step. eapply wp_of_outcome; [exact Ep |]. cbv beta iota. wp_step. cbn [ParseResult_index Z.ltb Z.compare]. apply print_wp.
  wp_step. eapply wp_of_outcome; [exact Ed |]. apply print_wp. cbn [cout cerr].
  assert (Et : segment_text src dst NoError s' (len (BufferList.concatenate bl)) =
    segment_text src dst NoError (TCPSegment.mk (setf TCPHeader.cksum ck (TCPSegment.header seg)) (TCPSegment.payload seg))
      (len (BufferList.concatenate bl))).
  { unfold segment_text, TCPSegment.length_in_sequence_space, TCPSegment.header, TCPSegment.payload. by rewrite Eh, Epl. }
  by rewrite Et.
Qed.

(** ** Packets and captures *)

Section packets.
Context (ntop4 ntop6 : list byte -> option string).

(** A packet of at most the snapshot length in which an IPv4 header, if there is one, has its
    five words, and the UDP header that was found was captured. *)
Definition captured (dl : Z) (pkt : list byte) : Prop :=
  len pkt <= 65535 /\
  forall c off c1, link_layer dl pkt c = (Ok (At off), c1) ->
    ip_header_whole (zdrop off pkt) /\
    forall start src dst c2,
      process_ipv4_ipv6 ntop4 ntop6 (i32 (len pkt - off)) (zdrop off pkt) c1 = (Ok (Some (start, src, dst)), c2) ->
      off + start <= len pkt.

(** A datagram that carries a UDP payload is such a packet, behind any link header. *)
Lemma carries_captured dl hdr data src dst payload :
  link_header dl hdr -> carries ntop4 ntop6 data src dst payload -> len hdr + len data <= 65535 -> captured dl (hdr ++ data).
Proof.
  intros Hl Hd Hmax. pose proof (len_nonneg hdr). pose proof (len_nonneg data). pose proof (len_nonneg payload).
  split; [rewrite len_app; lia |]. intros c off c1 El.
  assert (Hoff : wp (link_layer dl (hdr ++ data)) (fun r _ => r = At (len hdr)) c) by (by apply (link_header_wp dl hdr)).
  unfold wpe in Hoff. rewrite El in Hoff. injection Hoff as ->.
  replace (i32 (len (hdr ++ data) - len hdr)) with (len data) by (rewrite len_app; unfold i32; rewrite Z.mod_small; lia).
  rewrite zdrop_app_ge, Z.sub_diag, zdrop_nonpos, len_app by lia. split.
  - intros b0 Eb0 Epf. destruct Hd as [h udp pl Hh Hproto Hudp | b flow nxt hop src' dst' exts udp pl Hb].
    + destruct (v4_fields h (udp ++ pl) Hh) as (b0' & _ & E0 & _ & _ & _ & Ehl & _). rewrite E0 in Eb0. injection Eb0 as <-.
      rewrite Ehl. apply Hh.
    + injection Eb0 as <-. lia.
  - intros start s d c2 Ep.
    assert (Hp : wp (process_ipv4_ipv6 ntop4 ntop6 (len data) data) (fun r _ => r = Some (len data - len payload, src, dst)) c1).
    { eapply process_carries; [exact Hd | lia | done]. }
    unfold wpe in Hp. rewrite Ep in Hp. injection Hp as -> _ _. lia.
Qed.

Lemma process_packet_safe dl pkt (Q : bool -> console -> Prop) E c :
  supported_link dl = true -> captured dl pkt -> (forall c', Q true c') -> wpe (process_packet ntop4 ntop6 dl pkt) Q E c.
Proof.
  intros Hdl [Hmax Hcap] HQ. pose proof (len_nonneg pkt). unfold process_packet. wp_step.
  assert (Hl : wp (link_layer dl pkt) (fun r _ => r <> GiveUp /\ forall off, r = At off -> 0 <= off <= len pkt /\ off <= 20) c)
    by (apply link_layer_any; auto).
  apply wp_run in Hl as (r & c1 & El & Hgo & Hr). eapply wp_eq; [exact El |]. destruct r as [| | off]; [wp_step; apply HQ | done |].
  specialize (Hr off eq_refl). destruct (Hcap c off c1 El) as [Hwhole Hudp].
  assert (Ei : i32 (len pkt - off) = len (zdrop off pkt)) by (rewrite len_zdrop; unfold i32; rewrite Z.mod_small; lia).
  rewrite Ei in Hudp |- *.
  assert (Hp : wp (process_ipv4_ipv6 ntop4 ntop6 (len (zdrop off pkt)) (zdrop off pkt))
    (fun r _ => forall start s d, r = Some (start, s, d) -> 8 <= start) c1).
  { apply process_safe; [rewrite len_zdrop; lia | done | done |]. intros o s d Ho ? ? ? [= <- <- <-]. lia. }
  apply wp_run in Hp as (found & c2 & Ep & Hstart). wp_step. eapply wp_eq; [exact Ep |].
  destruct found as [[[start src] dst] |]; [| wp_step; apply warn_wp; wp_step; apply HQ].
  specialize (Hstart start src dst eq_refl). specialize (Hudp start src dst c2 Ep).
  cbv zeta. rewrite !u64_small by (rewrite ?u64_small by lia; lia).
  wp_step. unfold copy_payload. rewrite (proj2 (Z.ltb_ge _ _)) by (unfold MAX_STRING; lia).
  apply bytes_at_wp; [lia | lia |]. wp_step.
  apply show_payload_any; [rewrite len_slice; lia |]. intros c'. wp_step. apply HQ.
Qed.


Lemma capture_loop_survives p dl events c :
  supported_link dl = true -> Forall (fun ev => 0 <= ev.1 /\ (0 < ev.1 -> captured dl ev.2)) events ->
  exists c', capture_loop ntop4 ntop6 p dl events c = (Ok None, c').
Proof.
  intros Hdl Hev. revert c. induction Hev as [|[r pkt] events [Hr Hpkt] _ IH]; intros c; [by eexists |].
  cbn [capture_loop fst snd] in *. rewrite (proj2 (Z.ltb_ge r 0)) by lia.
  destruct (Z.eqb_spec r 0); [apply IH |].
  assert (Hp : wp (process_packet ntop4 ntop6 dl pkt) (fun b _ => b = true) c) by (apply process_packet_safe; auto with lia).
  apply wp_run in Hp as (b & c1 & Ep & ->). unfold bind. rewrite Ep. apply IH.
Qed.
End packets.

(** ** The arguments *)

Definition exits (e : exn) (_ : console) : Prop := e = Program_exit 0 \/ e = Program_exit 1.

Lemma show_usage_wp a msg (Q : unit -> console -> Prop) E c : (forall c', Q tt c') -> wpe (show_usage a msg) Q E c.
Proof. intros HQ. unfold show_usage. wp_step. apply print_wp. wp_step. destruct msg; apply HQ. Qed.

Lemma options_loop_wp argv : argv <> [] -> forall fuel curr dev (Q : Z * option string -> console -> Prop) c,
  1 <= curr -> (Z.to_nat (len argv - curr) < fuel)%nat -> (forall r c', Q r c') ->
  wpe (parse_loop fuel argv curr dev) Q exits c.
Proof.
  intros Hne.
  assert (H0 : exists a, zlookup argv 0 = Some a) by (destruct argv as [|a argv]; [done | by exists a]).
  destruct H0 as [a0 E0]. induction fuel as [|fuel IH]; intros curr dev Q c Hcurr Hfuel HQ; [lia |]. cbn [parse_loop].
  apply wp_if; intros C; [| wp_step; apply HQ]. apply Z.ltb_lt in C.
  destruct (zlookup_lt_is_Some argv curr) as [a Ea]; [lia |]. wp_step. eapply wp_or_ub; [exact Ea |].
  apply wp_if; intros _.
  - wp_step. unfold check_arg. apply wp_when; intros C1.
    + wp_step. eapply wp_or_ub; [exact E0 |]. wp_step. apply show_usage_wp. intros c'. wp_step. by right.
    + apply Z.leb_gt in C1. destruct (zlookup_lt_is_Some argv (curr + 1)) as [d Ed]; [lia |].
      wp_step. eapply wp_or_ub; [exact Ed |]. apply IH; [lia | lia | done].
  - apply wp_if; intros _; [| wp_step; apply HQ].
    wp_step. eapply wp_or_ub; [exact E0 |]. wp_step. apply show_usage_wp. intros c'. wp_step. by left.
Qed.
End UdpTcpdump.

(** [C40] A TCP segment in UDP is shown as it was sent: for every link type, over IPv4 and over
    IPv6 with any chain of extension headers, the dump finds the payload at its place and
    prints the two addresses, the fields of the segment's header, a correct checksum, and the
    bytes of the payload. *)
Theorem tcpdump_decodes ntop4 ntop6 dl hdr data src dst seg bl c :
  UdpTcpdump.link_header dl hdr ->
  UdpTcpdump.carries ntop4 ntop6 data src dst (BufferList.concatenate bl) ->
  len hdr + len data <= 65535 -> TCPSegment.sendable seg -> TCPSegment.serialize 0 seg = Ok bl ->
  exists ck dump, 0 <= ck < 2 ^ 16 /\ Hexdump.hexdump (BufferList.concatenate bl) 8 = Ok dump /\
    UdpTcpdump.process_packet ntop4 ntop6 dl (hdr ++ data) c =
      (Ok true, mk_console ((cout c +:+ UdpTcpdump.segment_text src dst NoError
        (TCPSegment.mk (setf TCPHeader.cksum ck (TCPSegment.header seg)) (TCPSegment.payload seg))
        (len (BufferList.concatenate bl))) +:+ dump) (cerr c)).
Proof.
  intros Hlink Hdata Hmax Hseg Ebl. pose proof (len_nonneg hdr). pose proof (len_nonneg data).
  set (payload := BufferList.concatenate bl) in *. pose proof (len_nonneg payload).
  destruct (UdpTcpdump.show_payload_segment src dst seg bl Hseg Ebl) as (ck & dump & Hck & Edump & Hshow). fold payload in Edump, Hshow |- *.
  exists ck, dump. split; [done |]. split; [done |]. apply wp_result. unfold UdpTcpdump.process_packet.
  wp_step. apply (UdpTcpdump.link_header_wp dl hdr); [done |]. cbv beta iota.
  assert (Ei : i32 (len (hdr ++ data) - len hdr) = len data) by (rewrite len_app; unfold i32; rewrite Z.mod_small; lia).
  assert (Epre : exists pre, data = pre ++ payload).
  { destruct Hdata; eexists; rewrite !app_assoc; done. }
  destruct Epre as [pre ->]. rewrite len_app in *. pose proof (len_nonneg pre).
  rewrite Ei, zdrop_app_ge, Z.sub_diag, zdrop_nonpos by lia. rewrite <- len_app.
  wp_step. eapply UdpTcpdump.process_carries; [exact Hdata | rewrite len_app; lia |]. cbv beta iota zeta.
  rewrite !len_app. rewrite !u64_small by (rewrite ?u64_small by lia; lia).
  replace (len hdr + (len pre + len payload - len payload)) with (len hdr + len pre) by lia.
  replace (len hdr + (len pre + len payload) - (len hdr + len pre)) with (len payload) by lia.
  wp_step. unfold UdpTcpdump.copy_payload. rewrite (proj2 (Z.ltb_ge _ _)) by (unfold UdpTcpdump.MAX_STRING; lia).
  apply UdpTcpdump.bytes_at_wp; [lia | rewrite !len_app; lia |].
  pose proof (UdpTcpdump.slice_middle (hdr ++ pre) payload []) as Esl. rewrite app_nil_r, <- app_assoc, len_app in Esl. rewrite Esl.
  wp_step. apply Hshow. wp_step. done.
Qed.

(** The program, run with any arguments, on any packets whose headers were captured,
    prints its usage and exits, reports that the filter was refused, or listens on:
    malformed link headers, other protocols, extension headers that lead out of the packet
    and segments that do not parse are skipped or reported, and nothing is read outside
    of a packet or of [argv]. *)
Theorem tcpdump_survives ntop4 ntop6 p argv events c :
  argv <> [] ->
  (forall dev dl, UdpTcpdump.pcap_open_live p dev = inr dl ->
     Forall (fun ev => 0 <= ev.1 /\ (0 < ev.1 -> UdpTcpdump.captured ntop4 ntop6 dl ev.2)) events) ->
  wpe (UdpTcpdump.main ntop4 ntop6 p argv events)
    (fun r _ => r = None \/ r = Some 1 /\ exists f, UdpTcpdump.pcap_compile p f <> 0 \/ UdpTcpdump.pcap_setfilter p f <> 0)
    UdpTcpdump.exits c.
Proof.
  intros Hne Hev. unfold UdpTcpdump.main. wp_step.
  apply UdpTcpdump.options_loop_wp; [done | lia | unfold len; lia |]. intros [start dev] c1. cbv beta iota.
  wp_step. unfold UdpTcpdump.open_capture. wp_step. apply print_wp. specialize (Hev dev).
  destruct (UdpTcpdump.pcap_open_live p dev) as [err|dl]; [wp_step; apply print_wp; wp_step; by right |].
  specialize (Hev dl eq_refl). apply wp_if; intros Hdl; [wp_step; apply print_wp; wp_step; by right |].
  apply negb_false_iff in Hdl. wp_step. apply print_wp. wp_step. cbv zeta. wp_step. apply print_wp.
  apply wp_if; intros C1.
  { wp_step. apply print_wp. wp_step. right. split; [done |]. eexists. left. by apply negb_true_iff, Z.eqb_neq in C1. }
  apply wp_if; intros C2.
  { wp_step. apply print_wp. wp_step. right. split; [done |]. eexists. right. by apply negb_true_iff, Z.eqb_neq in C2. }
  edestruct UdpTcpdump.capture_loop_survives as [c' Er]; [exact Hdl | exact Hev |]. eapply wp_eq; [exact Er |]. by left.
Qed.

(** An IPv4 packet of one byte: the header length is checked against zero words, and the
    protocol is read behind the packet. *)
Theorem tcpdump_reads_outside ntop4 ntop6 c :
  UdpTcpdump.process_packet ntop4 ntop6 UdpTcpdump.DLT_RAW [x40] c = (Throw UndefinedBehavior, c).
Proof. done. Qed.

(** A packet that ends within the UDP header: the length of the payload wraps around and the
    copy of the payload throws, which [main] does not catch. *)
Theorem tcpdump_truncated_udp ntop4 ntop6 dl hdr h udp c :
  UdpTcpdump.link_header dl hdr -> len hdr <= 20 -> IPv4Header.wf h -> IPv4Header.proto h = 0x11 -> len udp < 8 ->
  exists c', UdpTcpdump.process_packet ntop4 ntop6 dl (hdr ++ IPv4Header.image h ++ udp) c = (Throw Length_error, c').
Proof.
  intros Hl Hhdr Hh Hproto Hudp. pose proof (len_nonneg hdr). pose proof (len_nonneg udp).
  pose proof (IPv4Header.wf_hlen _ Hh). pose proof (IPv4Header.range_hlen _ (IPv4Header.wf_ranges _ Hh)).
  assert (Hw : wpe (UdpTcpdump.process_packet ntop4 ntop6 dl (hdr ++ IPv4Header.image h ++ udp))
    (fun _ _ => False) (fun e _ => e = Length_error) c).
  { unfold UdpTcpdump.process_packet. wp_step. apply (UdpTcpdump.link_header_wp dl hdr); [done |]. cbv beta iota.
    assert (El : len (IPv4Header.image h ++ udp) = 4 * IPv4Header.hlen h + len udp) by (rewrite len_app, IPv4Header.len_ip_image by lia; lia).
    rewrite zdrop_app_ge, Z.sub_diag, zdrop_nonpos by lia. rewrite (len_app hdr), El.
    replace (i32 (len hdr + (4 * IPv4Header.hlen h + len udp) - len hdr)) with (4 * IPv4Header.hlen h + len udp)
      by (unfold i32; rewrite Z.mod_small; lia).
    destruct (UdpTcpdump.v4_fields h udp Hh) as (b0 & b9 & E0 & E9 & Ep & Epf & Ehl & _ & _).
    wp_step. unfold UdpTcpdump.process_ipv4_ipv6. rewrite (proj2 (Z.ltb_ge _ _)) by lia.
    wp_step. eapply UdpTcpdump.data_at_wp; [exact E0 |]. cbv zeta. rewrite Epf, Ehl, Z.eqb_refl. rewrite (proj2 (Z.ltb_ge _ _)) by lia.
    wp_step. eapply UdpTcpdump.data_at_wp; [exact E9 |]. rewrite Ep, Hproto. cbn [Z.eqb Pos.eqb negb].
    unfold UdpTcpdump.inet4_addr. wp_step. wp_step. apply UdpTcpdump.bytes_at_wp; [lia | lia |]. wp_step. wp_step. wp_step.
    apply UdpTcpdump.bytes_at_wp; [lia | lia |]. wp_step. wp_step. cbv beta iota zeta. wp_step. unfold UdpTcpdump.copy_payload.
    rewrite (u64_small (len hdr + _)) by lia. rewrite (proj2 (Z.ltb_lt _ _)); [by wp_step |].
    unfold UdpTcpdump.MAX_STRING. solve_wrap. }
  unfold wpe in Hw. destruct (UdpTcpdump.process_packet _ _ _ _ c) as [[b|e] c']; [done |]. subst. by eexists.
Qed.

(** ** Witnesses *)

Definition dumped_header : IPv4Header.t := IPv4Header.mk 4 5 0 55 7 true false 0 64 0x11 0 0x0a000001 0x0a000002.
Definition dumped_udp : list byte := [x04; x00; x04; x01; x00; x23; x00; x00].
Definition dumped_payload : list byte :=
  match TCPSegment.serialize 0 demo_segment with Ok bl => BufferList.concatenate bl | Throw _ => [] end.
Definition dumped_packet : list byte := IPv4Header.image dumped_header ++ dumped_udp ++ dumped_payload.
Definition no_text (_ : list byte) : option string := None.
Definition demo_pcap : UdpTcpdump.pcap :=
  {| UdpTcpdump.pcap_open_live _ := inr UdpTcpdump.DLT_RAW; UdpTcpdump.pcap_description _ := "RAW"%string;
     UdpTcpdump.pcap_compile _ := 0; UdpTcpdump.pcap_setfilter _ := 0; UdpTcpdump.pcap_geterr := EmptyString |}.

Lemma dumped_header_wf : IPv4Header.wf dumped_header.
Proof. split; [| done | done]. split; by vm_compute. Qed.

Lemma demo_segment_sendable : TCPSegment.sendable demo_segment.
Proof. split; [split; vm_compute; split; congruence | by vm_compute]. Qed.

Lemma dumped_serialized : exists bl, TCPSegment.serialize 0 demo_segment = Ok bl /\ BufferList.concatenate bl = dumped_payload.
Proof.
  assert (Hok : match TCPSegment.serialize 0 demo_segment with Ok _ => true | Throw _ => false end = true) by (vm_compute; reflexivity).
  unfold dumped_payload. destruct (TCPSegment.serialize 0 demo_segment) as [bl|e]; [by exists bl | discriminate Hok].
Qed.

Lemma dumped_carries : UdpTcpdump.carries no_text no_text dumped_packet "unknown" "unknown" dumped_payload.
Proof. apply (UdpTcpdump.carries_v4 no_text no_text dumped_header); [apply dumped_header_wf | done | done]. Qed.

Lemma dumped_short : len (@nil byte) + len dumped_packet <= 65535.
Proof. by vm_compute. Qed.

Definition blank : console := mk_console EmptyString EmptyString.

Lemma tcpdump_decodes_witness :
  exists ck dump, 0 <= ck < 2 ^ 16 /\ Hexdump.hexdump dumped_payload 8 = Ok dump /\
    UdpTcpdump.process_packet no_text no_text UdpTcpdump.DLT_RAW ([] ++ dumped_packet) blank =
      (Ok true, mk_console ((cout blank +:+ UdpTcpdump.segment_text "unknown" "unknown" NoError
        (TCPSegment.mk (setf TCPHeader.cksum ck (TCPSegment.header demo_segment)) (TCPSegment.payload demo_segment))
        (len dumped_payload)) +:+ dump) (cerr blank)).
Proof.
  destruct dumped_serialized as (bl & Ebl & Epl). pose proof dumped_carries as Hc. rewrite <- Epl in Hc |- *.
  apply (tcpdump_decodes no_text no_text); [apply UdpTcpdump.link_raw | exact Hc | apply dumped_short | apply demo_segment_sendable | exact Ebl].
Defined.

Definition demo_events : list (Z * list byte) := [(0, []); (1, dumped_packet); (1, [x00; x01])].

Lemma demo_events_captured :
  Forall (fun ev => 0 <= ev.1 /\ (0 < ev.1 -> UdpTcpdump.captured no_text no_text UdpTcpdump.DLT_RAW ev.2)) demo_events.
Proof.
  repeat apply List.Forall_cons; [| | | apply List.Forall_nil]; split; cbn [fst snd]; try lia; intros _.
  - apply (UdpTcpdump.carries_captured no_text no_text _ []) with "unknown"%string "unknown"%string dumped_payload;
      [apply UdpTcpdump.link_raw | apply dumped_carries | apply dumped_short].
  - split; [by vm_compute |]. intros c off c1 [= <- <-]. split; [by intros b [= <-] |]. by intros.
Qed.

Lemma tcpdump_survives_witness :
  wpe (UdpTcpdump.main no_text no_text demo_pcap ["udp_tcpdump"%string] demo_events)
    (fun r _ => r = None \/ r = Some 1 /\
       exists f, UdpTcpdump.pcap_compile demo_pcap f <> 0 \/ UdpTcpdump.pcap_setfilter demo_pcap f <> 0)
    UdpTcpdump.exits blank.
Proof.
  apply tcpdump_survives; [done |]. intros dev dl [= <-]. apply demo_events_captured.
Defined.
