(* ===== verification/command_line.v ===== *)
(** * The options of apps/tcp_ipv4, apps/tcp_udp and apps/tcp_ip_ethernet

    The three programs read options from the left while more than two arguments are left;
    the last two are the host and the port.  Each program is its local variables, its
    options and the body of its loop; [CommandLine] is what the bodies promise, and the
    theorems about the loop are proved against it.  Numbers are read by [strtol] with
    base zero and by [strtof]; single precision is [SpecFloat] with 24 bits. *)

From S2P Require Import prelude printing parser address tcp_sender network_interface file_descriptor fd_adapter.
From Corelib Require Import SpecFloat.

(** ** Numbers in arguments *)

Definition char_is (n : nat) (c : Ascii.ascii) : bool := (Ascii.nat_of_ascii c =? n)%nat.

(** The value of a digit or letter. *)
Definition digit_value (c : Ascii.ascii) : option Z :=
  let n := Z.of_nat (Ascii.nat_of_ascii c) in
  if (48 <=? n) && (n <=? 57) then Some (n - 48)
  else if (97 <=? n) && (n <=? 122) then Some (n - 87)
  else if (65 <=? n) && (n <=? 90) then Some (n - 55)
  else None.

(** Digits of a base: the number after [acc], how many there were, what follows. *)
Fixpoint scan_digits (base acc n : Z) (s : string) : Z * Z * string :=
  match s with
  | String c s' =>
      match digit_value c with
      | Some d => if d <? base then scan_digits base (acc * base + d) (n + 1) s' else (acc, n, s)
      | None => (acc, n, s)
      end
  | EmptyString => (acc, n, s)
  end.

Definition scan_sign (s : string) : bool * string :=
  match s with
  | String c s' => if char_is 45 c then (true, s') else if char_is 43 c then (false, s') else (false, s)
  | EmptyString => (false, s)
  end.
Definition negate (neg : bool) (v : Z) : Z := if neg then - v else v.

(** [0x] or [0X], and what follows it *)
Definition hex_prefix (s : string) : option string :=
  match s with
  | String z (String x s') => if char_is 48 z && (char_is 120 x || char_is 88 x) then Some s' else None
  | _ => None
  end.

Definition starts_with_digit (base : Z) (s : string) : bool := 0 <? (scan_digits base 0 0 s).1.2.

(** [strtol(s, nullptr, 0)]: the prefix decides the base; a value that does not fit is
    the nearest [long]. *)
Definition strtol (s : string) : Z :=
  let '(neg, s) := scan_sign (snd (span_string is_space s)) in
  let '(base, s) :=
    match hex_prefix s with
    | Some s' => if starts_with_digit 16 s' then (16, s') else (8, s)
    | None => match s with String c _ => if char_is 48 c then (8, s) else (10, s) | EmptyString => (10, s) end
    end in
  Z.max (- 2 ^ 63) (Z.min (2 ^ 63 - 1) (negate neg (scan_digits base 0 0 s).1.1)).

(** The same word, in upper or lower case. *)
Fixpoint prefix_nocase (p s : string) : bool :=
  match p, s with
  | EmptyString, _ => true
  | String a p', String b s' =>
      let n := Ascii.nat_of_ascii b in
      let lower := if (65 <=? n)%nat && (n <=? 90)%nat then (n + 32)%nat else n in
      (Ascii.nat_of_ascii a =? lower)%nat && prefix_nocase p' s'
  | _, _ => false
  end.

(** The exponent after one of two letters; none without a digit. *)
Definition scan_exponent (lower upper : nat) (s : string) : Z :=
  match s with
  | String c s' =>
      if char_is lower c || char_is upper c then
        let '(neg, s'') := scan_sign s' in negate neg (scan_digits 10 0 0 s'').1.1
      else 0
  | EmptyString => 0
  end.

(** [m * 10 ^ e] in single precision, correctly rounded. *)
Definition decimal_float (neg : bool) (m e : Z) : spec_float :=
  match m with
  | Zpos p =>
      if 0 <=? e then binary_normalize 24 128 (negate neg (m * 10 ^ e)) 0 neg
      else SFdiv 24 128 (S754_finite neg p 0) (S754_finite false (Z.to_pos (10 ^ (- e))) 0)
  | _ => S754_zero neg
  end.

(** Digits with a point: the number without it, the digits behind it, how many digits. *)
Definition scan_mantissa (base : Z) (s : string) : Z * Z * Z * string :=
  let '(m1, n1, r1) := scan_digits base 0 0 s in
  match r1 with
  | String c s' =>
      if char_is 46 c then let '(m2, n2, r2) := scan_digits base m1 0 s' in (m2, n2, n1 + n2, r2) else (m1, 0, n1, r1)
  | EmptyString => (m1, 0, n1, r1)
  end.

(** [strtof(s, nullptr)] *)
Definition strtof (s : string) : spec_float :=
  let '(neg, s) := scan_sign (snd (span_string is_space s)) in
  if prefix_nocase "inf" s then S754_infinity neg
  else if prefix_nocase "nan" s then S754_nan
  else
    let decimal :=
      let '(m, point, n, rest) := scan_mantissa 10 s in
      if n =? 0 then S754_zero false else decimal_float neg m (scan_exponent 101 69 rest - point) in
    match hex_prefix s with
    | Some s' =>
        let '(m, point, n, rest) := scan_mantissa 16 s' in
        if n =? 0 then decimal
        else if m =? 0 then S754_zero neg
        else binary_normalize 24 128 (negate neg m) (scan_exponent 112 80 rest - 4 * point) neg
    | None => decimal
    end.

(** [static_cast<uint16_t>] of a [float]: truncated; undefined if it does not fit. *)
Definition float_to_uint16 (x : spec_float) : outcome Z :=
  match x with
  | S754_zero _ => Ok 0
  | S754_finite neg m e =>
      if neg then if Z.shiftl (Zpos m) e =? 0 then Ok 0 else Throw UndefinedBehavior
      else if Z.shiftl (Zpos m) e <=? UINT16_MAX then Ok (Z.shiftl (Zpos m) e) else Throw UndefinedBehavior
  | _ => Throw UndefinedBehavior
  end.

(** [static_cast<uint16_t>(static_cast<float>(max) * strtof(s))] *)
Definition loss_rate (s : string) : outcome Z :=
  float_to_uint16 (SFmul 24 128 (binary_normalize 24 128 UINT16_MAX 0 false) (strtof s)).

(** ** Reading arguments *)

(** [strncmp(s, a, n) == 0] *)
Definition strncmp_eq (n : nat) (s a : string) : bool := String.eqb (String.substring 0 n s) (String.substring 0 n a).

(** [argv[i]] as a string *)
Definition argument (argv : list string) (i : Z) : M console string := or_ub (zlookup argv i).

Section options.
(** The text of [show_usage] after the program's name. *)
Context (usage : string).

Definition show_usage (argv0 : string) (msg : option string) : M console unit :=
  print ("Usage: " +:+ argv0 +:+ usage) ;;
  match msg with Some m => print m | None => pure tt end ;;
  print newline.

Definition check_argc (argv : list string) (curr : Z) (err : string) : M console unit :=
  when (len argv <=? curr + 3) (let* a := argument argv 0 in show_usage a (Some err) ;; throw (Program_exit 1)).

(** An option with an argument: the check, and [argv[curr + 1]]. *)
Definition option_argument (argv : list string) (curr : Z) (err : string) : M console string :=
  check_argc argv curr err ;;
  argument argv (curr + 1).

(** The last two branches: [-h], and what is no option. *)
Definition help_or_error {A} (argv : list string) (a : string) : M console A :=
  let* a0 := argument argv 0 in
  if strncmp_eq 3 "-h" a then show_usage a0 None ;; throw (Program_exit 0)
  else show_usage a0 (Some ("ERROR: unrecognized option " +:+ a)) ;; throw (Program_exit 1).

(** [while (argc - curr > 2)]; the body returns the new [curr] and the local variables. *)
Fixpoint option_loop {L} (body : list string -> Z -> L -> M console (Z * L)) (fuel : nat) (argv : list string) (curr : Z) (l : L) :
    M console (Z * L) :=
  match fuel with
  | O => throw OutOfFuel
  | S fuel =>
      if 2 <? len argv - curr then
        let* (curr, l) := body argv curr l in
        option_loop body fuel argv curr l
      else pure (curr, l)
  end.
End options.

(** ** The options *)

#[global] Instance set_recv_capacity : Setter TCPConfig.recv_capacity := ltac:(derive_setter TCPConfig.eta TCPConfig.recv_capacity).
#[global] Instance set_loss_rate_dn : Setter FdAdapterConfig.loss_rate_dn := ltac:(derive_setter FdAdapterConfig.eta FdAdapterConfig.loss_rate_dn).
#[global] Instance set_loss_rate_up : Setter FdAdapterConfig.loss_rate_up := ltac:(derive_setter FdAdapterConfig.eta FdAdapterConfig.loss_rate_up).

(** The local variables of the three [get_config] functions; each uses those of its options. *)
Module Locals.
Record t : Type := mk {
  c_fsm : TCPConfig.t;
  c_filt : FdAdapterConfig.t;
  listen : bool;
  source_address : string;
  source_port : string;
  next_hop_address : string;
  device : option string
}.
Definition eta (l : t) : t :=
  mk (c_fsm l) (c_filt l) (listen l) (source_address l) (source_port l) (next_hop_address l) (device l).
#[global] Instance set_c_fsm : Setter c_fsm := ltac:(derive_setter eta c_fsm).
#[global] Instance set_c_filt : Setter c_filt := ltac:(derive_setter eta c_filt).
#[global] Instance set_listen : Setter listen := ltac:(derive_setter eta listen).
#[global] Instance set_source_address : Setter source_address := ltac:(derive_setter eta source_address).
#[global] Instance set_source_port : Setter source_port := ltac:(derive_setter eta source_port).
#[global] Instance set_next_hop_address : Setter next_hop_address := ltac:(derive_setter eta next_hop_address).
#[global] Instance set_device : Setter device := ltac:(derive_setter eta device).

(** [c_fsm.recv_capacity = strtol(...)] and the like: [size_t] and [uint16_t] *)
Definition set_window (v : string) (l : t) : t := upd c_fsm (setf TCPConfig.recv_capacity (u64 (strtol v))) l.
Definition set_timeout (v : string) (l : t) : t := upd c_fsm (setf TCPConfig.rt_timeout (u16 (strtol v))) l.
Definition set_loss_up (r : Z) (l : t) : t := upd c_filt (setf FdAdapterConfig.loss_rate_up r) l.
Definition set_loss_dn (r : Z) (l : t) : t := upd c_filt (setf FdAdapterConfig.loss_rate_dn r) l.
End Locals.

Definition usage_head : string :=
  " [options] <host> <port>" +:+ newline +:+ newline +:+
  "   Option                                                          Default" +:+ newline +:+
  "   --                                                              --" +:+ newline +:+ newline.
Definition usage_window : string :=
  "   -w <winsz>      Use a window of <winsz> bytes                   " +:+ std_to_string TCPConfig.MAX_PAYLOAD_SIZE +:+ newline +:+ newline +:+
  "   -t <tmout>      Set rt_timeout to tmout                         " +:+ std_to_string TCPConfig.TIMEOUT_DFLT +:+ newline +:+ newline.
Definition usage_listen : string :=
  "   -l              Server (listen) mode.                           (client mode)" +:+ newline +:+
  "                   In server mode, <host>:<port> is the address to bind." +:+ newline +:+ newline.
Definition usage_loss : string :=
  "   -Lu <loss>      Set uplink loss to <rate> (float in 0..1)       (no loss)" +:+ newline +:+
  "   -Ld <loss>      Set downlink loss to <rate> (float in 0..1)     (no loss)" +:+ newline +:+ newline.

(** *** apps/tcp_ipv4 *)

Module TcpIpv4.
Definition TUN_DFLT : string := "tun144".
Definition LOCAL_ADDRESS_DFLT : string := "169.254.144.9".

Definition usage : string :=
  usage_head +:+ usage_listen +:+
  "   -a <addr>       Set source address (client mode only)           " +:+ LOCAL_ADDRESS_DFLT +:+ newline +:+
  "   -s <port>       Set source port (client mode only)              (random)" +:+ newline +:+ newline +:+
  usage_window +:+
  "   -d <tundev>     Connect to tun <tundev>                         " +:+ TUN_DFLT +:+ newline +:+ newline +:+
  usage_loss +:+ "   -h              Show this message." +:+ newline +:+ newline.

Definition body (argv : list string) (curr : Z) (l : Locals.t) : M console (Z * Locals.t) :=
  let* a := argument argv curr in
  if strncmp_eq 3 "-l" a then pure (curr + 1, setf Locals.listen true l)
  else if strncmp_eq 3 "-a" a then
    let* v := option_argument usage argv curr "ERROR: -a requires one argument." in
    pure (curr + 2, setf Locals.source_address v l)
  else if strncmp_eq 3 "-s" a then
    let* v := option_argument usage argv curr "ERROR: -s requires one argument." in
    pure (curr + 2, setf Locals.source_port v l)
  else if strncmp_eq 3 "-w" a then
    let* v := option_argument usage argv curr "ERROR: -w requires one argument." in
    pure (curr + 2, Locals.set_window v l)
  else if strncmp_eq 3 "-t" a then
    let* v := option_argument usage argv curr "ERROR: -t requires one argument." in
    pure (curr + 2, Locals.set_timeout v l)
  else if strncmp_eq 3 "-d" a then
    let* v := option_argument usage argv curr "ERROR: -t requires one argument." in
    pure (curr + 2, setf Locals.device (Some v) l)
  else if strncmp_eq 3 "-Lu" a then
    let* v := option_argument usage argv curr "ERROR: -Lu requires one argument." in
    let* r := of_outcome (loss_rate v) in
    pure (curr + 2, Locals.set_loss_up r l)
  else if strncmp_eq 3 "-Ld" a then
    let* v := option_argument usage argv curr "ERROR: -Lu requires one argument." in
    let* r := of_outcome (loss_rate v) in
    pure (curr + 2, Locals.set_loss_dn r l)
  else help_or_error usage argv a.

(** The local variables before the loop. *)
Definition initial (random : Z) (c_filt : FdAdapterConfig.t) : Locals.t :=
  Locals.mk TCPConfig.default c_filt false LOCAL_ADDRESS_DFLT (std_to_string (u16 random)) EmptyString None.

Section config.
Context `{Address.Netdb}.

(** The positional arguments: in server mode the host is not looked at. *)
Definition finish (argv : list string) (curr : Z) (l : Locals.t) :
    M console (TCPConfig.t * FdAdapterConfig.t * bool * option string) :=
  let* port := argument argv (curr + 1) in
  if Locals.listen l then
    let* source := of_outcome (Address.of_hostname "0" port) in
    let* p := of_outcome (Address.port source) in
    when (p =? 0)
      (let* a0 := argument argv 0 in
       show_usage usage a0 (Some "ERROR: listen port cannot be zero in server mode.") ;; throw (Program_exit 1)) ;;
    pure (Locals.c_fsm l, setf FdAdapterConfig.source source (Locals.c_filt l), true, Locals.device l)
  else
    let* host := argument argv curr in
    let* destination := of_outcome (Address.of_hostname host port) in
    let* source := of_outcome (Address.of_hostname (Locals.source_address l) (Locals.source_port l)) in
    pure (Locals.c_fsm l, setf FdAdapterConfig.source source (setf FdAdapterConfig.destination destination (Locals.c_filt l)),
          false, Locals.device l).

(** [random] is [random_device()()]. *)
Definition get_config (random : Z) (argv : list string) : M console (TCPConfig.t * FdAdapterConfig.t * bool * option string) :=
  let* c_filt := of_outcome FdAdapterConfig.default in
  let* (curr, l) := option_loop body (S (length argv)) argv 1 (initial random c_filt) in
  finish argv curr l.
End config.
End TcpIpv4.

(** *** apps/tcp_udp *)

Module TcpUdp.
Definition usage : string :=
  usage_head +:+ usage_listen +:+ usage_window +:+ usage_loss +:+
  "   -h              Show this message and quit." +:+ newline +:+ newline.

Definition body (argv : list string) (curr : Z) (l : Locals.t) : M console (Z * Locals.t) :=
  let* a := argument argv curr in
  if strncmp_eq 3 "-l" a then pure (curr + 1, setf Locals.listen true l)
  else if strncmp_eq 3 "-w" a then
    let* v := option_argument usage argv curr "ERROR: -w requires one argument." in
    pure (curr + 2, Locals.set_window v l)
  else if strncmp_eq 3 "-t" a then
    let* v := option_argument usage argv curr "ERROR: -t requires one argument." in
    pure (curr + 2, Locals.set_timeout v l)
  else if strncmp_eq 3 "-Lu" a then
    let* v := option_argument usage argv curr "ERROR: -Lu requires one argument." in
    let* r := of_outcome (loss_rate v) in
    pure (curr + 2, Locals.set_loss_up r l)
  else if strncmp_eq 3 "-Ld" a then
    let* v := option_argument usage argv curr "ERROR: -Lu requires one argument." in
    let* r := of_outcome (loss_rate v) in
    pure (curr + 2, Locals.set_loss_dn r l)
  else help_or_error usage argv a.

(** The local variables before the loop. *)
Definition initial (c_filt : FdAdapterConfig.t) : Locals.t :=
  Locals.mk TCPConfig.default c_filt false EmptyString EmptyString EmptyString None.

Section config.
Context `{Address.Netdb}.

(** The positional arguments are counted from the end. *)
Definition finish (argv : list string) (_ : Z) (l : Locals.t) : M console (TCPConfig.t * FdAdapterConfig.t * bool) :=
  let* port := argument argv (len argv - 1) in
  if Locals.listen l then
    let* source := of_outcome (Address.of_hostname "0" port) in
    pure (Locals.c_fsm l, setf FdAdapterConfig.source source (Locals.c_filt l), true)
  else
    let* host := argument argv (len argv - 2) in
    let* destination := of_outcome (Address.of_hostname host port) in
    pure (Locals.c_fsm l, setf FdAdapterConfig.destination destination (Locals.c_filt l), false).

Definition get_config (argv : list string) : M console (TCPConfig.t * FdAdapterConfig.t * bool) :=
  let* c_filt := of_outcome FdAdapterConfig.default in
  let* (curr, l) := option_loop body (S (length argv)) argv 1 (initial c_filt) in
  finish argv curr l.
End config.
End TcpUdp.

(** *** apps/tcp_ip_ethernet *)

Module TcpIpEthernet.
Definition TAP_DFLT : string := "tap10".
Definition LOCAL_ADDRESS_DFLT : string := "169.254.10.9".
Definition GATEWAY_DFLT : string := "169.254.10.1".

Definition usage : string :=
  usage_head +:+
  "   -a <addr>       Set IP source address (client mode only)        " +:+ LOCAL_ADDRESS_DFLT +:+ newline +:+
  "   -s <port>       Set TCP source port (client mode only)          (random)" +:+ newline +:+ newline +:+
  "   -n <addr>       Set IP next-hop address                         " +:+ GATEWAY_DFLT +:+ newline +:+
  usage_window +:+
  "   -d <tapdev>     Connect to tap <tapdev>                         " +:+ TAP_DFLT +:+ newline +:+ newline +:+
  "   -h              Show this message." +:+ newline +:+ newline.

Definition body (argv : list string) (curr : Z) (l : Locals.t) : M console (Z * Locals.t) :=
  let* a := argument argv curr in
  if strncmp_eq 3 "-a" a then
    let* v := option_argument usage argv curr "ERROR: -a requires one argument." in
    pure (curr + 2, setf Locals.source_address v l)
  else if strncmp_eq 3 "-s" a then
    let* v := option_argument usage argv curr "ERROR: -s requires one argument." in
    pure (curr + 2, setf Locals.source_port v l)
  else if strncmp_eq 3 "-n" a then
    let* v := option_argument usage argv curr "ERROR: -n requires one argument." in
    pure (curr + 2, setf Locals.next_hop_address v l)
  else if strncmp_eq 3 "-w" a then
    let* v := option_argument usage argv curr "ERROR: -w requires one argument." in
    pure (curr + 2, Locals.set_window v l)
  else if strncmp_eq 3 "-t" a then
    let* v := option_argument usage argv curr "ERROR: -t requires one argument." in
    pure (curr + 2, Locals.set_timeout v l)
  else if strncmp_eq 3 "-d" a then
    let* v := option_argument usage argv curr "ERROR: -t requires one argument." in
    pure (curr + 2, setf Locals.device (Some v) l)
  else help_or_error usage argv a.

(** The local variables before the loop. *)
Definition initial (random : Z) (c_filt : FdAdapterConfig.t) : Locals.t :=
  Locals.mk TCPConfig.default c_filt false LOCAL_ADDRESS_DFLT (std_to_string (u16 random)) GATEWAY_DFLT None.

Section config.
Context `{Address.Netdb}.

Definition finish (argv : list string) (curr : Z) (l : Locals.t) :
    M console (TCPConfig.t * FdAdapterConfig.t * Address.t * string) :=
  let* host := argument argv curr in
  let* port := argument argv (curr + 1) in
  let* destination := of_outcome (Address.of_hostname host port) in
  let* source := of_outcome (Address.of_hostname (Locals.source_address l) (Locals.source_port l)) in
  let* next_hop := of_outcome (Address.of_hostname (Locals.next_hop_address l) "0") in
  pure (Locals.c_fsm l, setf FdAdapterConfig.source source (setf FdAdapterConfig.destination destination (Locals.c_filt l)),
        next_hop, default TAP_DFLT (Locals.device l)).

Definition get_config (random : Z) (argv : list string) : M console (TCPConfig.t * FdAdapterConfig.t * Address.t * string) :=
  let* c_filt := of_outcome FdAdapterConfig.default in
  let* (curr, l) := option_loop body (S (length argv)) argv 1 (initial random c_filt) in
  finish argv curr l.
End config.
End TcpIpEthernet.

(** ** What the options mean *)

Inductive opt : Type :=
| Opt_l | Opt_a (v : string) | Opt_s (v : string) | Opt_n (v : string) | Opt_w (v : string) | Opt_t (v : string)
| Opt_d (v : string) | Opt_Lu (v : string) | Opt_Ld (v : string).

Definition render (o : opt) : list string :=
  match o with
  | Opt_l => ["-l"]
  | Opt_a v => ["-a"; v] | Opt_s v => ["-s"; v] | Opt_n v => ["-n"; v] | Opt_w v => ["-w"; v] | Opt_t v => ["-t"; v]
  | Opt_d v => ["-d"; v] | Opt_Lu v => ["-Lu"; v] | Opt_Ld v => ["-Ld"; v]
  end%string.

Definition apply_opt (l : Locals.t) (o : opt) : outcome Locals.t :=
  match o with
  | Opt_l => Ok (setf Locals.listen true l)
  | Opt_a v => Ok (setf Locals.source_address v l)
  | Opt_s v => Ok (setf Locals.source_port v l)
  | Opt_n v => Ok (setf Locals.next_hop_address v l)
  | Opt_w v => Ok (Locals.set_window v l)
  | Opt_t v => Ok (Locals.set_timeout v l)
  | Opt_d v => Ok (setf Locals.device (Some v) l)
  | Opt_Lu v => r ← loss_rate v; Ok (Locals.set_loss_up r l)
  | Opt_Ld v => r ← loss_rate v; Ok (Locals.set_loss_dn r l)
  end.

(** Options from left to right: a later one overrides. *)
Fixpoint apply_opts (os : list opt) (l : Locals.t) : outcome Locals.t :=
  match os with
  | [] => Ok l
  | o :: os' => l' ← apply_opt l o; apply_opts os' l'
  end.

Lemma append_text_nil (a : string) : a +:+ EmptyString = a.
Proof. induction a as [|x a IH]; [done |]. change (String x (a +:+ EmptyString) = String x a). by rewrite IH. Qed.

(** The output ends with the program's usage and perhaps a message. *)
Definition usage_shown (usage : string) (argv : list string) (text : string) : Prop :=
  exists a0 rest before msg, argv = a0 :: rest /\ text = before +:+ ("Usage: " +:+ a0 +:+ usage) +:+ msg +:+ newline.

(** The ways an option can end the program. *)
Definition refused (usage : string) (argv : list string) (e : exn) (c : console) : Prop :=
  (e = Program_exit 0 \/ e = Program_exit 1) /\ usage_shown usage argv (cout c) \/ exists v, loss_rate v = Throw e.

(** What the body of a program's loop promises: it takes the options the program has, and on
    any arguments it goes on, but never beyond the last two, or ends the program. *)
Class CommandLine (usage : string) (body : list string -> Z -> Locals.t -> M console (Z * Locals.t)) (has : opt -> bool) : Prop := {
  body_takes o argv pre post l c :
    has o = true -> argv = pre ++ render o ++ post -> 2 <= len post ->
    body argv (len pre) l c =
      (l' ← apply_opt l o; Ok (len pre + len (render o), l'), c);
  body_goes_on argv curr l c :
    argv <> [] -> 0 <= curr -> 2 < len argv - curr ->
    wpe (body argv curr l) (fun r _ => curr < r.1 <= len argv - 2) (refused usage argv) c
}.

Section reading.
Context (usage : string).
Implicit Types (argv pre post : list string) (c : console).

Lemma argument_first argv a rest pre c : argv = pre ++ a :: rest -> argument argv (len pre) c = (Ok a, c).
Proof. intros ->. unfold argument. by rewrite zlookup_app_r, Z.sub_diag by lia. Qed.

Lemma option_argument_eq argv pre a v post err c :
  argv = pre ++ a :: v :: post -> 2 <= len post -> option_argument usage argv (len pre) err c = (Ok v, c).
Proof.
  intros -> Hp. unfold option_argument, check_argc, bind, argument.
  rewrite (proj2 (Z.leb_gt _ _)) by (rewrite len_app, !len_cons; lia). cbn [when pure].
  rewrite zlookup_app_r by lia. by replace (len pre + 1 - len pre) with 1 by lia.
Qed.

Lemma argument_0 argv : argv <> [] -> exists a rest, argv = a :: rest /\ forall c, argument argv 0 c = (Ok a, c).
Proof. destruct argv as [|a argv]; [done |]. by exists a, argv. Qed.

Lemma usage_shown_wp a rest msg (Q : unit -> console -> Prop) E c :
  (forall c', usage_shown usage (a :: rest) (cout c') -> Q tt c') -> wpe (show_usage usage a msg) Q E c.
Proof.
  intros HQ. unfold show_usage. wp_step. apply print_wp. wp_step.
  assert (Hend : forall m, wpe (print newline) Q E
    (mk_console ((cout c +:+ ("Usage: " +:+ a +:+ usage)) +:+ m) (cerr c))).
  { intros m. apply print_wp, HQ. exists a, rest, (cout c), m. split; [done |]. cbn [cout]. by rewrite !Hexdump.string_app_assoc. }
  destruct msg as [m|]; [apply print_wp, Hend | wp_step]. specialize (Hend EmptyString).
  by rewrite append_text_nil in Hend.
Qed.

Lemma help_or_error_wp {A} argv a (Q : A -> console -> Prop) c :
  argv <> [] -> wpe (help_or_error usage argv a) Q (refused usage argv) c.
Proof.
  intros (a0 & rest & -> & E0)%argument_0. unfold help_or_error. wp_step. eapply wp_eq; [apply E0 |].
  apply wp_if; intros _; wp_step; apply (usage_shown_wp _ rest); intros c' Hc'; wp_step; left; auto.
Qed.

(** An option with an argument, on any arguments. *)
Lemma option_wp {A} argv curr err (k : string -> M console A) Q c :
  argv <> [] -> 0 <= curr -> (curr + 4 <= len argv -> forall v c', wpe (k v) Q (refused usage argv) c') ->
  wpe (let* v := option_argument usage argv curr err in k v) Q (refused usage argv) c.
Proof.
  intros Hne Hc Hk. destruct (argument_0 argv Hne) as (a0 & rest & Ea & E0). wp_step. unfold option_argument, check_argc. wp_step.
  apply wp_when; intros C.
  - wp_step. eapply wp_eq; [apply E0 |]. wp_step. apply (usage_shown_wp _ rest). intros c' Hc'. wp_step. left. rewrite Ea. auto.
  - apply Z.leb_gt in C. destruct (zlookup_lt_is_Some argv (curr + 1)) as [v Ev]; [lia |].
    eapply wp_or_ub; [exact Ev |]. apply Hk. lia.
Qed.

Lemma loss_wp {A} argv v (k : Z -> M console A) Q c :
  (forall r, wpe (k r) Q (refused usage argv) c) -> wpe (let* r := of_outcome (loss_rate v) in k r) Q (refused usage argv) c.
Proof.
  intros Hk. wp_step. unfold of_outcome, wpe. destruct (loss_rate v) as [r|e] eqn:E; [apply Hk |].
  right. by exists v.
Qed.
End reading.

(** [goes_on]: one branch of a body; [takes]: an option that is there. *)
Ltac goes_on Hne :=
  repeat lazymatch goal with
  | |- wpe (if _ then _ else _) _ _ _ => apply wp_if; intros _
  | |- wpe (pure _) _ _ _ => apply wp_pure; cbn [fst]; lia
  | |- wpe (bind (option_argument _ _ _ _) _) _ _ _ => apply option_wp; [done | lia |]; intros ? v c'
  | |- wpe (bind (of_outcome (loss_rate _)) _) _ _ _ => apply loss_wp; intros
  end;
  by apply help_or_error_wp.

Lemma takes_option usage argv pre a v post err (k : string -> M console (Z * Locals.t)) c :
  argv = pre ++ [a; v] ++ post -> 2 <= len post ->
  bind (option_argument usage argv (len pre) err) k c = k v c.
Proof. intros E Hp. unfold bind. by rewrite (option_argument_eq usage argv pre a v post). Qed.

Ltac takes o Hhas :=
  intros Hhas Eargv Hp; unfold bind at 1;
  destruct o as [| v | v | v | v | v | v | v | v]; try discriminate Hhas; cbn [render app] in Eargv;
  rewrite (argument_first _ _ _ _ _ Eargv);
  repeat match goal with |- context [strncmp_eq ?n ?x ?y] =>
    let b := eval vm_compute in (strncmp_eq n x y) in change (strncmp_eq n x y) with b end; cbv iota;
  try erewrite takes_option by (first [exact Eargv | done]);
  cbn [apply_opt]; unfold bind, of_outcome; try destruct (loss_rate v); done.

#[global] Instance tcp_ipv4_options :
  CommandLine TcpIpv4.usage TcpIpv4.body (fun o => match o with Opt_n _ => false | _ => true end).
Proof.
  split.
  - intros o argv pre post l c. unfold TcpIpv4.body. takes o Hhas.
  - intros argv curr l c Hne Hc Hl. unfold TcpIpv4.body. wp_step.
    destruct (zlookup_lt_is_Some argv curr) as [a Ea]; [lia |]. eapply wp_or_ub; [exact Ea |]. goes_on Hne.
Qed.

#[global] Instance tcp_udp_options :
  CommandLine TcpUdp.usage TcpUdp.body (fun o => match o with Opt_n _ | Opt_a _ | Opt_s _ | Opt_d _ => false | _ => true end).
Proof.
  split.
  - intros o argv pre post l c. unfold TcpUdp.body. takes o Hhas.
  - intros argv curr l c Hne Hc Hl. unfold TcpUdp.body. wp_step.
    destruct (zlookup_lt_is_Some argv curr) as [a Ea]; [lia |]. eapply wp_or_ub; [exact Ea |]. goes_on Hne.
Qed.

#[global] Instance tcp_ip_ethernet_options :
  CommandLine TcpIpEthernet.usage TcpIpEthernet.body (fun o => match o with Opt_l | Opt_Lu _ | Opt_Ld _ => false | _ => true end).
Proof.
  split.
  - intros o argv pre post l c. unfold TcpIpEthernet.body. takes o Hhas.
  - intros argv curr l c Hne Hc Hl. unfold TcpIpEthernet.body. wp_step.
    destruct (zlookup_lt_is_Some argv curr) as [a Ea]; [lia |]. eapply wp_or_ub; [exact Ea |]. goes_on Hne.
Qed.

(** ** The loop *)

Section loop.
Context {usage : string} {body : list string -> Z -> Locals.t -> M console (Z * Locals.t)} {has : opt -> bool}
  `{!CommandLine usage body has}.

Definition render_all (os : list opt) : list string := concat (map render os).

Lemma len_render o : 1 <= len (render o) <= 2.
Proof. destruct o; unfold len; simpl; lia. Qed.

Lemma length_render_all os : (length os <= length (render_all os))%nat.
Proof.
  unfold render_all. induction os as [|o os IH]; [done |]. cbn [map concat length]. rewrite length_app.
  pose proof (len_render o) as Hr. unfold len in Hr. lia.
Qed.

(** Options that the program has, and then two arguments: each is applied in turn. *)
Lemma option_loop_takes os : forall fuel pre post l c,
  Forall (fun o => has o = true) os -> len post = 2 -> (length os < fuel)%nat ->
  option_loop body fuel (pre ++ render_all os ++ post) (len pre) l c =
    (l' ← apply_opts os l; Ok (len (pre ++ render_all os), l'), c).
Proof.
  induction os as [|o os IH]; intros fuel pre post l c Hos Hpost Hfuel; (destruct fuel as [|fuel]; [cbn in Hfuel; lia |]);
    cbn [option_loop].
  - unfold render_all. cbn [map concat app]. rewrite len_app, Hpost, app_nil_r.
    by rewrite (proj2 (Z.ltb_ge _ _)) by lia.
  - apply list.Forall_cons in Hos as [Ho Hos]. unfold render_all. cbn [map concat]. fold (render_all os).
    assert (Hl : 2 <= len (render_all os ++ post)) by (rewrite len_app, Hpost; pose proof (len_nonneg (render_all os)); lia).
    rewrite <- (app_assoc (render o)), (proj2 (Z.ltb_lt _ _)) by (rewrite !len_app in *; pose proof (len_render o); lia).
    unfold bind. rewrite (body_takes o _ pre (render_all os ++ post)) by done. cbn [apply_opts].
    destruct (apply_opt l o) as [l' | e]; cbn [mbind outcome_bind]; [| done].
    rewrite (app_assoc pre), <- len_app, IH by (first [done | cbn in Hfuel; lia]). by rewrite <- !app_assoc.
Qed.

(** Any arguments: the loop stops at the last two of them. *)
Lemma option_loop_ends argv : argv <> [] -> forall fuel curr l c,
  0 <= curr <= len argv - 2 -> (Z.to_nat (len argv - curr) < fuel)%nat ->
  wpe (option_loop body fuel argv curr l) (fun r _ => r.1 = len argv - 2) (refused usage argv) c.
Proof.
  intros Hne. induction fuel as [|fuel IH]; intros curr l c Hc Hfuel; [lia |]. cbn [option_loop].
  apply wp_if; intros C; [apply Z.ltb_lt in C | apply Z.ltb_ge in C; wp_step; cbn [fst]; lia].
  wp_step. eapply wp_mono; [apply body_goes_on; [done | lia | lia] |]. intros [curr' l'] c' Hc'. cbn [fst] in Hc'.
  apply IH; lia.
Qed.
End loop.

(** ** Properties *)

Section properties.
Context `{Address.Netdb}.

Definition resolver_error (e : exn) : Prop :=
  (exists host service, Address.of_hostname host service = Throw e) \/ (exists a, Address.port a = Throw e) \/
  FdAdapterConfig.default = Throw e.
Definition stops (usage : string) (argv : list string) (e : exn) (c : console) : Prop :=
  refused usage argv e c \/ resolver_error e.

(** A resolver call within a function. *)
Lemma resolve_wp {A B} usage argv (o : outcome A) (k : A -> M console B) Q c :
  (forall e, o = Throw e -> resolver_error e) -> (forall a, wpe (k a) Q (stops usage argv) c) ->
  wpe (let* a := of_outcome o in k a) Q (stops usage argv) c.
Proof. intros He Hk. wp_step. unfold of_outcome, wpe. destruct o as [a|e]; [apply Hk | right; auto]. Qed.

Lemma argument_wp argv i (Q : string -> console -> Prop) E c :
  0 <= i < len argv -> (forall a, Q a c) -> wpe (argument argv i) Q E c.
Proof. intros Hi HQ. destruct (zlookup_lt_is_Some argv i Hi) as [a Ea]. eapply wp_or_ub; [exact Ea | apply HQ]. Qed.
End properties.

Ltac resolves :=
  repeat match goal with
  | |- wpe (bind (of_outcome _) _) _ _ _ => apply resolve_wp; [unfold resolver_error; eauto | intros]
  | |- wpe (bind (argument _ _) _) _ _ _ => wp_step; apply argument_wp; [lia | intros]
  end.

(** The options of each program. *)
Definition ipv4_has (o : opt) : bool := match o with Opt_n _ => false | _ => true end.
Definition udp_has (o : opt) : bool := match o with Opt_n _ | Opt_a _ | Opt_s _ | Opt_d _ => false | _ => true end.
Definition ethernet_has (o : opt) : bool := match o with Opt_l | Opt_Lu _ | Opt_Ld _ => false | _ => true end.

(** [C39] The option parsers read what was written: for every sequence of a program's options,
    followed by two more arguments, and whatever the defaults are, the option loop of each
    of the three programs applies the options from left to right to the values it started
    from (numbers in base 8, 10 or 16, loss rates in single precision), prints nothing, and
    stops at the last two arguments; a loss rate out of range is what it throws.  What
    the programs do with those two arguments and what their defaults are is not part of
    this statement. *)
Theorem options_read argv0 os host port l c :
  let argv := argv0 :: render_all os ++ [host; port] in
  let reads body := option_loop body (S (length argv)) argv 1 l c =
    (l' ← apply_opts os l; Ok (len argv - 2, l'), c) in
  (Forall (fun o => ipv4_has o = true) os -> reads TcpIpv4.body) /\
  (Forall (fun o => udp_has o = true) os -> reads TcpUdp.body) /\
  (Forall (fun o => ethernet_has o = true) os -> reads TcpIpEthernet.body).
Proof.
  intros argv reads.
  assert (Hfuel : (length os < S (length argv))%nat).
  { unfold argv. cbn [length]. rewrite length_app. pose proof (length_render_all os). lia. }
  assert (El : len ([argv0] ++ render_all os) = len argv - 2)
    by (unfold argv; rewrite len_cons, !len_app; change (len [argv0]) with 1; change (len [host; port]) with 2; lia).
  assert (Hloop : forall usage body has, CommandLine usage body has -> Forall (fun o => has o = true) os -> reads body).
  { intros usage body has Hcl Hos. unfold reads. rewrite <- El. by apply (option_loop_takes os _ [argv0] [host; port]). }
  split_and!; intros Hos; eapply Hloop; eauto with typeclass_instances.
Qed.

(** Whatever the arguments are, each parser ends: it returns a configuration, or the
    program prints its usage ([usage_shown]) and exits, or a loss rate is out of range, or the resolver
    refuses a name; [argv] is never read out of range. *)
Theorem options_safe `{Address.Netdb} random argv c :
  3 <= len argv ->
  wpe (TcpIpv4.get_config random argv) (fun _ _ => True) (stops TcpIpv4.usage argv) c /\
  wpe (TcpUdp.get_config argv) (fun _ _ => True) (stops TcpUdp.usage argv) c /\
  wpe (TcpIpEthernet.get_config random argv) (fun _ _ => True) (stops TcpIpEthernet.usage argv) c.
Proof.
  intros Hlen. assert (Hne : argv <> []) by (by intros ->).
  assert (Hloop : forall usage body has, CommandLine usage body has -> forall l c',
    wpe (option_loop body (S (length argv)) argv 1 l) (fun r _ => r.1 = len argv - 2) (stops usage argv) c').
  { intros usage body has Hcl l c'. eapply wp_mono_exn; [apply option_loop_ends; [done | lia | unfold len; lia] | done |].
    intros e s He. by left. }
  split_and!.
  - unfold TcpIpv4.get_config. resolves. wp_step. eapply wp_mono; [apply (Hloop _ _ _ tcp_ipv4_options) |].
    intros [curr l] c1 Ecurr. cbn [fst] in Ecurr. subst curr. unfold TcpIpv4.finish. resolves.
    apply wp_if; intros _; resolves; [| done]. wp_step. apply wp_when; intros _; [| done].
    destruct (argument_0 argv Hne) as (first & rest & Ea & E0). wp_step. eapply wp_eq; [apply E0 |].
    wp_step. apply (usage_shown_wp _ _ rest). intros c2 Hc2. wp_step. left. left. rewrite Ea. auto.
  - unfold TcpUdp.get_config. resolves. wp_step. eapply wp_mono; [apply (Hloop _ _ _ tcp_udp_options) |].
    intros [curr l] c1 Ecurr. unfold TcpUdp.finish. resolves. apply wp_if; intros _; resolves; done.
  - unfold TcpIpEthernet.get_config. resolves. wp_step. eapply wp_mono; [apply (Hloop _ _ _ tcp_ip_ethernet_options) |].
    intros [curr l] c1 Ecurr. cbn [fst] in Ecurr. subst curr. unfold TcpIpEthernet.finish. resolves. done.
Qed.

(** ** Witnesses *)

Section witnesses.
Local Existing Instance Address.numeric_netdb.
Definition no_output : console := mk_console EmptyString EmptyString.

Lemma options_safe_witness :
  let argv := ["tcp"; "10.0.0.1"; "80"]%string in
  wpe (TcpIpv4.get_config 7 argv) (fun _ _ => True) (stops TcpIpv4.usage argv) no_output /\
  wpe (TcpUdp.get_config argv) (fun _ _ => True) (stops TcpUdp.usage argv) no_output /\
  wpe (TcpIpEthernet.get_config 7 argv) (fun _ _ => True) (stops TcpIpEthernet.usage argv) no_output.
Proof. apply options_safe. unfold len. simpl. lia. Defined.

(** A window in base sixteen, a loss of one half, and a source address that is overridden. *)
Definition demo_options : list opt := [Opt_w "0x100"; Opt_Lu "0.5"; Opt_a "1.2.3.4"; Opt_a "10.0.0.2"].

Lemma demo_options_config :
  exists cfg l, FdAdapterConfig.default = Ok cfg /\ apply_opts demo_options (TcpIpv4.initial 7 cfg) = Ok l /\
    TCPConfig.recv_capacity (Locals.c_fsm l) = 256 /\ FdAdapterConfig.loss_rate_up (Locals.c_filt l) = 32767 /\
    Locals.source_address l = "10.0.0.2"%string.
Proof. eexists _, _. split; [reflexivity |]. split; [reflexivity |]. vm_compute. auto. Qed.

Lemma options_read_witness :
  let argv := ("tcp_ipv4" :: render_all demo_options ++ ["10.0.0.1"; "80"])%string in
  exists cfg l, FdAdapterConfig.default = Ok cfg /\ TCPConfig.recv_capacity (Locals.c_fsm l) = 256 /\
    FdAdapterConfig.loss_rate_up (Locals.c_filt l) = 32767 /\ Locals.source_address l = "10.0.0.2"%string /\
    option_loop TcpIpv4.body (S (length argv)) argv 1 (TcpIpv4.initial 7 cfg) no_output = (Ok (len argv - 2, l), no_output).
Proof.
  destruct demo_options_config as (cfg & l & Ec & El & E1 & E2 & E3). exists cfg, l. do 4 (split; [assumption |]).
  rewrite (proj1 (options_read "tcp_ipv4" demo_options "10.0.0.1" "80" (TcpIpv4.initial 7 cfg) no_output)).
  - rewrite El. reflexivity.
  - repeat (apply List.Forall_cons; [reflexivity |]). apply List.Forall_nil.
Defined.

(** In server mode the host is not looked at, although the usage text calls it the address
    to bind. *)
Example server_host_ignored :
  fst (TcpUdp.get_config ["tcp_udp"; "-l"; "10.0.0.1"; "80"] no_output) =
    fst (TcpUdp.get_config ["tcp_udp"; "-l"; "no such host"; "80"] no_output) /\
  exists r, fst (TcpUdp.get_config ["tcp_udp"; "-l"; "10.0.0.1"; "80"] no_output) = Ok r.
Proof. split; [vm_compute; reflexivity | eexists; vm_compute; reflexivity]. Qed.
End witnesses.
