(* ===== verification/programs.v ===== *)
(** * The remaining programs: apps/tcp_udp, tcp_ipv4, tcp_ip_ethernet, tcp_native, webget, cs144-echo and tun

    Each program is its [main], as the main thread runs it: the state [Program] is the system
    and what was printed.  A socket's own thread runs beside it and is part of the [Kernel];
    the main thread keeps only the object and uses its end of the socket pair.  Random numbers
    are arguments, and [turns] bounds the loops that may run for ever. *)

From S2P Require Import prelude printing buffer parser checksum tcp_segment tcp_receiver tcp_sender tcp_connection ethernet ipv4 address header_text network_interface file_descriptor tun fd_adapter ethernet_adapter eventloop bidirectional_stream_copy tcp_sponge_socket lab7 command_line.

Module Program.
Section program.
Context {K : Type}.

Record t : Type := mk { sys : Sys.t K; cout : list line; cerr : list line }.
Definition eta (p : t) : t := mk (sys p) (cout p) (cerr p).
#[global] Instance set_sys : Setter sys := ltac:(derive_setter eta sys).
#[global] Instance set_cout : Setter cout := ltac:(derive_setter eta cout).
#[global] Instance set_cerr : Setter cerr := ltac:(derive_setter eta cerr).
#[global, refine] Instance program_has_sys : HasSys K t := {| the_sys := sys |}.
Proof. - by intros []. - done. Defined.

Definition print (l : line) : M t unit := cout %= (fun o => o ++ [l]).
Definition warn (l : line) : M t unit := cerr %= (fun o => o ++ [l]).

(** A function that only prints. *)
Definition on_console {A} (m : M console A) : M t A := fun p =>
  let '(o, c) := m (mk_console EmptyString EmptyString) in
  (o, mk (sys p) (cout p ++ [Text (printing.cout c)]) (cerr p ++ [Text (printing.cerr c)])).

(** A call on a socket [l], a local variable: the socket after it. *)
Definition on_socket {A} (l : EventLoop.t (TCPSpongeSocket.t K A)) (m : M (EventLoop.t (TCPSpongeSocket.t K A)) unit)
    : M t (EventLoop.t (TCPSpongeSocket.t K A)) := fun p =>
  let '(o, l') := m (upd EventLoop.world (setf TCPSpongeSocket.sys (sys p)) l) in
  (_ ← o; Ok l', setf sys (TCPSpongeSocket.sys (EventLoop.world l')) p).

Definition self {A} (l : EventLoop.t (TCPSpongeSocket.t K A)) : nat := TCPSpongeSocket.self (EventLoop.world l).

(** [catch (const exception &e)], with what is printed before and after [e.what()] *)
Definition report (before after : string) (m : M t Z) : M t Z :=
  try_catch m (fun e => warn (What before e after) ;; pure 1).
End program.
Arguments t K : clear implicits.
End Program.
Import Program.

#[local] Existing Instance LossyFdAdapter.lossy_fd_adapter.

(** ** Programs around a [TCPSpongeSocket] *)

Section sockets.
Context {K : Type} `{Kernel K} `{Address.Netdb} `{Owner K}.
Notation P := (Program.t K).

(** The end of the three mains: open the connection, copy, wait. *)
Definition open_and_copy {A} `{FdAdapter K A} (turns : nat) (l : EventLoop.t (TCPSpongeSocket.t K A)) (listen : bool)
    (c_fsm : TCPConfig.t) (c_filt : FdAdapterConfig.t) (random_isn : Z) : M P unit :=
  let* l := on_socket l
    (if listen then TCPSpongeSocket.listen_and_accept turns c_fsm c_filt random_isn
     else TCPSpongeSocket.connect turns c_fsm c_filt random_isn) in
  on_sys (StreamCopy.bidirectional_stream_copy turns (self l)) ;;
  let* _ := on_socket l (zoom EventLoop.world TCPSpongeSocket.wait_until_closed) in
  pure tt.

Definition missing_arguments (usage : string) (argv : list string) : M P unit :=
  on_console (let* a0 := argument argv 0 in show_usage usage a0 (Some "ERROR: required arguments are missing.")).

(** *** apps/tcp_ipv4 *)

Definition tcp_ipv4_main {G} `{Rng G} (turns : nat) (rand : G) (random random_isn : Z) (argv : list string) : M P Z :=
  report "Exception: " newline
    (if len argv <? 3 then missing_arguments TcpIpv4.usage argv ;; pure 1
     else
       let* (c_fsm, c_filt, listen, tun_dev_name) := on_console (TcpIpv4.get_config random argv) in
       let* tun := on_sys (TunFD.new (default TcpIpv4.TUN_DFLT tun_dev_name)) in
       let* adapter := of_outcome (TCPOverIPv4OverTunFdAdapter.new tun) in
       let* make := on_sys (TCPSpongeSocket.new (LossyFdAdapter.mk rand adapter)) in
       let* s := asks sys in
       open_and_copy turns (make s) listen c_fsm c_filt random_isn ;;
       pure 0).

(** *** apps/tcp_udp *)

Definition tcp_udp_main {G} `{Rng G} (turns : nat) (rand : G) (random_isn : Z) (argv : list string) : M P Z :=
  report "Exception: " newline
    (if len argv <? 3 then missing_arguments TcpUdp.usage argv ;; throw (Program_exit 1)
     else
       let* (c_fsm, c_filt, listen) := on_console (TcpUdp.get_config argv) in
       let* udp_sock := on_sys UDPSocket.new in
       when listen (on_sys (Socket.bind udp_sock (FdAdapterConfig.source c_filt))) ;;
       let* adapter := of_outcome (TCPOverUDPSocketAdapter.new udp_sock) in
       let* make := on_sys (TCPSpongeSocket.new (LossyFdAdapter.mk rand adapter)) in
       let* s := asks sys in
       open_and_copy turns (make s) listen c_fsm c_filt random_isn ;;
       pure 0).

(** *** apps/tcp_ip_ethernet; [r0], ..., [r5] are the bytes of the Ethernet address *)

Definition tcp_ip_ethernet_main (turns : nat) (r0 r1 r2 r3 r4 r5 random random_isn : Z) (argv : list string) : M P Z :=
  report "Exception: " newline
    (if len argv <? 3 then missing_arguments TcpIpEthernet.usage argv ;; pure 1
     else
       let local_ethernet_address := random_private_ethernet_address r0 r1 r2 r3 r4 r5 in
       let* (c_fsm, c_filt, next_hop, tap_dev_name) := on_console (TcpIpEthernet.get_config random argv) in
       let* adapter := on_sys
         (let* tap := TapFD.new tap_dev_name in
          TCPOverIPv4OverEthernetAdapter.new tap local_ethernet_address (FdAdapterConfig.source c_filt) next_hop) in
       let* make := on_sys (TCPSpongeSocket.new adapter) in
       let* s := asks sys in
       open_and_copy turns (make s) false c_fsm c_filt random_isn ;;
       pure 0).

End sockets.

(** ** apps/webget *)

Module Webget.
Section webget.
Context {K : Type} `{Kernel K} `{Address.Netdb} `{Owner K}.
Notation P := (Program.t K).

(** [sock.write(...)] of one string *)
Definition write (sock : nat) (s : string) : M P unit :=
  let* _ := on_sys (FileDescriptor.write sock (BufferViewList.of_string_view (string_bytes s)) true) in
  pure tt.

Definition crlf : string := String (Ascii.ascii_of_nat 13) newline.
Definition lines (host path : string) : list string :=
  ["GET " +:+ path +:+ " HTTP/1.1" +:+ crlf; "Host: " +:+ host +:+ crlf; "Connection: close" +:+ crlf; crlf].

(** [while (!sock.eof()) cout << sock.read();] *)
Fixpoint read_all (turns : nat) (sock : nat) : M P unit :=
  let* eof := on_sys (FileDescriptor.eof sock) in
  if eof then pure tt
  else
    match turns with
    | O => throw OutOfFuel
    | S turns =>
        let* data := on_sys (FileDescriptor.read sock no_limit) in
        print (Text (FrameText.bytes_to_string data)) ;;
        read_all turns sock
    end.

(** The request, line by line, and the answer *)
Fixpoint write_all (sock : nat) (ls : list string) : M P unit :=
  match ls with
  | [] => pure tt
  | l :: ls => write sock l ;; write_all sock ls
  end.
Definition request (turns : nat) (sock : nat) (host path : string) : M P unit :=
  write_all sock (lines host path) ;;
  read_all turns sock.

(** [eth_address], [random] and [random_isn] are random. *)
Definition get_URL (turns : nat) (eth_address : EthernetAddress) (random random_isn : Z) (host path : string) : M P unit :=
  let* make := on_sys (FullStackSocket.new eth_address) in
  let* s := asks sys in
  let* address := of_outcome (Address.of_hostname host "http") in
  let* sock := on_socket (make s) (FullStackSocket.connect turns address random random_isn) in
  request turns (self sock) host path ;;
  warn (Text ("Function called: get_URL(" +:+ host +:+ ", " +:+ path +:+ ")." +:+ newline)) ;;
  let* _ := on_socket sock (zoom EventLoop.world TCPSpongeSocket.wait_until_closed) in
  pure tt.

(** [abort()] is status 128 + SIGABRT. *)
Definition main (turns : nat) (eth_address : EthernetAddress) (random random_isn : Z) (argv : list string) : M P Z :=
  report EmptyString newline
    match argv with
    | [] => throw (Program_exit 134)
    | [_; host; path] => get_URL turns eth_address random random_isn host path ;; pure 0
    | argv0 :: _ =>
        warn (Text ("Usage: " +:+ argv0 +:+ " HOST PATH" +:+ newline)) ;;
        let tab := String (Ascii.ascii_of_nat 9) EmptyString in
        warn (Text (tab +:+ "Example: " +:+ argv0 +:+ " stanford.edu /class/cs144" +:+ newline)) ;;
        pure 1
    end.
End webget.
End Webget.

(** ** apps/cs144-echo

    [input] is what [getline] reads from the standard input.  Exceptions are not caught. *)

Module Echo.
Section echo.
Context {K : Type} `{Kernel K} `{Address.Netdb} `{Owner K}.
Notation P := (Program.t K).

Fixpoint echo (sock : nat) (input : list string) : M P unit :=
  match input with
  | [] => pure tt
  | l :: input =>
      Webget.write sock (l +:+ newline) ;;
      print (Text "[REPLY] ") ;;
      let* data := on_sys (FileDescriptor.read sock no_limit) in
      print (Text (FrameText.bytes_to_string data)) ;;
      echo sock input
  end.

Definition main (turns : nat) (eth_address : EthernetAddress) (random random_isn : Z) (argv input : list string) : M P Z :=
  if negb (len argv =? 3) then
    let* a0 := or_ub (argv !! 0%nat) in
    print (Text ("Usage: " +:+ a0 +:+ " <ip_address> <port>" +:+ newline)) ;;
    pure 1
  else
    let* make := on_sys (FullStackSocket.new eth_address) in
    let* s := asks sys in
    let* ip := or_ub (argv !! 1%nat) in
    let* port := or_ub (argv !! 2%nat) in
    let* port := of_outcome (std_stoi port) in
    let* address := of_outcome (Address.of_ip_port ip (u16 port)) in
    let* sock := on_socket (make s) (FullStackSocket.connect turns address random random_isn) in
    echo (self sock) input ;;
    let* _ := on_socket sock (zoom EventLoop.world TCPSpongeSocket.wait_until_closed) in
    pure 0.
End echo.
End Echo.

(** ** apps/tcp_native: the kernel's own TCP *)

Module Native.
Section native.
Context {K : Type} `{Kernel K} `{Address.Netdb}.
Notation P := (Program.t K).

Definition usage (argv0 : string) : line :=
  Text ("Usage: " +:+ argv0 +:+ " [-l] <host> <port>" +:+ newline +:+ newline +:+
    "  -l specifies listen mode; <host>:<port> is the listening address." +:+ newline).

Definition BACKLOG : Z := 16.

(** The lambda that makes the socket *)
Definition open (server_mode : bool) (argv : list string) : M P nat :=
  let* a1 := or_ub (argv !! 1%nat) in
  let* a2 := or_ub (argv !! 2%nat) in
  if server_mode then
    let* listening_socket := on_sys TCPSocket.new in
    on_sys (Socket.set_reuseaddr listening_socket) ;;
    let* a3 := or_ub (argv !! 3%nat) in
    let* address := of_outcome (Address.of_hostname a2 a3) in
    on_sys (Socket.bind listening_socket address) ;;
    on_sys (TCPSocket.listen listening_socket BACKLOG) ;;
    on_sys (TCPSocket.accept listening_socket)
  else
    let* connecting_socket := on_sys TCPSocket.new in
    let* address := of_outcome (Address.of_hostname a1 a2) in
    on_sys (Socket.connect connecting_socket address) ;;
    pure connecting_socket.

Definition main (turns : nat) (argv : list string) : M P Z :=
  report "Exception: " newline
    (let* (refused, server_mode) :=
       (if len argv <? 3 then pure (true, false)
        else
          let* a1 := or_ub (argv !! 1%nat) in
          let server_mode := strncmp_eq 3 "-l" a1 in
          pure (server_mode && (len argv <? 4), server_mode)) in
     if refused : bool then
       let* a0 := or_ub (argv !! 0%nat) in
       warn (usage a0) ;;
       pure 1
     else
       let* socket := open server_mode argv in
       on_sys (StreamCopy.bidirectional_stream_copy turns socket) ;;
       pure 0).
End native.
End Native.

(** ** apps/tun: the packets of a device, in text *)

Module TunDump.
Section dump.
Context {K : Type} `{Kernel K}.
Notation P := (Program.t K).

Definition out (s : string) : M P unit := print (Text s).

(** The body of the loop, after the packet was read *)
Definition dump_packet (buffer : list byte) : M P unit :=
  out (newline +:+ newline +:+ "***" +:+ newline +:+ "*** Got packet:" +:+ newline +:+ "***" +:+ newline) ;;
  let* text := of_outcome (Hexdump.hexdump buffer 0) in
  out text ;;
  out "attempting to parse as ipv4 datagram... " ;;
  let* (r, ip_dgram) := of_outcome (IPv4Datagram.parse (Buffer.of_string buffer) IPv4Datagram.default) in
  if bool_decide (r <> NoError) then out ("failed." +:+ newline)
  else
    let header := IPv4Datagram.header ip_dgram in
    out ("success! totlen=" +:+ std_to_string (IPv4Header.len header) +:+ ", IPv4 header contents:" +:+ newline) ;;
    out (IPv4HeaderText.to_string header) ;;
    if negb (IPv4Header.proto header =? IPv4Header.PROTO_TCP) then out (newline +:+ "Not TCP, skipping." +:+ newline)
    else
      out (newline +:+ "Attempting to parse as a TCP segment... ") ;;
      let* payload := of_outcome (BufferList.to_Buffer (IPv4Datagram.payload ip_dgram)) in
      let* (r, tcp_seg) := of_outcome (TCPSegment.parse payload (IPv4Header.pseudo_cksum header) TCPSegment.default) in
      if bool_decide (r <> NoError) then out ("failed." +:+ newline)
      else
        out ("success! payload len=" +:+ std_to_string (Buffer.size (TCPSegment.payload tcp_seg)) +:+
          ", TCP header contents:" +:+ newline) ;;
        out (TCPHeaderText.to_string (TCPSegment.header tcp_seg) +:+ newline).

(** [while (true)] *)
Fixpoint dump_loop (turns : nat) (tun : nat) : M P Z :=
  match turns with
  | O => throw OutOfFuel
  | S turns =>
      let* buffer := on_sys (FileDescriptor.read tun no_limit) in
      dump_packet buffer ;;
      dump_loop turns tun
  end.

Definition main (turns : nat) : M P Z :=
  try_catch
    (let* tun := on_sys (TunFD.new "tun144") in
     dump_loop turns tun)
    (fun e => print (What "Exception: " e newline) ;; pure 1).
End dump.
End TunDump.

(** ** What webget sends and prints *)

Section webget.
Context {K : Type} `{LinuxIO K}.
Notation P := (Program.t K).
Import Webget.

Definition shown (data : list byte) : line := Text (FrameText.bytes_to_string data).
Definition text_of (ls : list string) : list byte := mjoin (string_bytes <$> ls).

Lemma write_line_wp sock w l (Q : unit -> P -> Prop) (E : exn -> P -> Prop) p :
  FileDescriptor.at_fd (sys p) sock w -> len (string_bytes l) < 2 ^ 62 ->
  (forall c k puts, mjoin puts = string_bytes l ->
     Q tt (setf sys (Sys.mk (<[sock := setf FDWrapper._write_count c w]> (Sys.wrappers (sys p))) k
       (Sys.trace (sys p) ++ (Put sock <$> puts))) p)) ->
  (forall e s' puts, FileDescriptor.io_error e -> Sys.trace s' = Sys.trace (sys p) ++ (Put sock <$> puts) ->
     mjoin puts `prefix_of` string_bytes l -> E e (setf sys s' p)) ->
  wpe (write sock l) Q E p.
Proof.
  intros Hw Hl HQ HE. unfold write, FileDescriptor.write, BufferViewList.of_string_view. wp_step. unfold on_sys. wp_step.
  assert (Ej : mjoin [string_bytes l] = string_bytes l) by apply app_nil_r.
  eapply FileDescriptor.write_loop_wp; [exact Hw | rewrite Ej; lia | done | rewrite Ej; lia | lia | |].
  - intros n c k tr Hn Hall _ (d & -> & Ed) _. wp_step. rewrite Ej in *. rewrite Hall in Ed by done.
    rewrite ztake_ge in Ed by lia. by apply HQ.
  - intros e s' tr He Etr (d & -> & Hd). rewrite Ej in Hd. by eapply HE.
Qed.

(** From [p] to [p'] the socket accepted [puts] and then delivered [chunks], which were printed. *)
Record talked (sock : nat) (puts chunks : list (list byte)) (p p' : P) : Prop := {
  talk_trace : Sys.trace (sys p') = Sys.trace (sys p) ++ (Put sock <$> puts) ++ (Got sock <$> chunks);
  talk_cout : cout p' = cout p ++ map shown chunks;
  talk_cerr : cerr p' = cerr p
}.

Lemma talked_puts sock puts puts' chunks p p' s' :
  talked sock puts' chunks (setf sys s' p) p' -> Sys.trace s' = Sys.trace (sys p) ++ (Put sock <$> puts) ->
  talked sock (puts ++ puts') chunks p p'.
Proof.
  intros [Et Eo Ee] Es. split; [| done | done]. rewrite Et. change (sys (setf sys s' p)) with s'.
  by rewrite Es, fmap_app, <- !app_assoc.
Qed.

Lemma talked_chunk sock data chunks p p' s' :
  talked sock [] chunks (upd cout (fun o => o ++ [shown data]) (setf sys s' p)) p' ->
  Sys.trace s' = Sys.trace (sys p) ++ [Got sock data] -> talked sock [] (data :: chunks) p p'.
Proof.
  intros [Et Eo Ee] Es. split; [| | done]; rewrite ?Et, ?Eo.
  - change (sys (upd _ _ _)) with s'. by rewrite Es, <- app_assoc.
  - change (cout (upd _ _ _)) with (cout p ++ [shown data]). by rewrite <- app_assoc.
Qed.

Lemma write_all_wp sock ls : forall w (Q : unit -> P -> Prop) (E : exn -> P -> Prop) p,
  FileDescriptor.at_fd (sys p) sock w -> Forall (fun l => len (string_bytes l) < 2 ^ 62) ls ->
  (forall p' w' puts, talked sock puts [] p p' -> mjoin puts = text_of ls -> FileDescriptor.at_fd (sys p') sock w' ->
     FDWrapper._eof w' = FDWrapper._eof w -> Q tt p') ->
  (forall e p' puts, FileDescriptor.io_error e -> talked sock puts [] p p' -> mjoin puts `prefix_of` text_of ls -> E e p') ->
  wpe (write_all sock ls) Q E p.
Proof.
  induction ls as [|l ls IH]; intros w Q E p Hw Hls HQ HE; cbn [write_all].
  { wp_step. apply (HQ p w []); try done. split; [| | done]; by rewrite app_nil_r. }
  apply list.Forall_cons in Hls as [Hl Hls]. unfold text_of in *. cbn [fmap list_fmap mjoin list_join] in *.
  wp_step. eapply write_line_wp; [exact Hw | done | |].
  - intros c k puts Ep. eapply IH; [by eapply FileDescriptor.at_fd_step | done | |].
    + intros p' w' puts' Ht Ep' Hw' Heof. apply (HQ p' w' (puts ++ puts')); [by eapply talked_puts | | done | done].
      by rewrite join_app, Ep, Ep'.
    + intros e p' puts' He Ht Ep'. apply (HE e p' (puts ++ puts')); [done | by eapply talked_puts |].
      rewrite join_app, Ep. by apply prefix_app.
  - intros e s' puts He Es Hp. apply (HE e _ puts); [done | | by apply prefix_app_r].
    split; [| | done]; [by rewrite app_nil_r | cbn; by rewrite app_nil_r].
Qed.

(** Reading ends with the empty read, the first there is. *)
Lemma read_all_wp turns : forall sock w p, FileDescriptor.at_fd (sys p) sock w -> FDWrapper._eof w = false ->
  wpe (read_all turns sock)
    (fun _ p' => exists chunks, talked sock [] (chunks ++ [[]]) p p' /\ Forall (fun d => d <> []) chunks)
    (fun e p' => (FileDescriptor.io_error e \/ e = OutOfFuel) /\ exists chunks, talked sock [] chunks p p' /\
       Forall (fun d => d <> []) chunks /\ (e = OutOfFuel -> length chunks = turns)) p.
Proof.
  induction turns as [|turns IH]; intros sock w p Hw Heof; cbn [read_all]; wp_step; unfold on_sys; wp_step;
    (eapply FileDescriptor.eof_wp; [exact Hw |]); rewrite Heof, sys_id.
  - wp_step. split; [by right |]. exists []. split_and!; [| done | done]. split; [| | done]; by rewrite app_nil_r.
  - wp_step. wp_step. eapply FileDescriptor.fd_read_wp; [exact Hw | done | |].
    + intros data k _. set (s' := Sys.mk _ _ _). wp_step. unfold print. wp_step.
      set (w' := FileDescriptor.after_read w no_limit data).
      assert (Hw' : FileDescriptor.at_fd s' sock w') by (by eapply FileDescriptor.at_fd_step).
      assert (Heof' : FDWrapper._eof w' = bool_decide (data = [])) by (unfold w'; simpl; by rewrite Heof).
      destruct (decide (data = [])) as [-> | Hd].
      * destruct turns as [|turns]; cbn [read_all]; wp_step; unfold on_sys; wp_step;
          (eapply FileDescriptor.eof_wp; [exact Hw' |]); rewrite Heof', bool_decide_eq_true_2 by done; wp_step; exists [];
          (split; [| done]); by split.
      * rewrite bool_decide_eq_false_2 in Heof' by done.
        eapply wp_mono_exn; [eapply IH; [exact Hw' | exact Heof'] | |].
        -- intros [] p' (chunks & Ht & Hc). exists (data :: chunks). split; [by eapply talked_chunk | by constructor].
        -- intros e p' (He & chunks & Ht & Hc & Hlen). split; [done |]. exists (data :: chunks).
           split_and!; [by eapply talked_chunk | by constructor |]. intros ->. by rewrite <- Hlen.
    + intros e s' He Es. split; [by left |]. exists []. split_and!; [| done | by intros ->].
      split; [| | done]; cbn; by rewrite ?Es, app_nil_r.
Qed.

Lemma talked_trans sock puts chunks p p1 p2 :
  talked sock puts [] p p1 -> talked sock [] chunks p1 p2 -> talked sock puts chunks p p2.
Proof.
  intros [Et Eo Ee] [Et' Eo' Ee']. split; [| | congruence].
  - rewrite Et', Et. cbn. by rewrite app_nil_r, <- app_assoc.
  - rewrite Eo', Eo. cbn. by rewrite app_nil_r.
Qed.
End webget.

(** [webget] asks for the page and prints the answer, exactly: on any kernel, the bytes the
    socket accepts are the four lines of the request, and what is printed is all that the
    socket delivers, chunk by chunk, up to the end of the stream.  If the system fails, the
    request was cut and nothing printed, or it was sent and what arrived until then printed;
    if the program is still running, it has printed every chunk. *)
Theorem webget_exact {K} `{LinuxIO K} turns sock host path w (p : Program.t K) :
  FileDescriptor.at_fd (sys p) sock w -> FDWrapper._eof w = false ->
  Forall (fun l => len (string_bytes l) < 2 ^ 62) (Webget.lines host path) ->
  wpe (Webget.request turns sock host path)
    (fun _ p' => exists puts chunks, talked sock puts (chunks ++ [[]]) p p' /\
       mjoin puts = text_of (Webget.lines host path) /\ Forall (fun d => d <> []) chunks)
    (fun e p' => (FileDescriptor.io_error e \/ e = OutOfFuel) /\ exists puts chunks, talked sock puts chunks p p' /\
       mjoin puts `prefix_of` text_of (Webget.lines host path) /\ Forall (fun d => d <> []) chunks /\
       (mjoin puts = text_of (Webget.lines host path) \/ chunks = []) /\ (e = OutOfFuel -> length chunks = turns)) p.
Proof.
  intros Hw Heof Hls. unfold Webget.request. wp_step. eapply write_all_wp; [exact Hw | done | |].
  - intros p1 w1 puts Ht Ep Hw1 Heof1. rewrite Heof in Heof1.
    eapply wp_mono_exn; [by eapply read_all_wp | |].
    + intros [] p2 (chunks & Ht2 & Hc). exists puts, chunks. split_and!; [by eapply talked_trans | done | done].
    + intros e p2 (He & chunks & Ht2 & Hc & Hlen). split; [done |]. exists puts, chunks.
      split_and!; [by eapply talked_trans | by rewrite Ep | done | by left | done].
  - intros e p' puts He Ht Hp. split; [by left |]. exists puts, []. split_and!; [done | done | done | by right | by intros ->].
Qed.

(** A page of two chunks *)
Definition browser : Program.t Script.t :=
  Program.mk (Sys.mk [FDWrapper.mk 3 false false 0 0] (Script.mk [[x48; x69]; [x21]; []] 7 [] [] 0) []) [] [].

Local Notation browsing := (Webget.request 5 0 "example.org" "/" browser).

Lemma browser_shows : fst browsing = Ok tt /\ cout (snd browsing) = [Text "Hi"; Text "!"; Text ""] /\
  FileDescriptor.accepted 0 (Sys.trace (sys (snd browsing))) = text_of (Webget.lines "example.org" "/").
Proof. vm_compute. done. Qed.

Lemma browser_lines : Forall (fun l => len (string_bytes l) < 2 ^ 62) (Webget.lines "example.org" "/").
Proof. repeat (apply list.Forall_cons_2; [vm_compute; reflexivity |]). apply list.Forall_nil_2. Qed.

Lemma webget_exact_witness : exists puts chunks, talked 0 puts (chunks ++ [[]]) browser (snd browsing).
Proof.
  pose proof (webget_exact 5 0 "example.org" "/" (FDWrapper.mk 3 false false 0 0) browser eq_refl eq_refl browser_lines) as Hok.
  destruct (wp_returned _ _ _ _ _ Hok (proj1 browser_shows)) as (puts & chunks & Ht & _). exists puts, chunks. exact Ht.
Defined.
