(* ===== verification/program_safety.v ===== *)
(** * What the programs do as a whole

    [programs_relay] composes the option parser, the device, the socket, the event loop and the
    copy of the standard streams: it is proved from the theorems of each of them, on any kernel.
    [tun_survives] is the same for the packet dump, and [zero_window_crashes] shows options
    that the first of them has to exclude. *)

From S2P Require Import prelude printing buffer parser checksum tcp_segment tcp_receiver tcp_sender tcp_connection ethernet ipv4 address header_text network_interface file_descriptor tun fd_adapter ethernet_adapter eventloop bidirectional_stream_copy tcp_sponge_socket lab7 command_line programs.
Import Program.
#[local] Existing Instance LossyFdAdapter.lossy_fd_adapter.

(** ** A new socket *)

Section made.
Context {K A : Type} `{Kernel K} `{FdAdapter K A} `{Address.Netdb} `{Owner K}.
Notation failing := (fun (e : exn) (_ : Sys.t K) => is_exception e = true).
Import SetUp.

Lemma new_next fd (s : Sys.t K) :
  wpe (FileDescriptor.new fd) (fun h s' => h = length (Sys.wrappers s) /\ opens s s' /\
    length (Sys.wrappers s') = S (length (Sys.wrappers s))) failing s.
Proof.
  unfold FileDescriptor.new. wp_step. unfold of_outcome, wpe, FDWrapper.new. destruct (_ <? 0); [done |]. simpl.
  split_and!; [done | split; [by eexists | done] | rewrite length_app; simpl; lia].
Qed.

Lemma of_fd_keeps h domain type (s : Sys.t K) : (h < length (Sys.wrappers s))%nat ->
  wpe (Socket.of_fd h domain type) (fun h' s' => h' = h /\ exists k, s' = setf Sys.kernel k s) failing s.
Proof.
  intros [f Hf]%lookup_lt_is_Some. unfold Socket.of_fd. wp_step. eapply FileDescriptor.fd_num_wp; [exact Hf |].
  wp_step. apply FileDescriptor.call_wp. intros k _. destruct (sys_getsockopt _ _ _ _).1 as [r [v l]]. cbv beta iota.
  wp_step. apply system_call_any. intros _. apply wp_if; intros _; [by wp_step |].
  wp_step. apply FileDescriptor.call_wp. intros k2 _. destruct (sys_getsockopt _ _ _ _).1 as [r2 [v2 l2]]. cbv beta iota.
  wp_step. apply system_call_any. intros _. apply wp_if; intros _; wp_step; [done |]. split; [done |]. by exists k2.
Qed.

(** The constructor makes two descriptors, the ends of a pair. *)
Lemma socket_made (a : A) (s : Sys.t K) :
  let n := length (Sys.wrappers s) in
  wpe (TCPSpongeSocket.new a) (fun make s' => opens s s' /\ length (Sys.wrappers s') = S (S n) /\
    forall s2, make s2 = EventLoop.mk [] (TCPSpongeSocket.mk s2 n (S n) a None false false false false)) failing s.
Proof.
  intros n. unfold TCPSpongeSocket.new, TCPSpongeSocket.socket_pair_helper, LocalStreamSocket.of_fd. wp_step. wp_step.
  apply FileDescriptor.call_wp. intros k _. destruct (sys_socketpair _ _ _).1 as [r [fd0 fd1]]. cbv beta iota.
  wp_step. apply system_call_any. intros _. wp_step. eapply wp_mono; [apply new_next |].
  intros h0 s1 (-> & Ho1 & El1). wp_step. eapply wp_mono; [apply new_next |]. intros h1 s2 (-> & Ho2 & El2).
  change (Sys.wrappers (setf Sys.kernel k s)) with (Sys.wrappers s) in *. fold n in El1 |- *. rewrite El1 in *.
  wp_step. cbv beta iota. wp_step.
  eapply wp_mono; [apply of_fd_keeps; lia |]. intros h s3 [-> [k3 ->]].
  wp_step. eapply wp_mono; [apply of_fd_keeps; simpl; lia |]. intros h s4 [-> [k4 ->]].
  destruct (proj2 (lookup_lt_is_Some (Sys.wrappers s2) (S n))) as [f Hf]; [lia |].
  wp_step. eapply FileDescriptor.set_blocking_wp; [exact Hf | | by intros e s' He _; apply ThreadSafety.io_exception].
  intros k'. wp_step. split; [| by split; [simpl; lia |]].
  transitivity (setf Sys.kernel k s); [done |]. transitivity s1; [done |]. by transitivity s2.
Qed.

Lemma udp_made (s : Sys.t K) :
  wpe UDPSocket.new (fun h s' => h = length (Sys.wrappers s) /\ opens s s' /\
    length (Sys.wrappers s') = S (length (Sys.wrappers s))) failing s.
Proof.
  unfold UDPSocket.new, Socket.new. wp_step. apply FileDescriptor.call_wp. intros k _. wp_step.
  apply system_call_any. intros fd. eapply wp_mono; [apply new_next |]. intros h s1 (Eh & Ho & El).
  split; [done |]. split; [by transitivity (setf Sys.kernel k s) | done].
Qed.

(** In server mode the socket is bound; otherwise nothing happens. *)
Lemma bound_wp listen h a (p : Program.t K) :
  is_Some (Sys.wrappers (sys p) !! h) ->
  wpe (when listen (zoom the_sys (Socket.bind h a))) (fun _ p' => exists k, p' = setf sys (setf Sys.kernel k (sys p)) p)
    (fun e _ => is_exception e = true) p.
Proof.
  intros [f Hf]. apply wp_when; intros _; [| exists (Sys.kernel (sys p)); by destruct p as [[] ? ?]].
  wp_step. unfold Socket.bind. wp_step. eapply FileDescriptor.fd_num_wp; [exact Hf |]. wp_step.
  apply FileDescriptor.call_wp. intros k _. wp_step. apply system_call_any. intros _. wp_step. by exists k.
Qed.
End made.

(** ** Opening a connection and copying *)

Section copying.
Context {K A : Type} `{LinuxIO K} `{FdAdapterLaws K A} `{Address.Netdb} `{Owner K}.
Notation P := (Program.t K).
Import TCPSpongeSocket.

Lemma on_socket_wp l m (Q : EventLoop.t (TCPSpongeSocket.t K A) -> P -> Prop) (E : exn -> P -> Prop) (p : P) :
  wpe m (fun _ l' => Q l' (setf Program.sys (sys (EventLoop.world l')) p))
    (fun e l' => E e (setf Program.sys (sys (EventLoop.world l')) p)) (upd EventLoop.world (setf sys (Program.sys p)) l) ->
  wpe (on_socket l m) Q E p.
Proof. unfold wpe, on_socket. by destruct (m _) as [[[]|e] l']. Qed.

(** [sock] sent only what came from [input], and [output] was given only what [sock] received,
    in order and without a gap. *)
Definition copied (sock input output : nat) (start : list io) (p : P) : Prop :=
  exists tr, Sys.trace (Program.sys p) = start ++ tr /\
    FileDescriptor.accepted sock tr `prefix_of` FileDescriptor.delivered input tr /\
    FileDescriptor.accepted output tr `prefix_of` FileDescriptor.delivered sock tr.

Lemma copied_framed td dev own count start sock tr (s : Sys.t K) (p : P) :
  framed td dev own count start sock s -> (td < count)%nat -> (dev < count)%nat -> own <> td -> own <> dev ->
  Sys.trace (Program.sys p) = Sys.trace s ++ tr ->
  FileDescriptor.accepted own tr `prefix_of` FileDescriptor.delivered count tr ->
  FileDescriptor.accepted (S count) tr `prefix_of` FileDescriptor.delivered own tr ->
  copied own count (S count) start p.
Proof.
  intros (_ & _ & tr0 & Etr0 & Hall) Htd Hdev Hotd Hodev Etr Ha Ho. exists (tr0 ++ tr). split; [by rewrite Etr, Etr0, app_assoc |].
  assert (Hs : forall h, h = own \/ (count <= h)%nat -> FileDescriptor.accepted h tr0 = [] /\ FileDescriptor.delivered h tr0 = []).
  { intros h Hh. apply FileDescriptor.silent. eapply Forall_impl; [| exact Hall]. intros e [-> | ->]; lia. }
  rewrite !FileDescriptor.accepted_app, !FileDescriptor.delivered_app.
  destruct (Hs own) as [-> ->]; [by left |]. destruct (Hs count) as [_ ->]; [right; lia |].
  destruct (Hs (S count)) as [-> _]; [right; lia |]. done.
Qed.

Lemma open_and_copy_wp turns l listen c_fsm c_filt random_isn dev td own count start (p : P) :
  fresh td dev own count start (upd EventLoop.world (setf sys (Program.sys p)) l) -> dev <> td -> own <> td -> own <> dev ->
  ConnectionTrace.config_ok c_fsm -> adapter_ok (adapter_set_config c_filt (_datagram_adapter (EventLoop.world l))) ->
  18 * Z.of_nat turns + 5 < 2 ^ 43 -> (18 * Z.of_nat turns + 5) * TCPConfig.recv_capacity c_fsm < 2 ^ 64 ->
  wpe (open_and_copy turns l listen c_fsm c_filt random_isn) (fun _ p' => copied own count (S count) start p')
    (fun e p' => is_exception e = true \/ (e = OutOfFuel /\ copied own count (S count) start p')) p.
Proof.
  intros Hl Hne Hotd Hodev Hcfg Ha He Hb. set (N := 18 * Z.of_nat turns + 2).
  pose proof (fresh_td_fd _ _ _ _ _ _ Hl) as Htd%lookup_lt_is_Some. pose proof (fresh_dev_fd _ _ _ _ _ _ Hl) as Hdev%lookup_lt_is_Some.
  rewrite (fresh_count _ _ _ _ _ _ Hl) in Htd, Hdev. unfold open_and_copy. wp_step. apply on_socket_wp.
  eapply (wp_mono_exn _ (fun _ => serving c_fsm random_isn N td dev own count start 0) _
    (stopped c_fsm random_isn N td dev own count start 0)).
  - destruct listen; [apply (socket_listen_wp c_fsm random_isn N) | apply (socket_connect_wp c_fsm random_isn N)];
      try done; unfold N; lia.
  - intros [] l1 [Hinv _]. pose proof (inv_self _ _ _ _ _ _ _ _ _ _ Hinv) as Hs.
    pose proof (inv_frame _ _ _ _ _ _ _ _ _ _ Hinv) as Hframe. pose proof Hframe as (Eown & Ecount & _).
    set (s1 := sys (EventLoop.world l1)) in *. rewrite Eown in Hs.
    wp_step. unfold on_sys. wp_step. unfold Program.self. rewrite Eown.
    pose proof (copy_faithful turns own s1 Hs) as Hcopy. cbv zeta in Hcopy. rewrite Ecount in Hcopy.
    eapply wp_mono_exn; [exact Hcopy | |].
    + intros [] s2 [(tr & Etr & Hin & Hout) [f Hs2]]. wp_step. apply on_socket_wp. wp_step. unfold wait_until_closed. wp_step. wp_step.
      unfold on_sys. wp_step. wp_step. cbn. rewrite Eown. eapply Socket.shutdown_rdwr_wp; [exact Hs2 | |].
      * intros ws k. wp_step. wp_step.
        assert (Hend : forall p', Sys.trace (Program.sys p') = Sys.trace s2 ++ [Shut own Socket.SHUT_RDWR] ->
          copied own count (S count) start p').
        { intros p' Ep'. eapply (copied_framed _ _ _ _ _ _ (tr ++ [Shut own Socket.SHUT_RDWR])); try done.
          - by rewrite Ep', Etr, <- app_assoc.
          - rewrite FileDescriptor.accepted_app, FileDescriptor.delivered_app. simpl. by rewrite !app_nil_r.
          - rewrite FileDescriptor.accepted_app, FileDescriptor.delivered_app. simpl. by rewrite !app_nil_r. }
        apply wp_when; intros _; repeat wp_step; by apply Hend.
      * intros e s' He'. left. by apply ThreadSafety.io_exception.
    + intros e s2 [He' (tr & Etr & Hin & Hout)].
      destruct He' as [He' | [-> | ->]]; [left; by apply ThreadSafety.io_exception | by left | right; split; [done |]].
      by eapply copied_framed.
  - intros e l' [[He' | He'] | [-> | [-> Hi]]]; [left; by apply ThreadSafety.io_exception | left | by left | right; split; [done |]].
    + unfold TCPReceiver.benign in He'. destruct He' as [-> | ->]; done.
    + eapply (copied_framed _ _ _ _ _ _ []); [by apply (inv_frame _ _ _ _ _ _ _ _ _ _ Hi) | done | done | done | done | | done | done].
      by rewrite app_nil_r.
Qed.
End copying.

Section tcp_udp.
Context {K : Type} `{LinuxIO K} `{Address.Netdb} `{Owner K}.
Notation P := (Program.t K).

Lemma on_console_wp {X} (m : M console X) (Q : X -> P -> Prop) (E : exn -> P -> Prop) (p : P) :
  wpe m (fun x c => Q x (Program.mk (sys p) (cout p ++ [Text (printing.cout c)]) (cerr p ++ [Text (printing.cerr c)])))
    (fun e c => E e (Program.mk (sys p) (cout p ++ [Text (printing.cout c)]) (cerr p ++ [Text (printing.cerr c)]))) no_output ->
  wpe (on_console m) Q E p.
Proof. unfold wpe, on_console, no_output. by destruct (m _) as [[x|e] c]. Qed.

(** The program has printed its usage, and nothing has been opened. *)
Definition printed_usage (usage : string) (argv : list string) (p : P) : Prop :=
  Sys.wrappers (sys p) = [] /\ Sys.trace (sys p) = [] /\ exists text, cout p = [Text text] /\ usage_shown usage argv text.

(** How [main] ends: with the copy done, with the usage when arguments are missing, or with a
    message; and how it may be left off: by [exit] after printing the usage, or still running. *)
Definition ended (usage : string) (argv : list string) (status : Z) (p : P) : Prop :=
  (status = 0 /\ copied 1 3 4 [] p) \/
  (status = 1 /\ (len argv < 3 /\ printed_usage usage argv p \/
    exists e before, is_exception e = true /\ cerr p = before ++ [What "Exception: " e newline])).
Definition left_off (usage : string) (argv : list string) (e : exn) (p : P) : Prop :=
  (e = Program_exit 0 \/ e = Program_exit 1) /\ printed_usage usage argv p \/ (e = OutOfFuel /\ copied 1 3 4 [] p).

(** What was written to the device before makes no difference. *)
Lemma copied_start start (p : P) : Forall (fun e => io_handle e = 0%nat) start -> copied 1 3 4 start p -> copied 1 3 4 [] p.
Proof.
  intros Hs (tr & Etr & Ha & Ho). exists (start ++ tr). split; [done |].
  assert (Hq : forall h, h <> 0%nat -> FileDescriptor.accepted h start = [] /\ FileDescriptor.delivered h start = []).
  { intros h Hh. apply FileDescriptor.silent. eapply Forall_impl; [| exact Hs]. intros e ->. congruence. }
  rewrite !FileDescriptor.accepted_app, !FileDescriptor.delivered_app.
  destruct (Hq 1%nat) as [-> ->]; [done |]. destruct (Hq 3%nat) as [_ ->]; [done |]. by destruct (Hq 4%nat) as [-> _].
Qed.

(** The end of the mains: the adapter [a] has the only descriptor there is, 0. *)
Lemma relay_wp {A} `{FdAdapterLaws K A} usage argv turns (a : A) listen c_fsm c_filt random_isn (p : P) :
  length (Sys.wrappers (sys p)) = 1%nat -> Forall (fun e => io_handle e = 0%nat) (Sys.trace (sys p)) -> adapter_fd a = 0%nat ->
  adapter_ok (adapter_set_config c_filt a) -> ConnectionTrace.config_ok c_fsm ->
  18 * Z.of_nat turns + 5 < 2 ^ 43 -> (18 * Z.of_nat turns + 5) * TCPConfig.recv_capacity c_fsm < 2 ^ 64 ->
  wpe (let* make := on_sys (TCPSpongeSocket.new a) in
       let* s := asks sys in
       open_and_copy turns (make s) listen c_fsm c_filt random_isn ;;
       pure 0)
    (ended usage argv) (fun e p' => is_exception e = true \/ left_off usage argv e p') p.
Proof.
  intros El Hstart Hfd Hok Hcfg Hturns Hcap. unfold on_sys. wp_step. wp_step. eapply wp_mono_exn; [apply socket_made | | by left].
  intros make s2 ([[ws Ews] Et2] & El2 & Emake). wp_step. wp_step. wp_step.
  change (Sys.wrappers (the_sys p)) with (Sys.wrappers (sys p)) in *. rewrite El in El2. setoid_rewrite El in Emake.
  eapply wp_mono_exn; [eapply (open_and_copy_wp turns _ listen c_fsm c_filt random_isn 0 2 1 3 (Sys.trace (sys p))) | |];
    [| done | done | done | exact Hcfg | rewrite Emake; exact Hok | done | exact Hcap | |].
  - rewrite Emake. split; try done; apply lookup_lt_is_Some; simpl in *; lia.
  - intros [] p3 Hrel. wp_step. left. split; [done |]. by eapply copied_start.
  - intros e p3 [He | [-> He]]; [by left | right; right]. split; [done |]. by eapply copied_start.
Qed.

(** The options set up a connection that can work: the window is not empty (nor so large that
    the counters of the run wrap), and no loss rate is out of range. *)
Definition workable (turns : nat) (c_fsm : TCPConfig.t) : Prop :=
  ConnectionTrace.config_ok c_fsm /\ (18 * Z.of_nat turns + 5) * TCPConfig.recv_capacity c_fsm < 2 ^ 64.
Definition usable (turns : nat) (o : outcome (TCPConfig.t * FdAdapterConfig.t * bool)) : Prop :=
  match o with
  | Ok (c_fsm, _, _) => workable turns c_fsm
  | Throw e => e <> UndefinedBehavior
  end.

Lemma report_wp usage argv m (p : P) :
  wpe m (ended usage argv) (fun e p' => is_exception e = true \/ left_off usage argv e p') p ->
  wpe (report "Exception: " newline m) (ended usage argv) (left_off usage argv) p.
Proof.
  intros Hm. apply wp_try_catch. eapply wp_mono_exn; [exact Hm | done |]. intros e p' He.
  destruct (is_exception e) eqn:Ee; [| destruct He as [He | He]; [by rewrite Ee in He | exact He]].
  unfold warn. wp_step. wp_step. right. split; [done |]. right. exists e, (cerr p'). done.
Qed.

(** What [get_config] may throw is an exception, the end of the program, or undefined. *)
Lemma stops_cases usage argv e c : stops usage argv e c ->
  is_exception e = true \/ e = UndefinedBehavior \/ (e = Program_exit 0 \/ e = Program_exit 1) /\ usage_shown usage argv (printing.cout c).
Proof.
  intros [[He | [v Ev]] | [(host & service & Ea) | [[a Ea] | Ea]]]; auto.
  - right. left. revert Ev. unfold loss_rate, float_to_uint16. destruct (SpecFloat.SFmul _ _ _ _) as [| | |neg m x]; try (by intros [= <-]).
    destruct neg; [destruct (_ =? 0) | destruct (_ <=? _)]; by intros [= <-].
  - left. by eapply SetUp.of_node_exception.
  - left. apply ThreadSafety.io_exception. pose proof (port_result a) as Hp. by rewrite Ea in Hp.
  - left. apply SetUp.base_new_exception. unfold FdAdapterBase.new. by rewrite Ea.
Qed.

(** The parsers: what they return is usable, and what they throw ends the program in order. *)
Definition in_order (usage : string) (argv : list string) (e : exn) (c : console) : Prop :=
  is_exception e = true \/ (e = Program_exit 0 \/ e = Program_exit 1) /\ usage_shown usage argv (printing.cout c).

Lemma parsed_wp {X} usage argv (m : M console X) (ok : outcome X -> Prop) :
  (forall e, ok (Throw e) -> e <> UndefinedBehavior) -> wpe m (fun _ _ => True) (stops usage argv) no_output -> ok (fst (m no_output)) ->
  wpe m (fun r _ => ok (Ok r)) (in_order usage argv) no_output.
Proof.
  intros Hok Hsafe Hm. unfold wpe in *. destruct (m no_output) as [[r|e] c]; [done |].
  destruct (stops_cases usage argv e c Hsafe) as [? | [? | ?]]; [by left | by apply Hok in Hm | by right].
Qed.

(** The parser of a program's arguments, which runs first. *)
Lemma parser_wp {X} usage argv (m : M console X) (ok : outcome X -> Prop) (Q : X -> P -> Prop) (k : K) :
  (forall e, ok (Throw e) -> e <> UndefinedBehavior) -> wpe m (fun _ _ => True) (stops usage argv) no_output -> ok (fst (m no_output)) ->
  (forall r c, ok (Ok r) -> Q r (Program.mk (Sys.mk [] k []) [Text (printing.cout c)] [Text (printing.cerr c)])) ->
  wpe (on_console m) Q (fun e p' => is_exception e = true \/ left_off usage argv e p') (Program.mk (Sys.mk [] k []) [] []).
Proof.
  intros Hok Hsafe Hm HQ. apply on_console_wp. eapply wp_mono_exn; [by apply (parsed_wp usage argv m ok) | |].
  - intros r c Hr. by apply HQ.
  - intros e c [He | [He Hu]]; [by left | right; left]. split; [done |]. split; [done |]. split; [done |]. by eexists.
Qed.

(** The usage is printed. *)
Lemma missing_wp usage argv (Q : unit -> P -> Prop) E (k : K) : argv <> [] -> (forall p', printed_usage usage argv p' -> Q tt p') ->
  wpe (missing_arguments usage argv) Q E (Program.mk (Sys.mk [] k []) [] []).
Proof.
  intros Hne HQ. unfold missing_arguments. apply on_console_wp. destruct (argument_0 argv Hne) as (a0 & rest & Ea & E0). wp_step.
  eapply wp_eq; [apply E0 |]. apply (usage_shown_wp _ _ rest). intros c Hc. apply HQ. rewrite Ea. split; [done |]. split; [done |]. by eexists.
Qed.

(** A TUN or TAP device is one new descriptor. *)
Lemma tuntap_made name is_tun (s : Sys.t K) :
  wpe (TunTapFD.new name is_tun) (fun h s' => h = length (Sys.wrappers s) /\ SetUp.opens s s' /\
    length (Sys.wrappers s') = S (length (Sys.wrappers s))) (fun e _ => is_exception e = true) s.
Proof.
  unfold TunTapFD.new. wp_step. apply FileDescriptor.call_wp. intros k1 _. wp_step. apply SetUp.system_call_any. intros fd.
  wp_step. eapply wp_mono; [apply new_next |]. intros h s1 (-> & Ho & El). change (Sys.wrappers (setf Sys.kernel k1 s)) with (Sys.wrappers s) in *.
  destruct (proj2 (lookup_lt_is_Some (Sys.wrappers s1) (length (Sys.wrappers s)))) as [f Hf]; [lia |].
  wp_step. eapply FileDescriptor.fd_num_wp; [exact Hf |]. wp_step. apply FileDescriptor.call_wp. intros k2 _.
  wp_step. apply SetUp.system_call_any. intros _. wp_step. split; [done |]. split; [| done].
  transitivity (setf Sys.kernel k1 s); [done |]. by transitivity s1.
Qed.

Lemma udp_relays {G} `{Rng G} turns (rand : G) random_isn argv (k : K) :
  argv <> [] -> 18 * Z.of_nat turns + 5 < 2 ^ 43 -> (3 <= len argv -> usable turns (fst (TcpUdp.get_config argv no_output))) ->
  wpe (tcp_udp_main turns rand random_isn argv) (ended TcpUdp.usage argv) (left_off TcpUdp.usage argv) (Program.mk (Sys.mk [] k []) [] []).
Proof.
  intros Hne Hturns Husable. unfold tcp_udp_main. apply report_wp. apply wp_if; intros C.
  - wp_step. apply missing_wp; [done |]. intros p' Hp'. wp_step. right. left. auto.
  - apply Z.ltb_ge in C. wp_step. apply (parser_wp _ _ _ (usable turns)); [done | by apply (options_safe 0) | auto |].
    intros [[c_fsm c_filt] listen] c [Hcfg Hcap]. cbv beta iota. set (p1 := Program.mk _ _ _).
    unfold on_sys. wp_step. wp_step. eapply wp_mono_exn; [apply udp_made | | by left]. intros h s1 (-> & Ho1 & El1).
    change (length (Sys.wrappers (the_sys p1))) with O in *. wp_step. eapply wp_mono_exn; [apply bound_wp; [apply lookup_lt_is_Some; change (0 < length (Sys.wrappers s1))%nat; lia] | | by left].
    intros [] p2 [k2 ->]. wp_step. apply wp_outcome. unfold TCPOverUDPSocketAdapter.new.
    destruct FdAdapterBase.new as [b|e] eqn:Eb; [| left; by eapply SetUp.base_new_exception]. cbn [mbind outcome_bind].
    apply relay_wp; try done. destruct Ho1 as [_ Et1]. change (Sys.trace (sys (setf sys _ _))) with (Sys.trace s1). by rewrite Et1.
Qed.

(** The two ends of an IPv4 connection *)
Definition inet_ends (c : FdAdapterConfig.t) : Prop :=
  exists sip sport dip dport, Address.inet (FdAdapterConfig.source c) sip sport /\ Address.inet (FdAdapterConfig.destination c) dip dport.

Definition usable_tun (turns : nat) (o : outcome (TCPConfig.t * FdAdapterConfig.t * bool * option string)) : Prop :=
  match o with
  | Ok (c_fsm, c_filt, _, _) => workable turns c_fsm /\ inet_ends c_filt
  | Throw e => e <> UndefinedBehavior
  end.
Definition usable_tap (turns : nat) (o : outcome (TCPConfig.t * FdAdapterConfig.t * Address.t * string)) : Prop :=
  match o with
  | Ok (c_fsm, c_filt, next_hop, _) =>
      workable turns c_fsm /\ inet_ends c_filt /\ exists ip, Address.ipv4_numeric next_hop = Ok ip
  | Throw e => e <> UndefinedBehavior
  end.
End tcp_udp.

Section tcp_ip.
Context {K : Type} `{LinuxIO K} `{!Address.Netdb, !Address.NetdbNumeric} `{Owner K}.
Notation P := (Program.t K).

Lemma ipv4_relays {G} `{Rng G} turns (rand : G) random random_isn argv (k : K) :
  argv <> [] -> 18 * Z.of_nat turns + 5 < 2 ^ 43 ->
  (3 <= len argv -> usable_tun turns (fst (TcpIpv4.get_config random argv no_output))) ->
  wpe (tcp_ipv4_main turns rand random random_isn argv) (ended TcpIpv4.usage argv) (left_off TcpIpv4.usage argv) (Program.mk (Sys.mk [] k []) [] []).
Proof.
  intros Hne Hturns Husable. unfold tcp_ipv4_main. apply report_wp. apply wp_if; intros C.
  - apply Z.ltb_lt in C. wp_step. apply missing_wp; [done |]. intros p' Hp'. wp_step. right. split; [done | by left].
  - apply Z.ltb_ge in C. wp_step. apply (parser_wp _ _ _ (usable_tun turns)); [done | by apply (options_safe random) | auto |].
    intros [[[c_fsm c_filt] listen] name] c [[Hcfg Hcap] (sip & sport & dip & dport & Hs & Hd)]. cbv beta iota. set (p1 := Program.mk _ _ _).
    unfold on_sys. wp_step. wp_step. unfold TunFD.new. eapply wp_mono_exn; [apply tuntap_made | | by left]. intros h s1 (-> & Ho1 & El1).
    change (length (Sys.wrappers (the_sys p1))) with O in *. wp_step. apply wp_outcome. unfold TCPOverIPv4OverTunFdAdapter.new.
    destruct FdAdapterBase.new as [b|e] eqn:Eb; [| left; by eapply SetUp.base_new_exception]. cbn [mbind outcome_bind].
    apply relay_wp; try done.
    + destruct Ho1 as [_ Et1]. change (Sys.trace (sys (setf the_sys _ _))) with (Sys.trace s1). by rewrite Et1.
    + exists sip, sport, dip, dport. by split.
Qed.

(** The Ethernet adapter writes an empty frame to its device. *)
Lemma ethernet_made tap f mac ip next_hop (s : Sys.t K) : FileDescriptor.at_fd s tap f ->
  wpe (TCPOverIPv4OverEthernetAdapter.new tap mac ip next_hop)
    (fun a s' => length (Sys.wrappers s') = length (Sys.wrappers s) /\
       (exists tr, Sys.trace s' = Sys.trace s ++ tr /\ Forall (fun e => io_handle e = tap) tr) /\
       exists b, a = TCPOverIPv4OverEthernetAdapter.mk b tap (NetworkInterface.new mac ip) next_hop)
    (fun e _ => is_exception e = true) s.
Proof.
  intros Hf. unfold TCPOverIPv4OverEthernetAdapter.new. wp_step. apply wp_outcome.
  destruct FdAdapterBase.new as [b|e] eqn:Eb; [| by eapply SetUp.base_new_exception].
  assert (El : len (mjoin (BufferViewList.of_BufferList (EthernetFrame.serialize EthernetFrame.default))) = 14) by (vm_compute; reflexivity).
  wp_step. unfold FileDescriptor.write. eapply FileDescriptor.write_loop_wp; [exact Hf | rewrite El; lia | done | rewrite El; lia | lia | |].
  - intros n c k tr _ _ _ (d & -> & _) _. wp_step. split; [simpl; by rewrite length_insert |]. split; [| by exists b].
    eexists. split; [done |]. by apply Forall_fmap, Forall_forall.
  - intros e s' tr He _ _. by apply ThreadSafety.io_exception.
Qed.

Lemma private_address_wf r0 r1 r2 r3 r4 r5 : address_wf (random_private_ethernet_address r0 r1 r2 r3 r4 r5).
Proof.
  split; [done |]. unfold random_private_ethernet_address. rewrite !list.Forall_cons. split_and!; try apply u8_range; [| done].
  change 254 with (Z.land 254 (Z.ones 8)). rewrite Z.land_assoc, Z.land_ones by done. apply u8_range.
Qed.

Lemma ethernet_relays turns r0 r1 r2 r3 r4 r5 random random_isn argv (k : K) :
  argv <> [] -> 18 * Z.of_nat turns + 5 < 2 ^ 43 ->
  (3 <= len argv -> usable_tap turns (fst (TcpIpEthernet.get_config random argv no_output))) ->
  wpe (tcp_ip_ethernet_main turns r0 r1 r2 r3 r4 r5 random random_isn argv) (ended TcpIpEthernet.usage argv) (left_off TcpIpEthernet.usage argv) (Program.mk (Sys.mk [] k []) [] []).
Proof.
  intros Hne Hturns Husable. unfold tcp_ip_ethernet_main. apply report_wp. apply wp_if; intros C.
  - apply Z.ltb_lt in C. wp_step. apply missing_wp; [done |]. intros p' Hp'. wp_step. right. split; [done | by left].
  - apply Z.ltb_ge in C. cbv zeta. wp_step. apply (parser_wp _ _ _ (usable_tap turns)); [done | by apply (options_safe random) | auto |].
    intros [[[c_fsm c_filt] next_hop] name] c [[Hcfg Hcap] [(sip & sport & dip & dport & Hs & Hd) Hhop]]. cbv beta iota. set (p1 := Program.mk _ _ _).
    unfold on_sys at 1. wp_step. wp_step. wp_step. unfold TapFD.new. eapply wp_mono_exn; [apply tuntap_made | | by left]. intros h s1 (-> & [_ Et1] & El1).
    change (length (Sys.wrappers (the_sys p1))) with O in *. change (Sys.trace (the_sys p1)) with (@nil io) in *.
    destruct (proj2 (lookup_lt_is_Some (Sys.wrappers s1) 0)) as [f Hf]; [lia |].
    eapply wp_mono_exn; [by apply (ethernet_made 0 f) | | by left]. intros a s2 (El2 & (tr & Etr & Htr) & b & ->).
    apply relay_wp; try done.
    + change (length (Sys.wrappers s2) = 1%nat). lia.
    + change (Forall (fun e => io_handle e = 0%nat) (Sys.trace s2)). by rewrite Etr, Et1.
    + split; [by exists sip, sport, dip, dport | | apply fits_new | done].
      apply (NetworkInterface.new_wf _ sip); [apply private_address_wf | by eapply Address.inet_numeric].
Qed.
End tcp_ip.


(** ** apps/tun *)

Section tun.
Context {K : Type} `{Kernel K}.
Notation P := (Program.t K).
Import TunDump.

Lemma out_wp s (Q : unit -> P -> Prop) E (p : P) : (forall o, Q tt (setf cout o p)) -> wpe (out s) Q E p.
Proof. intros HQ. unfold out, print. wp_step. apply HQ. Qed.

(** Any packet can be shown. *)
Lemma dump_packet_wp buffer (p : P) : len buffer <= FileDescriptor.BUFFER_SIZE ->
  wpe (dump_packet buffer) (fun _ p' => sys p' = sys p) (fun _ _ => False) p.
Proof.
  intros Hlen. unfold FileDescriptor.BUFFER_SIZE in Hlen. unfold dump_packet. wp_step. apply out_wp. intros o1.
  destruct (Hexdump.hexdump_total buffer 0) as [text Et]; [lia |]. wp_step. eapply wp_of_outcome; [exact Et |].
  wp_step. apply out_wp. intros o2. wp_step. apply out_wp. intros o3.
  destruct (IPv4Datagram.parse_fresh_buffer (Buffer.of_string buffer)) as (r & d & b & Ed & Eb & Hb & _);
    [apply Buffer.wf_of_string; lia |].
  wp_step. eapply wp_of_outcome; [exact Ed |]. cbv beta iota. apply wp_if; intros _; [by apply out_wp |].
  wp_step. apply out_wp. intros o4. wp_step. apply out_wp. intros o5. apply wp_if; intros _; [by apply out_wp |].
  wp_step. apply out_wp. intros o6. wp_step. unfold IPv4Datagram.payload. rewrite Eb. eapply wp_of_outcome; [done |].
  destruct (TCPSegment.segment_parse_total b (IPv4Header.pseudo_cksum (IPv4Datagram.header d)) TCPSegment.default)
    as (r' & seg & Es & _); [done | apply TCPOverIPv4Adapter.pseudo_cksum_range |].
  wp_step. eapply wp_of_outcome; [exact Es |]. cbv beta iota. apply wp_if; intros _; [by apply out_wp |].
  wp_step. apply out_wp. intros o7. by apply out_wp.
Qed.

Lemma dump_loop_wp turns tun : forall p : P, is_Some (Sys.wrappers (sys p) !! tun) ->
  wpe (dump_loop turns tun) (fun _ _ => False)
    (fun e p' => is_exception e = true \/ (e = OutOfFuel /\ exists packets, length packets = turns /\
       Sys.trace (sys p') = Sys.trace (sys p) ++ (Got tun <$> packets))) p.
Proof.
  induction turns as [|turns IH]; intros p [f Hf]; cbn [dump_loop].
  - wp_step. right. split; [done |]. exists []. by rewrite app_nil_r.
  - wp_step. unfold on_sys. wp_step. eapply FileDescriptor.fd_read_wp; [exact Hf | done | |].
    2:{ intros e s' He _. left. by apply ThreadSafety.io_exception. }
    intros data k Hlen. set (s' := Sys.mk _ k _). wp_step.
    eapply wp_mono_exn; [apply dump_packet_wp; lia | | done]. intros [] p' Ep'.
    eapply wp_mono_exn; [apply IH | done |].
    + rewrite Ep'. eexists. by apply (FileDescriptor.at_fd_step _ f).
    + intros e p2 [He | (-> & packets & El & Et)]; [by left | right]. split; [done |]. exists (data :: packets).
      split; [simpl; lia |]. rewrite Et, Ep'. simpl. by rewrite <- app_assoc.
Qed.

(** The program shows every packet the device delivers, whatever is in it: it only ends, with
    status 1, when the system reports an error. *)
Lemma tun_survives turns (k : K) :
  wpe (TunDump.main turns) (fun status _ => status = 1)
    (fun e p' => e = OutOfFuel /\ exists packets, length packets = turns /\ Sys.trace (sys p') = Got 0 <$> packets)
    (Program.mk (Sys.mk [] k []) [] []).
Proof.
  unfold TunDump.main. apply wp_try_catch.
  apply wp_mono_exn with (P := fun _ _ => False) (E := fun e p' => is_exception e = true \/
    (e = OutOfFuel /\ exists packets, length packets = turns /\ Sys.trace (sys p') = Got 0 <$> packets)); [| done |].
  - wp_step. unfold on_sys, TunFD.new, TunTapFD.new. wp_step. wp_step. apply FileDescriptor.call_wp. intros k1 _.
    wp_step. apply FileDescriptor.system_call_wp; [intros _ | by left].
    wp_step. eapply wp_mono_exn; [apply new_next | | by left]. intros h s1 (-> & Ho & El).
    destruct (proj2 (lookup_lt_is_Some (Sys.wrappers s1) 0)) as [f Hf]; [simpl in El; lia |].
    wp_step. eapply FileDescriptor.fd_num_wp; [exact Hf |]. wp_step. apply FileDescriptor.call_wp. intros k2 _.
    wp_step. apply FileDescriptor.system_call_wp; [intros _ | by left]. wp_step.
    eapply wp_mono_exn; [apply dump_loop_wp; by exists f | done |].
    intros e p' [He | (-> & packets & El' & Et)]; [by left | right]. split; [done |]. exists packets. split; [done |].
    rewrite Et. simpl. destruct Ho as [_ ->]. done.
  - intros e p' [He | [-> Hp]]; [rewrite He | done]. unfold print. wp_step. by wp_step.
Qed.
End tun.

(** ** A window of no bytes

    [-w] takes any text for a number: without a digit it is zero, and the reassembler then
    takes a remainder by zero at the first segment. *)
Section no_window.
Local Existing Instance Address.numeric_netdb.

Definition no_window_argv : list string := ["tcp_udp"; "-w"; "many"; "10.0.0.1"; "80"].
Definition any_syn : TCPSegment.t :=
  TCPSegment.mk (setf TCPHeader.syn true TCPHeader.default) (Buffer.of_string []).

Lemma zero_window_crashes :
  match fst (TcpUdp.get_config no_window_argv no_output) with
  | Ok (c_fsm, _, _) => fst (TCPReceiver.segment_received any_syn (TCPReceiver.new (TCPConfig.recv_capacity c_fsm))) = Throw UndefinedBehavior
  | Throw _ => False
  end.
Proof. vm_compute. reflexivity. Qed.
End no_window.

(** ** Witnesses *)

Section witnesses.
Local Existing Instance Address.numeric_netdb.
Local Existing Instance Address.numeric_netdb_numeric.
#[local] Instance still_running : Owner Script.t := fun _ => false.
#[local] Instance zero_rng : Rng Z := fun g => (0, g).

(** A client whose peer does not answer. *)
Definition client_argv : list string := ["tcp_udp"; "-w"; "16"; "10.0.0.1"; "80"].
Definition client_start : Program.t Script.t := Program.mk (Sys.mk [] (Script.mk [] 1000 [] [] 0) []) [] [].
Local Notation client_run := (tcp_udp_main 2 0 7 client_argv client_start).

Lemma client_waits : fst client_run = Throw OutOfFuel.
Proof. vm_compute. reflexivity. Qed.

Lemma client_usable : usable 2 (fst (TcpUdp.get_config client_argv no_output)).
Proof.
  assert (E : match fst (TcpUdp.get_config client_argv no_output) with Ok (c, _, _) => c = setf TCPConfig.recv_capacity 16 TCPConfig.default | Throw _ => False end)
    by (vm_compute; reflexivity).
  unfold usable. destruct (fst _) as [[[c ?] ?]|?]; [subst c | done]. split; [| vm_compute; reflexivity].
  by split.
Qed.

(** The same over a TUN device *)
Local Notation tun_run := (tcp_ipv4_main 2 0 5 7 client_argv client_start).
Lemma tun_client_waits : fst tun_run = Throw OutOfFuel.
Proof. vm_compute. reflexivity. Qed.

Lemma sixteen_workable c : c = setf TCPConfig.recv_capacity 16 TCPConfig.default -> workable 2 c.
Proof. intros ->. split; [by split | vm_compute; reflexivity]. Qed.

Lemma client_usable_tun : usable_tun 2 (fst (TcpIpv4.get_config 5 client_argv no_output)).
Proof.
  assert (E : match fst (TcpIpv4.get_config 5 client_argv no_output) with
    | Ok (c, f, _, _) => c = setf TCPConfig.recv_capacity 16 TCPConfig.default /\
        FdAdapterConfig.source f = sample_address 0xa9fe9009 5 /\ FdAdapterConfig.destination f = sample_address 0x0a000001 80
    | Throw _ => False
    end) by (vm_compute; auto).
  unfold usable_tun. destruct (fst _) as [[[[c f] ?] ?]|?]; [destruct E as (Ec & Es & Ed) | done]. split; [by apply sixteen_workable |].
  unfold inet_ends. rewrite Es, Ed. exists 0xa9fe9009, 5, 0x0a000001, 80. split; (split; [done | done | done | by eexists]).
Qed.

End witnesses.
